(** * Mini-minecraft: terrain generation, chunk streaming and player physics

    A shallow embedding of the terrain generators ([Chunk],
    [VolumetricTerrain], [VolumetricChunk]) and of the animation driver
    ([MinecraftAnimation]) together with the properties stated about them.

    Conventions of the embedding.
    - A JavaScript [number] is an exact rational ([Q]); rounding of the
      IEEE doubles is not modelled.  [Math.floor] is [Qfloor] and yields
      an integer ([Z]).
    - An array is a [list]; an index read is stdpp's lookup.  A read that
      JavaScript answers with [undefined] (and the [TypeError] or [NaN]
      that follows from using it) is the [None] outcome of a function
      returning [option].
    - A [for (let i = 0; i < n; i++)] loop that fills a fresh array cell by
      cell is [tabulate]; a loop that threads mutable state is [for_loop].
    - [Math.random()] is an ambient stream of numbers, passed explicitly
      together with the position of the next draw. *)

From Stdlib Require Import ZArith QArith Qround Qminmax Qabs Lia Lra Psatz List Bool String Ascii.
From stdpp Require Import base option list gmap strings pretty.

Local Open Scope Z_scope.
#[local] Set Warnings "-clear-no-such-hyp".

(** ** Arrays and loops *)

Definition tabulate {A : Type} (n : nat) (f : nat → A) : list A :=
  f <$> seq 0 n.

(** [a[i]] for a JavaScript index [i] that may be negative. *)
Definition item {A : Type} (a : list A) (i : Z) : option A :=
  if 0 <=? i then a !! Z.to_nat i else None.

(** [a[i][j]]: [None] when the row or the element is missing. *)
Definition item2 {A : Type} (a : list (list A)) (i j : Z) : option A :=
  row ← item a i; item row j.

(** [a[i][j][k]]. *)
Definition item3 {A : Type} (a : list (list (list A))) (i j k : Z) : option A :=
  plane ← item a i; row ← item plane j; item row k.

(** [for (let i = 0; i < n; i++) s = body(i, s)], where the body may fail. *)
Definition for_loop {St : Type} (n : nat) (body : nat → St → option St)
    (s : St) : option St :=
  fold_left (λ acc i, s ← acc; body i s) (seq 0 n) (Some s).

(** [for (const a of l) s = body(a, s)]. *)
Definition for_each {St A : Type} (l : list A) (body : A → St → option St)
    (s : St) : option St :=
  fold_left (λ acc a, s ← acc; body a s) l (Some s).

(** A [for] loop whose body computes the value of one fresh cell. *)
Definition tabulateM {A : Type} (n : nat) (f : nat → option A) : option (list A) :=
  mapM f (seq 0 n).

(** [g.map(row => row.map(f))] and its three-dimensional form. *)
Definition map2D {A B : Type} (f : A → B) (g : list (list A)) : list (list B) :=
  fmap (M := list) (fmap (M := list) f) g.
Definition map3D {A B : Type} (f : A → B) (g : list (list (list A)))
  : list (list (list B)) :=
  fmap (M := list) (map2D f) g.

(** [a[i][j][k] = v] on an array that has the cell. *)
Definition store3 {A : Type} (a : list (list (list A))) (i j k : nat) (v : A)
  : list (list (list A)) :=
  alter (alter (λ row, <[k := v]> row) j) i a.

(** ** Numbers *)

Definition Qz (n : Z) : Q := inject_Z n.
Definition Qn (n : nat) : Q := inject_Z (Z.of_nat n).

(** [a < b] and [a <= b] as tests. *)
Definition Qltb (a b : Q) : bool :=
  match (a ?= b)%Q with Lt => true | _ => false end.
Definition Qleb (a b : Q) : bool :=
  match (a ?= b)%Q with Gt => false | _ => true end.

(** An integer stored in a [number]. *)
Definition is_integer (q : Q) : Prop := ∃ n : Z, q = inject_Z n.

(** ** Seeded generators

    A seeded generator is a state and a [next] operation that returns a
    number and the following state.  [draws], [drawRows] and [drawPlanes]
    are the nested loops that fill a noise grid, one call per cell. *)

Section Draws.
Context {St : Type} (next : St → Q * St).

Fixpoint draws (n : nat) (state : St) : list Q * St :=
  match n with
  | O => ([], state)
  | S n' =>
      let '(v, state) := next state in
      let '(vs, state) := draws n' state in
      (v :: vs, state)
  end.

Fixpoint drawRows (rows n : nat) (state : St) : list (list Q) * St :=
  match rows with
  | O => ([], state)
  | S rows' =>
      let '(r, state) := draws n state in
      let '(rs, state) := drawRows rows' n state in
      (r :: rs, state)
  end.

Fixpoint drawPlanes (planes n : nat) (state : St) : list (list (list Q)) * St :=
  match planes with
  | O => ([], state)
  | S planes' =>
      let '(p, state) := drawRows n n state in
      let '(ps, state) := drawPlanes planes' n state in
      (p :: ps, state)
  end.
End Draws.

(** ** Block types ([VolumetricTerrain.ts], [enum BlockType]) *)

Inductive BlockType : Set :=
  | AIR | GRASS | STONE | WATER | SNOW | WOOD | LEAVES | DIRT | SAND
  | COAL | IRON | GOLD | DIAMOND | LAVA.

#[global] Instance BlockType_eq_dec : EqDecision BlockType.
Proof. solve_decision. Defined.

(** The numeric value of each enumerator. *)
Definition BlockType_value (b : BlockType) : Z :=
  match b with
  | AIR => -1 | GRASS => 0 | STONE => 1 | WATER => 2 | SNOW => 3 | WOOD => 4
  | LEAVES => 5 | DIRT => 6 | SAND => 7 | COAL => 8 | IRON => 9 | GOLD => 10
  | DIAMOND => 11 | LAVA => 12
  end.

(** A cell of [blockData : (BlockType | null)[][][]]; [None] is [null]. *)
Definition cell : Type := option BlockType.

(** ** The height-field chunk ([Chunk]) *)

Module Chunk.

(** The render buffers ([cubes], [cubePositionsF32], [blockTypesF32]) are
    filled from [heights] by [generateCubes] and read by the renderer
    only; they are left out of the record. *)
Record t : Type := mk {
  x : Z;                       (* centerX *)
  z : Z;                       (* centerZ *)
  size : nat;
  heights : list (list Q);
  seed : string
}.

Definition lerp (a b t : Q) : Q := (a + t * (b - a))%Q.

Definition bilinearInterpolation (grid : list (list Q)) (x z : Q) : option Q :=
  let x1 := Qfloor x in
  let x2 := Z.min (x1 + 1) (Z.of_nat (length grid) - 1) in
  let z1 := Qfloor z in
  row0 ← grid !! 0%nat;
  let z2 := Z.min (z1 + 1) (Z.of_nat (length row0) - 1) in
  let fx := (x - Qz x1)%Q in
  let fz := (z - Qz z1)%Q in
  c11 ← item2 grid x1 z1;
  c21 ← item2 grid x2 z1;
  c12 ← item2 grid x1 z2;
  c22 ← item2 grid x2 z2;
  let i1 := lerp c11 c21 fx in
  let i2 := lerp c12 c22 fx in
  Some (lerp i1 i2 fz).

Definition getBlockType (height : Q) (x z : Q) : Z :=
  if Qltb 80 height then 3
  else if Qltb 60 height then 1
  else if Qltb height 30 then 2
  else 0.

Section Generator.
(** [Rand] comes from [lib/rand-seed], which is not among the sources:
    a generator seeded by a string, whose [next()] returns a number. *)
Context {RandState : Type}.
Variable Rand : string → RandState.
Variable next : RandState → Q * RandState.

Definition generateWhiteNoiseGrid (seed : string) (size : nat)
    (octaveOffset : nat) : list (list Q) :=
  let seedWithOctave := seed +:+ "-" +:+ pretty octaveOffset in
  (drawRows next size size (Rand seedWithOctave)).1.

Definition generateHeightMap (size : nat) (seed : string)
  : option (list (list Q)) :=
  let octaves := 3%nat in
  let persistence : Q := 0.5%Q in
  let baseScale : Q := 4%Q in
  heights ← for_loop octaves (λ octave heights,
    let scale := (baseScale * 2 ^ Z.of_nat octave)%Q in
    let amplitude := (persistence ^ Z.of_nat octave)%Q in
    let gridSize := Qfloor (Qn size / scale) in
    let noiseGrid := generateWhiteNoiseGrid seed (Z.to_nat gridSize) octave in
    tabulateM size (λ i, tabulateM size (λ j,
      let x := (Qn i / Qn size * (Qz gridSize - 1))%Q in
      let z := (Qn j / Qn size * (Qz gridSize - 1))%Q in
      value ← bilinearInterpolation noiseGrid x z;
      old ← item2 heights (Z.of_nat i) (Z.of_nat j);
      Some (old + value * amplitude * 20)%Q)))
    (replicate size (replicate size 0%Q));
  Some (map2D (λ h, Qmin 100 (Qmax 0 (Qz (Qfloor (h + 40))))) heights).

(** [new Chunk(centerX, centerZ, size)].  The constructor has no
    [try]: a failure of the generator is a failure of [new]. *)
Definition new (centerX centerZ : Z) (size : nat) : option t :=
  let seed := pretty centerX +:+ "," +:+ pretty centerZ in
  heights ← generateHeightMap size seed;
  Some (mk centerX centerZ size heights seed).
End Generator.

(** [this.x - this.size / 2], the corner the local coordinates start at. *)
Definition originX (c : t) : Q := (Qz (x c) - Qn (size c) / 2)%Q.
Definition originZ (c : t) : Q := (Qz (z c) - Qn (size c) / 2)%Q.

Definition getHeightAt (c : t) (worldX worldZ : Q) : option Q :=
  let localX := Qfloor (worldX - (Qz (x c) - Qn (size c) / 2)) in
  let localZ := Qfloor (worldZ - (Qz (z c) - Qn (size c) / 2)) in
  if (0 <=? localX) && (localX <? Z.of_nat (size c)) &&
     (0 <=? localZ) && (localZ <? Z.of_nat (size c))
  then item2 (heights c) localZ localX
  else Some (-1)%Q.

Definition getCenterX (c : t) : Z := x c.
Definition getCenterZ (c : t) : Z := z c.
Definition getSize (c : t) : nat := size c.

End Chunk.

(** ** 32-bit integer arithmetic of JavaScript's bitwise operators *)

Definition toInt32 (n : Z) : Z := (n + 2147483648) mod 4294967296 - 2147483648.
Definition toUint32 (n : Z) : Z := n mod 4294967296.

(** [a << k], [a >>> k], [a ^ b], [a | b], [Math.imul(a, b)]. *)
Definition shl (a : Z) (k : Z) : Z := toInt32 (Z.shiftl (toInt32 a) k).
Definition ushr (a : Z) (k : Z) : Z := Z.shiftr (toUint32 a) k.
Definition xor32 (a b : Z) : Z := Z.lxor (toInt32 a) (toInt32 b).
Definition or32 (a b : Z) : Z := Z.lor (toInt32 a) (toInt32 b).
Definition imul (a b : Z) : Z := toInt32 (toInt32 a * toInt32 b).

(** [s.charCodeAt(i)] for each [i], on the ASCII strings used as seeds. *)
Definition charCodes (s : string) : list Z :=
  (λ c, Z.of_nat (nat_of_ascii c)) <$> list_ascii_of_string s.

(** ** The ambient random source

    [Math.random()] returns the next number of a stream the program does
    not control.  A source is the stream; the position of the next draw is
    threaded through the code that calls it. *)

Definition RandomSource : Type := nat → Q.

(** ** The volumetric terrain generator ([VolumetricTerrain]) *)

Module Block.
(** [interface Block { x; y; z; type }], a renderable cube. *)
Record t : Type := mk { x : Q; y : Q; z : Q; type : BlockType }.
End Block.

Module VolumetricTerrain.

Record t : Type := mk {
  seed : string;
  chunkX : Z;
  chunkY : Z;
  chunkZ : Z;
  size : nat;
  heightMap : list (list Q);
  blockData : list (list (list cell))
}.

Definition CAVE_SCALE : Q := 18.
Definition CAVE_THRESHOLD : Q := 0.42.
Definition SURFACE_VARIATION_SCALE : Q := 12.
Definition SURFACE_DETAIL_SCALE : Q := 24.
Definition ORE_SCALE : Q := 8.
Definition BIOME_SCALE : Q := 80.

Definition with_heightMap (t0 : t) (hm : list (list Q)) : t :=
  mk (seed t0) (chunkX t0) (chunkY t0) (chunkZ t0) (size t0) hm (blockData t0).

Definition with_blockData (t0 : t) (bd : list (list (list cell))) : t :=
  mk (seed t0) (chunkX t0) (chunkY t0) (chunkZ t0) (size t0) (heightMap t0) bd.

(** *** The seeded generator ([createRNG]) *)

(** The hash of the seed string; the closure's initial [state]. *)
Definition createRNG (seed : string) : Z :=
  let hash :=
    fold_left (λ hash c, toInt32 ((shl hash 5 - hash) + c)) (charCodes seed) 0 in
  toInt32 hash.

(** One call of the closure (mulberry32): the number returned and the
    new [state]. *)
Definition rng (state : Z) : Q * Z :=
  let state := toInt32 (state + 1831565813) in
  let t := imul (xor32 state (ushr state 15)) (or32 1 state) in
  let t := xor32 (t + imul (xor32 t (ushr t 7)) (or32 61 t)) t in
  ((Qz (toUint32 (xor32 t (ushr t 14))) / 4294967296)%Q, state).

Definition generateWhiteNoiseGrid (size : nat) (seed : string) : list (list Q) :=
  (drawRows rng size size (createRNG seed)).1.

Definition generate3DNoiseGrid (size : nat) (seed : string) : list (list (list Q)) :=
  (drawPlanes rng size size (createRNG seed)).1.

(** *** Interpolation *)

Definition lerp (a b t : Q) : Q := (a + t * (b - a))%Q.

Definition smoothStep (t : Q) : Q := (t * t * (3 - 2 * t))%Q.

Definition bilinearInterpolation (grid : list (list Q)) (x z : Q) : option Q :=
  let x1 := Qfloor x in
  let x2 := Z.min (x1 + 1) (Z.of_nat (length grid) - 1) in
  let z1 := Qfloor z in
  row0 ← grid !! 0%nat;
  let z2 := Z.min (z1 + 1) (Z.of_nat (length row0) - 1) in
  let fx := (x - Qz x1)%Q in
  let fz := (z - Qz z1)%Q in
  c11 ← item2 grid x1 z1;
  c21 ← item2 grid x2 z1;
  c12 ← item2 grid x1 z2;
  c22 ← item2 grid x2 z2;
  let wx := smoothStep fx in
  let wz := smoothStep fz in
  let i1 := lerp c11 c21 wx in
  let i2 := lerp c12 c22 wx in
  Some (lerp i1 i2 wz).

Definition trilinearInterpolation (grid : list (list (list Q))) (x y z : Q)
  : option Q :=
  let x1 := Qfloor x in
  let x2 := Z.min (x1 + 1) (Z.of_nat (length grid) - 1) in
  let y1 := Qfloor y in
  plane0 ← grid !! 0%nat;
  let y2 := Z.min (y1 + 1) (Z.of_nat (length plane0) - 1) in
  let z1 := Qfloor z in
  row0 ← plane0 !! 0%nat;
  let z2 := Z.min (z1 + 1) (Z.of_nat (length row0) - 1) in
  let fx := (x - Qz x1)%Q in
  let fy := (y - Qz y1)%Q in
  let fz := (z - Qz z1)%Q in
  let wx := smoothStep fx in
  let wy := smoothStep fy in
  let wz := smoothStep fz in
  c000 ← item3 grid x1 y1 z1;
  c100 ← item3 grid x2 y1 z1;
  c010 ← item3 grid x1 y2 z1;
  c110 ← item3 grid x2 y2 z1;
  c001 ← item3 grid x1 y1 z2;
  c101 ← item3 grid x2 y1 z2;
  c011 ← item3 grid x1 y2 z2;
  c111 ← item3 grid x2 y2 z2;
  let e00 := lerp c000 c100 wx in
  let e10 := lerp c010 c110 wx in
  let e01 := lerp c001 c101 wx in
  let e11 := lerp c011 c111 wx in
  let p0 := lerp e00 e10 wy in
  let p1 := lerp e01 e11 wy in
  Some (lerp p0 p1 wz).

(** *** Fractal noise fields *)

(** The running minimum and maximum of the normalisation pass, which
    start from [1.0] and [0.0]. *)
Definition minOf (cells : list Q) (min : Q) : Q := fold_left Qmin cells min.
Definition maxOf (cells : list Q) (max : Q) : Q := fold_left Qmax cells max.

Definition normalize (min max : Q) (v : Q) : Q := ((v - min) / (max - min))%Q.

Definition normalize2D (result : list (list Q)) : list (list Q) :=
  let min := fold_left (λ m row, minOf row m) result 1%Q in
  let max := fold_left (λ m row, maxOf row m) result 0%Q in
  let range := (max - min)%Q in
  if Qltb 0.001 range then map2D (normalize min max) result
  else result.

Definition normalize3D (result : list (list (list Q))) : list (list (list Q)) :=
  let min :=
    fold_left (λ m plane, fold_left (λ m row, minOf row m) plane m) result 1%Q in
  let max :=
    fold_left (λ m plane, fold_left (λ m row, maxOf row m) plane m) result 0%Q in
  let range := (max - min)%Q in
  if Qltb 0.001 range
  then map3D (normalize min max) result
  else result.

Definition generate2DNoise (width height : nat) (scale : Q) (seed : string)
    (octaves : nat) : option (list (list Q)) :=
  let persistence : Q := 0.5%Q in
  result ← for_loop octaves (λ octave result,
    let octaveScale := (scale / 2 ^ Z.of_nat octave)%Q in
    let amplitude := (persistence ^ Z.of_nat octave)%Q in
    let gridSize :=
      Z.to_nat (Z.max 4 (Qceiling (Qn (Nat.max width height) / octaveScale))) in
    let noiseGrid :=
      generateWhiteNoiseGrid gridSize (seed +:+ "-oct" +:+ pretty octave) in
    tabulateM width (λ x, tabulateM height (λ z,
      let nx := (Qn x / Qn width * (Qn gridSize - 1))%Q in
      let nz := (Qn z / Qn height * (Qn gridSize - 1))%Q in
      value ← bilinearInterpolation noiseGrid nx nz;
      old ← item2 result (Z.of_nat x) (Z.of_nat z);
      Some (old + value * amplitude)%Q)))
    (replicate width (replicate height 0%Q));
  Some (normalize2D result).

Definition interpolate3DToSize (grid : list (list (list Q)))
    (targetWidth targetHeight targetDepth : nat) : option (list (list (list Q))) :=
  let sourceWidth := length grid in
  plane0 ← grid !! 0%nat;
  let sourceHeight := length plane0 in
  row0 ← plane0 !! 0%nat;
  let sourceDepth := length row0 in
  tabulateM targetWidth (λ x, tabulateM targetHeight (λ y,
    tabulateM targetDepth (λ z,
      let sx := (Qn x / Qn targetWidth * (Qn sourceWidth - 1))%Q in
      let sy := (Qn y / Qn targetHeight * (Qn sourceHeight - 1))%Q in
      let sz := (Qn z / Qn targetDepth * (Qn sourceDepth - 1))%Q in
      trilinearInterpolation grid sx sy sz))).

Definition generate3DNoise (width height depth : nat) (scale : Q) (seed : string)
    (octaves : nat) : option (list (list (list Q))) :=
  let maxSize := 16%nat in
  let adjustedWidth := Nat.min width maxSize in
  let adjustedHeight := Nat.min height maxSize in
  let adjustedDepth := Nat.min depth maxSize in
  let persistence : Q := 0.5%Q in
  result ← for_loop octaves (λ octave result,
    let octaveScale := (scale / 2 ^ Z.of_nat octave)%Q in
    let amplitude := (persistence ^ Z.of_nat octave)%Q in
    let gridSize :=
      Z.to_nat (Z.max 4 (Qceiling
        (Qn (Nat.max (Nat.max adjustedWidth adjustedHeight) adjustedDepth)
         / octaveScale))) in
    let cappedGridSize := Nat.min gridSize 8 in
    let noiseGrid :=
      generate3DNoiseGrid cappedGridSize (seed +:+ "-oct" +:+ pretty octave) in
    tabulateM adjustedWidth (λ x, tabulateM adjustedHeight (λ y,
      tabulateM adjustedDepth (λ z,
        let nx := (Qn x / Qn adjustedWidth * (Qn cappedGridSize - 1))%Q in
        let ny := (Qn y / Qn adjustedHeight * (Qn cappedGridSize - 1))%Q in
        let nz := (Qn z / Qn adjustedDepth * (Qn cappedGridSize - 1))%Q in
        value ← trilinearInterpolation noiseGrid nx ny nz;
        old ← item3 result (Z.of_nat x) (Z.of_nat y) (Z.of_nat z);
        Some (old + value * amplitude)%Q))))
    (replicate adjustedWidth (replicate adjustedHeight (replicate adjustedDepth 0%Q)));
  let result := normalize3D result in
  if (adjustedWidth <? width)%nat || (adjustedHeight <? height)%nat
     || (adjustedDepth <? depth)%nat
  then interpolate3DToSize result width height depth
  else Some result.

(** *** Stage 1: the surface height map *)

(** The 3x3 smoothing kernel, in the order the two inner loops visit it. *)
Definition kernel : list (Z * Z) :=
  di ← [-1; 0; 1]; dj ← [-1; 0; 1]; [(di, dj)].

Definition smoothHeightMap (size : nat) (heightMap : list (list Q))
  : option (list (list Q)) :=
  tabulateM size (λ i, tabulateM size (λ j,
    copied ← item2 heightMap (Z.of_nat i) (Z.of_nat j);
    if (1 <=? i)%nat && (Z.of_nat i <? Z.of_nat size - 1)
       && (1 <=? j)%nat && (Z.of_nat j <? Z.of_nat size - 1)
    then
      '(sum, weight) ← for_each kernel (λ '(di, dj) '(sum, weight),
        let ni := Z.of_nat i + di in
        let nj := Z.of_nat j + dj in
        if (ni <? 0) || (Z.of_nat size <=? ni) || (nj <? 0) || (Z.of_nat size <=? nj)
        then Some (sum, weight)
        else
          let kernelWeight := (1 / (1 + Qz (Z.abs di) + Qz (Z.abs dj)))%Q in
          h ← item2 heightMap ni nj;
          Some ((sum + h * kernelWeight)%Q, (weight + kernelWeight)%Q))
        (0%Q, 0%Q);
      Some (if Qltb 0 weight then (sum / weight)%Q else copied)
    else Some copied)).

Definition biomeShift (biomeValue h : Q) : Q :=
  if Qltb 0.65 biomeValue then
    let mountainFactor := ((biomeValue - 0.65) / 0.35)%Q in
    (h + mountainFactor * 30)%Q
  else if Qltb 0.4 biomeValue then
    let plainsFactor := ((biomeValue - 0.4) / 0.25)%Q in
    (h + plainsFactor * 5)%Q
  else
    let valleyFactor := ((0.4 - biomeValue) / 0.4)%Q in
    (h - valleyFactor * 15)%Q.

Definition applyBiomeHeightVariation (size : nat) (seed : string)
    (heightMap : list (list Q)) : option (list (list Q)) :=
  biomeNoise ← generate2DNoise size size BIOME_SCALE (seed +:+ "-biome") 1;
  tabulateM size (λ x, tabulateM size (λ z,
    biomeValue ← item2 biomeNoise (Z.of_nat x) (Z.of_nat z);
    h ← item2 heightMap (Z.of_nat x) (Z.of_nat z);
    Some (biomeShift biomeValue h))).

Definition generateSurfaceHeightMap (size : nat) (seed : string)
  : option (list (list Q)) :=
  let octaves := 3%nat in
  let persistence : Q := 0.5%Q in
  let lacunarity : Q := 2%Q in
  let baseScale := SURFACE_VARIATION_SCALE in
  let heightScale : Q := 24%Q in
  let baseHeight : Q := 40%Q in
  heightMap ← for_loop octaves (λ octave heightMap,
    let scale := (baseScale / lacunarity ^ Z.of_nat octave)%Q in
    let amplitude := (heightScale * persistence ^ Z.of_nat octave)%Q in
    let gridSize := Z.to_nat (Z.max 4 (Qfloor (Qn size / scale))) in
    let octaveSeed := seed +:+ "-surface-" +:+ pretty octave in
    let noiseGrid := generateWhiteNoiseGrid gridSize octaveSeed in
    tabulateM size (λ x, tabulateM size (λ z,
      let nx := (Qn x / Qn size * (Qn gridSize - 1))%Q in
      let nz := (Qn z / Qn size * (Qn gridSize - 1))%Q in
      value ← bilinearInterpolation noiseGrid nx nz;
      old ← item2 heightMap (Z.of_nat x) (Z.of_nat z);
      Some (old + (value - 0.5) * amplitude)%Q)))
    (replicate size (replicate size baseHeight));
  heightMap ← applyBiomeHeightVariation size seed heightMap;
  heightMap ← smoothHeightMap size heightMap;
  Some (map2D (λ h, Qz (Qfloor h)) heightMap).

(** *** Stage 2: filling the volume *)

Definition fillCell (t0 : t) (biomeNoise : list (list Q))
    (densityNoise : list (list (list Q))) (x y z : nat) : option cell :=
  let worldY := chunkY t0 in
  surfaceHeight ← item2 (heightMap t0) (Z.of_nat x) (Z.of_nat z);
  biomeValue ← item2 biomeNoise (Z.of_nat x) (Z.of_nat z);
  let worldHeight := (Qz worldY + Qn y)%Q in
  if Qleb worldHeight surfaceHeight then
    let depth := (surfaceHeight - worldHeight)%Q in
    densityValue ← item3 densityNoise (Z.of_nat x) (Z.of_nat y) (Z.of_nat z);
    let densityInfluence := ((densityValue - 0.5) * 5)%Q in
    if Qeq_bool depth 0 then
      if Qltb worldHeight 35 then Some (Some SAND)
      else if Qltb 65 worldHeight then Some (Some SNOW)
      else Some (Some GRASS)
    else if Qltb depth (4 + densityInfluence) then
      if Qltb worldHeight 35 then Some (Some SAND)
      else Some (Some DIRT)
    else Some (Some STONE)
  else if Qltb worldHeight 35 then Some (Some WATER)
  else Some (Some AIR).

Definition generateVolumetricBlocks (t0 : t) : option (list (list (list cell))) :=
  biomeNoise ←
    generate2DNoise (size t0) (size t0) BIOME_SCALE (seed t0 +:+ "-biome") 1;
  densityNoise ←
    generate3DNoise (size t0) (size t0) (size t0) SURFACE_DETAIL_SCALE
      (seed t0 +:+ "-density") 2;
  tabulateM (size t0) (λ x, tabulateM (size t0) (λ y, tabulateM (size t0) (λ z,
    fillCell t0 biomeNoise densityNoise x y z))).

(** *** Stage 3: carving caves *)

(** The guard at the head of [generateCaves]: caves are generated when
    [(chunkX + chunkZ) % (size * 2)] is [0] (the remainder of a division
    by zero is [NaN], which is not [0]). *)
Definition cavesEnabled (t0 : t) : bool :=
  negb (size t0 =? 0)%nat &&
  (Z.rem (chunkX t0 + chunkZ t0) (Z.of_nat (size t0) * 2) =? 0).

Definition combinedNoise (noiseValue detailValue : Q) : Q :=
  (noiseValue * 0.7 + detailValue * 0.3)%Q.

(** The carving threshold of a cell [worldHeight] high under a surface
    [surface] high. *)
Definition caveThreshold (surface worldHeight : Q) : Q :=
  let depthFactor := Qmin 1 ((surface - worldHeight) / 30) in
  (CAVE_THRESHOLD - depthFactor * 0.15)%Q.

(** The body of the three nested loops of [generateCaves]; the state is
    the block grid and the position in the random source. *)
Definition carveCell (t0 : t) (caveNoise detailNoise : list (list (list Q)))
    (random : RandomSource) (x y z : nat)
    (st : list (list (list cell)) * nat) : option (list (list (list cell)) * nat) :=
  let '(blocks, k) := st in
  let worldHeight := (Qz (chunkY t0) + Qn y)%Q in
  surface ← item2 (heightMap t0) (Z.of_nat x) (Z.of_nat z);
  if Qltb (surface - 5) worldHeight then Some st
  else if Qltb worldHeight 37 && Qltb 25 worldHeight then Some st
  else
    noiseValue ← item3 caveNoise (Z.of_nat x) (Z.of_nat y) (Z.of_nat z);
    detailValue ← item3 detailNoise (Z.of_nat x) (Z.of_nat y) (Z.of_nat z);
    let threshold := caveThreshold surface worldHeight in
    current ← item3 blocks (Z.of_nat x) (Z.of_nat y) (Z.of_nat z);
    if Qltb threshold (combinedNoise noiseValue detailValue)
       && negb (bool_decide (current = Some AIR))
    then
      let blocks := store3 blocks x y z (Some AIR) in
      if Qltb worldHeight 12 && (0 <? y)%nat
         && bool_decide
              (item3 blocks (Z.of_nat x) (Z.of_nat y - 1) (Z.of_nat z) = Some (Some AIR))
      then
        if Qltb (random k) 0.3
        then Some (store3 blocks x y z (Some LAVA), S k)
        else Some (blocks, S k)
      else Some (blocks, k)
    else Some st.

Definition carveCaves (t0 : t) (caveNoise detailNoise : list (list (list Q)))
    (random : RandomSource) (k : nat) : option (list (list (list cell)) * nat) :=
  for_loop (size t0) (λ x, for_loop (size t0) (λ y, for_loop (size t0) (λ z,
    carveCell t0 caveNoise detailNoise random x y z))) (blockData t0, k).

Definition generateCaves (t0 : t) (random : RandomSource) (k : nat)
  : option (t * nat) :=
  if negb (cavesEnabled t0) then Some (t0, k)
  else
    caveNoise ←
      generate3DNoise (size t0) (size t0) (size t0) CAVE_SCALE
        (seed t0 +:+ "-caves") 2;
    detailNoise ←
      generate3DNoise (size t0) (size t0) (size t0) (CAVE_SCALE / 2)
        (seed t0 +:+ "-cave-detail") 1;
    '(blocks, k) ← carveCaves t0 caveNoise detailNoise random k;
    Some (with_blockData t0 blocks, k).

(** *** Stage 4: ore deposits *)

Definition oreCell (t0 : t) (random : RandomSource) (x y z : nat)
    (st : list (list (list cell)) * nat) : option (list (list (list cell)) * nat) :=
  let '(blocks, k) := st in
  let oreChance : Q := 0.05%Q in
  current ← item3 blocks (Z.of_nat x) (Z.of_nat y) (Z.of_nat z);
  if negb (bool_decide (current = Some STONE)) then Some st
  else if Qltb oreChance (random k) then Some (blocks, S k)
  else
    let worldHeight := (Qz (chunkY t0) + Qn y)%Q in
    surface ← item2 (heightMap t0) (Z.of_nat x) (Z.of_nat z);
    let depth := (surface - worldHeight)%Q in
    if Qltb depth 5 then Some (blocks, S k)
    else
      let r := random (S k) in
      if Qltb r 0.5 then Some (store3 blocks x y z (Some COAL), S (S k))
      else if Qltb r 0.8 && Qltb 10 depth
      then Some (store3 blocks x y z (Some IRON), S (S k))
      else if Qltb r 0.95 && Qltb 25 depth
      then Some (store3 blocks x y z (Some GOLD), S (S k))
      else if Qltb 40 depth
      then Some (store3 blocks x y z (Some DIAMOND), S (S k))
      else Some (blocks, S (S k)).

Definition generateOreDeposits (t0 : t) (random : RandomSource) (k : nat)
  : option (t * nat) :=
  '(blocks, k) ←
    for_loop (size t0) (λ x, for_loop (size t0) (λ y, for_loop (size t0) (λ z,
      oreCell t0 random x y z))) (blockData t0, k);
  Some (with_blockData t0 blocks, k).

(** *** The constructor *)

(** [generateTerrain] runs the four stages inside one [try]; when a stage
    fails the error is caught and the object keeps what the stages before
    it produced. *)
Definition generateTerrain (t0 : t) (random : RandomSource) (k : nat) : t * nat :=
  match generateSurfaceHeightMap (size t0) (seed t0) with
  | None => (t0, k)
  | Some heightMap =>
      let t1 := with_heightMap t0 heightMap in
      match generateVolumetricBlocks t1 with
      | None => (t1, k)
      | Some blocks =>
          let t2 := with_blockData t1 blocks in
          match generateCaves t2 random k with
          | None => (t2, k)
          | Some (t3, k3) =>
              match generateOreDeposits t3 random k3 with
              | None => (t3, k3)
              | Some r => r
              end
          end
      end
  end.

(** [new VolumetricTerrain(chunkX, chunkZ, size)], given the random source
    and the position of its next draw; returns the object and the
    position after construction. *)
Definition new (chunkX chunkZ : Z) (size : nat) (random : RandomSource) (k : nat)
  : t * nat :=
  generateTerrain
    {| seed := pretty chunkX +:+ "," +:+ pretty chunkZ;
       chunkX := chunkX; chunkY := 0; chunkZ := chunkZ; size := size;
       heightMap := replicate size (replicate size 0%Q);
       blockData := replicate size (replicate size (replicate size None)) |}
    random k.

(** *** Visibility extraction *)

Definition directions : list (Z * Z * Z) :=
  [(1, 0, 0); (-1, 0, 0); (0, 1, 0); (0, -1, 0); (0, 0, 1); (0, 0, -1)].

(** The loop over [directions] of [isBlockHidden]. *)
Fixpoint hiddenFrom (t0 : t) (x y z : Z) (dirs : list (Z * Z * Z)) : option bool :=
  match dirs with
  | [] => Some true
  | (dx, dy, dz) :: dirs' =>
      let nx := x + dx in
      let ny := y + dy in
      let nz := z + dz in
      let n := Z.of_nat (size t0) in
      if (nx <? 0) || (n <=? nx) || (ny <? 0) || (n <=? ny) || (nz <? 0) || (n <=? nz)
      then Some false
      else
        neighborBlockType ← item3 (blockData t0) nx ny nz;
        match neighborBlockType with
        | None | Some AIR => Some false
        | Some WATER | Some LAVA => Some false
        | Some _ => hiddenFrom t0 x y z dirs'
        end
  end.

Definition isBlockHidden (t0 : t) (x y z : Z) : option bool :=
  currentBlockType ← item3 (blockData t0) x y z;
  match currentBlockType with
  | Some WATER | Some LAVA => Some false
  | _ => hiddenFrom t0 x y z directions
  end.

(** The body of the scan of [extractBlocks]: the blocks pushed for one
    cell. *)
Definition extractCell (t0 : t) (x y z : nat) : option (list Block.t) :=
  let worldX := (Qz (chunkX t0) - Qn (size t0) / 2)%Q in
  let worldY := Qz (chunkY t0) in
  let worldZ := (Qz (chunkZ t0) - Qn (size t0) / 2)%Q in
  blockType ← item3 (blockData t0) (Z.of_nat x) (Z.of_nat y) (Z.of_nat z);
  match blockType with
  | None | Some AIR => Some []
  | Some blockType =>
      hidden ← isBlockHidden t0 (Z.of_nat x) (Z.of_nat y) (Z.of_nat z);
      if (hidden : bool) then Some []
      else Some [Block.mk (worldX + Qn x) (worldY + Qn y) (worldZ + Qn z) blockType]
  end.

Definition extractBlocks (t0 : t) : option (list Block.t) :=
  blocks ← tabulateM (size t0) (λ x,
    blocks ← tabulateM (size t0) (λ y,
      blocks ← tabulateM (size t0) (λ z, extractCell t0 x y z);
      Some (concat blocks));
    Some (concat blocks));
  Some (concat blocks).

(** *** Queries and edits *)

Definition getHeightAt (t0 : t) (worldX worldZ : Q) : option Q :=
  let localX := Qfloor (worldX - (Qz (chunkX t0) - Qn (size t0) / 2)) in
  let localZ := Qfloor (worldZ - (Qz (chunkZ t0) - Qn (size t0) / 2)) in
  if (0 <=? localX) && (localX <? Z.of_nat (size t0)) &&
     (0 <=? localZ) && (localZ <? Z.of_nat (size t0))
  then item2 (heightMap t0) localX localZ
  else Some (-1)%Q.

Definition getBlockAt (t0 : t) (worldX worldY worldZ : Q) : option cell :=
  let localX := Qfloor (worldX - (Qz (chunkX t0) - Qn (size t0) / 2)) in
  let localY := Qfloor (worldY - Qz (chunkY t0)) in
  let localZ := Qfloor (worldZ - (Qz (chunkZ t0) - Qn (size t0) / 2)) in
  if (0 <=? localX) && (localX <? Z.of_nat (size t0)) &&
     (0 <=? localY) && (localY <? Z.of_nat (size t0)) &&
     (0 <=? localZ) && (localZ <? Z.of_nat (size t0))
  then item3 (blockData t0) localX localY localZ
  else Some None.

(** The result pairs the returned flag with the object after the call.
    An in-bounds write to a grid that lacks the cell is outside the
    model. *)
Definition setBlockAt (t0 : t) (worldX worldY worldZ : Q) (blockType : BlockType)
  : option (bool * t) :=
  let localX := Qfloor (worldX - (Qz (chunkX t0) - Qn (size t0) / 2)) in
  let localY := Qfloor (worldY - Qz (chunkY t0)) in
  let localZ := Qfloor (worldZ - (Qz (chunkZ t0) - Qn (size t0) / 2)) in
  if (0 <=? localX) && (localX <? Z.of_nat (size t0)) &&
     (0 <=? localY) && (localY <? Z.of_nat (size t0)) &&
     (0 <=? localZ) && (localZ <? Z.of_nat (size t0))
  then
    _ ← item3 (blockData t0) localX localY localZ;
    Some (true,
          with_blockData t0
            (store3 (blockData t0) (Z.to_nat localX) (Z.to_nat localY)
               (Z.to_nat localZ) (Some blockType)))
  else Some (false, t0).

End VolumetricTerrain.

(** ** The volumetric chunk ([VolumetricChunk]) *)

Module VolumetricChunk.

Record t : Type := mk {
  cubes : nat;
  cubePositionsF32 : list Q;
  blockTypesF32 : list Q;
  terrain : VolumetricTerrain.t;
  x : Z;
  z : Z;
  size : nat
}.

Definition with_terrain (c : t) (terrain : VolumetricTerrain.t) : t :=
  mk (cubes c) (cubePositionsF32 c) (blockTypesF32 c) terrain (x c) (z c) (size c).

(** The two typed arrays filled from a block list. *)
Definition positionsOf (blocks : list Block.t) : list Q :=
  b ← blocks; [Block.x b; Block.y b; Block.z b; 0%Q].
Definition typesOf (blocks : list Block.t) : list Q :=
  (λ b, Qz (BlockType_value (Block.type b))) <$> blocks.

Definition generateCubes (c : t) : t :=
  match VolumetricTerrain.extractBlocks (terrain c) with
  | Some blocks =>
      mk (length blocks) (positionsOf blocks) (typesOf blocks)
         (terrain c) (x c) (z c) (size c)
  | None => mk 0 [] [] (terrain c) (x c) (z c) (size c)
  end.

(** [new VolumetricChunk(centerX, centerZ, size)] with the random source
    and the position of its next draw. *)
Definition new (centerX centerZ : Z) (size : nat) (random : RandomSource) (k : nat)
  : t * nat :=
  let '(terrain, k) := VolumetricTerrain.new centerX centerZ size random k in
  (generateCubes (mk 0 [] [] terrain centerX centerZ size), k).

Definition getHeightAt (c : t) (worldX worldZ : Q) : Q :=
  match VolumetricTerrain.getHeightAt (terrain c) worldX worldZ with
  | Some h => h
  | None => (-1)%Q
  end.

Definition getBlockAt (c : t) (worldX worldY worldZ : Q) : cell :=
  match VolumetricTerrain.getBlockAt (terrain c) worldX worldY worldZ with
  | Some b => b
  | None => None
  end.

(** The returned flag and the chunk after the call. *)
Definition setBlockAt (c : t) (worldX worldY worldZ : Q) (blockType : BlockType)
  : bool * t :=
  match VolumetricTerrain.setBlockAt (terrain c) worldX worldY worldZ blockType with
  | Some (success, terrain) =>
      if success then (success, generateCubes (with_terrain c terrain))
      else (success, with_terrain c terrain)
  | None => (false, c)
  end.

Definition isSolid (c : t) (worldX worldY worldZ : Q) : bool :=
  match getBlockAt c worldX worldY worldZ with
  | None | Some AIR => false
  | Some WATER | Some LAVA => false
  | Some _ => true
  end.

End VolumetricChunk.

(** ** Numbers that may be infinite

    The terrain samplers start from [-Infinity] and the closest-neighbour
    search from [Infinity]; differences of such values can be [NaN].  Every
    comparison with [NaN] is false. *)

Inductive xnum : Type :=
  | NegInfinity
  | Fin (q : Q)
  | Infinity
  | NaN.

Definition xsub (a b : xnum) : xnum :=
  match a, b with
  | NaN, _ | _, NaN => NaN
  | Fin p, Fin q => Fin (p - q)
  | Fin _, NegInfinity => Infinity
  | Fin _, Infinity => NegInfinity
  | NegInfinity, NegInfinity => NaN
  | NegInfinity, _ => NegInfinity
  | Infinity, Infinity => NaN
  | Infinity, _ => Infinity
  end.

Definition xadd (a b : xnum) : xnum :=
  match a, b with
  | NaN, _ | _, NaN => NaN
  | Fin p, Fin q => Fin (p + q)
  | Fin _, NegInfinity => NegInfinity
  | Fin _, Infinity => Infinity
  | NegInfinity, Infinity => NaN
  | NegInfinity, _ => NegInfinity
  | Infinity, NegInfinity => NaN
  | Infinity, _ => Infinity
  end.

Definition xlt (a b : xnum) : bool :=
  match a, b with
  | NaN, _ | _, NaN => false
  | Fin p, Fin q => Qltb p q
  | NegInfinity, NegInfinity => false
  | NegInfinity, _ => true
  | _, NegInfinity => false
  | Infinity, _ => false
  | Fin _, Infinity => true
  end.

Definition xle (a b : xnum) : bool :=
  match a, b with
  | NaN, _ | _, NaN => false
  | Fin p, Fin q => Qleb p q
  | NegInfinity, _ => true
  | _, NegInfinity => false
  | _, Infinity => true
  | Infinity, Fin _ => false
  end.

(** ** The animation driver ([MinecraftAnimation]) *)

Module Vec3.
Record t : Type := mk { x : Q; y : Q; z : Q }.
End Vec3.

Module MinecraftAnimation.

Record t : Type := mk {
  chunks : gmap string Chunk.t;
  currentChunk : string;
  playerPosition : Vec3.t;
  playerVelocity : Vec3.t;
  isOnGround : bool
}.

Definition chunkSize : nat := 64.
Definition gravity : Q := 9.8.
Definition jumpVelocity : Q := 10.
Definition deltaTime : Q := 0.016.

Definition with_chunks (s : t) (chunks : gmap string Chunk.t) (currentChunk : string) : t :=
  mk chunks currentChunk (playerPosition s) (playerVelocity s) (isOnGround s).

Definition with_player (s : t) (position velocity : Vec3.t) (onGround : bool) : t :=
  mk (chunks s) (currentChunk s) position velocity onGround.

(** The map key [`${chunkX},${chunkZ}`]. *)
Definition chunkKey (chunkX chunkZ : Z) : string :=
  pretty chunkX +:+ "," +:+ pretty chunkZ.

(** [Math.floor(v / this.chunkSize) * this.chunkSize]. *)
Definition chunkCoord (v : Q) : Z :=
  Qfloor (v / Qn chunkSize) * Z.of_nat chunkSize.

(** The offsets visited by the two loops [for x = -1..1], [for z = -1..1]. *)
Definition neighborhood : list (Z * Z) :=
  x ← [-1; 0; 1]; z ← [-1; 0; 1]; [(x, z)].

(** The keys of the 3x3 grid of chunks around [(chunkX, chunkZ)]. *)
Definition gridKeys (chunkX chunkZ : Z) : list string :=
  (λ '(x, z), chunkKey (chunkX + x * Z.of_nat chunkSize)
                       (chunkZ + z * Z.of_nat chunkSize)) <$> neighborhood.

Definition jump (s : t) : t :=
  if isOnGround s then
    let p := playerPosition s in
    let v := playerVelocity s in
    with_player s (Vec3.mk (Vec3.x p) (Vec3.y p + 0.15) (Vec3.z p))
                  (Vec3.mk (Vec3.x v) jumpVelocity (Vec3.z v)) false
  else s.

Section Streaming.
Context {RandState : Type}.
Variable Rand : string → RandState.
Variable next : RandState → Q * RandState.

(** The body of the two nested loops shared by [generateInitialChunks]
    and [updateChunks]: create the chunk of each key that is absent. *)
Definition createMissing (playerChunkX playerChunkZ : Z)
    (chunks : gmap string Chunk.t) : option (gmap string Chunk.t) :=
  for_each neighborhood (λ '(x, z) chunks,
    let chunkX := playerChunkX + x * Z.of_nat chunkSize in
    let chunkZ := playerChunkZ + z * Z.of_nat chunkSize in
    let key := chunkKey chunkX chunkZ in
    match chunks !! key with
    | Some _ => Some chunks
    | None =>
        chunk ← Chunk.new Rand next chunkX chunkZ chunkSize;
        Some (<[key := chunk]> chunks)
    end) chunks.

Definition generateInitialChunks (s : t) : option t :=
  let playerChunkX := chunkCoord (Vec3.x (playerPosition s)) in
  let playerChunkZ := chunkCoord (Vec3.z (playerPosition s)) in
  chunks ← createMissing playerChunkX playerChunkZ (chunks s);
  Some (with_chunks s chunks (chunkKey playerChunkX playerChunkZ)).

Definition updateChunks (s : t) : option t :=
  let playerChunkX := chunkCoord (Vec3.x (playerPosition s)) in
  let playerChunkZ := chunkCoord (Vec3.z (playerPosition s)) in
  let newCurrentChunk := chunkKey playerChunkX playerChunkZ in
  if bool_decide (newCurrentChunk ≠ currentChunk s) then
    let chunksToKeep : gset string :=
      list_to_set (gridKeys playerChunkX playerChunkZ) in
    chunks ← createMissing playerChunkX playerChunkZ (chunks s);
    Some (with_chunks s
            (filter (λ kv, kv.1 ∈ chunksToKeep) chunks) newCurrentChunk)
  else Some s.

(** The state the constructor (and [reset]) builds before and after
    generating the initial chunks. *)
Definition initial : t :=
  mk ∅ "" (Vec3.mk 0 100 0) (Vec3.mk 0 0 0) false.

Definition reset (s : t) : option t :=
  generateInitialChunks
    (mk ∅ (currentChunk s) (Vec3.mk 0 100 0) (Vec3.mk 0 0 0) false).
End Streaming.

(** *** Terrain sampling and collision *)

(** What a terrain sampler returns: [-Infinity] when no point gave a
    height, a number otherwise. *)
Inductive sampled : Type :=
  | NoTerrain
  | Terrain (h : Q).

Definition toX (h : sampled) : xnum :=
  match h with NoTerrain => NegInfinity | Terrain q => Fin q end.

Section Physics.
(** [Math.cos], [Math.sin], [Math.sqrt] and [Math.PI]. *)
Variables (cos sin sqrt : Q → Q) (PI : Q).

Definition playerRadius : Q := 0.4.

(** The lookup every sampler repeats: the chunk stored under the key
    computed for a point. *)
Definition chunkOf (s : t) (x z : Q) : option Chunk.t :=
  chunks s !! chunkKey (chunkCoord x) (chunkCoord z).

(** [n] points on the circle of radius [playerRadius] around the
    player, at height [y]. *)
Definition ring (n : nat) (position : Vec3.t) (y : Q) : list Vec3.t :=
  tabulate n (λ i,
    let angle := (Qn i / Qn n * PI * 2)%Q in
    Vec3.mk (Vec3.x position + cos angle * playerRadius) y
            (Vec3.z position + sin angle * playerRadius)).

(** The eight points of the 3x3 grid around the centre, which is
    skipped. *)
Definition interior (position : Vec3.t) (y : Q) : list Vec3.t :=
  rx ← [-1; 0; 1]; rz ← [-1; 0; 1];
  if (rx =? 0) && (rz =? 0) then []
  else [Vec3.mk (Vec3.x position + Qz rx * playerRadius * 0.5) y
                (Vec3.z position + Qz rz * playerRadius * 0.5)].

(** [terrainHeight >= 0 && point.y <= terrainHeight]; a height that is
    [undefined] fails both comparisons. *)
Definition hits (terrainHeight : option Q) (y : Q) : bool :=
  match terrainHeight with
  | Some h => Qleb 0 h && Qleb y h
  | None => false
  end.

(** [if (h > maxHeight) maxHeight = h]. *)
Definition raise (maxHeight : sampled) (h : option Q) : sampled :=
  match h with
  | Some h => if xlt (toX maxHeight) (Fin h) then Terrain h else maxHeight
  | None => maxHeight
  end.

(** The four orthogonal neighbours of a missing chunk. *)
Definition orthogonalKeys (chunkX chunkZ : Z) : list string :=
  let n := Z.of_nat chunkSize in
  [chunkKey (chunkX - n) chunkZ; chunkKey (chunkX + n) chunkZ;
   chunkKey chunkX (chunkZ - n); chunkKey chunkX (chunkZ + n)].

(** The height a neighbour reports for a point clamped one cell inside
    its bounds. *)
Definition clampedHeight (neighborChunk : Chunk.t) (x z : Q) : option Q :=
  Chunk.getHeightAt neighborChunk
    (Qmax (Qmin x (Qz (Chunk.getCenterX neighborChunk) + Qn chunkSize / 2 - 1))
          (Qz (Chunk.getCenterX neighborChunk) - Qn chunkSize / 2 + 1))
    (Qmax (Qmin z (Qz (Chunk.getCenterZ neighborChunk) + Qn chunkSize / 2 - 1))
          (Qz (Chunk.getCenterZ neighborChunk) - Qn chunkSize / 2 + 1)).

Definition checkThoroughCollision (s : t) (position : Vec3.t) : bool :=
  let playerHeight : Q := 2%Q in
  let bottomY := (Vec3.y position - playerHeight)%Q in
  let checkPoints :=
    [Vec3.mk (Vec3.x position) bottomY (Vec3.z position)]
    ++ ring 16 position bottomY
    ++ interior position bottomY
    ++ (height ← [bottomY + 0.5; bottomY + 1.0; bottomY + 1.5]%Q;
        ring 8 position height) in
  existsb (λ point,
    let chunkX := chunkCoord (Vec3.x point) in
    let chunkZ := chunkCoord (Vec3.z point) in
    match chunks s !! chunkKey chunkX chunkZ with
    | Some chunk =>
        hits (Chunk.getHeightAt chunk (Vec3.x point) (Vec3.z point)) (Vec3.y point)
    | None =>
        let nearbyHeight :=
          fold_left (λ nearbyHeight neighborKey,
            match chunks s !! neighborKey with
            | Some neighborChunk =>
                match clampedHeight neighborChunk (Vec3.x point) (Vec3.z point) with
                | Some nearHeight =>
                    if Qltb nearbyHeight nearHeight then nearHeight
                    else nearbyHeight
                | None => nearbyHeight
                end
            | None => nearbyHeight
            end) (orthogonalKeys chunkX chunkZ) (-1)%Q in
        Qleb 0 nearbyHeight && Qleb (Vec3.y point) nearbyHeight
    end) checkPoints.

Definition checkCollision (s : t) (position : Vec3.t) : bool :=
  let playerHeight : Q := 2%Q in
  let bottomY := (Vec3.y position - playerHeight)%Q in
  let checkPoints :=
    [Vec3.mk (Vec3.x position) (Vec3.y position - playerHeight) (Vec3.z position)]
    ++ ring 12 position bottomY
    ++ (height ← [Vec3.y position - playerHeight * 0.5; Vec3.y position - 0.2]%Q;
        ring 8 position height) in
  existsb (λ point,
    match chunkOf s (Vec3.x point) (Vec3.z point) with
    | Some chunk =>
        hits (Chunk.getHeightAt chunk (Vec3.x point) (Vec3.z point)) (Vec3.y point)
    | None => false
    end) checkPoints.

Definition checkSimpleCollision (s : t) (position : Vec3.t) : bool :=
  let playerHeight : Q := 2%Q in
  let checkPoints :=
    [Vec3.mk (Vec3.x position) (Vec3.y position - playerHeight) (Vec3.z position)]
    ++ concat (tabulate 8 (λ i,
         let angle := (Qn i / 8 * PI * 2)%Q in
         [Vec3.mk (Vec3.x position + cos angle * playerRadius)
                  (Vec3.y position - playerHeight)
                  (Vec3.z position + sin angle * playerRadius);
          Vec3.mk (Vec3.x position + cos angle * playerRadius)
                  (Vec3.y position - playerHeight / 2)
                  (Vec3.z position + sin angle * playerRadius)])) in
  existsb (λ point,
    match chunkOf s (Vec3.x point) (Vec3.z point) with
    | Some chunk =>
        hits (Chunk.getHeightAt chunk (Vec3.x point) (Vec3.z point)) (Vec3.y point)
    | None => false
    end) checkPoints.

Definition getTerrainHeightBelow (s : t) : sampled :=
  let position := playerPosition s in
  let checkPoints :=
    [Vec3.mk (Vec3.x position) 0 (Vec3.z position)] ++ ring 12 position 0 in
  fold_left (λ maxHeight point,
    match chunkOf s (Vec3.x point) (Vec3.z point) with
    | Some chunk =>
        raise maxHeight (Chunk.getHeightAt chunk (Vec3.x point) (Vec3.z point))
    | None => maxHeight
    end) checkPoints NoTerrain.

Definition getRobustTerrainHeightBelow (s : t) : sampled :=
  let position := playerPosition s in
  let checkPoints :=
    [Vec3.mk (Vec3.x position) 0 (Vec3.z position)]
    ++ interior position 0 ++ ring 16 position 0 in
  fold_left (λ maxHeight point,
    let chunkX := chunkCoord (Vec3.x point) in
    let chunkZ := chunkCoord (Vec3.z point) in
    match chunks s !! chunkKey chunkX chunkZ with
    | Some chunk =>
        raise maxHeight (Chunk.getHeightAt chunk (Vec3.x point) (Vec3.z point))
    | None =>
        fold_left (λ maxHeight neighborKey,
          match chunks s !! neighborKey with
          | Some neighborChunk =>
              raise maxHeight
                (clampedHeight neighborChunk (Vec3.x point) (Vec3.z point))
          | None => maxHeight
          end) (orthogonalKeys chunkX chunkZ) maxHeight
    end) checkPoints NoTerrain.

Definition getTerrainHeightAtPosition (s : t) (x z : Q) : sampled :=
  let chunkX := chunkCoord x in
  let chunkZ := chunkCoord z in
  let n := Z.of_nat chunkSize in
  let own :=
    match chunks s !! chunkKey chunkX chunkZ with
    | Some chunk =>
        match Chunk.getHeightAt chunk x z with
        | Some height => if Qleb 0 height then Some height else None
        | None => None
        end
    | None => None
    end in
  match own with
  | Some height => Terrain height
  | None =>
      let neighborChunks :=
        [chunkKey (chunkX - n) chunkZ; chunkKey (chunkX + n) chunkZ;
         chunkKey chunkX (chunkZ - n); chunkKey chunkX (chunkZ + n);
         chunkKey (chunkX - n) (chunkZ - n); chunkKey (chunkX + n) (chunkZ - n);
         chunkKey (chunkX - n) (chunkZ + n); chunkKey (chunkX + n) (chunkZ + n)] in
      (fold_left (λ '(bestHeight, bestDistance) neighborKey,
         match chunks s !! neighborKey with
         | Some neighborChunk =>
             let chunkCenterX := Qz (Chunk.getCenterX neighborChunk) in
             let chunkCenterZ := Qz (Chunk.getCenterZ neighborChunk) in
             let chunkSizeHalf := (Qn chunkSize / 2)%Q in
             let clampedX :=
               Qmax (Qmin x (chunkCenterX + chunkSizeHalf - 1))
                    (chunkCenterX - chunkSizeHalf) in
             let clampedZ :=
               Qmax (Qmin z (chunkCenterZ + chunkSizeHalf - 1))
                    (chunkCenterZ - chunkSizeHalf) in
             let distance := sqrt ((x - clampedX) ^ 2 + (z - clampedZ) ^ 2)%Q in
             match Chunk.getHeightAt neighborChunk clampedX clampedZ with
             | Some height =>
                 if Qleb 0 height && xlt (Fin distance) bestDistance
                 then (Terrain height, Fin distance)
                 else (bestHeight, bestDistance)
             | None => (bestHeight, bestDistance)
             end
         | None => (bestHeight, bestDistance)
         end) neighborChunks (NoTerrain, Infinity)).1
  end.

(** *** The physics step *)

(** The sub-stepped sweep: the candidates [y + stepSize * i] are tried
    in turn; the sweep stops at the first one that collides and
    returns the last one that did not, with the collision flag. *)
Fixpoint sweep (collides : Q → bool) (y stepSize : Q) (indices : list nat)
    (finalY : Q) : Q * bool :=
  match indices with
  | [] => (finalY, false)
  | i :: indices' =>
      let nextY := (y + stepSize * Qn i)%Q in
      if collides nextY then (finalY, true)
      else sweep collides y stepSize indices' nextY
  end.

(** Part 1 when the player is airborne or moving up. *)
Definition moveVertically (s : t) (playerHeight : Q) : t :=
  let p := playerPosition s in
  let v := playerVelocity s in
  let intendedYMovement := (Vec3.y v * deltaTime)%Q in
  let minSteps := Z.max 10 (Qceiling (Qabs intendedYMovement / 0.05)) in
  let steps := minSteps in
  let stepSize := (intendedYMovement / Qz steps)%Q in
  let useEnhancedChecking := Qltb (Vec3.y v) (-10) in
  let '(finalY, collided) :=
    sweep (λ nextY,
             let testPos := Vec3.mk (Vec3.x p) nextY (Vec3.z p) in
             if useEnhancedChecking then checkThoroughCollision s testPos
             else checkCollision s testPos)
          (Vec3.y p) stepSize (seq 1 (Z.to_nat steps)) (Vec3.y p) in
  let onGround :=
    if collided && Qltb intendedYMovement 0 then true else isOnGround s in
  let vy := if collided then 0%Q else Vec3.y v in
  let s := with_player s (Vec3.mk (Vec3.x p) finalY (Vec3.z p))
                         (Vec3.mk (Vec3.x v) vy (Vec3.z v)) onGround in
  match getRobustTerrainHeightBelow s with
  | Terrain heightBelowPlayer =>
      if Qltb (finalY - playerHeight) heightBelowPlayer then
        with_player s (Vec3.mk (Vec3.x p) (heightBelowPlayer + playerHeight) (Vec3.z p))
                      (Vec3.mk (Vec3.x v) 0 (Vec3.z v)) true
      else s
  | NoTerrain => s
  end.

Definition length (v : Vec3.t) : Q :=
  sqrt (Vec3.x v * Vec3.x v + Vec3.y v * Vec3.y v + Vec3.z v * Vec3.z v)%Q.

(** The careful walk along an edge; [None] when the edge case does not
    apply and the normal movement code runs, [Some] the state the
    function returns with otherwise. *)
Definition walkAlongEdge (s : t) (terrainHeight : sampled) (playerHeight : Q)
    (walkDirection : Vec3.t) : option t :=
  let WALK_SPEED : Q := 0.2%Q in
  let p := playerPosition s in
  let targetX := (Vec3.x p + Vec3.x walkDirection * WALK_SPEED)%Q in
  let targetZ := (Vec3.z p + Vec3.z walkDirection * WALK_SPEED)%Q in
  if isOnGround s then
    let targetHeight := getTerrainHeightAtPosition s targetX targetZ in
    let heightDifference := xsub (toX terrainHeight) (toX targetHeight) in
    if xlt (Fin 0.5) heightDifference && xle heightDifference (Fin 1.0) then
      let probeHeight :=
        getTerrainHeightAtPosition s (Vec3.x p + Vec3.x walkDirection * 0.1)
                                     (Vec3.z p + Vec3.z walkDirection * 0.1) in
      if xlt (Fin 0.5) (xsub (toX terrainHeight) (toX probeHeight)) then
        let safeSize : Q := 0.05%Q in
        let numSteps := Qceiling (WALK_SPEED / safeSize) in
        let fix walk (steps : list nat) (safeX safeZ : Q) : Q * Q * bool :=
          match steps with
          | [] => (safeX, safeZ, true)
          | step :: steps' =>
              let ratio := (Qn step / Qz numSteps)%Q in
              let testX := (Vec3.x p + Vec3.x walkDirection * WALK_SPEED * ratio)%Q in
              let testZ := (Vec3.z p + Vec3.z walkDirection * WALK_SPEED * ratio)%Q in
              let heightHere := getTerrainHeightAtPosition s testX testZ in
              if xlt (Fin 0.5) (xsub (toX terrainHeight) (toX heightHere))
              then (safeX, safeZ, false)
              else walk steps' testX testZ
          end in
        let '(safeX, safeZ, stillOnGround) :=
          walk (seq 1 (Z.to_nat numSteps)) (Vec3.x p) (Vec3.z p) in
        let y :=
          if stillOnGround then
            match getTerrainHeightAtPosition s safeX safeZ with
            | Terrain finalHeight => (finalHeight + playerHeight)%Q
            | NoTerrain => Vec3.y p
            end
          else Vec3.y p in
        Some (with_player s (Vec3.mk safeX y safeZ) (playerVelocity s) (isOnGround s))
      else None
    else None
  else None.

(** The normal horizontal movement of part 2. *)
Definition walk (s : t) (walkDirection : Vec3.t) : t :=
  let WALK_SPEED : Q := 0.2%Q in
  let MAX_STEP_HEIGHT : Q := 0.5%Q in
  let p := playerPosition s in
  let targetX := (Vec3.x p + Vec3.x walkDirection * WALK_SPEED)%Q in
  let targetZ := (Vec3.z p + Vec3.z walkDirection * WALK_SPEED)%Q in
  if isOnGround s then
    let canMoveX := negb (checkSimpleCollision s (Vec3.mk targetX (Vec3.y p) (Vec3.z p))) in
    let canMoveZ := negb (checkSimpleCollision s (Vec3.mk (Vec3.x p) (Vec3.y p) targetZ)) in
    let x := if canMoveX then targetX else Vec3.x p in
    let z := if canMoveZ then targetZ else Vec3.z p in
    if negb canMoveX && negb canMoveZ then
      if negb (checkSimpleCollision s
                 (Vec3.mk targetX (Vec3.y p + MAX_STEP_HEIGHT) targetZ))
      then with_player s (Vec3.mk targetX (Vec3.y p + MAX_STEP_HEIGHT) targetZ)
                         (playerVelocity s) (isOnGround s)
      else with_player s (Vec3.mk x (Vec3.y p) z) (playerVelocity s) (isOnGround s)
    else with_player s (Vec3.mk x (Vec3.y p) z) (playerVelocity s) (isOnGround s)
  else
    if negb (checkCollision s (Vec3.mk targetX (Vec3.y p) targetZ)) then
      with_player s (Vec3.mk targetX (Vec3.y p) targetZ)
                    (playerVelocity s) (isOnGround s)
    else
      let x :=
        if negb (checkCollision s (Vec3.mk targetX (Vec3.y p) (Vec3.z p)))
        then targetX else Vec3.x p in
      let z :=
        if negb (checkCollision s (Vec3.mk x (Vec3.y p) targetZ))
        then targetZ else Vec3.z p in
      with_player s (Vec3.mk x (Vec3.y p) z) (playerVelocity s) (isOnGround s).

(** Part 3: the final ground adjustment. *)
Definition settle (s : t) (playerHeight : Q) : t :=
  if isOnGround s then
    match getTerrainHeightBelow s with
    | Terrain newTerrainHeight =>
        let p := playerPosition s in
        if Qltb 1.0 (Vec3.y p - playerHeight - newTerrainHeight) then
          with_player s p (playerVelocity s) false
        else
          with_player s (Vec3.mk (Vec3.x p) (newTerrainHeight + playerHeight) (Vec3.z p))
                        (playerVelocity s) true
    | NoTerrain => s
    end
  else s.

Definition applyPhysics (s : t) (terrainHeight : sampled) (playerHeight : Q)
    (walkDirection : Vec3.t) : t :=
  let COLLISION_EPSILON : Q := 0.05%Q in
  let MAX_VELOCITY : Q := 20%Q in
  let p := playerPosition s in
  let v := playerVelocity s in
  let vy := Qmax (Qmin (Vec3.y v) MAX_VELOCITY) (- MAX_VELOCITY) in
  let v := Vec3.mk (Vec3.x v) vy (Vec3.z v) in
  let emergency :=
    match terrainHeight with
    | Terrain h => Qltb (Vec3.y p - playerHeight) (h - 0.1)
    | NoTerrain => false
    end in
  let grounded :=
    match terrainHeight with
    | Terrain h => Qleb (Vec3.y p - playerHeight - h) COLLISION_EPSILON
    | NoTerrain => false
    end in
  match terrainHeight, emergency, grounded with
  | Terrain h, true, _ =>
      with_player s (Vec3.mk (Vec3.x p) (h + playerHeight + 0.2) (Vec3.z p))
                    (Vec3.mk (Vec3.x v) 0 (Vec3.z v)) true
  | _, _, _ =>
      (* Part 1: ground detection and vertical movement *)
      let s :=
        match terrainHeight, grounded with
        | Terrain h, true =>
            with_player s (Vec3.mk (Vec3.x p) (h + playerHeight) (Vec3.z p))
                          (Vec3.mk (Vec3.x v) 0 (Vec3.z v)) true
        | _, _ =>
            with_player s p
              (Vec3.mk (Vec3.x v) (vy - gravity * deltaTime) (Vec3.z v)) false
        end in
      let s :=
        if negb (isOnGround s) || Qltb 0 (Vec3.y (playerVelocity s))
        then moveVertically s playerHeight
        else s in
      (* Part 2: horizontal movement *)
      let moved :=
        if Qltb 0 (length walkDirection) then
          match walkAlongEdge s terrainHeight playerHeight walkDirection with
          | Some s' => inl s'
          | None => inr (walk s walkDirection)
          end
        else inr s in
      (* Part 3: final ground adjustment *)
      match moved with
      | inl s' => s'
      | inr s => settle s playerHeight
      end
  end.

(** The physics of one frame, as [draw] runs it after the chunks have
    been reconciled. *)
Definition physicsTick (s : t) (walkDirection : Vec3.t) : t :=
  let terrainHeight := getTerrainHeightBelow s in
  let playerHeight : Q := 2.0%Q in
  applyPhysics s terrainHeight playerHeight walkDirection.
End Physics.

(** [draw], without the rendering: reconcile the chunks, sample the
    terrain, apply the physics. *)
Definition draw {RandState : Type} (Rand : string → RandState)
    (next : RandState → Q * RandState) (cos sin sqrt : Q → Q) (PI : Q)
    (s : t) (walkDirection : Vec3.t) : option t :=
  s ← updateChunks Rand next s;
  Some (physicsTick cos sin sqrt PI s walkDirection).

End MinecraftAnimation.

(** ** The render buffers of the height-field chunk ([Chunk.generateCubes])

    The constructor calls [generateCubes] after [generateHeightMap]; the
    three fields it writes are functions of the chunk's centre, size and
    heights.  The typed arrays hold the numbers written to them (chunk
    coordinates and heights are half-integers far below [2^24], which a
    [Float32Array] stores exactly).  A height that is missing from
    [heights] is outside the model: the passes return [None] there. *)

Module ChunkBuffers.

Record t : Type := mk {
  cubes : Q;
  cubePositionsF32 : list Q;
  blockTypesF32 : list Q
}.

(** The integer part of a number, rounding toward zero. *)
Definition truncate (q : Q) : Z := Z.quot (Qnum q) (Z.pos (Qden q)).

(** [new Float32Array(length)]: the length is truncated to an integer; a
    negative one is a [RangeError]; the elements start at 0. *)
Definition Float32Array (length : Q) : option (list Q) :=
  let n := truncate length in
  if n <? 0 then None else Some (replicate (Z.to_nat n) 0%Q).

(** The first pass: [cubeCount += Math.min(6, height + 1)] over the
    columns. *)
Definition countCubes (c : Chunk.t) : option Q :=
  for_loop (Chunk.size c) (λ i, for_loop (Chunk.size c) (λ j cubeCount,
    height ← item2 (Chunk.heights c) (Z.of_nat i) (Z.of_nat j);
    Some (cubeCount + Qmin 6 (height + 1))%Q)) 0%Q.

(** The four position writes and the type write of one instance, and
    [idx++].  A write past the end of a typed array is ignored. *)
Definition writeCube (st : list Q * list Q * nat) (x y z blockType : Q)
  : list Q * list Q * nat :=
  let '(positions, types, idx) := st in
  (<[(4 * idx + 3)%nat := 0%Q]>
     (<[(4 * idx + 2)%nat := z]>
        (<[(4 * idx + 1)%nat := y]>
           (<[(4 * idx + 0)%nat := x]> positions))),
   <[idx := blockType]> types,
   S idx).

(** The second pass: the top cube of each column, then up to five cubes
    below it. *)
Definition fillCubes (c : Chunk.t) (st : list Q * list Q * nat)
  : option (list Q * list Q * nat) :=
  let topleftx := (Qz (Chunk.x c) - Qn (Chunk.size c) / 2)%Q in
  let topleftz := (Qz (Chunk.z c) - Qn (Chunk.size c) / 2)%Q in
  for_loop (Chunk.size c) (λ i, for_loop (Chunk.size c) (λ j st,
    height ← item2 (Chunk.heights c) (Z.of_nat i) (Z.of_nat j);
    let worldX := (topleftx + Qn j)%Q in
    let worldZ := (topleftz + Qn i)%Q in
    let blockType := Chunk.getBlockType height worldX worldZ in
    let st := writeCube st worldX height worldZ (Qz blockType) in
    let depthToDraw := Qmin 5 height in
    for_loop (Z.to_nat (Qfloor depthToDraw)) (λ k st,
      let d := Qn (S k) in
      Some (writeCube st worldX (height - d) worldZ 1%Q)) st)) st.

Definition generateCubes (c : Chunk.t) : option t :=
  cubes ← countCubes c;
  cubePositionsF32 ← Float32Array (4 * cubes);
  blockTypesF32 ← Float32Array cubes;
  '(cubePositionsF32, blockTypesF32, _) ←
    fillCubes c (cubePositionsF32, blockTypesF32, 0%nat);
  Some (mk cubes cubePositionsF32 blockTypesF32).


End ChunkBuffers.

(** ** The day and night cycle ([MinecraftAnimation.updateDayNightCycle])

    The fields [timeOfDay], [cycleSpeed], [lightPosition] and
    [backgroundColor] of the driver, which no other method writes after
    the constructor.  The components of a [Vec4] are the numbers computed
    (the library stores them in single precision).  The method also
    computes [brightness] and [ambientColor], which it does not use. *)

Module Vec4.
Record t : Type := mk { x : Q; y : Q; z : Q; w : Q }.
End Vec4.

Module DayNight.

Record t : Type := mk {
  timeOfDay : Q;
  cycleSpeed : Q;
  lightPosition : Vec4.t;
  backgroundColor : Vec4.t
}.

(** The values the field initialisers and the constructor give. *)
Definition initial : t :=
  mk 0.25 0.01 (Vec4.mk 1000 1000 1000 1) (Vec4.mk 0.5 0.8 1.0 1.0).

Section Cycle.
(** [Math.cos], [Math.sin] and [Math.PI]. *)
Variables (cos sin : Q → Q) (PI : Q).

Definition updateDayNightCycle (s : t) : t :=
  let timeOfDay := (timeOfDay s + cycleSpeed s)%Q in
  let timeOfDay := if Qltb 1.0 timeOfDay then (timeOfDay - 1.0)%Q else timeOfDay in
  let angle := (timeOfDay * 2.0 * PI)%Q in
  let sunX := (cos angle * 1000.0)%Q in
  let sunY := (sin angle * 1000.0)%Q in
  let sunZ := 100.0%Q in
  let nightSky := Vec4.mk 0.05 0.02 0.1 1.0 in
  let daySky := Vec4.mk 0.5 0.8 1.0 1.0 in
  let blend := Qmax 0 (sin (timeOfDay * PI)) in
  mk timeOfDay (cycleSpeed s)
     (Vec4.mk sunX sunY sunZ 1.0)
     (Vec4.mk (Vec4.x daySky * blend + Vec4.x nightSky * (1 - blend))
              (Vec4.y daySky * blend + Vec4.y nightSky * (1 - blend))
              (Vec4.z daySky * blend + Vec4.z nightSky * (1 - blend))
              1.0).
End Cycle.

Definition adjustCycleSpeed (s : t) (delta : Q) : t :=
  mk (timeOfDay s) (Qmax 0.0 (cycleSpeed s + delta)) (lightPosition s) (backgroundColor s).

End DayNight.

(** * Vocabulary of the statements *)

(** ** Shapes of arrays *)

(** An array of length [n] whose element at [i] satisfies [P i]. *)
Definition vec {A : Type} (n : nat) (P : nat → A → Prop) (a : list A) : Prop :=
  length a = n ∧ ∀ i, (i < n)%nat → ∃ v, a !! i = Some v ∧ P i v.

(** An [n × m] array whose element at [(i, j)] satisfies [P i j]. *)
Definition grid2 {A : Type} (n m : nat) (P : nat → nat → A → Prop)
    (a : list (list A)) : Prop :=
  vec n (λ i, vec m (P i)) a.

(** An [n × m × p] array whose element at [(i, j, k)] satisfies [P i j k]. *)
Definition grid3 {A : Type} (n m p : nat) (P : nat → nat → nat → A → Prop)
    (a : list (list (list A))) : Prop :=
  vec n (λ i, grid2 m p (P i)) a.

(** ** Chunk keys *)


(** ** Stages of the volumetric generator *)

(** The stages after the first one replace the block grid only. *)
Definition same_frame (t0 t1 : VolumetricTerrain.t) : Prop :=
  VolumetricTerrain.seed t1 = VolumetricTerrain.seed t0
  ∧ VolumetricTerrain.chunkX t1 = VolumetricTerrain.chunkX t0
  ∧ VolumetricTerrain.chunkY t1 = VolumetricTerrain.chunkY t0
  ∧ VolumetricTerrain.chunkZ t1 = VolumetricTerrain.chunkZ t0
  ∧ VolumetricTerrain.size t1 = VolumetricTerrain.size t0
  ∧ VolumetricTerrain.heightMap t1 = VolumetricTerrain.heightMap t0.

(** ** Streaming *)

Section Reconciled.
Context {RandState : Type}.
Variable Rand : string → RandState.
Variable next : RandState → Q * RandState.

(** The states in which the streaming manager has just reconciled the
    chunk map against the player position: after the initial chunks are
    generated from an empty map (by the constructor or by [reset]), and
    after [updateChunks] in a frame, whatever the player did since the
    last one. *)
Inductive reconciled : MinecraftAnimation.t → Prop :=
  | reconciled_init s0 s :
      MinecraftAnimation.chunks s0 = ∅ →
      MinecraftAnimation.generateInitialChunks Rand next s0 = Some s →
      reconciled s
  | reconciled_tick s position velocity onGround s' :
      reconciled s →
      MinecraftAnimation.updateChunks Rand next
        (MinecraftAnimation.with_player s position velocity onGround) = Some s' →
      reconciled s'.
End Reconciled.

(** A seeded generator [Rand] whose every draw is [0.5]: the
    terrain with its noise disabled. *)
Definition neutralRand : string → unit := λ _, tt.
Definition neutralNext : unit → Q * unit := λ st, (0.5%Q, st).

(** The keys of the 3x3 grid centred on the chunk the player occupies. *)
Definition playerChunkKeys (s : MinecraftAnimation.t) : list string :=
  MinecraftAnimation.gridKeys
    (MinecraftAnimation.chunkCoord (Vec3.x (MinecraftAnimation.playerPosition s)))
    (MinecraftAnimation.chunkCoord (Vec3.z (MinecraftAnimation.playerPosition s))).

(** ** Block grids *)

(** A terrain whose two arrays have the dimensions the constructor gives
    them. *)
Definition well_formed (t : VolumetricTerrain.t) : Prop :=
  grid2 (VolumetricTerrain.size t) (VolumetricTerrain.size t) (λ _ _ _, True)
    (VolumetricTerrain.heightMap t)
  ∧ grid3 (VolumetricTerrain.size t) (VolumetricTerrain.size t) (VolumetricTerrain.size t)
      (λ _ _ _ _, True) (VolumetricTerrain.blockData t).

(** The six axis-aligned neighbours of a cell, in the order
    [isBlockHidden] looks at them. *)
Definition neighbors (x y z : Z) : list (Z * Z * Z) :=
  [(x + 1, y, z); (x - 1, y, z); (x, y + 1, z); (x, y - 1, z); (x, y, z + 1); (x, y, z - 1)].

(** A position inside the chunk. *)
Definition in_chunk (t : VolumetricTerrain.t) (p : Z * Z * Z) : Prop :=
  let n := Z.of_nat (VolumetricTerrain.size t) in
  0 <= p.1.1 < n ∧ 0 <= p.1.2 < n ∧ 0 <= p.2 < n.

(** The content of the cell at a position. *)
Definition block_at (t : VolumetricTerrain.t) (p : Z * Z * Z) : option cell :=
  item3 (VolumetricTerrain.blockData t) p.1.1 p.1.2 p.2.

(** A solid and opaque material: neither air nor water nor lava. *)
Definition solid_opaque (b : BlockType) : Prop := b ≠ AIR ∧ b ≠ WATER ∧ b ≠ LAVA.

(** A neighbour position through which a cell can be seen: outside the
    chunk, or holding [null], air, water or lava. *)
Definition open_side (t : VolumetricTerrain.t) (p : Z * Z * Z) : Prop :=
  ¬ in_chunk t p
  ∨ block_at t p = Some None
  ∨ block_at t p = Some (Some AIR)
  ∨ block_at t p = Some (Some WATER)
  ∨ block_at t p = Some (Some LAVA).

(** A neighbour position that covers a side: inside the chunk and holding
    a solid, opaque block. *)
Definition covered_side (t : VolumetricTerrain.t) (p : Z * Z * Z) : Prop :=
  in_chunk t p ∧ ∃ b, block_at t p = Some (Some b) ∧ solid_opaque b.

(** The block [extractBlocks] pushes for the cell [(x, y, z)] of type
    [b]. *)
Definition block_of (t : VolumetricTerrain.t) (x y z : nat) (b : BlockType) : Block.t :=
  Block.mk (Qz (VolumetricTerrain.chunkX t) - Qn (VolumetricTerrain.size t) / 2 + Qn x)
           (Qz (VolumetricTerrain.chunkY t) + Qn y)
           (Qz (VolumetricTerrain.chunkZ t) - Qn (VolumetricTerrain.size t) / 2 + Qn z) b.

(** The cell [(x, y, z)] appears in the extracted list: the list exists
    and holds the block of the cell. *)
Definition appears (t : VolumetricTerrain.t) (x y z : nat) : Prop :=
  ∃ blocks b,
    VolumetricTerrain.extractBlocks t = Some blocks
    ∧ block_at t (Z.of_nat x, Z.of_nat y, Z.of_nat z) = Some (Some b)
    ∧ block_of t x y z b ∈ blocks.

(** The cell [(x, y, z)] does not appear: the list exists and none of its
    blocks lies at the position of the cell. *)
Definition absent (t : VolumetricTerrain.t) (x y z : nat) : Prop :=
  ∃ blocks,
    VolumetricTerrain.extractBlocks t = Some blocks
    ∧ ∀ b, b ∈ blocks →
        ¬ (Block.x b == Block.x (block_of t x y z AIR)
           ∧ Block.y b == Block.y (block_of t x y z AIR)
           ∧ Block.z b == Block.z (block_of t x y z AIR))%Q.

(** A terrain at the origin whose every cell holds the block [b], under a
    flat height map; and the same terrain with one cell replaced. *)
Definition uniformTerrain (size : nat) (b : BlockType) (height : Q) : VolumetricTerrain.t :=
  VolumetricTerrain.mk "0,0" 0 0 0 size (replicate size (replicate size height))
    (replicate size (replicate size (replicate size (Some b)))).

Definition uniformTerrainWith (size : nat) (b : BlockType) (height : Q)
    (x y z : nat) (b' : BlockType) : VolumetricTerrain.t :=
  VolumetricTerrain.with_blockData (uniformTerrain size b height)
    (store3 (VolumetricTerrain.blockData (uniformTerrain size b height)) x y z (Some b')).

(** The cell a world coordinate falls into. *)
Definition localCell (t : VolumetricTerrain.t) (worldX worldY worldZ : Q) : Z * Z * Z :=
  (Qfloor (worldX - (Qz (VolumetricTerrain.chunkX t) - Qn (VolumetricTerrain.size t) / 2)),
   Qfloor (worldY - Qz (VolumetricTerrain.chunkY t)),
   Qfloor (worldZ - (Qz (VolumetricTerrain.chunkZ t) - Qn (VolumetricTerrain.size t) / 2))).

(** A chunk around a given terrain, with its instance buffers filled. *)
Definition chunkOfTerrain (t : VolumetricTerrain.t) : VolumetricChunk.t :=
  VolumetricChunk.generateCubes
    (VolumetricChunk.mk 0 [] [] t (VolumetricTerrain.chunkX t) (VolumetricTerrain.chunkZ t)
       (VolumetricTerrain.size t)).

(** ** Sampling a noise grid *)

(** Modelled from the spec: the smoothstep weight, the cubic Hermite
    polynomial [3t² − 2t³]. *)
Definition hermite (t : Q) : Q := (3 * t ^ 2 - 2 * t ^ 3)%Q.

(** Modelled from the spec: the lower of the two grid lines that enclose
    a coordinate along an axis. *)
Definition lowerCorner (c : Q) : Z := Qfloor c.

(** Modelled from the spec: the upper of the two grid lines along an axis
    of [n] cells, clamped at the grid's edge (no wraparound). *)
Definition upperCorner (n : nat) (c : Q) : Z := Z.min (Qfloor c + 1) (Z.of_nat n - 1).

(** Modelled from the spec: the fractional part of a coordinate. *)
Definition fractionalPart (c : Q) : Q := (c - inject_Z (Qfloor c))%Q.

(** Modelled from the spec: the sample of an [n × m] grid at [(x, z)] as
    the mean of the 4 enclosing corners, each axis weighted by [w] of the
    fractional part. *)
Definition weightedBilinear (w : Q → Q) (n m : nat) (grid : list (list Q)) (x z : Q)
  : option Q :=
  let wx := w (fractionalPart x) in
  let wz := w (fractionalPart z) in
  c11 ← item2 grid (lowerCorner x) (lowerCorner z);
  c21 ← item2 grid (upperCorner n x) (lowerCorner z);
  c12 ← item2 grid (lowerCorner x) (upperCorner m z);
  c22 ← item2 grid (upperCorner n x) (upperCorner m z);
  Some ((1 - wx) * (1 - wz) * c11 + wx * (1 - wz) * c21
        + (1 - wx) * wz * c12 + wx * wz * c22)%Q.

(** Modelled from the spec: the sample of an [n × m × p] grid at
    [(x, y, z)] as the mean of the 8 enclosing corners. *)
Definition weightedTrilinear (w : Q → Q) (n m p : nat) (grid : list (list (list Q)))
    (x y z : Q) : option Q :=
  let wx := w (fractionalPart x) in
  let wy := w (fractionalPart y) in
  let wz := w (fractionalPart z) in
  c000 ← item3 grid (lowerCorner x) (lowerCorner y) (lowerCorner z);
  c100 ← item3 grid (upperCorner n x) (lowerCorner y) (lowerCorner z);
  c010 ← item3 grid (lowerCorner x) (upperCorner m y) (lowerCorner z);
  c110 ← item3 grid (upperCorner n x) (upperCorner m y) (lowerCorner z);
  c001 ← item3 grid (lowerCorner x) (lowerCorner y) (upperCorner p z);
  c101 ← item3 grid (upperCorner n x) (lowerCorner y) (upperCorner p z);
  c011 ← item3 grid (lowerCorner x) (upperCorner m y) (upperCorner p z);
  c111 ← item3 grid (upperCorner n x) (upperCorner m y) (upperCorner p z);
  Some ((1 - wx) * (1 - wy) * (1 - wz) * c000 + wx * (1 - wy) * (1 - wz) * c100
        + (1 - wx) * wy * (1 - wz) * c010 + wx * wy * (1 - wz) * c110
        + (1 - wx) * (1 - wy) * wz * c001 + wx * (1 - wy) * wz * c101
        + (1 - wx) * wy * wz * c011 + wx * wy * wz * c111)%Q.

(** Two results that are both defined and equal as numbers. *)
Definition same_number (a b : option Q) : Prop :=
  ∃ v w, a = Some v ∧ b = Some w ∧ (v == w)%Q.

(** ** Two constructions *)

(** A source of [Math.random] whose first eight draws are [0.9] and whose
    later draws are [0]. *)
Definition twoStageSource : RandomSource := λ n, if (n <? 8)%nat then 0.9%Q else 0%Q.

(** Two states of an ore or cave loop, one of a construction that started
    at draw [k1] and one of a construction that started at draw [k2]: the
    same block grid, after the same number of draws. *)
Definition aligned (k1 k2 : nat) (st1 st2 : list (list (list cell)) * nat) : Prop :=
  st1.1 = st2.1 ∧ ∃ d : nat, st1.2 = (k1 + d)%nat ∧ st2.2 = (k2 + d)%nat.

(** Two implementations of the seeded generator that yield the same
    numbers: their states are related by [R] after seeding, and related
    states yield the same number and related states. *)
Definition same_draws {S1 S2 : Type} (R : S1 → S2 → Prop)
    (Rand1 : string → S1) (next1 : S1 → Q * S1)
    (Rand2 : string → S2) (next2 : S2 → Q * S2) : Prop :=
  (∀ seed, R (Rand1 seed) (Rand2 seed))
  ∧ ∀ s1 s2, R s1 s2 → (next1 s1).1 = (next2 s2).1 ∧ R (next1 s1).2 (next2 s2).2.

(** ** Cave carving *)





(** ** The physics of a falling player *)

(** No walk input. *)
Definition noWalk : Vec3.t := Vec3.mk 0 0 0.

(** A point of the horizontal plane within the player's radius of
    [(x, z)]. *)
Definition near (x z : Q) (q : Vec3.t) : Prop :=
  (x - 0.4 <= Vec3.x q ∧ Vec3.x q <= x + 0.4 ∧ z - 0.4 <= Vec3.z q ∧ Vec3.z q <= z + 0.4)%Q.

(** The player stands over the far half of the square its chunk key
    names.  The key of a point [v] is [kx = floor(v / 64) * 64], which
    names the points from [kx] to [kx + 64]; the chunk stored under the
    key is centred on [kx] and covers the points from [kx - 32] to
    [kx + 32].  Here the whole footprint of the player has [x] between
    [kx + 32] and [kx + 64]. *)
Definition in_dead_zone (s : MinecraftAnimation.t) : Prop :=
  let p := MinecraftAnimation.playerPosition s in
  let kx := MinecraftAnimation.chunkCoord (Vec3.x p) in
  let kz := MinecraftAnimation.chunkCoord (Vec3.z p) in
  (∃ c, MinecraftAnimation.chunks s !! MinecraftAnimation.chunkKey kx kz = Some c
        ∧ Chunk.x c = kx ∧ Chunk.z c = kz ∧ Chunk.size c = MinecraftAnimation.chunkSize)
  ∧ (Qz kx + 32.5 <= Vec3.x p ∧ Vec3.x p <= Qz kx + 63.5)%Q
  ∧ (Qz kz + 0.5 <= Vec3.z p ∧ Vec3.z p <= Qz kz + 63.5)%Q.

(** The state after [n] physics ticks without walk input, on a fixed
    set of chunks. *)
Definition ticks (cos sin sqrt : Q → Q) (PI : Q) (n : nat) (s : MinecraftAnimation.t)
  : MinecraftAnimation.t :=
  Nat.iter n (λ s, MinecraftAnimation.physicsTick cos sin sqrt PI s noWalk) s.

(** A chunk of uniform height. *)
Definition flatChunk (centerX centerZ : Z) (height : Q) : Chunk.t :=
  Chunk.mk centerX centerZ 64 (replicate 64 (replicate 64 height))
    (pretty centerX +:+ "," +:+ pretty centerZ).

(** The 3 x 3 grid of flat chunks around the origin, with a player at
    rest in the air at [(x, y, z)]. *)
Definition flatWorld (height : Q) : gmap string Chunk.t :=
  list_to_map
    ((λ '(dx, dz), (MinecraftAnimation.chunkKey (dx * 64) (dz * 64),
                    flatChunk (dx * 64) (dz * 64) height))
       <$> MinecraftAnimation.neighborhood).

Definition dropped (height x y z : Q) : MinecraftAnimation.t :=
  MinecraftAnimation.mk (flatWorld height) "0,0" (Vec3.mk x y z) (Vec3.mk 0 0 0) false.

(** Rational stand-ins for [Math.cos], [Math.sin], [Math.sqrt] and
    [Math.PI]: the first terms of the series, clipped to [[-1, 1]]. *)
Definition coarseCos (a : Q) : Q := Qmax (-1) (Qmin 1 (1 - a * a / 2)).
Definition coarseSin (a : Q) : Q := Qmax (-1) (Qmin 1 a).
Definition coarseSqrt (a : Q) : Q := a.
Definition coarsePI : Q := 3.14.

(** The player stands over the near half of the square its chunk key
    names, on both axes, where the chunk stored under the key covers the
    whole footprint; that chunk is flat, of height [H]. *)
Definition over_flat_ground (H : Q) (s : MinecraftAnimation.t) : Prop :=
  let p := MinecraftAnimation.playerPosition s in
  let kx := MinecraftAnimation.chunkCoord (Vec3.x p) in
  let kz := MinecraftAnimation.chunkCoord (Vec3.z p) in
  (∃ c, MinecraftAnimation.chunks s !! MinecraftAnimation.chunkKey kx kz = Some c
        ∧ Chunk.x c = kx ∧ Chunk.z c = kz ∧ Chunk.size c = MinecraftAnimation.chunkSize
        ∧ Chunk.heights c = replicate 64 (replicate 64 H))
  ∧ (Qz kx + 0.5 <= Vec3.x p ∧ Vec3.x p <= Qz kx + 31.5)%Q
  ∧ (Qz kz + 0.5 <= Vec3.z p ∧ Vec3.z p <= Qz kz + 31.5)%Q
  ∧ (0 <= H)%Q.

(** ** Chunks and their keys *)

(** Every chunk of the map is stored under the key of its centre, has
    the size the driver streams, and carries the key as its seed. *)
Definition keyed_by_centre (chunks : gmap string Chunk.t) : Prop :=
  ∀ key c, chunks !! key = Some c →
    key = MinecraftAnimation.chunkKey (Chunk.x c) (Chunk.z c)
    ∧ Chunk.size c = MinecraftAnimation.chunkSize
    ∧ Chunk.seed c = key.

(** ** The height-field chunk *)


(** ** Render buffers *)









(** ** Layers of the volumetric terrain *)

(** Where the construction can leave a block of each type: in a cell
    [worldHeight] high of a column whose surface is [surface] high. *)
Definition layer (surface worldHeight : Q) (b : BlockType) : Prop :=
  let depth := (surface - worldHeight)%Q in
  match b with
  | WATER => (surface < worldHeight ∧ worldHeight < 35)%Q
  | AIR => (surface < worldHeight ∧ 35 <= worldHeight)%Q ∨ (5 <= depth)%Q
  | GRASS => (worldHeight == surface ∧ 35 <= worldHeight ∧ worldHeight <= 65)%Q
  | SNOW => (worldHeight == surface ∧ 65 < worldHeight)%Q
  | SAND => (worldHeight <= surface ∧ worldHeight < 35)%Q
  | DIRT => (worldHeight < surface ∧ 35 <= worldHeight)%Q
  | STONE => (worldHeight < surface)%Q
  | COAL => (5 <= depth)%Q
  | IRON => (10 < depth)%Q
  | GOLD => (25 < depth)%Q
  | DIAMOND => (40 < depth)%Q
  | LAVA => (5 <= depth ∧ worldHeight < 12)%Q
  | WOOD | LEAVES => False
  end.

(** A block grid every cell of which holds a block in its layer. *)
Definition layered (heightMap : list (list Q)) (chunkY : Z) (n : nat)
    (blocks : list (list (list cell))) : Prop :=
  ∀ x y z, (x < n)%nat → (y < n)%nat → (z < n)%nat →
    ∃ surface b,
      item2 heightMap (Z.of_nat x) (Z.of_nat z) = Some surface
      ∧ item3 blocks (Z.of_nat x) (Z.of_nat y) (Z.of_nat z) = Some (Some b)
      ∧ layer surface (Qz chunkY + Qn y) b.

(** ** Instances of the volumetric chunk *)


(** ** Effects of the physics *)

(** A step that leaves the chunk map, the current chunk and the
    horizontal velocity as they were. *)
Definition same_world (s s' : MinecraftAnimation.t) : Prop :=
  MinecraftAnimation.chunks s' = MinecraftAnimation.chunks s
  ∧ MinecraftAnimation.currentChunk s' = MinecraftAnimation.currentChunk s
  ∧ Vec3.x (MinecraftAnimation.playerVelocity s') = Vec3.x (MinecraftAnimation.playerVelocity s)
  ∧ Vec3.z (MinecraftAnimation.playerVelocity s') = Vec3.z (MinecraftAnimation.playerVelocity s).

(** A step that leaves the player over the same point of the plane. *)
Definition same_column (s s' : MinecraftAnimation.t) : Prop :=
  Vec3.x (MinecraftAnimation.playerPosition s') = Vec3.x (MinecraftAnimation.playerPosition s)
  ∧ Vec3.z (MinecraftAnimation.playerPosition s') = Vec3.z (MinecraftAnimation.playerPosition s).

(** A step that keeps the vertical velocity or stops it. *)
Definition same_or_stopped (s s' : MinecraftAnimation.t) : Prop :=
  Vec3.y (MinecraftAnimation.playerVelocity s') = Vec3.y (MinecraftAnimation.playerVelocity s)
  ∨ Vec3.y (MinecraftAnimation.playerVelocity s') = 0%Q.

(** A check point over the same point of the plane, no higher. *)
Definition lower_point (q' q : Vec3.t) : Prop :=
  Vec3.x q' = Vec3.x q ∧ Vec3.z q' = Vec3.z q ∧ (Vec3.y q' <= Vec3.y q)%Q.

(** ** Samples under the player *)

(** The points [getTerrainHeightBelow] samples, and the height the chunk
    of a point reports at it, when that chunk is loaded. *)
Definition pointsBelow (cos sin : Q → Q) (PI : Q) (s : MinecraftAnimation.t) : list Vec3.t :=
  let position := MinecraftAnimation.playerPosition s in
  [Vec3.mk (Vec3.x position) 0 (Vec3.z position)]
  ++ MinecraftAnimation.ring cos sin PI 12 position 0.

Definition heightAtPoint (s : MinecraftAnimation.t) (q : Vec3.t) : option Q :=
  chunk ← MinecraftAnimation.chunkOf s (Vec3.x q) (Vec3.z q);
  Chunk.getHeightAt chunk (Vec3.x q) (Vec3.z q).

(** ** The sky *)

(** A colour whose components lie between those of two colours. *)
Definition between_colours (lo hi c : Vec4.t) : Prop :=
  (Vec4.x lo <= Vec4.x c ∧ Vec4.x c <= Vec4.x hi
   ∧ Vec4.y lo <= Vec4.y c ∧ Vec4.y c <= Vec4.y hi
   ∧ Vec4.z lo <= Vec4.z c ∧ Vec4.z c <= Vec4.z hi
   ∧ Vec4.w c == 1)%Q.

(** * Properties *)

(** ** Comparisons and floors *)

Lemma Qltb_lt (a b : Q) : Qltb a b = true ↔ (a < b)%Q.
Proof.
  unfold Qltb. rewrite Qlt_alt. destruct (a ?= b)%Q; intuition congruence.
Qed.

Lemma Qltb_ge (a b : Q) : Qltb a b = false ↔ (b <= a)%Q.
Proof.
  rewrite <- not_true_iff_false, Qltb_lt. split.
  - apply Qnot_lt_le.
  - apply Qle_not_lt.
Qed.

Lemma Qleb_le (a b : Q) : Qleb a b = true ↔ (a <= b)%Q.
Proof.
  unfold Qleb. rewrite Qle_alt. destruct (a ?= b)%Q; intuition congruence.
Qed.

Lemma Qleb_gt (a b : Q) : Qleb a b = false ↔ (b < a)%Q.
Proof.
  rewrite <- not_true_iff_false, Qleb_le. split.
  - apply Qnot_le_lt.
  - apply Qlt_not_le.
Qed.

Lemma Qfloor_nonneg (q : Q) : 0 <= Qfloor q ↔ (0 <= q)%Q.
Proof.
  split; intros H.
  - apply Qle_trans with (inject_Z (Qfloor q)); [|apply Qfloor_le].
    change 0%Q with (inject_Z 0). now rewrite <- Zle_Qle.
  - change 0 with (Qfloor (inject_Z 0)). now apply Qfloor_resp_le.
Qed.

Lemma Qfloor_lt_Z (q : Q) (n : Z) : Qfloor q < n ↔ (q < inject_Z n)%Q.
Proof.
  split; intros H.
  - apply Qlt_le_trans with (inject_Z (Qfloor q + 1)); [apply Qlt_floor|].
    rewrite <- Zle_Qle. lia.
  - apply Z.lt_nge. intros Hle. apply (Qlt_not_le _ _ H).
    apply Qle_trans with (inject_Z (Qfloor q)); [|apply Qfloor_le].
    now rewrite <- Zle_Qle.
Qed.

(** The bounds test shared by the queries: a local coordinate passes it
    exactly when the world coordinate lies in [[origin, origin + size)]. *)
Lemma local_in_range (world origin : Q) (size : nat) :
  (0 <=? Qfloor (world - origin)) && (Qfloor (world - origin) <? Z.of_nat size) = true
  ↔ (origin <= world ∧ world < origin + Qn size)%Q.
Proof.
  rewrite andb_true_iff, Z.leb_le, Z.ltb_lt, Qfloor_nonneg, Qfloor_lt_Z.
  unfold Qn. split; intros [H1 H2]; split; lra.
Qed.

(** ** C3: queries outside a chunk *)

(** C3.  For a world coordinate outside the square
    [[origin, origin + size)] of a chunk on either axis, [getHeightAt]
    returns the sentinel [-1] (for the height-field chunk and for the
    volumetric terrain); for a coordinate outside the cube of a volumetric
    terrain, [getBlockAt] returns [null].  Both results are values: no
    query fails. *)
Theorem out_of_bounds_queries :
  (∀ (c : Chunk.t) (worldX worldZ : Q),
      ¬ ((Chunk.originX c <= worldX ∧ worldX < Chunk.originX c + Qn (Chunk.size c))
         ∧ (Chunk.originZ c <= worldZ ∧ worldZ < Chunk.originZ c + Qn (Chunk.size c)))%Q →
      Chunk.getHeightAt c worldX worldZ = Some (-1)%Q)
  ∧ (∀ (t : VolumetricTerrain.t) (worldX worldZ : Q),
      let originX := (Qz (VolumetricTerrain.chunkX t) - Qn (VolumetricTerrain.size t) / 2)%Q in
      let originZ := (Qz (VolumetricTerrain.chunkZ t) - Qn (VolumetricTerrain.size t) / 2)%Q in
      ¬ ((originX <= worldX ∧ worldX < originX + Qn (VolumetricTerrain.size t))
         ∧ (originZ <= worldZ ∧ worldZ < originZ + Qn (VolumetricTerrain.size t)))%Q →
      VolumetricTerrain.getHeightAt t worldX worldZ = Some (-1)%Q)
  ∧ (∀ (t : VolumetricTerrain.t) (worldX worldY worldZ : Q),
      let originX := (Qz (VolumetricTerrain.chunkX t) - Qn (VolumetricTerrain.size t) / 2)%Q in
      let originY := Qz (VolumetricTerrain.chunkY t) in
      let originZ := (Qz (VolumetricTerrain.chunkZ t) - Qn (VolumetricTerrain.size t) / 2)%Q in
      ¬ ((originX <= worldX ∧ worldX < originX + Qn (VolumetricTerrain.size t))
         ∧ (originY <= worldY ∧ worldY < originY + Qn (VolumetricTerrain.size t))
         ∧ (originZ <= worldZ ∧ worldZ < originZ + Qn (VolumetricTerrain.size t)))%Q →
      VolumetricTerrain.getBlockAt t worldX worldY worldZ = Some None).
Proof.
  split; [|split].
  - intros c worldX worldZ Hout. unfold Chunk.getHeightAt.
    destruct (_ && _ && _ && _) eqn:Hin; [|reflexivity].
    exfalso. apply Hout.
    rewrite <- !andb_assoc, andb_assoc, andb_true_iff in Hin.
    destruct Hin as [Hx Hz].
    apply local_in_range in Hx. apply local_in_range in Hz.
    unfold Chunk.originX, Chunk.originZ. tauto.
  - intros t worldX worldZ originX originZ Hout. unfold VolumetricTerrain.getHeightAt.
    destruct (_ && _ && _ && _) eqn:Hin; [|reflexivity].
    exfalso. apply Hout.
    rewrite <- !andb_assoc, andb_assoc, andb_true_iff in Hin.
    destruct Hin as [Hx Hz].
    apply local_in_range in Hx. apply local_in_range in Hz.
    unfold originX, originZ. tauto.
  - intros t worldX worldY worldZ originX originY originZ Hout.
    unfold VolumetricTerrain.getBlockAt.
    destruct (_ && _ && _ && _ && _ && _) eqn:Hin; [|reflexivity].
    exfalso. apply Hout.
    repeat rewrite andb_true_iff in Hin.
    destruct Hin as [[[[[Hx1 Hx2] Hy1] Hy2] Hz1] Hz2].
    assert (Hx := proj2 (andb_true_iff _ _) (conj Hx1 Hx2)).
    assert (Hy := proj2 (andb_true_iff _ _) (conj Hy1 Hy2)).
    assert (Hz := proj2 (andb_true_iff _ _) (conj Hz1 Hz2)).
    apply local_in_range in Hx. apply local_in_range in Hy. apply local_in_range in Hz.
    unfold originX, originY, originZ. tauto.
Qed.

(** ** C8: jumping *)

(** C8.  A jump from the ground sets the vertical velocity to
    [jumpVelocity], clears the on-ground flag and raises the position by
    the nudge [0.15], leaving everything else as it was; a jump in the air
    changes nothing. *)
Theorem jump_effect (s : MinecraftAnimation.t) :
  let s' := MinecraftAnimation.jump s in
  (MinecraftAnimation.isOnGround s = true →
     Vec3.y (MinecraftAnimation.playerVelocity s') = MinecraftAnimation.jumpVelocity
     ∧ MinecraftAnimation.isOnGround s' = false
     ∧ Vec3.y (MinecraftAnimation.playerPosition s')
       = (Vec3.y (MinecraftAnimation.playerPosition s) + 0.15)%Q
     ∧ (Vec3.y (MinecraftAnimation.playerPosition s)
        < Vec3.y (MinecraftAnimation.playerPosition s'))%Q
     ∧ Vec3.x (MinecraftAnimation.playerPosition s')
       = Vec3.x (MinecraftAnimation.playerPosition s)
     ∧ Vec3.z (MinecraftAnimation.playerPosition s')
       = Vec3.z (MinecraftAnimation.playerPosition s)
     ∧ Vec3.x (MinecraftAnimation.playerVelocity s')
       = Vec3.x (MinecraftAnimation.playerVelocity s)
     ∧ Vec3.z (MinecraftAnimation.playerVelocity s')
       = Vec3.z (MinecraftAnimation.playerVelocity s)
     ∧ MinecraftAnimation.chunks s' = MinecraftAnimation.chunks s
     ∧ MinecraftAnimation.currentChunk s' = MinecraftAnimation.currentChunk s)
  ∧ (MinecraftAnimation.isOnGround s = false → s' = s).
Proof.
  unfold MinecraftAnimation.jump. split; intros Hg; rewrite Hg; [|reflexivity].
  cbn. repeat split; try reflexivity. lra.
Qed.

(** ** Chunk keys are injective *)







(** ** Loops *)

Lemma for_each_nil {St A : Type} (body : A → St → option St) (s : St) :
  for_each [] body s = Some s.
Proof. reflexivity. Qed.

Lemma for_each_failed {St A : Type} (body : A → St → option St) (l : list A) :
  fold_left (λ acc a, s ← acc; body a s) l None = None.
Proof. induction l as [|a l IH]; [reflexivity | exact IH]. Qed.

Lemma for_each_cons {St A : Type} (body : A → St → option St) (a : A) (l : list A)
    (s : St) :
  for_each (a :: l) body s = body a s ≫= for_each l body.
Proof.
  unfold for_each. cbn. destruct (body a s) as [s'|]; cbn; [reflexivity|].
  apply for_each_failed.
Qed.

Lemma for_each_app {St A : Type} (body : A → St → option St) (l1 l2 : list A) (s : St) :
  for_each (l1 ++ l2) body s = for_each l1 body s ≫= for_each l2 body.
Proof.
  revert s. induction l1 as [|a l1 IH]; intros s; [reflexivity|].
  rewrite <- app_comm_cons, !for_each_cons.
  destruct (body a s) as [s'|]; cbn; [apply IH | reflexivity].
Qed.

(** An invariant carried through a loop that completes. *)
Lemma for_each_invariant {St A : Type} (P : St → Prop) (body : A → St → option St)
    (l : list A) (s s' : St) :
  (∀ a s1 s2, a ∈ l → P s1 → body a s1 = Some s2 → P s2) →
  P s → for_each l body s = Some s' → P s'.
Proof.
  revert s. induction l as [|a l IH]; intros s Hbody Hs Hrun.
  - rewrite for_each_nil in Hrun. now inversion Hrun; subst.
  - rewrite for_each_cons in Hrun.
    destruct (body a s) as [s1|] eqn:Ha; [|discriminate]. cbn in Hrun.
    apply (IH s1); [| |exact Hrun].
    + intros b t1 t2 Hb. apply Hbody. now right.
    + apply (Hbody a s s1); [now left | exact Hs | exact Ha].
Qed.

(** ** Arrays *)

Lemma item_nat {A : Type} (a : list A) (i : nat) : item a (Z.of_nat i) = a !! i.
Proof.
  unfold item. destruct (0 <=? Z.of_nat i) eqn:H; [|apply Z.leb_gt in H; lia].
  now rewrite Nat2Z.id.
Qed.

Lemma item_Some {A : Type} (a : list A) (i : Z) (v : A) :
  item a i = Some v ↔ 0 <= i ∧ a !! Z.to_nat i = Some v.
Proof.
  unfold item. destruct (0 <=? i) eqn:H.
  - apply Z.leb_le in H. tauto.
  - apply Z.leb_gt in H. split; [discriminate | lia].
Qed.

Lemma vec_length {A : Type} (n : nat) (P : nat → A → Prop) (a : list A) :
  vec n P a → length a = n.
Proof. now intros [H _]. Qed.

Lemma vec_lookup {A : Type} (n : nat) (P : nat → A → Prop) (a : list A) (i : nat) :
  vec n P a → (i < n)%nat → ∃ v, a !! i = Some v ∧ P i v.
Proof. intros [_ H]. apply H. Qed.

Lemma vec_weaken {A : Type} (n : nat) (P R : nat → A → Prop) (a : list A) :
  (∀ i v, (i < n)%nat → P i v → R i v) → vec n P a → vec n R a.
Proof.
  intros HPR [Hlen Hget]. split; [exact Hlen|].
  intros i Hi. destruct (Hget i Hi) as (v & Hv & HP). eauto.
Qed.

Lemma grid2_weaken {A : Type} (n m : nat) (P R : nat → nat → A → Prop)
    (a : list (list A)) :
  (∀ i j v, (i < n)%nat → (j < m)%nat → P i j v → R i j v) →
  grid2 n m P a → grid2 n m R a.
Proof.
  intros HPR. apply vec_weaken. intros i row Hi. apply vec_weaken. eauto.
Qed.

Lemma grid3_weaken {A : Type} (n m p : nat) (P R : nat → nat → nat → A → Prop)
    (a : list (list (list A))) :
  (∀ i j k v, (i < n)%nat → (j < m)%nat → (k < p)%nat → P i j k v → R i j k v) →
  grid3 n m p P a → grid3 n m p R a.
Proof.
  intros HPR. apply vec_weaken. intros i plane Hi. apply grid2_weaken. eauto.
Qed.

Lemma grid2_item {A : Type} (n m : nat) (P : nat → nat → A → Prop)
    (a : list (list A)) (i j : nat) :
  grid2 n m P a → (i < n)%nat → (j < m)%nat →
  ∃ v, item2 a (Z.of_nat i) (Z.of_nat j) = Some v ∧ P i j v.
Proof.
  intros Ha Hi Hj. destruct (vec_lookup _ _ _ i Ha Hi) as (row & Hrow & Hr).
  destruct (vec_lookup _ _ _ j Hr Hj) as (v & Hv & HP).
  exists v. split; [|exact HP].
  unfold item2. rewrite item_nat, Hrow. cbn. now rewrite item_nat.
Qed.

Lemma grid3_item {A : Type} (n m p : nat) (P : nat → nat → nat → A → Prop)
    (a : list (list (list A))) (i j k : nat) :
  grid3 n m p P a → (i < n)%nat → (j < m)%nat → (k < p)%nat →
  ∃ v, item3 a (Z.of_nat i) (Z.of_nat j) (Z.of_nat k) = Some v ∧ P i j k v.
Proof.
  intros Ha Hi Hj Hk. destruct (vec_lookup _ _ _ i Ha Hi) as (plane & Hplane & Hp).
  destruct (grid2_item _ _ _ _ j k Hp Hj Hk) as (v & Hv & HP).
  exists v. split; [|exact HP].
  unfold item3. rewrite item_nat, Hplane. exact Hv.
Qed.

Lemma vec_replicate {A : Type} (n : nat) (P : nat → A → Prop) (v : A) :
  (∀ i, (i < n)%nat → P i v) → vec n P (replicate n v).
Proof.
  intros HP. split; [apply length_replicate|].
  intros i Hi. exists v. split; [now apply lookup_replicate_2 | now apply HP].
Qed.

Lemma vec_fmap {A B : Type} (n : nat) (P : nat → A → Prop) (R : nat → B → Prop)
    (f : A → B) (a : list A) :
  (∀ i v, (i < n)%nat → P i v → R i (f v)) → vec n P a → vec n R (f <$> a).
Proof.
  intros HPR [Hlen Hget]. split; [now rewrite length_fmap|].
  intros i Hi. destruct (Hget i Hi) as (v & Hv & HP).
  exists (f v). rewrite list_lookup_fmap, Hv. eauto.
Qed.

Lemma grid2_map2D {A B : Type} (n m : nat) (P : nat → nat → A → Prop)
    (R : nat → nat → B → Prop) (f : A → B) (a : list (list A)) :
  (∀ i j v, (i < n)%nat → (j < m)%nat → P i j v → R i j (f v)) →
  grid2 n m P a → grid2 n m R (map2D f a).
Proof.
  intros HPR. unfold map2D. apply vec_fmap. intros i row Hi. apply vec_fmap. eauto.
Qed.

Lemma grid3_map3D {A B : Type} (n m p : nat) (P : nat → nat → nat → A → Prop)
    (R : nat → nat → nat → B → Prop) (f : A → B) (a : list (list (list A))) :
  (∀ i j k v, (i < n)%nat → (j < m)%nat → (k < p)%nat → P i j k v → R i j k (f v)) →
  grid3 n m p P a → grid3 n m p R (map3D f a).
Proof.
  intros HPR. unfold map3D. apply vec_fmap. intros i plane Hi. apply grid2_map2D. eauto.
Qed.

(** ** Loops that fill an array *)

Lemma tabulateM_vec {A : Type} (n : nat) (f : nat → option A) (P : nat → A → Prop) :
  (∀ i, (i < n)%nat → ∃ v, f i = Some v ∧ P i v) →
  ∃ a, tabulateM n f = Some a ∧ vec n P a.
Proof.
  intros Hf. unfold tabulateM.
  assert (Hsome : is_Some (mapM f (seq 0 n))).
  { apply mapM_is_Some, Forall_forall. intros i Hi%elem_of_seq.
    destruct (Hf i) as (v & Hv & _); [lia|]. cbn. now rewrite Hv. }
  destruct Hsome as [a Ha]. exists a. split; [exact Ha|].
  apply mapM_Some in Ha. split.
  - apply Forall2_length in Ha. now rewrite length_seq in Ha.
  - intros i Hi. destruct (Hf i Hi) as (v & Hv & HP).
    destruct (Forall2_lookup_l _ _ _ i i Ha) as (w & Hw & Hfw).
    + now apply lookup_seq_lt.
    + exists v. split; [congruence | exact HP].
Qed.

Lemma tabulateM_inv {A : Type} (n : nat) (f : nat → option A) (a : list A) :
  tabulateM n f = Some a → vec n (λ i v, f i = Some v) a.
Proof.
  unfold tabulateM. intros Ha%mapM_Some. split.
  - apply Forall2_length in Ha. now rewrite length_seq in Ha.
  - intros i Hi. destruct (Forall2_lookup_l _ _ _ i i Ha) as (w & Hw & Hfw).
    + now apply lookup_seq_lt.
    + eauto.
Qed.

Lemma tabulateM_grid2 {A : Type} (n m : nat) (f : nat → nat → option A)
    (P : nat → nat → A → Prop) :
  (∀ i j, (i < n)%nat → (j < m)%nat → ∃ v, f i j = Some v ∧ P i j v) →
  ∃ a, tabulateM n (λ i, tabulateM m (f i)) = Some a ∧ grid2 n m P a.
Proof.
  intros Hf. apply tabulateM_vec. intros i Hi. apply tabulateM_vec. eauto.
Qed.

Lemma tabulateM_grid2_inv {A : Type} (n m : nat) (f : nat → nat → option A)
    (a : list (list A)) :
  tabulateM n (λ i, tabulateM m (f i)) = Some a →
  grid2 n m (λ i j v, f i j = Some v) a.
Proof.
  intros Ha%tabulateM_inv. revert Ha. apply vec_weaken.
  intros i row Hi. apply tabulateM_inv.
Qed.

Lemma tabulateM_grid3 {A : Type} (n m p : nat) (f : nat → nat → nat → option A)
    (P : nat → nat → nat → A → Prop) :
  (∀ i j k, (i < n)%nat → (j < m)%nat → (k < p)%nat →
     ∃ v, f i j k = Some v ∧ P i j k v) →
  ∃ a, tabulateM n (λ i, tabulateM m (λ j, tabulateM p (f i j))) = Some a
       ∧ grid3 n m p P a.
Proof.
  intros Hf. apply tabulateM_vec. intros i Hi. apply tabulateM_grid2. eauto.
Qed.

Lemma tabulateM_grid3_inv {A : Type} (n m p : nat) (f : nat → nat → nat → option A)
    (a : list (list (list A))) :
  tabulateM n (λ i, tabulateM m (λ j, tabulateM p (f i j))) = Some a →
  grid3 n m p (λ i j k v, f i j k = Some v) a.
Proof.
  intros Ha%tabulateM_inv. revert Ha. apply vec_weaken.
  intros i plane Hi. apply tabulateM_grid2_inv.
Qed.

(** ** Noise grids *)

Section DrawFacts.
Context {St : Type} (next : St → Q * St) (P : Q → Prop).
Hypothesis next_P : ∀ st, P (next st).1.

Lemma draws_vec (n : nat) (st : St) : vec n (λ _, P) (draws next n st).1.
Proof.
  revert st. induction n as [|n IH]; intros st; cbn.
  - split; [reflexivity | intros i Hi; lia].
  - pose proof (next_P st) as Hv. destruct (next st) as [v st1]. cbn in Hv.
    specialize (IH st1). destruct (draws next n st1) as [vs st2]. cbn in *.
    destruct IH as [Hlen Hget]. split; [cbn; now rewrite Hlen|].
    intros [|i] Hi; cbn; [eauto|]. apply Hget. lia.
Qed.

Lemma drawRows_grid2 (rows n : nat) (st : St) :
  grid2 rows n (λ _ _, P) (drawRows next rows n st).1.
Proof.
  revert st. induction rows as [|rows IH]; intros st; cbn.
  - split; [reflexivity | intros i Hi; lia].
  - pose proof (draws_vec n st) as Hr. destruct (draws next n st) as [r st1].
    specialize (IH st1). destruct (drawRows next rows n st1) as [rs st2]. cbn in *.
    destruct IH as [Hlen Hget]. split; [cbn; now rewrite Hlen|].
    intros [|i] Hi; cbn; [eauto|]. apply Hget. lia.
Qed.

Lemma drawPlanes_grid3 (planes n : nat) (st : St) :
  grid3 planes n n (λ _ _ _, P) (drawPlanes next planes n st).1.
Proof.
  revert st. induction planes as [|planes IH]; intros st; cbn.
  - split; [reflexivity | intros i Hi; lia].
  - pose proof (drawRows_grid2 n n st) as Hp. destruct (drawRows next n n st) as [p st1].
    specialize (IH st1). destruct (drawPlanes next planes n st1) as [ps st2]. cbn in *.
    destruct IH as [Hlen Hget]. split; [cbn; now rewrite Hlen|].
    intros [|i] Hi; cbn; [eauto|]. apply Hget. lia.
Qed.
End DrawFacts.

(** ** C2: the loaded chunks *)

Opaque MinecraftAnimation.chunkKey MinecraftAnimation.chunkCoord.


Section StreamingFacts.
Context {RandState : Type}.
Variable Rand : string → RandState.
Variable next : RandState → Q * RandState.

Lemma createMissing_dom (a b : Z) (chunks chunks' : gmap string Chunk.t) :
  MinecraftAnimation.createMissing Rand next a b chunks = Some chunks' →
  dom chunks' = dom chunks ∪ list_to_set (MinecraftAnimation.gridKeys a b).
Proof.
  unfold MinecraftAnimation.createMissing, MinecraftAnimation.gridKeys.
  generalize MinecraftAnimation.neighborhood as l. intros l. revert chunks.
  induction l as [|[x z] l IH]; intros chunks Hrun.
  - rewrite for_each_nil in Hrun. inversion Hrun; subst.
    rewrite fmap_nil, list_to_set_nil. now rewrite (right_id_L ∅ (∪)).
  - rewrite for_each_cons in Hrun. rewrite fmap_cons, list_to_set_cons.
    set (key := MinecraftAnimation.chunkKey _ _) in *. clearbody key.
    set (keys := list_to_set _) in *.
    destruct (chunks !! key) as [c|] eqn:Hc.
    + cbv beta iota delta [mbind option_bind] in Hrun. rewrite (IH _ Hrun).
      fold keys. apply (elem_of_dom_2 (D := gset string)) in Hc.
      clearbody keys. clear -Hc. set_solver.
    + destruct (Chunk.new _ _ _ _ _) as [c|]; [|discriminate].
      cbv beta iota delta [mbind option_bind] in Hrun.
      rewrite (IH _ Hrun), dom_insert_L. fold keys. clearbody keys.
      clear. set_solver.
Qed.

Lemma generateInitialChunks_keys (s0 s : MinecraftAnimation.t) :
  MinecraftAnimation.chunks s0 = ∅ →
  MinecraftAnimation.generateInitialChunks Rand next s0 = Some s →
  MinecraftAnimation.playerPosition s = MinecraftAnimation.playerPosition s0
  ∧ MinecraftAnimation.currentChunk s
    = MinecraftAnimation.chunkKey
        (MinecraftAnimation.chunkCoord (Vec3.x (MinecraftAnimation.playerPosition s)))
        (MinecraftAnimation.chunkCoord (Vec3.z (MinecraftAnimation.playerPosition s)))
  ∧ dom (MinecraftAnimation.chunks s) = list_to_set (playerChunkKeys s).
Proof.
  intros Hempty. unfold MinecraftAnimation.generateInitialChunks.
  destruct (MinecraftAnimation.createMissing _ _ _ _ _) as [chunks|] eqn:Hc;
    [|discriminate].
  cbv beta iota delta [mbind option_bind]. intros [= <-].
  unfold playerChunkKeys, MinecraftAnimation.with_chunks.
  cbn [MinecraftAnimation.playerPosition MinecraftAnimation.currentChunk
       MinecraftAnimation.chunks].
  split; [reflexivity|]. split; [reflexivity|].
  rewrite (createMissing_dom _ _ _ _ Hc), Hempty, dom_empty_L.
  now rewrite (left_id_L ∅ (∪)).
Qed.




End StreamingFacts.

(** ** Loops that may fail *)

Lemma for_each_total {St A : Type} (P : St → Prop) (body : A → St → option St)
    (l : list A) (s : St) :
  (∀ a s1, a ∈ l → P s1 → ∃ s2, body a s1 = Some s2 ∧ P s2) →
  P s → ∃ s', for_each l body s = Some s' ∧ P s'.
Proof.
  revert s. induction l as [|a l IH]; intros s Hbody Hs.
  - exists s. now rewrite for_each_nil.
  - destruct (Hbody a s) as (s1 & Ha & Hs1); [now left | exact Hs |].
    destruct (IH s1) as (s' & Hrun & Hs'); [|exact Hs1|].
    + intros b t1 Hb. apply Hbody. now right.
    + exists s'. rewrite for_each_cons, Ha. now split.
Qed.

(** ** Sample coordinates *)

Lemma Qn_nonneg (n : nat) : (0 <= Qn n)%Q.
Proof. unfold Qn. change 0%Q with (inject_Z 0). rewrite <- Zle_Qle. lia. Qed.

Lemma Qn_lt (i n : nat) : (i < n)%nat → (Qn i < Qn n)%Q.
Proof. intros H. unfold Qn. rewrite <- Zlt_Qlt. lia. Qed.

Lemma Qn_le (i n : nat) : (i <= n)%nat → (Qn i <= Qn n)%Q.
Proof. intros H. unfold Qn. rewrite <- Zle_Qle. lia. Qed.

(** [i / n] for an index [i < n] is a fraction in [[0, 1)]. *)
Lemma index_fraction (i n : nat) :
  (i < n)%nat → (0 <= Qn i / Qn n ∧ Qn i / Qn n < 1)%Q.
Proof.
  intros Hi. assert (Hn : (0 < Qn n)%Q).
  { apply Qle_lt_trans with (Qn i); [apply Qn_nonneg | now apply Qn_lt]. }
  split.
  - apply Qle_shift_div_l; [exact Hn|]. rewrite Qmult_0_l. apply Qn_nonneg.
  - apply Qlt_shift_div_r; [exact Hn|]. rewrite Qmult_1_l. now apply Qn_lt.
Qed.

(** The sample coordinate [(i / n) * g] of cell [i] lies in [[0, g]]. *)
Lemma sample_coordinate (i n : nat) (g : Q) :
  (i < n)%nat → (0 <= g)%Q → (0 <= Qn i / Qn n * g ∧ Qn i / Qn n * g <= g)%Q.
Proof.
  intros Hi Hg. destruct (index_fraction i n Hi) as [H0 H1].
  set (f := (Qn i / Qn n)%Q) in *. clearbody f. split; nra.
Qed.

(** The two indices read along one axis: [floor(x)] and its successor
    clamped to the last index. *)
Lemma corner_indices (x : Q) (n : Z) :
  1 <= n → (0 <= x)%Q → (x <= inject_Z n - 1)%Q →
  (0 <= Qfloor x < n) ∧ (0 <= Z.min (Qfloor x + 1) (n - 1) < n).
Proof.
  intros Hn H0 H1.
  assert (0 <= Qfloor x) by now apply Qfloor_nonneg.
  assert (Qfloor x <= n - 1).
  { rewrite <- (Qfloor_Z (n - 1)). apply Qfloor_resp_le.
    unfold Z.sub. rewrite inject_Z_plus. exact H1. }
  lia.
Qed.

Lemma grid2_item_Z {A : Type} (n m : nat) (P : nat → nat → A → Prop)
    (a : list (list A)) (i j : Z) :
  grid2 n m P a → 0 <= i < Z.of_nat n → 0 <= j < Z.of_nat m →
  ∃ v, item2 a i j = Some v ∧ P (Z.to_nat i) (Z.to_nat j) v.
Proof.
  intros Ha Hi Hj. rewrite <- (Z2Nat.id i), <- (Z2Nat.id j) by lia.
  rewrite !Nat2Z.id. apply (grid2_item n m); [exact Ha | lia | lia].
Qed.

Lemma grid3_item_Z {A : Type} (n m p : nat) (P : nat → nat → nat → A → Prop)
    (a : list (list (list A))) (i j k : Z) :
  grid3 n m p P a → 0 <= i < Z.of_nat n → 0 <= j < Z.of_nat m → 0 <= k < Z.of_nat p →
  ∃ v, item3 a i j k = Some v ∧ P (Z.to_nat i) (Z.to_nat j) (Z.to_nat k) v.
Proof.
  intros Ha Hi Hj Hk. rewrite <- (Z2Nat.id i), <- (Z2Nat.id j), <- (Z2Nat.id k) by lia.
  rewrite !Nat2Z.id. apply (grid3_item n m p); [exact Ha | lia | lia | lia].
Qed.

Lemma grid2_first_row {A : Type} (n m : nat) (P : nat → nat → A → Prop)
    (a : list (list A)) :
  grid2 n m P a → (0 < n)%nat → ∃ row0, a !! 0%nat = Some row0 ∧ length row0 = m.
Proof.
  intros Ha Hn. destruct (vec_lookup _ _ _ 0%nat Ha Hn) as (row & Hrow & Hr).
  exists row. split; [exact Hrow | now apply vec_length in Hr].
Qed.

(** ** The height-field generator *)

Section ChunkFacts.
Context {RandState : Type}.
Variable Rand : string → RandState.
Variable next : RandState → Q * RandState.

(** Inside the grid every read of the bilinear sampler succeeds. *)
Lemma Chunk_bilinear_defined (n m : nat) (grid : list (list Q)) (x z : Q) :
  grid2 n m (λ _ _ _, True) grid → (0 < n)%nat → (0 < m)%nat →
  (0 <= x)%Q → (x <= Qn n - 1)%Q → (0 <= z)%Q → (z <= Qn m - 1)%Q →
  is_Some (Chunk.bilinearInterpolation grid x z).
Proof.
  intros Hg Hn Hm Hx0 Hx1 Hz0 Hz1. unfold Chunk.bilinearInterpolation.
  destruct (grid2_first_row _ _ _ _ Hg Hn) as (row0 & Hrow0 & Hlen0).
  rewrite Hrow0. cbn [mbind option_bind]. rewrite Hlen0, (vec_length _ _ _ Hg).
  destruct (corner_indices x (Z.of_nat n)) as [Hx1' Hx2']; [lia | exact Hx0 | exact Hx1 |].
  destruct (corner_indices z (Z.of_nat m)) as [Hz1' Hz2']; [lia | exact Hz0 | exact Hz1 |].
  destruct (grid2_item_Z _ _ _ _ _ _ Hg Hx1' Hz1') as [c11 [-> _]].
  destruct (grid2_item_Z _ _ _ _ _ _ Hg Hx2' Hz1') as [c21 [-> _]].
  destruct (grid2_item_Z _ _ _ _ _ _ Hg Hx1' Hz2') as [c12 [-> _]].
  destruct (grid2_item_Z _ _ _ _ _ _ Hg Hx2' Hz2') as [c22 [-> _]].
  cbn. eauto.
Qed.

(** The grid sizes of the three octaves of a chunk of size 16 or more. *)
Lemma Chunk_gridSize_positive (size octave : nat) :
  (16 <= size)%nat → (octave < 3)%nat →
  1 <= Qfloor (Qn size / (4 * 2 ^ Z.of_nat octave)).
Proof.
  intros Hsize Hoct. rewrite <- (Qfloor_Z 1). apply Qfloor_resp_le.
  assert (H16 : (16 <= Qn size)%Q) by (apply (Qn_le 16); exact Hsize).
  assert (octave = 0 ∨ octave = 1 ∨ octave = 2)%nat as [-> | [-> | ->]] by lia;
    (apply Qle_shift_div_l; [reflexivity|]);
    match goal with |- (_ * ?s <= _)%Q => let v := eval vm_compute in s in
      change s with v end; change (inject_Z 1) with 1%Q; lra.
Qed.

Lemma Chunk_octave_defined (size : nat) (seed : string) (octave : nat)
    (heights : list (list Q)) :
  (16 <= size)%nat → (octave < 3)%nat →
  grid2 size size (λ _ _ _, True) heights →
  let scale := (4 * 2 ^ Z.of_nat octave)%Q in
  let gridSize := Qfloor (Qn size / scale) in
  let noiseGrid := Chunk.generateWhiteNoiseGrid Rand next seed (Z.to_nat gridSize) octave in
  ∃ heights',
    tabulateM size (λ i, tabulateM size (λ j,
      value ← Chunk.bilinearInterpolation noiseGrid
                 (Qn i / Qn size * (Qz gridSize - 1))
                 (Qn j / Qn size * (Qz gridSize - 1));
      old ← item2 heights (Z.of_nat i) (Z.of_nat j);
      Some (old + value * 0.5 ^ Z.of_nat octave * 20)%Q)) = Some heights'
    ∧ grid2 size size (λ _ _ _, True) heights'.
Proof.
  intros Hsize Hoct Hh scale gridSize noiseGrid.
  pose proof (Chunk_gridSize_positive size octave Hsize Hoct) as Hg.
  fold scale gridSize in Hg.
  assert (Hnoise : grid2 (Z.to_nat gridSize) (Z.to_nat gridSize) (λ _ _ _, True) noiseGrid).
  { unfold noiseGrid, Chunk.generateWhiteNoiseGrid. now apply drawRows_grid2. }
  assert (Hgq : (0 <= Qz gridSize - 1)%Q).
  { assert (H1 : (inject_Z 1 <= inject_Z gridSize)%Q) by now rewrite <- Zle_Qle.
    change (inject_Z 1) with 1%Q in H1. unfold Qz. lra. }
  assert (Hqn : Qn (Z.to_nat gridSize) = Qz gridSize).
  { unfold Qn, Qz. now rewrite Z2Nat.id by lia. }
  apply tabulateM_grid2. intros i j Hi Hj.
  destruct (sample_coordinate i size _ Hi Hgq) as [Hx0 Hx1].
  destruct (sample_coordinate j size _ Hj Hgq) as [Hz0 Hz1].
  assert (Hv : is_Some (Chunk.bilinearInterpolation noiseGrid
                         (Qn i / Qn size * (Qz gridSize - 1))
                         (Qn j / Qn size * (Qz gridSize - 1)))).
  { apply (Chunk_bilinear_defined (Z.to_nat gridSize) (Z.to_nat gridSize));
      try assumption; try lia; rewrite Hqn; assumption. }
  destruct Hv as [value Hvalue].
  destruct (grid2_item _ _ _ _ i j Hh Hi Hj) as (old & Hold & _).
  rewrite Hvalue, Hold. cbn. eauto.
Qed.

Lemma Chunk_clamped (h : Q) :
  ∃ n : Z, Qmin 100 (Qmax 0 (Qz (Qfloor (h + 40)))) = inject_Z n ∧ 0 <= n <= 100.
Proof.
  set (k := Qfloor (h + 40)). unfold Qmin, Qmax, GenericMinMax.gmin, GenericMinMax.gmax.
  destruct (0 ?= Qz k)%Q eqn:H0.
  - apply Qeq_alt in H0. destruct (100 ?= 0)%Q eqn:H1; [discriminate H1|discriminate H1|].
    exists 0. split; [reflexivity | lia].
  - apply Qlt_alt in H0. unfold Qz in H0. change 0%Q with (inject_Z 0) in H0.
    rewrite <- Zlt_Qlt in H0.
    destruct (100 ?= Qz k)%Q eqn:H1.
    + exists 100. split; [reflexivity | lia].
    + exists 100. split; [reflexivity | lia].
    + apply Qgt_alt in H1. unfold Qz in H1. change 100%Q with (inject_Z 100) in H1.
      rewrite <- Zlt_Qlt in H1. exists k. split; [reflexivity | lia].
  - exists 0. split; [reflexivity | lia].
Qed.

(** A height map the generator returns is a size x size array of integers
    between 0 and 100. *)
Lemma Chunk_heights_clamped (size : nat) (seed : string) (heights : list (list Q)) :
  Chunk.generateHeightMap Rand next size seed = Some heights →
  grid2 size size (λ _ _ h, ∃ n : Z, h = inject_Z n ∧ 0 <= n <= 100) heights.
Proof.
  unfold Chunk.generateHeightMap.
  destruct (for_loop _ _ _) as [raw|] eqn:Hloop; [|discriminate].
  cbn [mbind option_bind]. intros [= <-].
  assert (Hraw : grid2 size size (λ _ _ _, True) raw).
  { revert Hloop. unfold for_loop. fold (for_each (seq 0 3)
      (λ octave heights0, tabulateM size (λ i, tabulateM size (λ j,
         value ← Chunk.bilinearInterpolation
           (Chunk.generateWhiteNoiseGrid Rand next seed
              (Z.to_nat (Qfloor (Qn size / (4 * 2 ^ Z.of_nat octave)))) octave)
           (Qn i / Qn size * (Qz (Qfloor (Qn size / (4 * 2 ^ Z.of_nat octave))) - 1))
           (Qn j / Qn size * (Qz (Qfloor (Qn size / (4 * 2 ^ Z.of_nat octave))) - 1));
         old ← item2 heights0 (Z.of_nat i) (Z.of_nat j);
         Some (old + value * 0.5 ^ Z.of_nat octave * 20)%Q)))
      (replicate size (replicate size 0%Q))).
    apply for_each_invariant.
    - intros octave h1 h2 _ _ Hstep. apply tabulateM_grid2_inv in Hstep.
      revert Hstep. now apply grid2_weaken.
    - apply vec_replicate. intros i _. now apply vec_replicate. }
  revert Hraw. apply grid2_map2D. intros i j h _ _ _. apply Chunk_clamped.
Qed.

(** For a chunk of size 16 or more the generator completes. *)
Lemma Chunk_generateHeightMap_total (size : nat) (seed : string) :
  (16 <= size)%nat → is_Some (Chunk.generateHeightMap Rand next size seed).
Proof.
  intros Hsize. unfold Chunk.generateHeightMap.
  destruct (for_each_total (grid2 size size (λ _ _ _, True))
    (λ octave heights0, tabulateM size (λ i, tabulateM size (λ j,
         value ← Chunk.bilinearInterpolation
           (Chunk.generateWhiteNoiseGrid Rand next seed
              (Z.to_nat (Qfloor (Qn size / (4 * 2 ^ Z.of_nat octave)))) octave)
           (Qn i / Qn size * (Qz (Qfloor (Qn size / (4 * 2 ^ Z.of_nat octave))) - 1))
           (Qn j / Qn size * (Qz (Qfloor (Qn size / (4 * 2 ^ Z.of_nat octave))) - 1));
         old ← item2 heights0 (Z.of_nat i) (Z.of_nat j);
         Some (old + value * 0.5 ^ Z.of_nat octave * 20)%Q)))
    (seq 0 3) (replicate size (replicate size 0%Q))) as (raw & Hraw & _).
  - intros octave h1 Hoct%elem_of_seq Hh1.
    apply (Chunk_octave_defined size seed octave h1 Hsize); [lia | exact Hh1].
  - apply vec_replicate. intros i _. now apply vec_replicate.
  - unfold for_loop. unfold for_each in Hraw. rewrite Hraw. cbn. eauto.
Qed.

Lemma Chunk_new_total (centerX centerZ : Z) (size : nat) :
  (16 <= size)%nat → is_Some (Chunk.new Rand next centerX centerZ size).
Proof.
  intros Hsize. unfold Chunk.new.
  destruct (Chunk_generateHeightMap_total size
              (pretty centerX +:+ "," +:+ pretty centerZ) Hsize) as [h ->].
  cbn. eauto.
Qed.
End ChunkFacts.

(** ** The seeded generator of the volumetric terrain *)

Lemma toUint32_range (n : Z) : 0 <= toUint32 n < 4294967296.
Proof. unfold toUint32. apply Z.mod_pos_bound. lia. Qed.

(** Every number the generator returns lies in [[0, 1)]. *)
Lemma rng_unit (state : Z) :
  (0 <= (VolumetricTerrain.rng state).1 ∧ (VolumetricTerrain.rng state).1 < 1)%Q.
Proof.
  unfold VolumetricTerrain.rng. cbn [fst].
  match goal with
  | |- context [toUint32 ?n] =>
      pose proof (toUint32_range n) as Hu; set (u := toUint32 n) in *; clearbody u
  end.
  assert (H0 : (inject_Z 0 <= inject_Z u)%Q) by (rewrite <- Zle_Qle; lia).
  assert (H1 : (inject_Z u < inject_Z 4294967296)%Q) by (rewrite <- Zlt_Qlt; lia).
  change (inject_Z 0) with 0%Q in H0. change (inject_Z 4294967296) with 4294967296%Q in H1.
  unfold Qz. split.
  - apply Qle_shift_div_l; [reflexivity | lra].
  - apply Qlt_shift_div_r; [reflexivity | lra].
Qed.

Lemma generateWhiteNoiseGrid_unit (size : nat) (seed : string) :
  grid2 size size (λ _ _ v, 0 <= v ∧ v < 1)%Q
    (VolumetricTerrain.generateWhiteNoiseGrid size seed).
Proof.
  unfold VolumetricTerrain.generateWhiteNoiseGrid.
  apply (drawRows_grid2 VolumetricTerrain.rng (λ v, 0 <= v ∧ v < 1)%Q). apply rng_unit.
Qed.

Lemma generate3DNoiseGrid_unit (size : nat) (seed : string) :
  grid3 size size size (λ _ _ _ v, 0 <= v ∧ v < 1)%Q
    (VolumetricTerrain.generate3DNoiseGrid size seed).
Proof.
  unfold VolumetricTerrain.generate3DNoiseGrid.
  apply (drawPlanes_grid3 VolumetricTerrain.rng (λ v, 0 <= v ∧ v < 1)%Q). apply rng_unit.
Qed.

(** ** Interpolation stays between the corners *)

Lemma smoothStep_unit (t : Q) :
  (0 <= t → t <= 1 →
   0 <= VolumetricTerrain.smoothStep t ∧ VolumetricTerrain.smoothStep t <= 1)%Q.
Proof.
  intros H0 H1. unfold VolumetricTerrain.smoothStep. split.
  - assert (0 <= t * t)%Q by nra. nra.
  - assert (0 <= (1 - t) * (1 - t))%Q by nra.
    assert (t * t * (3 - 2 * t) == 1 - (1 - t) * (1 - t) * (1 + 2 * t))%Q as -> by ring.
    assert (0 <= (1 - t) * (1 - t) * (1 + 2 * t))%Q; [|lra].
    apply Qmult_le_0_compat; [assumption | lra].
Qed.

Lemma lerp_between (lo hi a b t : Q) :
  (lo <= a → a <= hi → lo <= b → b <= hi → 0 <= t → t <= 1 →
   lo <= VolumetricTerrain.lerp a b t ∧ VolumetricTerrain.lerp a b t <= hi)%Q.
Proof.
  intros. unfold VolumetricTerrain.lerp.
  assert (a + t * (b - a) == (1 - t) * a + t * b)%Q as -> by ring.
  assert (0 <= (1 - t) * (a - lo))%Q by (apply Qmult_le_0_compat; lra).
  assert (0 <= t * (b - lo))%Q by (apply Qmult_le_0_compat; lra).
  assert (0 <= (1 - t) * (hi - a))%Q by (apply Qmult_le_0_compat; lra).
  assert (0 <= t * (hi - b))%Q by (apply Qmult_le_0_compat; lra).
  split; lra.
Qed.

(** Bound every [lerp] of the goal, innermost first. *)
Ltac lerp_bounds lo hi :=
  repeat match goal with
  | |- context [VolumetricTerrain.lerp ?a ?b ?t] =>
      lazymatch goal with
      | _ : (lo <= VolumetricTerrain.lerp a b t)%Q |- _ => fail
      | _ => destruct (lerp_between lo hi a b t) as [? ?]; [assumption..|]
      end
  end.

(** The fractional part [x - floor(x)]. *)
Lemma fraction_unit (x : Q) : (0 <= x - Qz (Qfloor x) ∧ x - Qz (Qfloor x) <= 1)%Q.
Proof.
  pose proof (Qfloor_le x). pose proof (Qlt_floor x) as Hlt.
  rewrite inject_Z_plus in Hlt. change (inject_Z 1) with 1%Q in Hlt.
  unfold Qz. split; lra.
Qed.

(** Inside the grid the bilinear sampler returns a value between the
    bounds of the grid's cells. *)
Lemma bilinear_between (n m : nat) (lo hi : Q) (grid : list (list Q)) (x z : Q) :
  grid2 n m (λ _ _ v, lo <= v ∧ v <= hi)%Q grid → (0 < n)%nat → (0 < m)%nat →
  (0 <= x)%Q → (x <= Qn n - 1)%Q → (0 <= z)%Q → (z <= Qn m - 1)%Q →
  ∃ v, VolumetricTerrain.bilinearInterpolation grid x z = Some v ∧ (lo <= v ∧ v <= hi)%Q.
Proof.
  intros Hg Hn Hm Hx0 Hx1 Hz0 Hz1. unfold VolumetricTerrain.bilinearInterpolation.
  destruct (grid2_first_row _ _ _ _ Hg Hn) as (row0 & Hrow0 & Hlen0).
  rewrite Hrow0. cbn [mbind option_bind]. rewrite Hlen0, (vec_length _ _ _ Hg).
  destruct (corner_indices x (Z.of_nat n)) as [Hx1' Hx2']; [lia | exact Hx0 | exact Hx1 |].
  destruct (corner_indices z (Z.of_nat m)) as [Hz1' Hz2']; [lia | exact Hz0 | exact Hz1 |].
  destruct (grid2_item_Z _ _ _ _ _ _ Hg Hx1' Hz1') as [c11 [-> [? ?]]].
  destruct (grid2_item_Z _ _ _ _ _ _ Hg Hx2' Hz1') as [c21 [-> [? ?]]].
  destruct (grid2_item_Z _ _ _ _ _ _ Hg Hx1' Hz2') as [c12 [-> [? ?]]].
  destruct (grid2_item_Z _ _ _ _ _ _ Hg Hx2' Hz2') as [c22 [-> [? ?]]].
  cbn [mbind option_bind]. eexists. split; [reflexivity|].
  destruct (fraction_unit x) as [Hfx0 Hfx1]. destruct (fraction_unit z) as [Hfz0 Hfz1].
  destruct (smoothStep_unit _ Hfx0 Hfx1). destruct (smoothStep_unit _ Hfz0 Hfz1).
  cbv zeta. lerp_bounds lo hi. now split.
Qed.

Lemma grid3_first_row {A : Type} (n m p : nat) (P : nat → nat → nat → A → Prop)
    (a : list (list (list A))) :
  grid3 n m p P a → (0 < n)%nat → (0 < m)%nat →
  ∃ plane0 row0, a !! 0%nat = Some plane0 ∧ length plane0 = m
                 ∧ plane0 !! 0%nat = Some row0 ∧ length row0 = p.
Proof.
  intros Ha Hn Hm. destruct (vec_lookup _ _ _ 0%nat Ha Hn) as (plane & Hplane & Hp).
  destruct (grid2_first_row _ _ _ _ Hp Hm) as (row & Hrow & Hr).
  exists plane, row. repeat split; try assumption. now apply vec_length in Hp.
Qed.

Lemma trilinear_between (n m p : nat) (lo hi : Q) (grid : list (list (list Q)))
    (x y z : Q) :
  grid3 n m p (λ _ _ _ v, lo <= v ∧ v <= hi)%Q grid →
  (0 < n)%nat → (0 < m)%nat → (0 < p)%nat →
  (0 <= x)%Q → (x <= Qn n - 1)%Q → (0 <= y)%Q → (y <= Qn m - 1)%Q →
  (0 <= z)%Q → (z <= Qn p - 1)%Q →
  ∃ v, VolumetricTerrain.trilinearInterpolation grid x y z = Some v
       ∧ (lo <= v ∧ v <= hi)%Q.
Proof.
  intros Hg Hn Hm Hp Hx0 Hx1 Hy0 Hy1 Hz0 Hz1.
  unfold VolumetricTerrain.trilinearInterpolation.
  destruct (grid3_first_row _ _ _ _ _ Hg Hn Hm) as (plane0 & row0 & Hp0 & Hl0 & Hr0 & Hl1).
  rewrite Hp0. cbn [mbind option_bind]. rewrite Hr0. cbn [mbind option_bind].
  rewrite Hl0, Hl1, (vec_length _ _ _ Hg).
  destruct (corner_indices x (Z.of_nat n)) as [Hx1' Hx2']; [lia | exact Hx0 | exact Hx1 |].
  destruct (corner_indices y (Z.of_nat m)) as [Hy1' Hy2']; [lia | exact Hy0 | exact Hy1 |].
  destruct (corner_indices z (Z.of_nat p)) as [Hz1' Hz2']; [lia | exact Hz0 | exact Hz1 |].
  destruct (grid3_item_Z _ _ _ _ _ _ _ _ Hg Hx1' Hy1' Hz1') as [c000 [-> [? ?]]].
  destruct (grid3_item_Z _ _ _ _ _ _ _ _ Hg Hx2' Hy1' Hz1') as [c100 [-> [? ?]]].
  destruct (grid3_item_Z _ _ _ _ _ _ _ _ Hg Hx1' Hy2' Hz1') as [c010 [-> [? ?]]].
  destruct (grid3_item_Z _ _ _ _ _ _ _ _ Hg Hx2' Hy2' Hz1') as [c110 [-> [? ?]]].
  destruct (grid3_item_Z _ _ _ _ _ _ _ _ Hg Hx1' Hy1' Hz2') as [c001 [-> [? ?]]].
  destruct (grid3_item_Z _ _ _ _ _ _ _ _ Hg Hx2' Hy1' Hz2') as [c101 [-> [? ?]]].
  destruct (grid3_item_Z _ _ _ _ _ _ _ _ Hg Hx1' Hy2' Hz2') as [c011 [-> [? ?]]].
  destruct (grid3_item_Z _ _ _ _ _ _ _ _ Hg Hx2' Hy2' Hz2') as [c111 [-> [? ?]]].
  cbn [mbind option_bind]. eexists. split; [reflexivity|].
  destruct (fraction_unit x) as [Hfx0 Hfx1]. destruct (fraction_unit y) as [Hfy0 Hfy1].
  destruct (fraction_unit z) as [Hfz0 Hfz1].
  destruct (smoothStep_unit _ Hfx0 Hfx1). destruct (smoothStep_unit _ Hfy0 Hfy1).
  destruct (smoothStep_unit _ Hfz0 Hfz1).
  cbv zeta. lerp_bounds lo hi. now split.
Qed.

(** ** One octave of noise added to a field *)

(** The loop that samples a white-noise grid at every cell of a
    [width x height] field and combines the sample with the cell. *)
Lemma octave_step (width height gridSize : nat) (seed : string)
    (field : list (list Q)) (combine : Q → Q → Q) (P R : Q → Prop) :
  (0 < gridSize)%nat →
  grid2 width height (λ _ _, P) field →
  (∀ old value, P old → (0 <= value ∧ value <= 1)%Q → R (combine old value)) →
  ∃ field',
    tabulateM width (λ x, tabulateM height (λ z,
      value ← VolumetricTerrain.bilinearInterpolation
                 (VolumetricTerrain.generateWhiteNoiseGrid gridSize seed)
                 (Qn x / Qn width * (Qn gridSize - 1))
                 (Qn z / Qn height * (Qn gridSize - 1));
      old ← item2 field (Z.of_nat x) (Z.of_nat z);
      Some (combine old value))) = Some field'
    ∧ grid2 width height (λ _ _, R) field'.
Proof.
  intros Hg Hfield Hcombine.
  assert (Hnoise : grid2 gridSize gridSize (λ _ _ v, 0 <= v ∧ v <= 1)%Q
                     (VolumetricTerrain.generateWhiteNoiseGrid gridSize seed)).
  { generalize (generateWhiteNoiseGrid_unit gridSize seed). apply grid2_weaken.
    intros i j v _ _ [H0 H1]. split; [exact H0 | now apply Qlt_le_weak]. }
  assert (Hgq : (0 <= Qn gridSize - 1)%Q).
  { pose proof (Qn_le 1 gridSize Hg) as H1. change (Qn 1) with 1%Q in H1. lra. }
  apply tabulateM_grid2. intros x z Hx Hz.
  destruct (sample_coordinate x width _ Hx Hgq) as [Hx0 Hx1].
  destruct (sample_coordinate z height _ Hz Hgq) as [Hz0 Hz1].
  destruct (bilinear_between gridSize gridSize 0 1 _
              (Qn x / Qn width * (Qn gridSize - 1))
              (Qn z / Qn height * (Qn gridSize - 1)) Hnoise)
    as (value & Hvalue & Hunit); try assumption.
  destruct (grid2_item _ _ _ _ x z Hfield Hx Hz) as (old & Hold & HP).
  rewrite Hvalue, Hold. cbn. eauto.
Qed.

(** ** Normalisation *)

Lemma minOf_le_init (cells : list Q) (m : Q) : (VolumetricTerrain.minOf cells m <= m)%Q.
Proof.
  unfold VolumetricTerrain.minOf. revert m.
  induction cells as [|c cells IH]; intros m; cbn; [apply Qle_refl|].
  eapply Qle_trans; [apply IH | apply Q.le_min_l].
Qed.

Lemma minOf_le_cell (cells : list Q) (m v : Q) :
  v ∈ cells → (VolumetricTerrain.minOf cells m <= v)%Q.
Proof.
  unfold VolumetricTerrain.minOf. revert m.
  induction cells as [|c cells IH]; intros m Hv; [apply elem_of_nil in Hv; destruct Hv|].
  apply elem_of_cons in Hv as [->|Hv]; cbn.
  - eapply Qle_trans; [apply minOf_le_init | apply Q.le_min_r].
  - now apply IH.
Qed.

Lemma maxOf_ge_init (cells : list Q) (m : Q) : (m <= VolumetricTerrain.maxOf cells m)%Q.
Proof.
  unfold VolumetricTerrain.maxOf. revert m.
  induction cells as [|c cells IH]; intros m; cbn; [apply Qle_refl|].
  eapply Qle_trans; [apply Q.le_max_l | apply IH].
Qed.

Lemma maxOf_ge_cell (cells : list Q) (m v : Q) :
  v ∈ cells → (v <= VolumetricTerrain.maxOf cells m)%Q.
Proof.
  unfold VolumetricTerrain.maxOf. revert m.
  induction cells as [|c cells IH]; intros m Hv; [apply elem_of_nil in Hv; destruct Hv|].
  apply elem_of_cons in Hv as [->|Hv]; cbn.
  - eapply Qle_trans; [apply Q.le_max_r | apply maxOf_ge_init].
  - now apply IH.
Qed.

(** The running minimum over the rows is below every cell, and the
    running maximum above. *)
Lemma min2D_le (rows : list (list Q)) (m : Q) :
  (fold_left (λ m row, VolumetricTerrain.minOf row m) rows m <= m)%Q
  ∧ ∀ row v, row ∈ rows → v ∈ row →
      (fold_left (λ m row, VolumetricTerrain.minOf row m) rows m <= v)%Q.
Proof.
  revert m. induction rows as [|r rows IH]; intros m; cbn.
  - split; [apply Qle_refl|]. intros row v Hrow%elem_of_nil. destruct Hrow.
  - destruct (IH (VolumetricTerrain.minOf r m)) as [IH1 IH2]. split.
    + eapply Qle_trans; [exact IH1 | apply minOf_le_init].
    + intros row v Hrow Hv. apply elem_of_cons in Hrow as [->|Hrow].
      * eapply Qle_trans; [exact IH1 | apply (minOf_le_cell r m v Hv)].
      * now apply (IH2 row).
Qed.

Lemma max2D_ge (rows : list (list Q)) (m : Q) :
  (m <= fold_left (λ m row, VolumetricTerrain.maxOf row m) rows m)%Q
  ∧ ∀ row v, row ∈ rows → v ∈ row →
      (v <= fold_left (λ m row, VolumetricTerrain.maxOf row m) rows m)%Q.
Proof.
  revert m. induction rows as [|r rows IH]; intros m; cbn.
  - split; [apply Qle_refl|]. intros row v Hrow%elem_of_nil. destruct Hrow.
  - destruct (IH (VolumetricTerrain.maxOf r m)) as [IH1 IH2]. split.
    + eapply Qle_trans; [apply maxOf_ge_init | exact IH1].
    + intros row v Hrow Hv. apply elem_of_cons in Hrow as [->|Hrow].
      * eapply Qle_trans; [apply (maxOf_ge_cell r m v Hv) | exact IH1].
      * now apply (IH2 row).
Qed.

(** A value between the minimum and the maximum normalises into
    [[0, 1]]. *)
Lemma normalize_unit (min max v : Q) :
  (0.001 < max - min → min <= v → v <= max →
   0 <= VolumetricTerrain.normalize min max v
   ∧ VolumetricTerrain.normalize min max v <= 1)%Q.
Proof.
  intros Hrange Hmin Hmax. unfold VolumetricTerrain.normalize.
  assert (Hpos : (0 < max - min)%Q) by lra. split.
  - apply Qle_shift_div_l; [exact Hpos | lra].
  - apply Qle_shift_div_r; [exact Hpos | lra].
Qed.

(** Normalising a field of values in [[0, 1]] leaves them in [[0, 1]]. *)
Lemma normalize2D_unit (n m : nat) (result : list (list Q)) :
  grid2 n m (λ _ _ v, 0 <= v ∧ v <= 1)%Q result →
  grid2 n m (λ _ _ v, 0 <= v ∧ v <= 1)%Q (VolumetricTerrain.normalize2D result).
Proof.
  intros Hr. unfold VolumetricTerrain.normalize2D.
  destruct (Qltb 0.001 _) eqn:Hrange; [|exact Hr].
  apply Qltb_lt in Hrange.
  destruct (min2D_le result 1) as [_ Hmin]. destruct (max2D_ge result 0) as [_ Hmax].
  set (min := fold_left _ result 1%Q) in *. set (max := fold_left _ result 0%Q) in *.
  destruct Hr as [Hlen Hrows]. split; [unfold map2D; now rewrite length_fmap|].
  intros i Hi. destruct (Hrows i Hi) as (row & Hrow & Hlenr & Hcells).
  exists (VolumetricTerrain.normalize min max <$> row). split.
  { unfold map2D. now rewrite list_lookup_fmap, Hrow. }
  split; [now rewrite length_fmap|].
  intros j Hj. destruct (Hcells j Hj) as (v & Hv & _).
  exists (VolumetricTerrain.normalize min max v). split.
  { now rewrite list_lookup_fmap, Hv. }
  assert (Hin : row ∈ result) by (apply list_elem_of_lookup; eauto).
  assert (Hvin : v ∈ row) by (apply list_elem_of_lookup; eauto).
  apply normalize_unit; [exact Hrange | now apply (Hmin row) | now apply (Hmax row)].
Qed.

(** The biome field (a single octave) is a [size x size] array of values
    in [[0, 1]]. *)
Lemma biomeNoise_unit (size : nat) (seed : string) :
  ∃ biomeNoise,
    VolumetricTerrain.generate2DNoise size size VolumetricTerrain.BIOME_SCALE seed 1
      = Some biomeNoise
    ∧ grid2 size size (λ _ _ v, 0 <= v ∧ v <= 1)%Q biomeNoise.
Proof.
  unfold VolumetricTerrain.generate2DNoise, for_loop.
  change (seq 0 1) with [0%nat]. cbn [fold_left mbind option_bind].
  set (gridSize := Z.to_nat _).
  destruct (octave_step size size gridSize
              (seed +:+ "-oct" +:+ pretty 0%nat)
              (replicate size (replicate size 0%Q))
              (λ old value, (old + value * 0.5 ^ Z.of_nat 0)%Q)
              (λ v, v = 0%Q) (λ v, 0 <= v ∧ v <= 1)%Q) as (result & Hresult & Hunit).
  - unfold gridSize. lia.
  - apply vec_replicate. intros i _. now apply vec_replicate.
  - intros old value -> [H0 H1]. change (0.5 ^ Z.of_nat 0)%Q with 1%Q. split; lra.
  - rewrite Hresult. cbn [mbind option_bind]. eexists. split; [reflexivity|].
    now apply normalize2D_unit.
Qed.

(** ** The surface height map of the volumetric terrain *)

(** After the three octaves every cell is within 21 of the base height. *)
Lemma surface_octaves (size : nat) (seed : string) :
  ∃ heightMap,
    for_loop 3 (λ octave heightMap,
      let scale := (VolumetricTerrain.SURFACE_VARIATION_SCALE / 2 ^ Z.of_nat octave)%Q in
      let amplitude := (24 * 0.5 ^ Z.of_nat octave)%Q in
      let gridSize := Z.to_nat (Z.max 4 (Qfloor (Qn size / scale))) in
      let octaveSeed := seed +:+ "-surface-" +:+ pretty octave in
      let noiseGrid := VolumetricTerrain.generateWhiteNoiseGrid gridSize octaveSeed in
      tabulateM size (λ x, tabulateM size (λ z,
        let nx := (Qn x / Qn size * (Qn gridSize - 1))%Q in
        let nz := (Qn z / Qn size * (Qn gridSize - 1))%Q in
        value ← VolumetricTerrain.bilinearInterpolation noiseGrid nx nz;
        old ← item2 heightMap (Z.of_nat x) (Z.of_nat z);
        Some (old + (value - 0.5) * amplitude)%Q)))
      (replicate size (replicate size 40%Q)) = Some heightMap
    ∧ grid2 size size (λ _ _ h, 19 <= h ∧ h <= 61)%Q heightMap.
Proof.
  unfold for_loop. change (seq 0 3) with [0; 1; 2]%nat.
  cbn [fold_left mbind option_bind]. cbv zeta.
  destruct (octave_step size size
              (Z.to_nat (Z.max 4 (Qfloor (Qn size /
                 (VolumetricTerrain.SURFACE_VARIATION_SCALE / 2 ^ Z.of_nat 0)))))
              (seed +:+ "-surface-" +:+ pretty 0%nat)
              (replicate size (replicate size 40%Q))
              (λ old value, (old + (value - 0.5) * (24 * 0.5 ^ Z.of_nat 0))%Q)
              (λ h, h = 40%Q) (λ h, 28 <= h ∧ h <= 52)%Q) as (h0 & -> & Hh0).
  { lia. }
  { apply vec_replicate. intros i _. now apply vec_replicate. }
  { intros old value -> [H0 H1]. change (24 * 0.5 ^ Z.of_nat 0)%Q with (24 * 1)%Q.
    split; lra. }
  cbn [mbind option_bind].
  destruct (octave_step size size
              (Z.to_nat (Z.max 4 (Qfloor (Qn size /
                 (VolumetricTerrain.SURFACE_VARIATION_SCALE / 2 ^ Z.of_nat 1)))))
              (seed +:+ "-surface-" +:+ pretty 1%nat) h0
              (λ old value, (old + (value - 0.5) * (24 * 0.5 ^ Z.of_nat 1))%Q)
              (λ h, 28 <= h ∧ h <= 52)%Q (λ h, 22 <= h ∧ h <= 58)%Q) as (h1 & -> & Hh1).
  { lia. }
  { exact Hh0. }
  { intros old value [Hl Hu] [H0 H1]. change (24 * 0.5 ^ Z.of_nat 1)%Q with (24 * 0.5)%Q.
    split; lra. }
  cbn [mbind option_bind].
  destruct (octave_step size size
              (Z.to_nat (Z.max 4 (Qfloor (Qn size /
                 (VolumetricTerrain.SURFACE_VARIATION_SCALE / 2 ^ Z.of_nat 2)))))
              (seed +:+ "-surface-" +:+ pretty 2%nat) h1
              (λ old value, (old + (value - 0.5) * (24 * 0.5 ^ Z.of_nat 2))%Q)
              (λ h, 22 <= h ∧ h <= 58)%Q (λ h, 19 <= h ∧ h <= 61)%Q) as (h2 & -> & Hh2).
  { lia. }
  { exact Hh1. }
  { intros old value [Hl Hu] [H0 H1].
    change (24 * 0.5 ^ Z.of_nat 2)%Q with (24 * (0.5 * 0.5))%Q. split; lra. }
  eauto.
Qed.

(** A biome shift moves a height down by at most 15 and up by at most
    30. *)
Lemma biomeShift_between (biomeValue h : Q) :
  (0 <= biomeValue → biomeValue <= 1 →
   h - 15 <= VolumetricTerrain.biomeShift biomeValue h
   ∧ VolumetricTerrain.biomeShift biomeValue h <= h + 30)%Q.
Proof.
  intros H0 H1. unfold VolumetricTerrain.biomeShift.
  destruct (Qltb 0.65 biomeValue) eqn:Hm; [|destruct (Qltb 0.4 biomeValue) eqn:Hp].
  - apply Qltb_lt in Hm.
    assert (0 <= (biomeValue - 0.65) / 0.35 ∧ (biomeValue - 0.65) / 0.35 <= 1)%Q as [? ?].
    { split; [apply Qle_shift_div_l | apply Qle_shift_div_r]; try reflexivity; lra. }
    split; lra.
  - apply Qltb_lt in Hp. apply Qltb_ge in Hm.
    assert (0 <= (biomeValue - 0.4) / 0.25 ∧ (biomeValue - 0.4) / 0.25 <= 1)%Q as [? ?].
    { split; [apply Qle_shift_div_l | apply Qle_shift_div_r]; try reflexivity; lra. }
    split; lra.
  - apply Qltb_ge in Hp.
    assert (0 <= (0.4 - biomeValue) / 0.4 ∧ (0.4 - biomeValue) / 0.4 <= 1)%Q as [? ?].
    { split; [apply Qle_shift_div_l | apply Qle_shift_div_r]; try reflexivity; lra. }
    split; lra.
Qed.

Lemma applyBiomeHeightVariation_between (size : nat) (seed : string) (lo hi : Q)
    (heightMap : list (list Q)) :
  grid2 size size (λ _ _ h, lo <= h ∧ h <= hi)%Q heightMap →
  ∃ heightMap',
    VolumetricTerrain.applyBiomeHeightVariation size seed heightMap = Some heightMap'
    ∧ grid2 size size (λ _ _ h, lo - 15 <= h ∧ h <= hi + 30)%Q heightMap'.
Proof.
  intros Hh. unfold VolumetricTerrain.applyBiomeHeightVariation.
  destruct (biomeNoise_unit size (seed +:+ "-biome")) as (biomeNoise & -> & Hb).
  cbn [mbind option_bind]. apply tabulateM_grid2. intros x z Hx Hz.
  destruct (grid2_item _ _ _ _ x z Hb Hx Hz) as (b & -> & Hb0 & Hb1).
  destruct (grid2_item _ _ _ _ x z Hh Hx Hz) as (h & -> & Hh0 & Hh1).
  cbn [mbind option_bind]. eexists. split; [reflexivity|].
  destruct (biomeShift_between b h Hb0 Hb1). split; lra.
Qed.

(** The weight of a kernel cell is positive. *)
Lemma kernelWeight_positive (di dj : Z) :
  (0 < 1 / (1 + Qz (Z.abs di) + Qz (Z.abs dj)))%Q.
Proof.
  assert (Hi : (inject_Z 0 <= Qz (Z.abs di))%Q) by (unfold Qz; rewrite <- Zle_Qle; lia).
  assert (Hj : (inject_Z 0 <= Qz (Z.abs dj))%Q) by (unfold Qz; rewrite <- Zle_Qle; lia).
  change (inject_Z 0) with 0%Q in *.
  apply Qlt_shift_div_l; lra.
Qed.

(** Smoothing replaces a cell by a weighted mean of cells, so it keeps
    the bounds of the map. *)
Lemma smoothHeightMap_between (size : nat) (lo hi : Q) (heightMap : list (list Q)) :
  grid2 size size (λ _ _ h, lo <= h ∧ h <= hi)%Q heightMap →
  ∃ heightMap',
    VolumetricTerrain.smoothHeightMap size heightMap = Some heightMap'
    ∧ grid2 size size (λ _ _ h, lo <= h ∧ h <= hi)%Q heightMap'.
Proof.
  intros Hh. unfold VolumetricTerrain.smoothHeightMap.
  apply tabulateM_grid2. intros i j Hi Hj.
  destruct (grid2_item _ _ _ _ i j Hh Hi Hj) as (copied & -> & Hc0 & Hc1).
  cbn [mbind option_bind].
  destruct (_ && _ && _ && _); [|eauto].
  match goal with
  | |- context [for_each ?l ?body ?s0] =>
      destruct (for_each_total
        (λ '(sum, weight), 0 <= weight ∧ lo * weight <= sum ∧ sum <= hi * weight)%Q
        body l s0) as ([sum weight] & -> & Hw & Hs0 & Hs1)
  end.
  - intros [di dj] [sum weight] _ (Hw & Hs0 & Hs1). cbv beta iota zeta.
    destruct (_ || _ || _ || _) eqn:Hout.
    { exists (sum, weight). split; [reflexivity|]. repeat split; assumption. }
    repeat (apply orb_false_iff in Hout as [Hout ?]).
    destruct (grid2_item_Z _ _ _ _ (Z.of_nat i + di) (Z.of_nat j + dj) Hh)
      as (h & -> & Hh0 & Hh1); [lia | lia |].
    cbn [mbind option_bind]. eexists (_, _). split; [reflexivity|].
    pose proof (kernelWeight_positive di dj) as Hk.
    set (k := (1 / (1 + Qz (Z.abs di) + Qz (Z.abs dj)))%Q) in *. clearbody k.
    assert (0 <= (h - lo) * k)%Q by (apply Qmult_le_0_compat; lra).
    assert (0 <= (hi - h) * k)%Q by (apply Qmult_le_0_compat; lra).
    repeat split; lra.
  - repeat split; lra.
  - cbn [mbind option_bind]. eexists. split; [reflexivity|].
    destruct (Qltb 0 weight) eqn:Hpos; [|now split].
    apply Qltb_lt in Hpos. split.
    + apply Qle_shift_div_l; [exact Hpos | exact Hs0].
    + apply Qle_shift_div_r; [exact Hpos | exact Hs1].
Qed.

Lemma floor_between (lo hi : Z) (h : Q) :
  (inject_Z lo <= h)%Q → (h <= inject_Z hi)%Q →
  ∃ n : Z, Qz (Qfloor h) = inject_Z n ∧ lo <= n <= hi.
Proof.
  intros Hlo Hhi. exists (Qfloor h). split; [reflexivity|]. split.
  - rewrite <- (Qfloor_Z lo). now apply Qfloor_resp_le.
  - rewrite <- (Qfloor_Z hi). now apply Qfloor_resp_le.
Qed.

(** The surface height map is always produced, and its cells are integers
    between 4 and 91. *)
Lemma surface_heights_between (size : nat) (seed : string) :
  ∃ heightMap,
    VolumetricTerrain.generateSurfaceHeightMap size seed = Some heightMap
    ∧ grid2 size size (λ _ _ h, ∃ n : Z, h = inject_Z n ∧ 4 <= n <= 91) heightMap.
Proof.
  unfold VolumetricTerrain.generateSurfaceHeightMap.
  pose proof (surface_octaves size seed) as Hoctaves. cbv zeta in Hoctaves |- *.
  destruct Hoctaves as (h0 & -> & Hh0). cbn [mbind option_bind].
  destruct (applyBiomeHeightVariation_between size seed 19 61 h0 Hh0) as (h1 & -> & Hh1).
  cbn [mbind option_bind].
  destruct (smoothHeightMap_between size (19 - 15) (61 + 30) h1 Hh1) as (h2 & -> & Hh2).
  cbn [mbind option_bind]. eexists. split; [reflexivity|].
  revert Hh2. apply grid2_map2D. intros i j h _ _ [Hlo Hhi].
  apply floor_between.
  - change (inject_Z 4) with 4%Q. lra.
  - change (inject_Z 91) with 91%Q. lra.
Qed.

(** ** What the later stages leave alone *)

Lemma same_frame_refl (t0 : VolumetricTerrain.t) : same_frame t0 t0.
Proof. repeat split. Qed.

Lemma same_frame_trans (t0 t1 t2 : VolumetricTerrain.t) :
  same_frame t0 t1 → same_frame t1 t2 → same_frame t0 t2.
Proof. unfold same_frame. intuition congruence. Qed.

Lemma with_blockData_frame (t0 : VolumetricTerrain.t) blocks :
  same_frame t0 (VolumetricTerrain.with_blockData t0 blocks).
Proof. repeat split. Qed.

Lemma generateCaves_frame (t0 t1 : VolumetricTerrain.t) (random : RandomSource)
    (k k1 : nat) :
  VolumetricTerrain.generateCaves t0 random k = Some (t1, k1) → same_frame t0 t1.
Proof.
  unfold VolumetricTerrain.generateCaves.
  destruct (negb _); cbv beta iota; [intros [= <- _]; apply same_frame_refl|].
  destruct (VolumetricTerrain.generate3DNoise _ _ _ VolumetricTerrain.CAVE_SCALE _ _);
    cbn [mbind option_bind]; [|discriminate].
  destruct (VolumetricTerrain.generate3DNoise _ _ _ _ _ _);
    cbn [mbind option_bind]; [|discriminate].
  destruct (VolumetricTerrain.carveCaves _ _ _ _ _) as [[blocks k']|];
    cbn [mbind option_bind]; [|discriminate].
  intros [= <- _]. apply with_blockData_frame.
Qed.

Lemma generateOreDeposits_frame (t0 t1 : VolumetricTerrain.t) (random : RandomSource)
    (k k1 : nat) :
  VolumetricTerrain.generateOreDeposits t0 random k = Some (t1, k1) → same_frame t0 t1.
Proof.
  unfold VolumetricTerrain.generateOreDeposits.
  destruct (for_loop _ _ _) as [[blocks k']|]; cbn [mbind option_bind]; [|discriminate].
  intros [= <- _]. apply with_blockData_frame.
Qed.

(** The height map of a constructed terrain is the one the first stage
    produced, whatever the random source. *)
Lemma new_heightMap (chunkX chunkZ : Z) (size : nat) (random : RandomSource) (k : nat) :
  Some (VolumetricTerrain.heightMap (VolumetricTerrain.new chunkX chunkZ size random k).1)
  = VolumetricTerrain.generateSurfaceHeightMap size (pretty chunkX +:+ "," +:+ pretty chunkZ).
Proof.
  unfold VolumetricTerrain.new, VolumetricTerrain.generateTerrain.
  cbn [VolumetricTerrain.size VolumetricTerrain.seed].
  destruct (surface_heights_between size (pretty chunkX +:+ "," +:+ pretty chunkZ))
    as (heightMap & -> & _).
  set (t1 := VolumetricTerrain.with_heightMap _ heightMap).
  destruct (VolumetricTerrain.generateVolumetricBlocks t1) as [blocks|]; [|reflexivity].
  set (t2 := VolumetricTerrain.with_blockData t1 blocks).
  destruct (VolumetricTerrain.generateCaves t2 random k) as [[t3 k3]|] eqn:Hc; [|reflexivity].
  apply generateCaves_frame in Hc.
  destruct (VolumetricTerrain.generateOreDeposits t3 random k3) as [[t4 k4]|] eqn:Ho.
  - apply generateOreDeposits_frame in Ho. cbn [fst].
    destruct (same_frame_trans _ _ _ Hc Ho) as (_ & _ & _ & _ & _ & ->). reflexivity.
  - cbn [fst]. destruct Hc as (_ & _ & _ & _ & _ & ->). reflexivity.
Qed.

(** ** C4: the bounds of the height maps *)

(** C4.  When terrain generation completes, the height map is a
    [size x size] array of integers: between 0 and 100 for the
    height-field chunk (whose generator completes for every chunk of size
    at least 16), between 4 and 91 for the volumetric terrain (whose
    surface stage always completes).  No cell is negative or undefined. *)
Theorem height_maps_are_bounded_integers :
  (∀ (RandState : Type) (Rand : string → RandState) (next : RandState → Q * RandState)
     (centerX centerZ : Z) (size : nat),
     ((16 <= size)%nat → is_Some (Chunk.new Rand next centerX centerZ size))
     ∧ ∀ c, Chunk.new Rand next centerX centerZ size = Some c →
         grid2 size size (λ _ _ h, ∃ n : Z, h = inject_Z n ∧ 0 <= n <= 100)
           (Chunk.heights c))
  ∧ (∀ (chunkX chunkZ : Z) (size : nat) (random : RandomSource) (k : nat),
     grid2 size size (λ _ _ h, ∃ n : Z, h = inject_Z n ∧ 4 <= n <= 91)
       (VolumetricTerrain.heightMap (VolumetricTerrain.new chunkX chunkZ size random k).1)).
Proof.
  split.
  - intros RandState Rand next centerX centerZ size. split.
    + apply Chunk_new_total.
    + intros c. unfold Chunk.new.
      destruct (Chunk.generateHeightMap _ _ _ _) as [heights|] eqn:Hh; [|discriminate].
      cbn [mbind option_bind]. intros [= <-]. cbn [Chunk.heights].
      exact (Chunk_heights_clamped Rand next size _ heights Hh).
  - intros chunkX chunkZ size random k.
    pose proof (new_heightMap chunkX chunkZ size random k) as Hnew.
    destruct (surface_heights_between size (pretty chunkX +:+ "," +:+ pretty chunkZ))
      as (heightMap & Hsome & Hbounds).
    rewrite Hsome in Hnew. injection Hnew as Hnew. now rewrite Hnew.
Qed.

Lemma height_maps_are_bounded_integers_witness :
  ∃ c, Chunk.new neutralRand neutralNext 0 0 16 = Some c
       ∧ grid2 16 16 (λ _ _ h, ∃ n : Z, h = inject_Z n ∧ 0 <= n <= 100) (Chunk.heights c).
Proof.
  eexists. split.
  - vm_compute. reflexivity.
  - apply (proj1 height_maps_are_bounded_integers unit neutralRand neutralNext 0 0 16%nat).
    vm_compute. reflexivity.
Defined.

(** ** The streaming manager never fails *)

Section StreamingTotal.
Context {RandState : Type}.
Variable Rand : string → RandState.
Variable next : RandState → Q * RandState.

Lemma createMissing_total (a b : Z) (chunks : gmap string Chunk.t) :
  is_Some (MinecraftAnimation.createMissing Rand next a b chunks).
Proof.
  unfold MinecraftAnimation.createMissing.
  destruct (for_each_total (λ _, True)
    (λ '(x, z) chunks0,
       match chunks0 !! MinecraftAnimation.chunkKey
                          (a + x * Z.of_nat MinecraftAnimation.chunkSize)
                          (b + z * Z.of_nat MinecraftAnimation.chunkSize) with
       | Some _ => Some chunks0
       | None =>
           chunk ← Chunk.new Rand next (a + x * Z.of_nat MinecraftAnimation.chunkSize)
                     (b + z * Z.of_nat MinecraftAnimation.chunkSize)
                     MinecraftAnimation.chunkSize;
           Some (<[MinecraftAnimation.chunkKey
                     (a + x * Z.of_nat MinecraftAnimation.chunkSize)
                     (b + z * Z.of_nat MinecraftAnimation.chunkSize) := chunk]> chunks0)
       end) MinecraftAnimation.neighborhood chunks) as (chunks' & Hrun & _);
    [| exact I | rewrite Hrun; eauto].
  intros [x z] chunks0 _ _. destruct (chunks0 !! _); [eauto|].
  destruct (Chunk_new_total Rand next
              (a + x * Z.of_nat MinecraftAnimation.chunkSize)
              (b + z * Z.of_nat MinecraftAnimation.chunkSize)
              MinecraftAnimation.chunkSize) as [c ->].
  - unfold MinecraftAnimation.chunkSize. lia.
  - cbn [mbind option_bind]. eauto.
Qed.

Lemma generateInitialChunks_total (s : MinecraftAnimation.t) :
  is_Some (MinecraftAnimation.generateInitialChunks Rand next s).
Proof.
  unfold MinecraftAnimation.generateInitialChunks.
  destruct (createMissing_total
    (MinecraftAnimation.chunkCoord (Vec3.x (MinecraftAnimation.playerPosition s)))
    (MinecraftAnimation.chunkCoord (Vec3.z (MinecraftAnimation.playerPosition s)))
    (MinecraftAnimation.chunks s)) as [chunks ->].
  cbn [mbind option_bind]. eauto.
Qed.

Lemma updateChunks_total (s : MinecraftAnimation.t) :
  is_Some (MinecraftAnimation.updateChunks Rand next s).
Proof.
  unfold MinecraftAnimation.updateChunks. case_bool_decide; [|eauto].
  destruct (createMissing_total
    (MinecraftAnimation.chunkCoord (Vec3.x (MinecraftAnimation.playerPosition s)))
    (MinecraftAnimation.chunkCoord (Vec3.z (MinecraftAnimation.playerPosition s)))
    (MinecraftAnimation.chunks s)) as [chunks ->].
  cbn [mbind option_bind]. eauto.
Qed.
End StreamingTotal.


(** ** Writes to a block grid *)

Lemma item_alter_eq {A : Type} (f : A → A) (a : list A) (i : nat) :
  item (alter f i a) (Z.of_nat i) = f <$> item a (Z.of_nat i).
Proof. rewrite !item_nat. apply list_lookup_alter_eq. Qed.

Lemma item_alter_ne {A : Type} (f : A → A) (a : list A) (i : nat) (j : Z) :
  j ≠ Z.of_nat i → item (alter f i a) j = item a j.
Proof.
  intros Hne. unfold item. destruct (0 <=? j) eqn:Hj; [|reflexivity].
  apply Z.leb_le in Hj. apply list_lookup_alter_ne. lia.
Qed.

Lemma item_insert_eq {A : Type} (a : list A) (i : nat) (v : A) :
  (i < length a)%nat → item (<[i := v]> a) (Z.of_nat i) = Some v.
Proof. intros Hi. rewrite item_nat. now apply list_lookup_insert_eq. Qed.

Lemma item_insert_ne {A : Type} (a : list A) (i : nat) (j : Z) (v : A) :
  j ≠ Z.of_nat i → item (<[i := v]> a) j = item a j.
Proof.
  intros Hne. unfold item. destruct (0 <=? j) eqn:Hj; [|reflexivity].
  apply Z.leb_le in Hj. apply list_lookup_insert_ne. lia.
Qed.

(** A write changes the cell it addresses... *)
Lemma item3_store3_eq {A : Type} (n m p : nat) (P : nat → nat → nat → A → Prop)
    (a : list (list (list A))) (i j k : nat) (v : A) :
  grid3 n m p P a → (i < n)%nat → (j < m)%nat → (k < p)%nat →
  item3 (store3 a i j k v) (Z.of_nat i) (Z.of_nat j) (Z.of_nat k) = Some v.
Proof.
  intros Ha Hi Hj Hk. unfold item3, store3.
  destruct (vec_lookup _ _ _ i Ha Hi) as (plane & Hplane & Hp).
  destruct (vec_lookup _ _ _ j Hp Hj) as (row & Hrow & Hr).
  rewrite item_alter_eq, item_nat, Hplane. cbn [fmap option_fmap option_map mbind option_bind].
  rewrite item_alter_eq, item_nat, Hrow. cbn [fmap option_fmap option_map mbind option_bind].
  apply item_insert_eq. now rewrite (vec_length _ _ _ Hr).
Qed.

(** ... and no other. *)
Lemma item3_store3_ne {A : Type} (a : list (list (list A))) (i j k : nat)
    (i' j' k' : Z) (v : A) :
  (i', j', k') ≠ (Z.of_nat i, Z.of_nat j, Z.of_nat k) →
  item3 (store3 a i j k v) i' j' k' = item3 a i' j' k'.
Proof.
  intros Hne. unfold item3, store3.
  destruct (decide (i' = Z.of_nat i)) as [->|Hi]; [|now rewrite item_alter_ne].
  rewrite item_alter_eq. destruct (item a (Z.of_nat i)) as [plane|]; [|reflexivity].
  cbn [fmap option_fmap option_map mbind option_bind].
  destruct (decide (j' = Z.of_nat j)) as [->|Hj]; [|now rewrite item_alter_ne].
  rewrite item_alter_eq. destruct (item plane (Z.of_nat j)) as [row|]; [|reflexivity].
  cbn [fmap option_fmap option_map mbind option_bind].
  apply item_insert_ne. congruence.
Qed.

Lemma vec_alter {A : Type} (n : nat) (P : nat → A → Prop) (f : A → A) (a : list A)
    (i : nat) :
  (∀ v, P i v → P i (f v)) → vec n P a → vec n P (alter f i a).
Proof.
  intros Hf [Hlen Hget]. split; [now rewrite length_alter|].
  intros j Hj. destruct (Hget j Hj) as (v & Hv & HP).
  destruct (decide (i = j)) as [->|Hne].
  - exists (f v). rewrite list_lookup_alter_eq, Hv. split; [reflexivity | now apply Hf].
  - exists v. rewrite list_lookup_alter_ne by exact Hne. now split.
Qed.

(** A write keeps the dimensions of the grid. *)
Lemma grid3_store3 {A : Type} (n m p : nat) (a : list (list (list A)))
    (i j k : nat) (v : A) :
  grid3 n m p (λ _ _ _ _, True) a → grid3 n m p (λ _ _ _ _, True) (store3 a i j k v).
Proof.
  unfold store3. apply vec_alter. intros plane. apply vec_alter. intros row [Hlen Hget].
  split; [now rewrite length_insert|].
  intros k' Hk'. destruct (Hget k' Hk') as (w & Hw & _).
  destruct (decide (k = k')) as [->|Hne].
  - exists v. split; [|exact I]. apply list_lookup_insert_eq.
    apply lookup_lt_Some in Hw. exact Hw.
  - exists w. split; [|exact I]. now rewrite list_lookup_insert_ne.
Qed.

(** ** Visibility *)

Lemma in_chunk_test (t : VolumetricTerrain.t) (x y z : Z) :
  (x <? 0) || (Z.of_nat (VolumetricTerrain.size t) <=? x)
  || (y <? 0) || (Z.of_nat (VolumetricTerrain.size t) <=? y)
  || (z <? 0) || (Z.of_nat (VolumetricTerrain.size t) <=? z) = false
  ↔ in_chunk t (x, y, z).
Proof.
  unfold in_chunk. cbn [fst snd]. rewrite !orb_false_iff, !Z.ltb_ge, !Z.leb_gt. lia.
Qed.

Lemma block_at_in_chunk (t : VolumetricTerrain.t) (p : Z * Z * Z) :
  well_formed t → in_chunk t p → is_Some (block_at t p).
Proof.
  intros [_ Hb] (Hx & Hy & Hz). unfold block_at.
  destruct (grid3_item_Z _ _ _ _ _ _ _ _ Hb Hx Hy Hz) as (c & Hc & _). eauto.
Qed.

(** A side is never both covered and open. *)
Lemma covered_not_open (t : VolumetricTerrain.t) (p : Z * Z * Z) :
  covered_side t p → open_side t p → False.
Proof.
  intros [Hin (b & Hb & Hair & Hwater & Hlava)] [Hout|[H|[H|[H|H]]]];
    [contradiction|..]; rewrite Hb in H; congruence.
Qed.

(** The loop over the directions answers [true] when every side it
    visits is covered and [false] when one of them is open. *)
Lemma hiddenFrom_spec (t : VolumetricTerrain.t) (x y z : Z) (dirs : list (Z * Z * Z)) :
  well_formed t →
  ∃ hidden, VolumetricTerrain.hiddenFrom t x y z dirs = Some hidden
    ∧ (hidden = true →
         ∀ d, d ∈ dirs → covered_side t (x + d.1.1, y + d.1.2, z + d.2))
    ∧ (hidden = false →
         ∃ d, d ∈ dirs ∧ open_side t (x + d.1.1, y + d.1.2, z + d.2)).
Proof.
  intros Hwf. induction dirs as [|[[dx dy] dz] dirs IH].
  - exists true. split; [reflexivity|]. split; [|discriminate].
    intros _ d Hd%elem_of_nil. destruct Hd.
  - cbn [VolumetricTerrain.hiddenFrom]. cbv zeta.
    destruct (_ || _ || _ || _ || _ || _) eqn:Hout.
    { exists false. split; [reflexivity|]. split; [discriminate|]. intros _.
      exists (dx, dy, dz). split; [left|]. left. intros Hin.
      apply in_chunk_test in Hin. cbn [fst snd] in Hin. congruence. }
    apply in_chunk_test in Hout.
    destruct (block_at_in_chunk t _ Hwf Hout) as [c Hc]. unfold block_at in Hc.
    cbn [fst snd] in Hc. rewrite Hc. cbn [mbind option_bind].
    assert (Hopen : ∀ c', c = c' → c' = None ∨ c' = Some AIR ∨ c' = Some WATER ∨ c' = Some LAVA →
              ∃ hidden, Some false = Some hidden
                ∧ (hidden = true → ∀ d, d ∈ (dx, dy, dz) :: dirs →
                     covered_side t (x + d.1.1, y + d.1.2, z + d.2))
                ∧ (hidden = false → ∃ d, d ∈ (dx, dy, dz) :: dirs
                     ∧ open_side t (x + d.1.1, y + d.1.2, z + d.2))).
    { intros c' -> Hc'. exists false. split; [reflexivity|]. split; [discriminate|].
      intros _. exists (dx, dy, dz). split; [left|]. right. unfold block_at.
      cbn [fst snd]. rewrite Hc. destruct Hc' as [-> |[-> |[-> | ->]]]; tauto. }
    assert (Hsolid : ∀ b, c = Some b → solid_opaque b →
              ∃ hidden, VolumetricTerrain.hiddenFrom t x y z dirs = Some hidden
                ∧ (hidden = true → ∀ d, d ∈ (dx, dy, dz) :: dirs →
                     covered_side t (x + d.1.1, y + d.1.2, z + d.2))
                ∧ (hidden = false → ∃ d, d ∈ (dx, dy, dz) :: dirs
                     ∧ open_side t (x + d.1.1, y + d.1.2, z + d.2))).
    { intros b -> Hb. destruct IH as (hidden & Hrun & Htrue & Hfalse).
      exists hidden. split; [exact Hrun|]. split.
      - intros Hh d [-> |Hd]%elem_of_cons; [|now apply Htrue].
        split; [exact Hout|]. exists b. unfold block_at. cbn [fst snd]. now split.
      - intros Hh. destruct (Hfalse Hh) as (d & Hd & Ho). exists d. split; [now right | exact Ho]. }
    destruct c as [[]|]; solve
      [ apply (Hopen _ eq_refl); tauto
      | apply (Hsolid _ eq_refl); repeat split; discriminate ].
Qed.

(** The positions [isBlockHidden] visits are the six neighbours. *)
Lemma directions_neighbors (x y z : Z) :
  (λ d : Z * Z * Z, (x + d.1.1, y + d.1.2, z + d.2)) <$> VolumetricTerrain.directions
  = neighbors x y z.
Proof.
  unfold neighbors, VolumetricTerrain.directions. cbn [fmap list_fmap fst snd].
  rewrite !Z.add_0_r. reflexivity.
Qed.

(** What [isBlockHidden] answers for a cell of a well-formed terrain. *)
Lemma isBlockHidden_spec (t : VolumetricTerrain.t) (x y z : Z) (b : BlockType) :
  well_formed t → block_at t (x, y, z) = Some (Some b) →
  ∃ hidden, VolumetricTerrain.isBlockHidden t x y z = Some hidden
    ∧ (b = WATER ∨ b = LAVA → hidden = false)
    ∧ (hidden = true → ∀ p, p ∈ neighbors x y z → covered_side t p)
    ∧ (hidden = false → b = WATER ∨ b = LAVA ∨ ∃ p, p ∈ neighbors x y z ∧ open_side t p).
Proof.
  intros Hwf Hb. unfold VolumetricTerrain.isBlockHidden. unfold block_at in Hb.
  cbn [fst snd] in Hb. rewrite Hb. cbn [mbind option_bind].
  destruct (hiddenFrom_spec t x y z VolumetricTerrain.directions Hwf)
    as (hidden & Hrun & Htrue & Hfalse).
  assert (Hliquid : b = WATER ∨ b = LAVA →
            ∃ hidden, Some false = Some hidden
              ∧ (b = WATER ∨ b = LAVA → hidden = false)
              ∧ (hidden = true → ∀ p, p ∈ neighbors x y z → covered_side t p)
              ∧ (hidden = false →
                   b = WATER ∨ b = LAVA ∨ ∃ p, p ∈ neighbors x y z ∧ open_side t p)).
  { intros Hl. exists false. split; [reflexivity|]. split; [reflexivity|].
    split; [discriminate | tauto]. }
  assert (Hother : b ≠ WATER → b ≠ LAVA →
            ∃ hidden, VolumetricTerrain.hiddenFrom t x y z VolumetricTerrain.directions
                      = Some hidden
              ∧ (b = WATER ∨ b = LAVA → hidden = false)
              ∧ (hidden = true → ∀ p, p ∈ neighbors x y z → covered_side t p)
              ∧ (hidden = false →
                   b = WATER ∨ b = LAVA ∨ ∃ p, p ∈ neighbors x y z ∧ open_side t p)).
  { intros Hw Hl. exists hidden. split; [exact Hrun|]. split; [intros [?|?]; contradiction|].
    rewrite <- directions_neighbors. split.
    - intros Hh p (d & -> & Hd)%list_elem_of_fmap. now apply Htrue.
    - intros Hh. destruct (Hfalse Hh) as (d & Hd & Ho). right. right.
      exists (x + d.1.1, y + d.1.2, z + d.2). split; [|exact Ho].
      apply list_elem_of_fmap. eauto. }
  destruct b; solve [apply Hliquid; tauto | apply Hother; discriminate].
Qed.

(** ** The extracted list *)

Lemma tabulateM_concat {A : Type} (n : nat) (f : nat → option (list A)) :
  (∀ i, (i < n)%nat → is_Some (f i)) →
  ∃ r, (ls ← tabulateM n f; Some (concat ls)) = Some r
    ∧ ∀ b, b ∈ r ↔ ∃ i l, (i < n)%nat ∧ f i = Some l ∧ b ∈ l.
Proof.
  intros Hf.
  destruct (tabulateM_vec n f (λ i l, f i = Some l)) as (ls & Hls & Hlen & Hget).
  { intros i Hi. destruct (Hf i Hi) as [l Hl]. eauto. }
  rewrite Hls. cbn [mbind option_bind]. eexists. split; [reflexivity|].
  intros b. rewrite list_elem_of_In, in_concat. split.
  - intros (l & Hl%list_elem_of_In & Hb%list_elem_of_In).
    apply list_elem_of_lookup in Hl as [i Hi].
    assert (Hin : (i < n)%nat) by (apply lookup_lt_Some in Hi; lia).
    destruct (Hget i Hin) as (l' & Hl' & Hfi). exists i, l. split; [exact Hin|].
    split; [congruence | exact Hb].
  - intros (i & l & Hi & Hfi & Hb). destruct (Hget i Hi) as (l' & Hl' & Hfi').
    exists l. split; apply list_elem_of_In; [|exact Hb].
    apply list_elem_of_lookup. exists i. congruence.
Qed.

(** What the scan pushes for one cell. *)
Lemma extractCell_spec (t : VolumetricTerrain.t) (x y z : nat) :
  well_formed t →
  (x < VolumetricTerrain.size t)%nat → (y < VolumetricTerrain.size t)%nat →
  (z < VolumetricTerrain.size t)%nat →
  ∃ c l, block_at t (Z.of_nat x, Z.of_nat y, Z.of_nat z) = Some c
    ∧ VolumetricTerrain.extractCell t x y z = Some l
    ∧ match c with
      | None | Some AIR => l = []
      | Some b =>
          ∃ hidden,
            VolumetricTerrain.isBlockHidden t (Z.of_nat x) (Z.of_nat y) (Z.of_nat z)
            = Some hidden
            ∧ l = if hidden then [] else [block_of t x y z b]
      end.
Proof.
  intros Hwf Hx Hy Hz.
  destruct (block_at_in_chunk t (Z.of_nat x, Z.of_nat y, Z.of_nat z) Hwf) as [c Hc].
  { unfold in_chunk. cbn [fst snd]. lia. }
  exists c. unfold VolumetricTerrain.extractCell. pose proof Hc as Hc'.
  unfold block_at in Hc'. cbn [fst snd] in Hc'. rewrite Hc'. cbn [mbind option_bind].
  assert (Hemit : ∀ b, c = Some b →
    ∃ l, (hidden ← VolumetricTerrain.isBlockHidden t (Z.of_nat x) (Z.of_nat y) (Z.of_nat z);
          if (hidden : bool) then Some []
          else Some [Block.mk
                  (Qz (VolumetricTerrain.chunkX t) - Qn (VolumetricTerrain.size t) / 2 + Qn x)
                  (Qz (VolumetricTerrain.chunkY t) + Qn y)
                  (Qz (VolumetricTerrain.chunkZ t) - Qn (VolumetricTerrain.size t) / 2 + Qn z)
                  b]) = Some l
      ∧ ∃ hidden,
          VolumetricTerrain.isBlockHidden t (Z.of_nat x) (Z.of_nat y) (Z.of_nat z)
          = Some hidden
          ∧ l = if hidden then [] else [block_of t x y z b]).
  { intros b ->. destruct (isBlockHidden_spec t _ _ _ b Hwf Hc) as (hidden & Hh & _).
    rewrite Hh. cbn [mbind option_bind]. destruct hidden; eexists; (split; [reflexivity|]);
      eexists; split; reflexivity. }
  destruct c as [[]|]; try (exists []; split; [exact Hc|]; split; reflexivity);
    (destruct (Hemit _ eq_refl) as (l & Hl & Hspec); exists l;
     split; [exact Hc|]; split; [exact Hl | exact Hspec]).
Qed.

(** The extracted list of a well-formed terrain exists, and its blocks
    are the ones the scan pushes cell by cell. *)
Lemma extractBlocks_spec (t : VolumetricTerrain.t) :
  well_formed t →
  ∃ blocks, VolumetricTerrain.extractBlocks t = Some blocks
    ∧ ∀ b, b ∈ blocks ↔
        ∃ x y z l, (x < VolumetricTerrain.size t)%nat ∧ (y < VolumetricTerrain.size t)%nat
          ∧ (z < VolumetricTerrain.size t)%nat
          ∧ VolumetricTerrain.extractCell t x y z = Some l ∧ b ∈ l.
Proof.
  intros Hwf. unfold VolumetricTerrain.extractBlocks.
  set (n := VolumetricTerrain.size t).
  assert (Hrow : ∀ x y, (x < n)%nat → (y < n)%nat →
    ∃ r, (blocks ← tabulateM n (λ z, VolumetricTerrain.extractCell t x y z);
          Some (concat blocks)) = Some r
      ∧ ∀ b, b ∈ r ↔ ∃ z l, (z < n)%nat
          ∧ VolumetricTerrain.extractCell t x y z = Some l ∧ b ∈ l).
  { intros x y Hx Hy. apply tabulateM_concat. intros z Hz.
    destruct (extractCell_spec t x y z Hwf Hx Hy Hz) as (c & l & _ & Hl & _). eauto. }
  assert (Hplane : ∀ x, (x < n)%nat →
    ∃ r, (blocks ← tabulateM n (λ y,
            blocks ← tabulateM n (λ z, VolumetricTerrain.extractCell t x y z);
            Some (concat blocks));
          Some (concat blocks)) = Some r
      ∧ ∀ b, b ∈ r ↔ ∃ y z l, (y < n)%nat ∧ (z < n)%nat
          ∧ VolumetricTerrain.extractCell t x y z = Some l ∧ b ∈ l).
  { intros x Hx.
    destruct (tabulateM_concat n (λ y,
      blocks ← tabulateM n (λ z, VolumetricTerrain.extractCell t x y z);
      Some (concat blocks))) as (r & Hr & Hmem).
    { intros y Hy. destruct (Hrow x y Hx Hy) as (r & Hr & _). eauto. }
    exists r. split; [exact Hr|]. intros b. rewrite Hmem. split.
    - intros (y & l & Hy & Hl & Hb). destruct (Hrow x y Hx Hy) as (r' & Hr' & Hmem').
      assert (r' = l) as -> by congruence. apply Hmem' in Hb as (z & l' & Hz & Hl' & Hb).
      eauto 10.
    - intros (y & z & l & Hy & Hz & Hl & Hb). destruct (Hrow x y Hx Hy) as (r' & Hr' & Hmem').
      exists y, r'. split; [exact Hy|]. split; [exact Hr'|]. apply Hmem'. eauto. }
  destruct (tabulateM_concat n (λ x,
    blocks ← tabulateM n (λ y,
      blocks ← tabulateM n (λ z, VolumetricTerrain.extractCell t x y z);
      Some (concat blocks));
    Some (concat blocks))) as (r & Hr & Hmem).
  { intros x Hx. destruct (Hplane x Hx) as (r & Hr & _). eauto. }
  exists r. split; [exact Hr|]. intros b. rewrite Hmem. split.
  - intros (x & l & Hx & Hl & Hb). destruct (Hplane x Hx) as (r' & Hr' & Hmem').
    assert (r' = l) as -> by congruence. apply Hmem' in Hb as (y & z & l' & Hy & Hz & Hl' & Hb).
    eauto 10.
  - intros (x & y & z & l & Hx & Hy & Hz & Hl & Hb).
    destruct (Hplane x Hx) as (r' & Hr' & Hmem').
    exists x, r'. split; [exact Hx|]. split; [exact Hr'|]. apply Hmem'. eauto 10.
Qed.

Lemma uniformTerrain_well_formed (size : nat) (b : BlockType) (height : Q) :
  well_formed (uniformTerrain size b height).
Proof.
  split; cbn.
  - apply vec_replicate. intros i _. now apply vec_replicate.
  - apply vec_replicate. intros i _. apply vec_replicate. intros j _. now apply vec_replicate.
Qed.

Lemma uniformTerrainWith_well_formed (size : nat) (b : BlockType) (height : Q)
    (x y z : nat) (b' : BlockType) :
  well_formed (uniformTerrainWith size b height x y z b').
Proof.
  destruct (uniformTerrain_well_formed size b height) as [Hh Hb].
  split; [exact Hh|]. apply grid3_store3. exact Hb.
Qed.

(** ** C6: what the extracted list holds *)

Lemma Qn_inj (a b : nat) : (Qn a == Qn b)%Q → a = b.
Proof.
  unfold Qn. rewrite inject_Z_injective. apply Nat2Z.inj.
Qed.

(** A block of the list lies at the position of exactly one cell. *)
Lemma block_of_position (t : VolumetricTerrain.t) (x y z x' y' z' : nat) (b b' : BlockType) :
  (Block.x (block_of t x y z b) == Block.x (block_of t x' y' z' b')
   ∧ Block.y (block_of t x y z b) == Block.y (block_of t x' y' z' b')
   ∧ Block.z (block_of t x y z b) == Block.z (block_of t x' y' z' b'))%Q →
  x = x' ∧ y = y' ∧ z = z'.
Proof.
  unfold block_of. cbn [Block.x Block.y Block.z]. intros (Hx & Hy & Hz).
  repeat split; apply Qn_inj; lra.
Qed.

(** C6.  In the extracted list of a well-formed terrain, for a cell that
    is not air: if it is a solid cell (the third clause takes water
    and lava out of this one) and its six neighbours are all inside the
    chunk, solid and opaque, it does not appear; if one of its neighbours
    is outside the chunk or is null, air, water or lava, it appears; and
    if it is water or lava it appears whatever its neighbours. *)
Theorem extracted_blocks_are_the_visible_ones
    (t : VolumetricTerrain.t) (x y z : nat) (b : BlockType) :
  well_formed t →
  (x < VolumetricTerrain.size t)%nat → (y < VolumetricTerrain.size t)%nat →
  (z < VolumetricTerrain.size t)%nat →
  block_at t (Z.of_nat x, Z.of_nat y, Z.of_nat z) = Some (Some b) → b ≠ AIR →
  (b ≠ WATER → b ≠ LAVA →
     (∀ p, p ∈ neighbors (Z.of_nat x) (Z.of_nat y) (Z.of_nat z) → covered_side t p) →
     absent t x y z)
  ∧ ((∃ p, p ∈ neighbors (Z.of_nat x) (Z.of_nat y) (Z.of_nat z) ∧ open_side t p) →
     appears t x y z)
  ∧ (b = WATER ∨ b = LAVA → appears t x y z).
Proof.
  intros Hwf Hx Hy Hz Hb Hair.
  destruct (extractBlocks_spec t Hwf) as (blocks & Hblocks & Hmem).
  destruct (isBlockHidden_spec t _ _ _ b Hwf Hb) as (hidden & Hhidden & Hliquid & Htrue & Hfalse).
  destruct (extractCell_spec t x y z Hwf Hx Hy Hz) as (c & l & Hc & Hl & Hspec).
  rewrite Hb in Hc. injection Hc as <-.
  assert (Hlist : l = if hidden then [] else [block_of t x y z b]).
  { destruct b; try contradiction;
      destruct Hspec as (hidden' & Hh' & ->); rewrite Hhidden in Hh';
      injection Hh' as <-; reflexivity. }
  clear Hspec.
  assert (Hvisible : hidden = false → appears t x y z).
  { intros ->. exists blocks, b. split; [exact Hblocks|]. split; [exact Hb|].
    apply Hmem. exists x, y, z, l. repeat split; try assumption. rewrite Hlist. now left. }
  split; [|split].
  - intros Hwater Hlava Hcovered. exists blocks. split; [exact Hblocks|].
    intros blk Hblk Hpos. apply Hmem in Hblk as (x' & y' & z' & l' & Hx' & Hy' & Hz' & Hl' & Hin).
    destruct (extractCell_spec t x' y' z' Hwf Hx' Hy' Hz') as (c' & l'' & Hc' & Hl'' & Hspec').
    rewrite Hl' in Hl''. injection Hl'' as <-.
    assert (Hblock : ∃ b', blk = block_of t x' y' z' b').
    { destruct c' as [[]|]; try (subst l'; apply elem_of_nil in Hin; destruct Hin);
        destruct Hspec' as (h' & _ & ->); destruct h';
        try (apply elem_of_nil in Hin; destruct Hin);
        apply list_elem_of_singleton in Hin; eauto. }
    destruct Hblock as (b' & ->).
    apply block_of_position in Hpos as (-> & -> & ->).
    rewrite Hl in Hl'. injection Hl' as <-.
    destruct hidden.
    + subst l. apply elem_of_nil in Hin. destruct Hin.
    + destruct (Hfalse eq_refl) as [?|[?|(p & Hp & Hopen)]]; try contradiction.
      exact (covered_not_open t p (Hcovered p Hp) Hopen).
  - intros (p & Hp & Hopen). apply Hvisible. destruct hidden; [|reflexivity].
    exfalso. exact (covered_not_open t p (Htrue eq_refl p Hp) Hopen).
  - intros Hl'. apply Hvisible. now apply Hliquid.
Qed.

(** A stone cell enclosed by stone on all six sides is culled, a stone
    cell on the boundary is emitted, and a water cell enclosed by stone on
    all six sides is emitted all the same. *)
Lemma extracted_blocks_are_the_visible_ones_witness :
  absent (uniformTerrain 3 STONE 2) 1 1 1
  ∧ appears (uniformTerrain 3 STONE 2) 0 1 1
  ∧ appears (uniformTerrainWith 3 STONE 2 1 1 1 WATER) 1 1 1.
Proof.
  split; [|split].
  - destruct (extracted_blocks_are_the_visible_ones (uniformTerrain 3 STONE 2) 1 1 1 STONE)
      as (Hcull & _ & _);
      try (apply uniformTerrain_well_formed); try (cbn; lia); try reflexivity;
      try discriminate.
    apply Hcull; try discriminate.
    intros p Hp. unfold neighbors in Hp.
    rewrite !elem_of_cons, elem_of_nil in Hp.
    destruct Hp as [-> | [-> | [-> | [-> | [-> | [-> | []]]]]]];
      (split; [unfold in_chunk; cbn; lia
              | exists STONE; split; [reflexivity | repeat split; discriminate]]).
  - destruct (extracted_blocks_are_the_visible_ones (uniformTerrain 3 STONE 2) 0 1 1 STONE)
      as (_ & Hemit & _);
      try (apply uniformTerrain_well_formed); try (cbn; lia); try reflexivity;
      try discriminate.
    apply Hemit.
    exists (-1, 1, 1). split; [unfold neighbors; cbn; set_solver|].
    left. unfold in_chunk. cbn. lia.
  - destruct (extracted_blocks_are_the_visible_ones
                (uniformTerrainWith 3 STONE 2 1 1 1 WATER) 1 1 1 WATER)
      as (_ & _ & Hliquid);
      try (apply uniformTerrainWith_well_formed); try (cbn; lia); try reflexivity;
      try discriminate.
    apply Hliquid. now left.
Defined.

(** ** C10: the effect of a block edit *)

Lemma in_chunk_bounds (t : VolumetricTerrain.t) (x y z : Z) :
  in_chunk t (x, y, z) →
  (0 <=? x) && (x <? Z.of_nat (VolumetricTerrain.size t)) &&
  (0 <=? y) && (y <? Z.of_nat (VolumetricTerrain.size t)) &&
  (0 <=? z) && (z <? Z.of_nat (VolumetricTerrain.size t)) = true.
Proof.
  unfold in_chunk. cbn [fst snd]. intros (Hx & Hy & Hz).
  rewrite !andb_true_iff, !Z.leb_le, !Z.ltb_lt. lia.
Qed.

(** The terrain's own [setBlockAt] on a cell of the chunk. *)
Lemma terrain_setBlockAt_in_chunk (t : VolumetricTerrain.t) (wx wy wz : Q) (ty : BlockType) :
  well_formed t → in_chunk t (localCell t wx wy wz) →
  let p := localCell t wx wy wz in
  VolumetricTerrain.setBlockAt t wx wy wz ty
  = Some (true,
          VolumetricTerrain.with_blockData t
            (store3 (VolumetricTerrain.blockData t) (Z.to_nat p.1.1) (Z.to_nat p.1.2)
               (Z.to_nat p.2) (Some ty))).
Proof.
  intros Hwf Hin p. unfold VolumetricTerrain.setBlockAt.
  destruct (block_at_in_chunk t _ Hwf Hin) as [c Hc].
  unfold localCell in *. cbv zeta. rewrite (in_chunk_bounds _ _ _ _ Hin).
  unfold block_at in Hc. cbn [fst snd] in Hc. rewrite Hc. reflexivity.
Qed.

(** C10.  On a well-formed volumetric chunk, [setBlockAt] at a coordinate
    inside the chunk succeeds; afterwards the addressed cell of the block
    grid holds the new type and every other cell holds what it held, the
    instance buffers are the ones built from the block list of the edited
    grid, the height map is the same array as before, and [getHeightAt]
    returns at every column what it returned before the edit. *)
Theorem setBlockAt_changes_one_cell
    (c : VolumetricChunk.t) (worldX worldY worldZ : Q) (blockType : BlockType) :
  let t := VolumetricChunk.terrain c in
  let p := localCell t worldX worldY worldZ in
  well_formed t → in_chunk t p →
  ∃ c', VolumetricChunk.setBlockAt c worldX worldY worldZ blockType = (true, c')
    ∧ block_at (VolumetricChunk.terrain c') p = Some (Some blockType)
    ∧ (∀ q, q ≠ p → block_at (VolumetricChunk.terrain c') q = block_at t q)
    ∧ (∃ blocks,
         VolumetricTerrain.extractBlocks (VolumetricChunk.terrain c') = Some blocks
         ∧ VolumetricChunk.cubes c' = length blocks
         ∧ VolumetricChunk.cubePositionsF32 c' = VolumetricChunk.positionsOf blocks
         ∧ VolumetricChunk.blockTypesF32 c' = VolumetricChunk.typesOf blocks)
    ∧ VolumetricTerrain.heightMap (VolumetricChunk.terrain c') = VolumetricTerrain.heightMap t
    ∧ ∀ x z, VolumetricChunk.getHeightAt c' x z = VolumetricChunk.getHeightAt c x z.
Proof.
  intros t p Hwf Hin.
  pose proof (terrain_setBlockAt_in_chunk t worldX worldY worldZ blockType Hwf Hin) as Hset.
  cbv zeta in Hset. fold p in Hset.
  set (t' := VolumetricTerrain.with_blockData t _) in Hset.
  assert (Hwf' : well_formed t').
  { destruct Hwf as [Hh Hb]. split; [exact Hh|]. subst t'. cbn. now apply grid3_store3. }
  destruct (extractBlocks_spec t' Hwf') as (blocks & Hblocks & _).
  unfold VolumetricChunk.setBlockAt. fold t. rewrite Hset.
  unfold VolumetricChunk.generateCubes, VolumetricChunk.with_terrain.
  cbn [VolumetricChunk.terrain]. rewrite Hblocks.
  eexists. split; [reflexivity|]. cbn [VolumetricChunk.terrain VolumetricChunk.cubes
    VolumetricChunk.cubePositionsF32 VolumetricChunk.blockTypesF32].
  destruct p as [[lx ly] lz] eqn:Hp. unfold in_chunk in Hin. cbn [fst snd] in Hin, t'.
  destruct Hwf as [Hh Hb].
  split.
  { unfold block_at. subst t'. cbn [VolumetricTerrain.blockData VolumetricTerrain.with_blockData fst snd].
    rewrite <- (Z2Nat.id lx), <- (Z2Nat.id ly), <- (Z2Nat.id lz) at 2 by lia.
    apply (item3_store3_eq _ _ _ _ _ _ _ _ _ Hb); lia. }
  split.
  { intros [[qx qy] qz] Hne. unfold block_at. subst t'.
    cbn [VolumetricTerrain.blockData VolumetricTerrain.with_blockData fst snd].
    apply item3_store3_ne. rewrite !Z2Nat.id by lia. exact Hne. }
  split.
  { exists blocks. repeat split. exact Hblocks. }
  split; [reflexivity|].
  intros x z. unfold VolumetricChunk.getHeightAt. cbn [VolumetricChunk.terrain].
  reflexivity.
Qed.

(** Replacing the top stone of a column by air in a 2 x 2 x 2 terrain. *)
Lemma setBlockAt_changes_one_cell_witness :
  ∃ c', VolumetricChunk.setBlockAt (chunkOfTerrain (uniformTerrain 2 STONE 2)) 0 1 0 AIR
        = (true, c')
    ∧ block_at (VolumetricChunk.terrain c') (1, 1, 1) = Some (Some AIR)
    ∧ block_at (VolumetricChunk.terrain c') (1, 0, 1) = Some (Some STONE)
    ∧ VolumetricChunk.getHeightAt c' 0 0 == 2.
Proof.
  destruct (setBlockAt_changes_one_cell (chunkOfTerrain (uniformTerrain 2 STONE 2)) 0 1 0 AIR)
    as (c' & Hset & Hcell & Hrest & _ & _ & Hheight).
  - apply uniformTerrain_well_formed.
  - vm_compute. repeat split; discriminate.
  - exists c'. split; [exact Hset|]. split; [exact Hcell|].
    split; [rewrite Hrest; [reflexivity | discriminate]|].
    rewrite Hheight. reflexivity.
Defined.

(** ** C5: the samplers *)

(** Inside the grid both corners along an axis are cells of the grid. *)
Lemma corners_in_grid (x : Q) (n : nat) :
  (0 <= x)%Q → (x < Qn n)%Q →
  (0 <= lowerCorner x < Z.of_nat n) ∧ (0 <= upperCorner n x < Z.of_nat n).
Proof.
  intros H0 H1. unfold lowerCorner, upperCorner.
  assert (0 <= Qfloor x) by now apply Qfloor_nonneg.
  assert (Qfloor x < Z.of_nat n) by now apply Qfloor_lt_Z.
  lia.
Qed.

Lemma smoothStep_hermite (t : Q) : (VolumetricTerrain.smoothStep t == hermite t)%Q.
Proof. unfold VolumetricTerrain.smoothStep, hermite. ring. Qed.

Lemma volumetric_bilinear_weighted (n m : nat) (grid : list (list Q)) (x z : Q) :
  grid2 n m (λ _ _ _, True) grid →
  (0 <= x)%Q → (x < Qn n)%Q → (0 <= z)%Q → (z < Qn m)%Q →
  same_number (VolumetricTerrain.bilinearInterpolation grid x z)
              (weightedBilinear hermite n m grid x z).
Proof.
  intros Hg Hx0 Hx1 Hz0 Hz1.
  destruct (corners_in_grid x n Hx0 Hx1) as [Hx1' Hx2'].
  destruct (corners_in_grid z m Hz0 Hz1) as [Hz1' Hz2'].
  assert (Hn : (0 < n)%nat) by (unfold lowerCorner in Hx1'; lia).
  destruct (grid2_first_row _ _ _ _ Hg Hn) as (row0 & Hrow0 & Hlen0).
  unfold VolumetricTerrain.bilinearInterpolation, weightedBilinear, same_number.
  rewrite Hrow0. cbn [mbind option_bind]. rewrite Hlen0, (vec_length _ _ _ Hg).
  unfold lowerCorner, upperCorner in *.
  destruct (grid2_item_Z _ _ _ _ _ _ Hg Hx1' Hz1') as [c11 [-> _]].
  destruct (grid2_item_Z _ _ _ _ _ _ Hg Hx2' Hz1') as [c21 [-> _]].
  destruct (grid2_item_Z _ _ _ _ _ _ Hg Hx1' Hz2') as [c12 [-> _]].
  destruct (grid2_item_Z _ _ _ _ _ _ Hg Hx2' Hz2') as [c22 [-> _]].
  cbn [mbind option_bind]. eexists _, _. split; [reflexivity|]. split; [reflexivity|].
  cbv zeta. unfold VolumetricTerrain.lerp, fractionalPart, Qz.
  rewrite !smoothStep_hermite. ring.
Qed.

Lemma chunk_bilinear_weighted (n m : nat) (grid : list (list Q)) (x z : Q) :
  grid2 n m (λ _ _ _, True) grid →
  (0 <= x)%Q → (x < Qn n)%Q → (0 <= z)%Q → (z < Qn m)%Q →
  same_number (Chunk.bilinearInterpolation grid x z)
              (weightedBilinear (λ t, t) n m grid x z).
Proof.
  intros Hg Hx0 Hx1 Hz0 Hz1.
  destruct (corners_in_grid x n Hx0 Hx1) as [Hx1' Hx2'].
  destruct (corners_in_grid z m Hz0 Hz1) as [Hz1' Hz2'].
  assert (Hn : (0 < n)%nat) by (unfold lowerCorner in Hx1'; lia).
  destruct (grid2_first_row _ _ _ _ Hg Hn) as (row0 & Hrow0 & Hlen0).
  unfold Chunk.bilinearInterpolation, weightedBilinear, same_number.
  rewrite Hrow0. cbn [mbind option_bind]. rewrite Hlen0, (vec_length _ _ _ Hg).
  unfold lowerCorner, upperCorner in *.
  destruct (grid2_item_Z _ _ _ _ _ _ Hg Hx1' Hz1') as [c11 [-> _]].
  destruct (grid2_item_Z _ _ _ _ _ _ Hg Hx2' Hz1') as [c21 [-> _]].
  destruct (grid2_item_Z _ _ _ _ _ _ Hg Hx1' Hz2') as [c12 [-> _]].
  destruct (grid2_item_Z _ _ _ _ _ _ Hg Hx2' Hz2') as [c22 [-> _]].
  cbn [mbind option_bind]. eexists _, _. split; [reflexivity|]. split; [reflexivity|].
  cbv zeta. unfold Chunk.lerp, fractionalPart, Qz. ring.
Qed.

Lemma volumetric_trilinear_weighted (n m p : nat) (grid : list (list (list Q)))
    (x y z : Q) :
  grid3 n m p (λ _ _ _ _, True) grid →
  (0 <= x)%Q → (x < Qn n)%Q → (0 <= y)%Q → (y < Qn m)%Q → (0 <= z)%Q → (z < Qn p)%Q →
  same_number (VolumetricTerrain.trilinearInterpolation grid x y z)
              (weightedTrilinear hermite n m p grid x y z).
Proof.
  intros Hg Hx0 Hx1 Hy0 Hy1 Hz0 Hz1.
  destruct (corners_in_grid x n Hx0 Hx1) as [Hx1' Hx2'].
  destruct (corners_in_grid y m Hy0 Hy1) as [Hy1' Hy2'].
  destruct (corners_in_grid z p Hz0 Hz1) as [Hz1' Hz2'].
  assert (Hn : (0 < n)%nat) by (unfold lowerCorner in Hx1'; lia).
  assert (Hm : (0 < m)%nat) by (unfold lowerCorner in Hy1'; lia).
  destruct (grid3_first_row _ _ _ _ _ Hg Hn Hm) as (plane0 & row0 & Hp0 & Hl0 & Hr0 & Hl1).
  unfold VolumetricTerrain.trilinearInterpolation, weightedTrilinear, same_number.
  rewrite Hp0. cbn [mbind option_bind]. rewrite Hr0. cbn [mbind option_bind].
  rewrite Hl0, Hl1, (vec_length _ _ _ Hg).
  unfold lowerCorner, upperCorner in *.
  destruct (grid3_item_Z _ _ _ _ _ _ _ _ Hg Hx1' Hy1' Hz1') as [c000 [-> _]].
  destruct (grid3_item_Z _ _ _ _ _ _ _ _ Hg Hx2' Hy1' Hz1') as [c100 [-> _]].
  destruct (grid3_item_Z _ _ _ _ _ _ _ _ Hg Hx1' Hy2' Hz1') as [c010 [-> _]].
  destruct (grid3_item_Z _ _ _ _ _ _ _ _ Hg Hx2' Hy2' Hz1') as [c110 [-> _]].
  destruct (grid3_item_Z _ _ _ _ _ _ _ _ Hg Hx1' Hy1' Hz2') as [c001 [-> _]].
  destruct (grid3_item_Z _ _ _ _ _ _ _ _ Hg Hx2' Hy1' Hz2') as [c101 [-> _]].
  destruct (grid3_item_Z _ _ _ _ _ _ _ _ Hg Hx1' Hy2' Hz2') as [c011 [-> _]].
  destruct (grid3_item_Z _ _ _ _ _ _ _ _ Hg Hx2' Hy2' Hz2') as [c111 [-> _]].
  cbn [mbind option_bind]. eexists _, _. split; [reflexivity|]. split; [reflexivity|].
  cbv zeta. unfold VolumetricTerrain.lerp, fractionalPart, Qz.
  rewrite !smoothStep_hermite. ring.
Qed.

(** C5, as stated, fails for the height-field chunk: on the grid
    [[0, 1], [0, 1]] at [(0, 1/4)] its sampler returns [1/4], the value of
    plain linear weights, while smoothstep weights give [5/32]. *)
Lemma chunk_sampling_is_not_smoothstep :
  Chunk.bilinearInterpolation [[0; 1]; [0; 1]]%Q 0 (1 # 4) = Some (1 # 4)%Q
  ∧ same_number (weightedBilinear hermite 2 2 [[0; 1]; [0; 1]]%Q 0 (1 # 4))
                (Some (5 # 32)%Q)
  ∧ ¬ same_number (Chunk.bilinearInterpolation [[0; 1]; [0; 1]]%Q 0 (1 # 4))
                  (weightedBilinear hermite 2 2 [[0; 1]; [0; 1]]%Q 0 (1 # 4)).
Proof.
  split; [vm_compute; reflexivity|]. split.
  - eexists _, _. split; [vm_compute; reflexivity|]. split; [reflexivity|].
    vm_compute. reflexivity.
  - intros (v & w & Hv & Hw & Heq). vm_compute in Hv, Hw.
    injection Hv as <-. injection Hw as <-. revert Heq. vm_compute. discriminate.
Qed.

(** C5 (amended).  Inside an [n × m] grid the volumetric generator's
    bilinear sampler, and inside an [n × m × p] grid its trilinear
    sampler, return the mean of the 4 (respectively 8) enclosing corners
    with each axis weighted by the smoothstep [3t² − 2t³] of the
    fractional part, the upper corner clamped to the last index of its
    axis; the height-field chunk's bilinear sampler reads the same corners
    and weights each axis by the fractional part itself. *)
Theorem sampling_weights
    (n m p : nat) (plane : list (list Q)) (volume : list (list (list Q))) (x y z : Q) :
  grid2 n p (λ _ _ _, True) plane → grid3 n m p (λ _ _ _ _, True) volume →
  (0 <= x)%Q → (x < Qn n)%Q → (0 <= y)%Q → (y < Qn m)%Q → (0 <= z)%Q → (z < Qn p)%Q →
  same_number (VolumetricTerrain.bilinearInterpolation plane x z)
              (weightedBilinear hermite n p plane x z)
  ∧ same_number (VolumetricTerrain.trilinearInterpolation volume x y z)
                (weightedTrilinear hermite n m p volume x y z)
  ∧ same_number (Chunk.bilinearInterpolation plane x z)
                (weightedBilinear (λ t, t) n p plane x z).
Proof.
  intros Hplane Hvolume Hx0 Hx1 Hy0 Hy1 Hz0 Hz1.
  split; [|split].
  - now apply volumetric_bilinear_weighted.
  - now apply volumetric_trilinear_weighted.
  - now apply chunk_bilinear_weighted.
Qed.

Lemma sampling_weights_witness :
  same_number (VolumetricTerrain.bilinearInterpolation [[0; 1]; [0; 1]]%Q 0 (1 # 4))
              (Some (5 # 32)%Q)
  ∧ same_number (VolumetricTerrain.trilinearInterpolation
                   [[[0; 1]; [0; 1]]; [[0; 1]; [0; 1]]]%Q 0 0 (1 # 4))
                (Some (5 # 32)%Q)
  ∧ same_number (Chunk.bilinearInterpolation [[0; 1]; [0; 1]]%Q 0 (1 # 4))
                (Some (1 # 4)%Q).
Proof.
  assert (Hplane : grid2 2 2 (λ _ _ _, True) [[0; 1]; [0; 1]]%Q).
  { split; [reflexivity|]. intros [|[|i]] Hi; try lia;
      (eexists; split; [reflexivity|]; split; [reflexivity|];
       intros [|[|j]] Hj; try lia; eexists; split; reflexivity || exact I). }
  assert (Hvolume : grid3 2 2 2 (λ _ _ _ _, True) [[[0; 1]; [0; 1]]; [[0; 1]; [0; 1]]]%Q).
  { split; [reflexivity|]. intros [|[|i]] Hi; try lia;
      (eexists; split; [reflexivity | exact Hplane]). }
  destruct (sampling_weights 2 2 2 _ _ 0 0 (1 # 4) Hplane Hvolume)
    as (H2 & H3 & H1); try (vm_compute; congruence).
  split; [|split].
  - destruct H2 as (v & w & Hv & Hw & Heq). exists v, (5 # 32)%Q.
    split; [exact Hv|]. split; [reflexivity|].
    vm_compute in Hw. injection Hw as <-.
    apply (Qeq_trans _ _ _ Heq). vm_compute. reflexivity.
  - destruct H3 as (v & w & Hv & Hw & Heq). exists v, (5 # 32)%Q.
    split; [exact Hv|]. split; [reflexivity|].
    vm_compute in Hw. injection Hw as <-.
    apply (Qeq_trans _ _ _ Heq). vm_compute. reflexivity.
  - destruct H1 as (v & w & Hv & Hw & Heq). exists v, (1 # 4)%Q.
    split; [exact Hv|]. split; [reflexivity|].
    vm_compute in Hw. injection Hw as <-.
    apply (Qeq_trans _ _ _ Heq). vm_compute. reflexivity.
Defined.

(** ** C1: constructing a chunk twice *)

(** Two loops whose bodies keep a relation between their states keep it. *)
Lemma for_each_related {S1 S2 A : Type} (R : S1 → S2 → Prop) (l : list A)
    (body1 : A → S1 → option S1) (body2 : A → S2 → option S2) (s1 : S1) (s2 : S2) :
  (∀ a t1 t2, R t1 t2 → option_Forall2 R (body1 a t1) (body2 a t2)) →
  R s1 s2 → option_Forall2 R (for_each l body1 s1) (for_each l body2 s2).
Proof.
  intros Hbody Hs. unfold for_each.
  assert (Hacc : option_Forall2 R (Some s1) (Some s2)) by now constructor.
  revert Hacc. generalize (Some s1) (Some s2). clear s1 s2 Hs.
  induction l as [|a l IH]; intros o1 o2 Hacc; cbn [fold_left]; [exact Hacc|].
  apply IH. destruct Hacc as [t1 t2 Ht|]; cbn [mbind option_bind]; [|constructor].
  now apply Hbody.
Qed.

Lemma for_loop_related {S1 S2 : Type} (R : S1 → S2 → Prop) (n : nat)
    (body1 : nat → S1 → option S1) (body2 : nat → S2 → option S2) (s1 : S1) (s2 : S2) :
  (∀ i t1 t2, R t1 t2 → option_Forall2 R (body1 i t1) (body2 i t2)) →
  R s1 s2 → option_Forall2 R (for_loop n body1 s1) (for_loop n body2 s2).
Proof. apply (for_each_related R (seq 0 n)). Qed.

Lemma option_Forall2_eq {A : Type} (a b : option A) : option_Forall2 eq a b → a = b.
Proof. intros [x y ->|]; reflexivity. Qed.

Lemma tabulateM_ext {A : Type} (n : nat) (f g : nat → option A) :
  (∀ i, f i = g i) → tabulateM n f = tabulateM n g.
Proof.
  intros Hfg. unfold tabulateM. induction (seq 0 n) as [|i l IH]; [reflexivity|].
  cbn [mapM]. now rewrite Hfg, IH.
Qed.

Section Aligned.
Variables (random1 random2 : RandomSource) (k1 k2 : nat).
Hypothesis Hdraws : ∀ n : nat, random1 (k1 + n)%nat = random2 (k2 + n)%nat.

Ltac split_cases :=
  repeat match goal with
    | |- option_Forall2 _ (Some _) (Some _) => constructor
    | |- option_Forall2 _ None None => constructor
    | |- context [mbind _ ?m] => destruct m; cbn [mbind option_bind]
    | |- context [if ?b then _ else _] => destruct b
    end.

Ltac aligned_by d :=
  split; [reflexivity | exists d; cbn [fst snd]; split; lia].

Lemma carveCell_aligned (t : VolumetricTerrain.t) (caveNoise detailNoise : list (list (list Q)))
    (x y z : nat) (st1 st2 : list (list (list cell)) * nat) :
  aligned k1 k2 st1 st2 →
  option_Forall2 (aligned k1 k2)
    (VolumetricTerrain.carveCell t caveNoise detailNoise random1 x y z st1)
    (VolumetricTerrain.carveCell t caveNoise detailNoise random2 x y z st2).
Proof.
  destruct st1 as [blocks n1], st2 as [blocks' n2]. intros [Hb (d & Hn1 & Hn2)].
  cbn [fst snd] in Hb, Hn1, Hn2. subst blocks' n1 n2.
  unfold VolumetricTerrain.carveCell. rewrite (Hdraws d).
  split_cases; try (aligned_by d); aligned_by (S d).
Qed.

Lemma oreCell_aligned (t : VolumetricTerrain.t) (x y z : nat)
    (st1 st2 : list (list (list cell)) * nat) :
  aligned k1 k2 st1 st2 →
  option_Forall2 (aligned k1 k2)
    (VolumetricTerrain.oreCell t random1 x y z st1)
    (VolumetricTerrain.oreCell t random2 x y z st2).
Proof.
  destruct st1 as [blocks n1], st2 as [blocks' n2]. intros [Hb (d & Hn1 & Hn2)].
  cbn [fst snd] in Hb, Hn1, Hn2. subst blocks' n1 n2.
  unfold VolumetricTerrain.oreCell. cbv zeta.
  replace (S (k1 + d)) with (k1 + S d)%nat by lia.
  replace (S (k2 + d)) with (k2 + S d)%nat by lia.
  rewrite (Hdraws d), (Hdraws (S d)).
  split_cases; try (aligned_by d); try (aligned_by (S d)); aligned_by (S (S d)).
Qed.

(** The relation between the results of a stage run by the two
    constructions: the same object, after the same number of draws. *)
Lemma stage_aligned (t : VolumetricTerrain.t)
    (o1 o2 : option (list (list (list cell)) * nat)) :
  option_Forall2 (aligned k1 k2) o1 o2 →
  option_Forall2 (λ r1 r2 : VolumetricTerrain.t * nat,
      r1.1 = r2.1 ∧ ∃ d : nat, r1.2 = (k1 + d)%nat ∧ r2.2 = (k2 + d)%nat)
    ('(blocks, k) ← o1; Some (VolumetricTerrain.with_blockData t blocks, k))
    ('(blocks, k) ← o2; Some (VolumetricTerrain.with_blockData t blocks, k)).
Proof.
  intros [[b1 n1] [b2 n2] [Hb Hd]|]; cbn [mbind option_bind]; constructor.
  cbn [fst snd] in *. subst b2. split; [reflexivity | exact Hd].
Qed.

Lemma generateCaves_aligned (t : VolumetricTerrain.t) (d : nat) :
  option_Forall2 (λ r1 r2 : VolumetricTerrain.t * nat,
      r1.1 = r2.1 ∧ ∃ d : nat, r1.2 = (k1 + d)%nat ∧ r2.2 = (k2 + d)%nat)
    (VolumetricTerrain.generateCaves t random1 (k1 + d))
    (VolumetricTerrain.generateCaves t random2 (k2 + d)).
Proof.
  unfold VolumetricTerrain.generateCaves.
  destruct (negb (VolumetricTerrain.cavesEnabled t)).
  { constructor. cbn [fst snd]. eauto. }
  destruct (VolumetricTerrain.generate3DNoise _ _ _ VolumetricTerrain.CAVE_SCALE _ _)
    as [caveNoise|]; cbn [mbind option_bind]; [|constructor].
  destruct (VolumetricTerrain.generate3DNoise _ _ _ _ _ _)
    as [detailNoise|]; cbn [mbind option_bind]; [|constructor].
  apply stage_aligned. unfold VolumetricTerrain.carveCaves.
  apply for_loop_related; [|split; cbn [fst snd]; eauto].
  intros x s1 s2 Hs. apply for_loop_related; [|exact Hs].
  intros y s1' s2' Hs'. apply for_loop_related; [|exact Hs'].
  intros z. apply carveCell_aligned.
Qed.

Lemma generateOreDeposits_aligned (t : VolumetricTerrain.t) (d : nat) :
  option_Forall2 (λ r1 r2 : VolumetricTerrain.t * nat,
      r1.1 = r2.1 ∧ ∃ d : nat, r1.2 = (k1 + d)%nat ∧ r2.2 = (k2 + d)%nat)
    (VolumetricTerrain.generateOreDeposits t random1 (k1 + d))
    (VolumetricTerrain.generateOreDeposits t random2 (k2 + d)).
Proof.
  unfold VolumetricTerrain.generateOreDeposits.
  apply stage_aligned.
  apply for_loop_related; [|split; cbn [fst snd]; eauto].
  intros x s1 s2 Hs. apply for_loop_related; [|exact Hs].
  intros y s1' s2' Hs'. apply for_loop_related; [|exact Hs'].
  intros z. apply oreCell_aligned.
Qed.

Lemma generateTerrain_aligned (t : VolumetricTerrain.t) :
  (VolumetricTerrain.generateTerrain t random1 k1).1
  = (VolumetricTerrain.generateTerrain t random2 k2).1
  ∧ ∃ d : nat, (VolumetricTerrain.generateTerrain t random1 k1).2 = (k1 + d)%nat
             ∧ (VolumetricTerrain.generateTerrain t random2 k2).2 = (k2 + d)%nat.
Proof.
  unfold VolumetricTerrain.generateTerrain.
  destruct (VolumetricTerrain.generateSurfaceHeightMap _ _) as [heightMap|];
    [|split; [reflexivity | exists 0%nat; cbn [fst snd]; lia]].
  cbv zeta.
  destruct (VolumetricTerrain.generateVolumetricBlocks _) as [blocks|];
    [|split; [reflexivity | exists 0%nat; cbn [fst snd]; lia]].
  pose proof (generateCaves_aligned
    (VolumetricTerrain.with_blockData (VolumetricTerrain.with_heightMap t heightMap) blocks)
    0) as Hcaves.
  rewrite !Nat.add_0_r in Hcaves.
  destruct Hcaves as [[t3 n3] [t3' n3'] [Ht (d & Hn & Hn')]|];
    [|split; [reflexivity | exists 0%nat; cbn [fst snd]; lia]].
  cbn [fst snd] in Ht, Hn, Hn'. subst t3' n3 n3'.
  destruct (generateOreDeposits_aligned t3 d) as [r1 r2 Hr|];
    [exact Hr | split; [reflexivity | exists d; cbn [fst snd]; lia]].
Qed.
End Aligned.

(** The two implementations of the seeded generator fill the noise grids
    with the same numbers. *)
Section SameDraws.
Context {S1 S2 : Type} (R : S1 → S2 → Prop).
Variables (Rand1 : string → S1) (next1 : S1 → Q * S1).
Variables (Rand2 : string → S2) (next2 : S2 → Q * S2).
Hypothesis Hsame : same_draws R Rand1 next1 Rand2 next2.

Lemma draws_same (n : nat) (s1 : S1) (s2 : S2) :
  R s1 s2 →
  (draws next1 n s1).1 = (draws next2 n s2).1 ∧ R (draws next1 n s1).2 (draws next2 n s2).2.
Proof.
  revert s1 s2. induction n as [|n IH]; intros s1 s2 Hs; cbn [draws]; [now split|].
  destruct Hsame as [_ Hnext]. destruct (Hnext s1 s2 Hs) as [Hv Hs'].
  destruct (next1 s1) as [v1 s1'], (next2 s2) as [v2 s2']. cbn [fst snd] in Hv, Hs'.
  destruct (IH s1' s2' Hs') as [Hvs Hs''].
  destruct (draws next1 n s1') as [vs1 s1''], (draws next2 n s2') as [vs2 s2''].
  cbn [fst snd] in *. split; [congruence | exact Hs''].
Qed.

Lemma drawRows_same (rows n : nat) (s1 : S1) (s2 : S2) :
  R s1 s2 →
  (drawRows next1 rows n s1).1 = (drawRows next2 rows n s2).1
  ∧ R (drawRows next1 rows n s1).2 (drawRows next2 rows n s2).2.
Proof.
  revert s1 s2. induction rows as [|rows IH]; intros s1 s2 Hs; cbn [drawRows]; [now split|].
  destruct (draws_same n s1 s2 Hs) as [Hv Hs'].
  destruct (draws next1 n s1) as [v1 s1'], (draws next2 n s2) as [v2 s2'].
  cbn [fst snd] in Hv, Hs'.
  destruct (IH s1' s2' Hs') as [Hvs Hs''].
  destruct (drawRows next1 rows n s1') as [vs1 s1''], (drawRows next2 rows n s2') as [vs2 s2''].
  cbn [fst snd] in *. split; [congruence | exact Hs''].
Qed.

Lemma Chunk_generateWhiteNoiseGrid_same (seed : string) (size octave : nat) :
  Chunk.generateWhiteNoiseGrid Rand1 next1 seed size octave
  = Chunk.generateWhiteNoiseGrid Rand2 next2 seed size octave.
Proof.
  unfold Chunk.generateWhiteNoiseGrid. cbv zeta.
  apply drawRows_same. apply Hsame.
Qed.

Lemma Chunk_generateHeightMap_same (size : nat) (seed : string) :
  Chunk.generateHeightMap Rand1 next1 size seed = Chunk.generateHeightMap Rand2 next2 size seed.
Proof.
  unfold Chunk.generateHeightMap. cbv zeta. f_equal.
  apply option_Forall2_eq. apply for_loop_related; [|reflexivity].
  intros octave h1 h2 <-. rewrite Chunk_generateWhiteNoiseGrid_same.
  destruct (tabulateM size _); constructor; reflexivity.
Qed.

Lemma Chunk_new_same (centerX centerZ : Z) (size : nat) :
  Chunk.new Rand1 next1 centerX centerZ size = Chunk.new Rand2 next2 centerX centerZ size.
Proof. unfold Chunk.new. cbv zeta. now rewrite Chunk_generateHeightMap_same. Qed.
End SameDraws.

(** C1.  Two constructions of one chunk need not agree on the block
    grid.  With a [Math.random] whose first eight draws are [0.9] and whose
    later draws are [0], the first construction of the volumetric terrain
    of the chunk [(2, 0)] of size 2 takes eight draws and leaves every cell
    stone, the second construction turns every cell into coal: the height
    maps are the same, the block grids and the extracted lists are not.
    The ore stage and the lava of the cave stage draw from [Math.random],
    every noise field from the generator seeded by the chunk key. *)
Lemma second_construction_differs :
  (VolumetricTerrain.new 2 0 2 twoStageSource 0).2 = 8%nat
  ∧ VolumetricTerrain.heightMap (VolumetricTerrain.new 2 0 2 twoStageSource 0).1
    = VolumetricTerrain.heightMap (VolumetricTerrain.new 2 0 2 twoStageSource 8).1
  ∧ VolumetricTerrain.blockData (VolumetricTerrain.new 2 0 2 twoStageSource 0).1
    = replicate 2 (replicate 2 (replicate 2 (Some STONE)))
  ∧ VolumetricTerrain.blockData (VolumetricTerrain.new 2 0 2 twoStageSource 8).1
    = replicate 2 (replicate 2 (replicate 2 (Some COAL)))
  ∧ VolumetricTerrain.extractBlocks (VolumetricTerrain.new 2 0 2 twoStageSource 0).1
    ≠ VolumetricTerrain.extractBlocks (VolumetricTerrain.new 2 0 2 twoStageSource 8).1.
Proof.
  split; [vm_compute; reflexivity|]. split; [vm_compute; reflexivity|].
  split; [vm_compute; reflexivity|]. split; [vm_compute; reflexivity|].
  vm_compute. discriminate.
Qed.

(** What two constructions do share.  Constructing the height-field
    chunk of a key twice yields identical chunks, height maps included,
    provided the seeded generator yields the same numbers for the same
    seed.  Constructing the volumetric terrain of a key twice yields
    identical height maps whatever [Math.random] returns; it yields
    identical objects, block grids included, and identical extracted-block
    lists, after the same number of draws, when the two constructions are
    handed the same [Math.random] draws. *)
Theorem construction_is_repeatable
    {S1 S2 : Type} (R : S1 → S2 → Prop)
    (Rand1 : string → S1) (next1 : S1 → Q * S1)
    (Rand2 : string → S2) (next2 : S2 → Q * S2)
    (cx cz : Z) (size : nat) (random1 random2 : RandomSource) (k1 k2 : nat) :
  same_draws R Rand1 next1 Rand2 next2 →
  (∀ n : nat, random1 (k1 + n)%nat = random2 (k2 + n)%nat) →
  Chunk.new Rand1 next1 cx cz size = Chunk.new Rand2 next2 cx cz size
  ∧ (∀ random k random' k',
       VolumetricTerrain.heightMap (VolumetricTerrain.new cx cz size random k).1
       = VolumetricTerrain.heightMap (VolumetricTerrain.new cx cz size random' k').1)
  ∧ (VolumetricTerrain.new cx cz size random1 k1).1
    = (VolumetricTerrain.new cx cz size random2 k2).1
  ∧ VolumetricTerrain.blockData (VolumetricTerrain.new cx cz size random1 k1).1
    = VolumetricTerrain.blockData (VolumetricTerrain.new cx cz size random2 k2).1
  ∧ VolumetricTerrain.extractBlocks (VolumetricTerrain.new cx cz size random1 k1).1
    = VolumetricTerrain.extractBlocks (VolumetricTerrain.new cx cz size random2 k2).1
  ∧ ∃ d : nat, (VolumetricTerrain.new cx cz size random1 k1).2 = (k1 + d)%nat
             ∧ (VolumetricTerrain.new cx cz size random2 k2).2 = (k2 + d)%nat.
Proof.
  intros Hsame Hdraws.
  split; [now apply (Chunk_new_same R)|].
  split.
  { intros random k random' k'.
    pose proof (new_heightMap cx cz size random k) as H.
    rewrite <- (new_heightMap cx cz size random' k') in H. now injection H. }
  destruct (generateTerrain_aligned random1 random2 k1 k2 Hdraws
    {| VolumetricTerrain.seed := pretty cx +:+ "," +:+ pretty cz;
       VolumetricTerrain.chunkX := cx; VolumetricTerrain.chunkY := 0;
       VolumetricTerrain.chunkZ := cz; VolumetricTerrain.size := size;
       VolumetricTerrain.heightMap := replicate size (replicate size 0%Q);
       VolumetricTerrain.blockData := replicate size (replicate size (replicate size None)) |})
    as [Heq Hd].
  fold (VolumetricTerrain.new cx cz size random1 k1) in Heq, Hd.
  fold (VolumetricTerrain.new cx cz size random2 k2) in Heq, Hd.
  rewrite Heq. repeat split; try reflexivity. exact Hd.
Qed.

(** Two constructions of the chunk [(0, 0)] of size 2 that start at
    different positions of a constant random source. *)
Lemma construction_is_repeatable_at_origin :
  VolumetricTerrain.blockData (VolumetricTerrain.new 0 0 2 (λ _, 0%Q) 0).1
  = VolumetricTerrain.blockData (VolumetricTerrain.new 0 0 2 (λ _, 0%Q) 5).1.
Proof.
  destruct (construction_is_repeatable eq neutralRand neutralNext neutralRand neutralNext
              0 0 2 (λ _, 0%Q) (λ _, 0%Q) 0 5) as (_ & _ & _ & Hblocks & _).
  - split; [reflexivity|]. intros s1 s2 ->. split; reflexivity.
  - reflexivity.
  - exact Hblocks.
Defined.

(** ** The cave noise fields *)

(** A loop that carries an invariant indexed by the iteration completes. *)
Lemma for_loop_total {St : Type} (P : nat → St → Prop) (n : nat)
    (body : nat → St → option St) (s : St) :
  P 0%nat s →
  (∀ i s1, (i < n)%nat → P i s1 → ∃ s2, body i s1 = Some s2 ∧ P (S i) s2) →
  ∃ s', for_loop n body s = Some s' ∧ P n s'.
Proof.
  intros Hs Hbody. induction n as [|n IH].
  - exists s. split; [reflexivity | exact Hs].
  - destruct IH as (s1 & Hrun & Hs1); [intros i t Hi; apply Hbody; lia|].
    destruct (Hbody n s1) as (s2 & Hstep & Hs2); [lia | exact Hs1|].
    exists s2. split; [|exact Hs2].
    unfold for_loop in *. rewrite seq_S, fold_left_app, Hrun. exact Hstep.
Qed.

Lemma trilinear_defined (n m p : nat) (grid : list (list (list Q))) (x y z : Q) :
  grid3 n m p (λ _ _ _ _, True) grid →
  (0 < n)%nat → (0 < m)%nat → (0 < p)%nat →
  (0 <= x)%Q → (x <= Qn n - 1)%Q → (0 <= y)%Q → (y <= Qn m - 1)%Q →
  (0 <= z)%Q → (z <= Qn p - 1)%Q →
  is_Some (VolumetricTerrain.trilinearInterpolation grid x y z).
Proof.
  intros Hg Hn Hm Hp Hx0 Hx1 Hy0 Hy1 Hz0 Hz1.
  unfold VolumetricTerrain.trilinearInterpolation.
  destruct (grid3_first_row _ _ _ _ _ Hg Hn Hm) as (plane0 & row0 & Hp0 & Hl0 & Hr0 & Hl1).
  rewrite Hp0. cbn [mbind option_bind]. rewrite Hr0. cbn [mbind option_bind].
  rewrite Hl0, Hl1, (vec_length _ _ _ Hg).
  destruct (corner_indices x (Z.of_nat n)) as [Hx1' Hx2']; [lia | exact Hx0 | exact Hx1 |].
  destruct (corner_indices y (Z.of_nat m)) as [Hy1' Hy2']; [lia | exact Hy0 | exact Hy1 |].
  destruct (corner_indices z (Z.of_nat p)) as [Hz1' Hz2']; [lia | exact Hz0 | exact Hz1 |].
  destruct (grid3_item_Z _ _ _ _ _ _ _ _ Hg Hx1' Hy1' Hz1') as [c000 [-> _]].
  destruct (grid3_item_Z _ _ _ _ _ _ _ _ Hg Hx2' Hy1' Hz1') as [c100 [-> _]].
  destruct (grid3_item_Z _ _ _ _ _ _ _ _ Hg Hx1' Hy2' Hz1') as [c010 [-> _]].
  destruct (grid3_item_Z _ _ _ _ _ _ _ _ Hg Hx2' Hy2' Hz1') as [c110 [-> _]].
  destruct (grid3_item_Z _ _ _ _ _ _ _ _ Hg Hx1' Hy1' Hz2') as [c001 [-> _]].
  destruct (grid3_item_Z _ _ _ _ _ _ _ _ Hg Hx2' Hy1' Hz2') as [c101 [-> _]].
  destruct (grid3_item_Z _ _ _ _ _ _ _ _ Hg Hx1' Hy2' Hz2') as [c011 [-> _]].
  destruct (grid3_item_Z _ _ _ _ _ _ _ _ Hg Hx2' Hy2' Hz2') as [c111 [-> _]].
  cbn [mbind option_bind]. eauto.
Qed.

Lemma grid_coordinate (i n g : nat) :
  (i < n)%nat → (0 < g)%nat →
  (0 <= Qn i / Qn n * (Qn g - 1) ∧ Qn i / Qn n * (Qn g - 1) <= Qn g - 1)%Q.
Proof.
  intros Hi Hg. apply sample_coordinate; [exact Hi|].
  pose proof (Qn_le 1 g Hg) as H1. change (Qn 1) with 1%Q in H1. lra.
Qed.

Lemma normalize3D_shape (n m p : nat) (result : list (list (list Q))) :
  grid3 n m p (λ _ _ _ _, True) result →
  grid3 n m p (λ _ _ _ _, True) (VolumetricTerrain.normalize3D result).
Proof.
  intros Hr. unfold VolumetricTerrain.normalize3D. cbv zeta.
  destruct (Qltb 0.001 _); [|exact Hr].
  revert Hr. apply grid3_map3D. trivial.
Qed.

(** The three-dimensional noise field of a chunk is defined in every
    cell. *)
Lemma generate3DNoise_shape (n : nat) (scale : Q) (seed : string) (octaves : nat) :
  (0 < n)%nat →
  ∃ field, VolumetricTerrain.generate3DNoise n n n scale seed octaves = Some field
    ∧ grid3 n n n (λ _ _ _ _, True) field.
Proof.
  intros Hn. unfold VolumetricTerrain.generate3DNoise. cbv zeta.
  set (a := Nat.min n 16). assert (Ha : (0 < a)%nat) by (subst a; lia).
  match goal with
  | |- context [for_loop octaves ?body ?s0] =>
      destruct (for_loop_total (λ _, grid3 a a a (λ _ _ _ _, True)) octaves body s0)
        as (result & -> & Hresult)
  end.
  { apply vec_replicate. intros i _. apply vec_replicate. intros j _.
    now apply vec_replicate. }
  { intros octave field _ Hfield. cbv beta.
    set (c := Nat.min _ 8).
    assert (Hc : (0 < c)%nat) by (subst c; lia).
    assert (Hnoise : grid3 c c c (λ _ _ _ v, 0 <= v ∧ v <= 1)%Q
                       (VolumetricTerrain.generate3DNoiseGrid c
                          (seed +:+ "-oct" +:+ pretty octave))).
    { generalize (generate3DNoiseGrid_unit c (seed +:+ "-oct" +:+ pretty octave)).
      apply grid3_weaken. intros i j k v _ _ _ [H0 H1].
      split; [exact H0 | now apply Qlt_le_weak]. }
    apply tabulateM_grid3. intros x y z Hx Hy Hz.
    destruct (grid_coordinate x a c Hx Hc) as [Hx0 Hx1].
    destruct (grid_coordinate y a c Hy Hc) as [Hy0 Hy1].
    destruct (grid_coordinate z a c Hz Hc) as [Hz0 Hz1].
    destruct (trilinear_between c c c 0 1 _
                (Qn x / Qn a * (Qn c - 1)) (Qn y / Qn a * (Qn c - 1))
                (Qn z / Qn a * (Qn c - 1)) Hnoise)
      as (value & Hvalue & _); try assumption.
    destruct (grid3_item _ _ _ _ _ x y z Hfield Hx Hy Hz) as (old & Hold & _).
    rewrite Hvalue, Hold. cbn. eauto. }
  cbn [mbind option_bind].
  pose proof (normalize3D_shape a a a result Hresult) as Hnorm.
  destruct ((a <? n)%nat || (a <? n)%nat || (a <? n)%nat) eqn:Hcap.
  - unfold VolumetricTerrain.interpolate3DToSize.
    destruct (grid3_first_row _ _ _ _ _ Hnorm Ha Ha) as (plane0 & row0 & Hp0 & Hl0 & Hr0 & Hl1).
    rewrite Hp0. cbn [mbind option_bind]. rewrite Hr0. cbn [mbind option_bind].
    rewrite Hl0, Hl1, (vec_length _ _ _ Hnorm).
    apply tabulateM_grid3. intros x y z Hx Hy Hz.
    destruct (grid_coordinate x n a Hx Ha) as [Hx0 Hx1].
    destruct (grid_coordinate y n a Hy Ha) as [Hy0 Hy1].
    destruct (grid_coordinate z n a Hz Ha) as [Hz0 Hz1].
    destruct (trilinear_defined a a a _
                (Qn x / Qn n * (Qn a - 1)) (Qn y / Qn n * (Qn a - 1))
                (Qn z / Qn n * (Qn a - 1)) Hnorm) as [v Hv]; try assumption.
    exists v. split; [exact Hv | exact I].
  - assert (a = n) as Han.
    { rewrite !orb_false_iff, !Nat.ltb_ge in Hcap. subst a. lia. }
    eexists. split; [reflexivity|]. rewrite <- Han at 1 2 3. exact Hnorm.
Qed.


Section Carving.
Variables (t : VolumetricTerrain.t) (caveNoise detailNoise : list (list (list Q))).
Variable random : RandomSource.
Local Abbreviation n := (VolumetricTerrain.size t).
Hypothesis Hheights : grid2 n n (λ _ _ _, True) (VolumetricTerrain.heightMap t).
Hypothesis Hblocks : grid3 n n n (λ _ _ _ _, True) (VolumetricTerrain.blockData t).
Hypothesis Hcave : grid3 n n n (λ _ _ _ _, True) caveNoise.
Hypothesis Hdetail : grid3 n n n (λ _ _ _ _, True) detailNoise.


End Carving.

(** ** C7: the cave stage *)





(** ** Chunk keys of nearby points *)

Lemma Qfloor_unique (q : Q) (m : Z) :
  (inject_Z m <= q)%Q → (q < inject_Z m + 1)%Q → Qfloor q = m.
Proof.
  intros Hle Hlt.
  pose proof (Qfloor_le q) as H1. pose proof (Qlt_floor q) as H2.
  rewrite inject_Z_plus in H2. change (inject_Z 1) with 1%Q in H2.
  assert (Ha : (inject_Z (Qfloor q) < inject_Z (m + 1))%Q).
  { rewrite inject_Z_plus. change (inject_Z 1) with 1%Q. lra. }
  assert (Hb : (inject_Z m < inject_Z (Qfloor q + 1))%Q).
  { rewrite inject_Z_plus. change (inject_Z 1) with 1%Q. lra. }
  rewrite <- Zlt_Qlt in Ha, Hb. lia.
Qed.

Lemma chunkCoord_spec (v : Q) :
  ∃ m, MinecraftAnimation.chunkCoord v = m * 64
       ∧ (Qz (m * 64) <= v)%Q ∧ (v < Qz (m * 64) + 64)%Q.
Proof.
  with_strategy transparent [MinecraftAnimation.chunkCoord]
    unfold MinecraftAnimation.chunkCoord.
  change (Z.of_nat MinecraftAnimation.chunkSize) with 64.
  change (Qn MinecraftAnimation.chunkSize) with 64%Q.
  exists (Qfloor (v / 64)). split; [reflexivity|].
  pose proof (Qfloor_le (v / 64)) as H1. pose proof (Qlt_floor (v / 64)) as H2.
  rewrite inject_Z_plus in H2. change (inject_Z 1) with 1%Q in H2.
  unfold Qz. rewrite inject_Z_mult. change (inject_Z 64) with 64%Q.
  set (f := inject_Z (Qfloor (v / 64))) in *.
  assert (Hv : (v == v / 64 * 64)%Q) by (field).
  split; [rewrite Hv at 1|rewrite Hv at 1]; nra.
Qed.

Lemma chunkCoord_near (v w : Q) :
  (Qz (MinecraftAnimation.chunkCoord v) <= w)%Q →
  (w < Qz (MinecraftAnimation.chunkCoord v) + 64)%Q →
  MinecraftAnimation.chunkCoord w = MinecraftAnimation.chunkCoord v.
Proof.
  destruct (chunkCoord_spec v) as (m & -> & _). intros Hle Hlt.
  with_strategy transparent [MinecraftAnimation.chunkCoord]
    unfold MinecraftAnimation.chunkCoord.
  change (Z.of_nat MinecraftAnimation.chunkSize) with 64.
  change (Qn MinecraftAnimation.chunkSize) with 64%Q.
  f_equal. unfold Qz in Hle, Hlt. rewrite inject_Z_mult in Hle, Hlt.
  change (inject_Z 64) with 64%Q in Hle, Hlt.
  apply Qfloor_unique.
  - apply Qle_shift_div_l; [reflexivity | exact Hle].
  - apply Qlt_shift_div_r; [reflexivity|]. lra.
Qed.

(** Every lookup the physics makes for a point of the player's footprint
    finds the chunk of the player's key, and that chunk answers [-1]. *)
Lemma dead_zone_lookup (s : MinecraftAnimation.t) (q : Vec3.t) :
  in_dead_zone s →
  near (Vec3.x (MinecraftAnimation.playerPosition s))
       (Vec3.z (MinecraftAnimation.playerPosition s)) q →
  ∃ c, MinecraftAnimation.chunks s
         !! MinecraftAnimation.chunkKey (MinecraftAnimation.chunkCoord (Vec3.x q))
                                         (MinecraftAnimation.chunkCoord (Vec3.z q)) = Some c
       ∧ Chunk.getHeightAt c (Vec3.x q) (Vec3.z q) = Some (-1)%Q.
Proof.
  unfold in_dead_zone. cbv zeta.
  set (px := Vec3.x (MinecraftAnimation.playerPosition s)).
  set (pz := Vec3.z (MinecraftAnimation.playerPosition s)).
  intros ((c & Hc & Hcx & Hcz & Hsize) & [Hx0 Hx1] & [Hz0 Hz1]) (Hqx0 & Hqx1 & Hqz0 & Hqz1).
  clearbody px pz.
  rewrite (chunkCoord_near px (Vec3.x q)), (chunkCoord_near pz (Vec3.z q)) by lra.
  exists c. split; [exact Hc|].
  unfold Chunk.getHeightAt. cbv zeta. rewrite Hcx, Hsize.
  change (Qn MinecraftAnimation.chunkSize) with 64%Q.
  change (Z.of_nat MinecraftAnimation.chunkSize) with 64.
  assert (Hout : 64 <= Qfloor (Vec3.x q - (Qz (MinecraftAnimation.chunkCoord px) - 64 / 2))).
  { change 64 with (Qfloor 64) at 1. apply Qfloor_resp_le.
    change (64 / 2)%Q with (64 * (1 # 2))%Q. lra. }
  apply Z.ltb_ge in Hout. rewrite Hout.
  now rewrite andb_false_r.
Qed.

(** ** The samplers over the far half of a keyed square *)

Lemma existsb_none {A : Type} (f : A → bool) (l : list A) :
  (∀ a, a ∈ l → f a = false) → existsb f l = false.
Proof.
  induction l as [|a l IH]; intros Hf; [reflexivity|].
  cbn [existsb]. rewrite (Hf a) by now left. apply IH. intros b Hb. apply Hf. now right.
Qed.

(** A sampler that starts from [-Infinity] and meets the same height at
    every point returns that height. *)
Lemma fold_left_level {A : Type} (h : Q)
    (f : MinecraftAnimation.sampled → A → MinecraftAnimation.sampled) (l : list A)
    (acc : MinecraftAnimation.sampled) :
  (∀ a acc, a ∈ l →
     acc = MinecraftAnimation.NoTerrain ∨ acc = MinecraftAnimation.Terrain h →
     f acc a = MinecraftAnimation.Terrain h) →
  (acc = MinecraftAnimation.NoTerrain ∧ l ≠ []) ∨ acc = MinecraftAnimation.Terrain h →
  fold_left f l acc = MinecraftAnimation.Terrain h.
Proof.
  revert acc. induction l as [|a l IH]; intros acc Hf Hacc.
  - destruct Hacc as [[_ Hne]|Hacc]; [contradiction | exact Hacc].
  - cbn [fold_left]. apply IH.
    + intros b acc' Hb. apply Hf. now right.
    + right. apply Hf; [now left|]. destruct Hacc as [[H _]|H]; [now left | now right].
Qed.

Lemma raise_level (h : Q) (acc : MinecraftAnimation.sampled) :
  acc = MinecraftAnimation.NoTerrain ∨ acc = MinecraftAnimation.Terrain h →
  MinecraftAnimation.raise acc (Some h) = MinecraftAnimation.Terrain h.
Proof.
  intros [->| ->]; [reflexivity|]. unfold MinecraftAnimation.raise.
  now destruct (xlt _ _).
Qed.

Section DeadZone.
Variables (cos sin sqrt : Q → Q) (PI : Q).
Hypothesis Hcos : ∀ a, (-1 <= cos a ∧ cos a <= 1)%Q.
Hypothesis Hsin : ∀ a, (-1 <= sin a ∧ sin a <= 1)%Q.
Hypothesis Hsqrt : (sqrt 0 == 0)%Q.

Lemma ring_near (n : nat) (position : Vec3.t) (y : Q) (q : Vec3.t) :
  q ∈ MinecraftAnimation.ring cos sin PI n position y →
  near (Vec3.x position) (Vec3.z position) q.
Proof.
  unfold MinecraftAnimation.ring, tabulate. intros (i & -> & _)%list_elem_of_fmap.
  unfold near, MinecraftAnimation.playerRadius. cbn [Vec3.x Vec3.z].
  destruct (Hcos (Qn i / Qn n * PI * 2)) as [Hc0 Hc1].
  destruct (Hsin (Qn i / Qn n * PI * 2)) as [Hs0 Hs1].
  set (c := cos _) in *. set (d := sin _) in *. clearbody c d. lra.
Qed.

Lemma interior_near (position : Vec3.t) (y : Q) (q : Vec3.t) :
  q ∈ MinecraftAnimation.interior position y →
  near (Vec3.x position) (Vec3.z position) q.
Proof.
  unfold MinecraftAnimation.interior. cbn. rewrite !elem_of_cons, elem_of_nil.
  unfold near, MinecraftAnimation.playerRadius, Qz.
  change (inject_Z (-1)) with (-1)%Q. change (inject_Z 0) with 0%Q.
  change (inject_Z 1) with 1%Q.
  intros H. repeat (destruct H as [->|H]; [cbn [Vec3.x Vec3.z]; lra|]). destruct H.
Qed.

Lemma center_near (position : Vec3.t) (y : Q) :
  near (Vec3.x position) (Vec3.z position) (Vec3.mk (Vec3.x position) y (Vec3.z position)).
Proof. unfold near. cbn [Vec3.x Vec3.z]. lra. Qed.

Lemma point_misses (s : MinecraftAnimation.t) (q : Vec3.t) :
  in_dead_zone s →
  near (Vec3.x (MinecraftAnimation.playerPosition s))
       (Vec3.z (MinecraftAnimation.playerPosition s)) q →
  match MinecraftAnimation.chunkOf s (Vec3.x q) (Vec3.z q) with
  | Some chunk =>
      MinecraftAnimation.hits (Chunk.getHeightAt chunk (Vec3.x q) (Vec3.z q)) (Vec3.y q)
  | None => false
  end = false.
Proof.
  intros Hs Hq. unfold MinecraftAnimation.chunkOf.
  destruct (dead_zone_lookup s q Hs Hq) as (c & -> & ->). reflexivity.
Qed.

Lemma checkCollision_dead (s : MinecraftAnimation.t) (position : Vec3.t) :
  in_dead_zone s →
  Vec3.x position = Vec3.x (MinecraftAnimation.playerPosition s) →
  Vec3.z position = Vec3.z (MinecraftAnimation.playerPosition s) →
  MinecraftAnimation.checkCollision cos sin PI s position = false.
Proof.
  intros Hs Hx Hz. unfold MinecraftAnimation.checkCollision. cbv zeta.
  apply existsb_none. intros q Hq. apply point_misses; [exact Hs|].
  rewrite <- Hx, <- Hz.
  rewrite !elem_of_app, list_elem_of_singleton, list_elem_of_bind in Hq.
  destruct Hq as [->|[Hq|(h & Hq & _)]];
    [apply center_near | now apply ring_near in Hq | now apply ring_near in Hq].
Qed.

Lemma checkThoroughCollision_dead (s : MinecraftAnimation.t) (position : Vec3.t) :
  in_dead_zone s →
  Vec3.x position = Vec3.x (MinecraftAnimation.playerPosition s) →
  Vec3.z position = Vec3.z (MinecraftAnimation.playerPosition s) →
  MinecraftAnimation.checkThoroughCollision cos sin PI s position = false.
Proof.
  intros Hs Hx Hz. unfold MinecraftAnimation.checkThoroughCollision. cbv zeta.
  apply existsb_none. intros q Hq.
  assert (Hnear : near (Vec3.x (MinecraftAnimation.playerPosition s))
                       (Vec3.z (MinecraftAnimation.playerPosition s)) q).
  { rewrite <- Hx, <- Hz.
    rewrite !elem_of_app, list_elem_of_singleton, list_elem_of_bind in Hq.
    destruct Hq as [->|[Hq|[Hq|(h & Hq & _)]]];
      [apply center_near | now apply ring_near in Hq | now apply interior_near in Hq
      | now apply ring_near in Hq]. }
  destruct (dead_zone_lookup s q Hs Hnear) as (c & -> & ->). reflexivity.
Qed.

Lemma getTerrainHeightBelow_dead (s : MinecraftAnimation.t) :
  in_dead_zone s →
  MinecraftAnimation.getTerrainHeightBelow cos sin PI s = MinecraftAnimation.Terrain (-1)%Q.
Proof.
  intros Hs. unfold MinecraftAnimation.getTerrainHeightBelow. cbv zeta.
  apply fold_left_level; [|left; split; [reflexivity | discriminate]].
  intros q acc Hq Hacc.
  assert (Hnear : near (Vec3.x (MinecraftAnimation.playerPosition s))
                       (Vec3.z (MinecraftAnimation.playerPosition s)) q).
  { rewrite elem_of_app, list_elem_of_singleton in Hq.
    destruct Hq as [->|Hq]; [apply center_near | now apply ring_near in Hq]. }
  unfold MinecraftAnimation.chunkOf.
  destruct (dead_zone_lookup s q Hs Hnear) as (c & -> & ->). now apply raise_level.
Qed.

Lemma getRobustTerrainHeightBelow_dead (s : MinecraftAnimation.t) :
  in_dead_zone s →
  MinecraftAnimation.getRobustTerrainHeightBelow cos sin PI s
  = MinecraftAnimation.Terrain (-1)%Q.
Proof.
  intros Hs. unfold MinecraftAnimation.getRobustTerrainHeightBelow. cbv zeta.
  apply fold_left_level; [|left; split; [reflexivity | discriminate]].
  intros q acc Hq Hacc.
  assert (Hnear : near (Vec3.x (MinecraftAnimation.playerPosition s))
                       (Vec3.z (MinecraftAnimation.playerPosition s)) q).
  { rewrite !elem_of_app, list_elem_of_singleton in Hq.
    destruct Hq as [->|[Hq|Hq]];
      [apply center_near | now apply interior_near in Hq | now apply ring_near in Hq]. }
  destruct (dead_zone_lookup s q Hs Hnear) as (c & -> & ->). now apply raise_level.
Qed.
End DeadZone.

(** ** One tick over the far half of a keyed square *)

Lemma in_dead_zone_same (s s' : MinecraftAnimation.t) :
  MinecraftAnimation.chunks s' = MinecraftAnimation.chunks s →
  Vec3.x (MinecraftAnimation.playerPosition s') = Vec3.x (MinecraftAnimation.playerPosition s) →
  Vec3.z (MinecraftAnimation.playerPosition s') = Vec3.z (MinecraftAnimation.playerPosition s) →
  in_dead_zone s → in_dead_zone s'.
Proof. unfold in_dead_zone. cbv zeta. intros -> -> ->. trivial. Qed.

(** A sweep that meets no collision ends on its last candidate. *)
Lemma sweep_free (collides : Q → bool) (y stepSize : Q) (a n : nat) (finalY : Q) :
  (∀ nextY, collides nextY = false) →
  MinecraftAnimation.sweep collides y stepSize (seq a (S n)) finalY
  = ((y + stepSize * Qn (a + n))%Q, false).
Proof.
  intros Hfree. revert a finalY. induction n as [|n IH]; intros a finalY.
  - cbn [seq MinecraftAnimation.sweep]. rewrite Hfree. now rewrite Nat.add_0_r.
  - change (seq a (S (S n))) with (a :: seq (S a) (S n)).
    cbn [MinecraftAnimation.sweep]. rewrite Hfree, IH.
    now replace (S a + n)%nat with (a + S n)%nat by lia.
Qed.

Lemma steps_positive (intended : Q) :
  ∃ n, Z.to_nat (Z.max 10 (Qceiling (Qabs intended / 0.05))) = S n
       ∧ Qn (S n) == Qz (Z.max 10 (Qceiling (Qabs intended / 0.05)))
       ∧ (0 < Qn (S n))%Q.
Proof.
  set (steps := Z.max 10 _). assert (Hs : 10 <= steps) by (subst steps; lia).
  exists (Nat.pred (Z.to_nat steps)).
  assert (Hn : S (Nat.pred (Z.to_nat steps)) = Z.to_nat steps) by lia.
  rewrite Hn. split; [reflexivity|]. unfold Qn, Qz. rewrite Z2Nat.id by lia.
  split; [reflexivity|]. change 0%Q with (inject_Z 0). rewrite <- Zlt_Qlt. lia.
Qed.

Section DeadTick.
Variables (cos sin sqrt : Q → Q) (PI : Q).
Hypothesis Hcos : ∀ a, (-1 <= cos a ∧ cos a <= 1)%Q.
Hypothesis Hsin : ∀ a, (-1 <= sin a ∧ sin a <= 1)%Q.
Hypothesis Hsqrt : (sqrt 0 == 0)%Q.

(** The vertical movement: nothing stops the sweep; the safety check
    that follows it puts the player on [-1 + playerHeight] once the sweep
    has gone below. *)
Lemma moveVertically_dead (s : MinecraftAnimation.t) (playerHeight : Q) :
  in_dead_zone s →
  let s' := MinecraftAnimation.moveVertically cos sin PI s playerHeight in
  let p := MinecraftAnimation.playerPosition s in
  let v := MinecraftAnimation.playerVelocity s in
  let p' := MinecraftAnimation.playerPosition s' in
  let v' := MinecraftAnimation.playerVelocity s' in
  MinecraftAnimation.chunks s' = MinecraftAnimation.chunks s
  ∧ Vec3.x p' = Vec3.x p ∧ Vec3.z p' = Vec3.z p
  ∧ Vec3.x v' = Vec3.x v ∧ Vec3.z v' = Vec3.z v
  ∧ ((MinecraftAnimation.isOnGround s' = true
      ∧ Vec3.y p' = (-1 + playerHeight)%Q ∧ Vec3.y v' = 0%Q)
     ∨ (MinecraftAnimation.isOnGround s' = MinecraftAnimation.isOnGround s
        ∧ Vec3.y v' = Vec3.y v
        ∧ (Vec3.y p' == Vec3.y p + Vec3.y v * MinecraftAnimation.deltaTime)%Q
        ∧ (-1 <= Vec3.y p' - playerHeight)%Q)).
Proof.
  intros Hs. cbv zeta. unfold MinecraftAnimation.moveVertically. cbv zeta.
  set (p := MinecraftAnimation.playerPosition s).
  set (v := MinecraftAnimation.playerVelocity s).
  set (intended := (Vec3.y v * MinecraftAnimation.deltaTime)%Q).
  destruct (steps_positive intended) as (n & Hn & Hsteps & Hpos).
  rewrite Hn.
  rewrite (sweep_free _ _ _ 1 n).
  2:{ intros nextY. destruct (Qltb (Vec3.y v) (-10)).
      - now apply checkThoroughCollision_dead.
      - now apply checkCollision_dead. }
  cbn [andb]. change (1 + n)%nat with (S n).
  set (finalY := (Vec3.y p + intended / Qz _ * Qn (S n))%Q).
  assert (HfinalY : (finalY == Vec3.y p + intended)%Q).
  { subst finalY. rewrite <- Hsteps. field. lra. }
  rewrite getRobustTerrainHeightBelow_dead; [|assumption|assumption|].
  2:{ revert Hs. now apply in_dead_zone_same. }
  destruct (Qltb (finalY - playerHeight) (-1)) eqn:Hbelow.
  - cbn. repeat split; try reflexivity. left. repeat split; reflexivity.
  - cbn. repeat split; try reflexivity. right. apply Qltb_ge in Hbelow.
    repeat split; try reflexivity; assumption.
Qed.

(** The final ground adjustment. *)
Lemma settle_dead (s : MinecraftAnimation.t) (playerHeight : Q) :
  in_dead_zone s →
  MinecraftAnimation.isOnGround s = true →
  (Vec3.y (MinecraftAnimation.playerPosition s) - playerHeight - -1 <= 1.0)%Q →
  MinecraftAnimation.settle cos sin PI s playerHeight
  = MinecraftAnimation.with_player s
      (Vec3.mk (Vec3.x (MinecraftAnimation.playerPosition s)) (-1 + playerHeight)
               (Vec3.z (MinecraftAnimation.playerPosition s)))
      (MinecraftAnimation.playerVelocity s) true.
Proof.
  intros Hs Hground Hy. unfold MinecraftAnimation.settle.
  rewrite Hground, getTerrainHeightBelow_dead by assumption. cbv zeta.
  apply Qltb_ge in Hy. cbv beta. rewrite Hy. reflexivity.
Qed.

Lemma settle_airborne (s : MinecraftAnimation.t) (playerHeight : Q) :
  MinecraftAnimation.isOnGround s = false →
  MinecraftAnimation.settle cos sin PI s playerHeight = s.
Proof. intros Hair. unfold MinecraftAnimation.settle. now rewrite Hair. Qed.

Lemma no_walk_input : Qltb 0 (MinecraftAnimation.length sqrt noWalk) = false.
Proof.
  apply Qltb_ge. change (MinecraftAnimation.length sqrt noWalk) with (sqrt 0).
  rewrite Hsqrt. apply Qle_refl.
Qed.

(** One tick.  The chunks and the horizontal position stay; either the
    player is flagged on the ground, at rest at height 1 or 1.2, or the
    player is airborne, was higher than 1.05 and has moved by the whole
    step of the new velocity. *)
Lemma physicsTick_dead (s : MinecraftAnimation.t) :
  in_dead_zone s →
  let s' := MinecraftAnimation.physicsTick cos sin sqrt PI s noWalk in
  let p := MinecraftAnimation.playerPosition s in
  let v := MinecraftAnimation.playerVelocity s in
  let p' := MinecraftAnimation.playerPosition s' in
  let v' := MinecraftAnimation.playerVelocity s' in
  in_dead_zone s'
  ∧ ((MinecraftAnimation.isOnGround s' = true
      ∧ (Vec3.y p' == 1 ∨ Vec3.y p' == 1.2)%Q ∧ (Vec3.y v' == 0)%Q)
     ∨ (MinecraftAnimation.isOnGround s' = false
        ∧ (1.05 < Vec3.y p)%Q
        ∧ (Vec3.y v' == Qmax (Qmin (Vec3.y v) 20) (-20)
                        - MinecraftAnimation.gravity * MinecraftAnimation.deltaTime)%Q
        ∧ (Vec3.y p' == Vec3.y p + Vec3.y v' * MinecraftAnimation.deltaTime)%Q)).
Proof.
  intros Hs. cbv zeta. unfold MinecraftAnimation.physicsTick. cbv zeta.
  rewrite getTerrainHeightBelow_dead by assumption.
  unfold MinecraftAnimation.applyPhysics. cbv zeta.
  rewrite no_walk_input.
  set (p := MinecraftAnimation.playerPosition s).
  set (v := MinecraftAnimation.playerVelocity s).
  set (vy := Qmax (Qmin (Vec3.y v) 20) (-20)).
  destruct (Qltb (Vec3.y p - 2.0) (-1 - 0.1)) eqn:Hemergency.
  { split; [revert Hs; now apply in_dead_zone_same|].
    left. cbn. split; [reflexivity|]. split; [right|]; reflexivity. }
  apply Qltb_ge in Hemergency.
  destruct (Qleb (Vec3.y p - 2.0 - -1) 0.05) eqn:Hgrounded.
  { cbn [MinecraftAnimation.isOnGround MinecraftAnimation.with_player negb orb
         MinecraftAnimation.playerVelocity Vec3.y].
    change (Qltb 0 0) with false. cbv iota.
    rewrite settle_dead.
    - split; [revert Hs; now apply in_dead_zone_same|].
      left. cbn. split; [reflexivity|]. split; [left|]; reflexivity.
    - revert Hs. now apply in_dead_zone_same.
    - reflexivity.
    - cbn. discriminate. }
  apply Qleb_gt in Hgrounded.
  cbn [MinecraftAnimation.isOnGround MinecraftAnimation.with_player negb orb].
  set (s1 := MinecraftAnimation.with_player s p _ false).
  assert (Hs1 : in_dead_zone s1) by (revert Hs; now apply in_dead_zone_same).
  pose proof (moveVertically_dead s1 2.0 Hs1) as Hmove. cbv zeta in Hmove.
  set (s2 := MinecraftAnimation.moveVertically cos sin PI s1 2.0) in *.
  destruct Hmove as (Hchunks & Hx & Hz & Hvx & Hvz & Hcases).
  assert (Hs2 : in_dead_zone s2) by (revert Hs1; now apply in_dead_zone_same).
  destruct Hcases as [(Hground & Hy & Hvy)|(Hair & Hvy & Hy & Habove)].
  - rewrite settle_dead; [|assumption|assumption|rewrite Hy; discriminate].
    split; [revert Hs2; now apply in_dead_zone_same|].
    left. cbn [MinecraftAnimation.isOnGround MinecraftAnimation.with_player
               MinecraftAnimation.playerPosition MinecraftAnimation.playerVelocity Vec3.y].
    split; [reflexivity|]. split; [left; reflexivity|]. now rewrite Hvy.
  - rewrite settle_airborne by exact Hair.
    split; [exact Hs2|]. right.
    split; [exact Hair|]. split; [lra|].
    rewrite Hvy. cbn [MinecraftAnimation.playerVelocity MinecraftAnimation.playerPosition
                      Vec3.y s1] in Hy |- *.
    split; [reflexivity | exact Hy].
Qed.
End DeadTick.

(** ** C9: the landing *)

Lemma ticks_succ (cos sin sqrt : Q → Q) (PI : Q) (n : nat) (s : MinecraftAnimation.t) :
  ticks cos sin sqrt PI (S n) s
  = ticks cos sin sqrt PI n (MinecraftAnimation.physicsTick cos sin sqrt PI s noWalk).
Proof.
  unfold ticks.
  exact (Nat.iter_succ_r n (λ s, MinecraftAnimation.physicsTick cos sin sqrt PI s noWalk) s).
Qed.

Lemma ticks_step (cos sin sqrt : Q → Q) (PI : Q) (n : nat) (s : MinecraftAnimation.t) :
  ticks cos sin sqrt PI (S n) s
  = MinecraftAnimation.physicsTick cos sin sqrt PI (ticks cos sin sqrt PI n s) noWalk.
Proof. reflexivity. Qed.

Lemma capped_nonpositive (vy : Q) : (vy <= 0)%Q → (Qmax (Qmin vy 20) (-20) <= 0)%Q.
Proof.
  intros Hvy. apply Q.max_lub; [|discriminate].
  eapply Qle_trans; [apply Q.le_min_l | exact Hvy].
Qed.

Lemma ticks_bound (y : Q) :
  ∃ N : nat, (y <= 1.05 + Qn N * (MinecraftAnimation.gravity * MinecraftAnimation.deltaTime
                                   * MinecraftAnimation.deltaTime))%Q.
Proof.
  unfold MinecraftAnimation.gravity, MinecraftAnimation.deltaTime.
  set (c := (9.8 * 0.016 * 0.016)%Q). assert (Hc : (0 < c)%Q) by reflexivity.
  exists (Z.to_nat (Qceiling ((y - 1.05) / c))).
  pose proof (Qle_ceiling ((y - 1.05) / c)) as Hceil.
  assert (Hn : (inject_Z (Qceiling ((y - 1.05) / c))
                <= Qn (Z.to_nat (Qceiling ((y - 1.05) / c))))%Q).
  { unfold Qn. rewrite <- Zle_Qle. lia. }
  assert (Hy : (y - 1.05 == (y - 1.05) / c * c)%Q) by (field; lra).
  set (q := ((y - 1.05) / c)%Q) in *. set (m := Qn _) in *.
  assert (q * c <= m * c)%Q by (apply Qmult_le_compat_r; lra). lra.
Qed.

Section Landing.
Variables (cos sin sqrt : Q → Q) (PI : Q).
Hypothesis Hcos : ∀ a, (-1 <= cos a ∧ cos a <= 1)%Q.
Hypothesis Hsin : ∀ a, (-1 <= sin a ∧ sin a <= 1)%Q.
Hypothesis Hsqrt : (sqrt 0 == 0)%Q.

Lemma ticks_dead (n : nat) (s : MinecraftAnimation.t) :
  in_dead_zone s → in_dead_zone (ticks cos sin sqrt PI n s).
Proof.
  intros Hs. induction n as [|n IH]; [exact Hs|].
  unfold ticks in *. cbn [Nat.iter].
  now apply (physicsTick_dead cos sin sqrt PI Hcos Hsin Hsqrt).
Qed.

Lemma lands_within (N : nat) (s : MinecraftAnimation.t) :
  in_dead_zone s →
  (Vec3.y (MinecraftAnimation.playerVelocity s) <= 0)%Q →
  (Vec3.y (MinecraftAnimation.playerPosition s)
   <= 1.05 + Qn N * (MinecraftAnimation.gravity * MinecraftAnimation.deltaTime
                     * MinecraftAnimation.deltaTime))%Q →
  ∃ n, (1 <= n)%nat ∧ MinecraftAnimation.isOnGround (ticks cos sin sqrt PI n s) = true.
Proof.
  revert s. induction N as [|N IH]; intros s Hs Hvy Hy;
    destruct (physicsTick_dead cos sin sqrt PI Hcos Hsin Hsqrt s Hs)
      as (Hs' & [(Hground & _)|(Hair & Hhigh & Hvy' & Hy')]);
    try (exists 1%nat; split; [lia | exact Hground]).
  - exfalso. change (Qn 0) with 0%Q in Hy. lra.
  - pose proof (capped_nonpositive _ Hvy) as Hcap.
    unfold MinecraftAnimation.gravity, MinecraftAnimation.deltaTime in *.
    destruct (IH _ Hs') as (n & Hn & Hground).
    + rewrite Hvy'. lra.
    + rewrite Hy', Hvy'.
      assert (HS : (Qn (S N) == Qn N + 1)%Q).
      { unfold Qn. rewrite Nat2Z.inj_succ. unfold Z.succ. rewrite inject_Z_plus.
        reflexivity. }
      rewrite HS in Hy.
      set (cap := Qmax _ _) in *. set (y := Vec3.y (MinecraftAnimation.playerPosition s)) in *.
      set (m := Qn N) in *. clearbody cap y m. lra.
    + exists (S n). split; [lia|]. now rewrite ticks_succ.
Qed.
End Landing.

(** C9.  The claim fails over the far half of every keyed square.  A
    player whose footprint lies there, above loaded chunks of whatever
    height, and who is not moving up, falls through the terrain: after
    some tick the on-ground flag is set, and in every state after a tick
    in which the flag is set the player is at rest at height 1 or 1.2,
    which is not within the collision epsilon of [H + playerHeight] for any
    terrain height [H] that is not negative. *)
Theorem player_falls_through_the_far_half
    (cos sin sqrt : Q → Q) (PI : Q) (s : MinecraftAnimation.t) :
  (∀ a, (-1 <= cos a ∧ cos a <= 1)%Q) → (∀ a, (-1 <= sin a ∧ sin a <= 1)%Q) →
  (sqrt 0 == 0)%Q →
  in_dead_zone s →
  (Vec3.y (MinecraftAnimation.playerVelocity s) <= 0)%Q →
  (∃ n, (1 <= n)%nat ∧ MinecraftAnimation.isOnGround (ticks cos sin sqrt PI n s) = true)
  ∧ ∀ n, (1 <= n)%nat →
      MinecraftAnimation.isOnGround (ticks cos sin sqrt PI n s) = true →
      let y := Vec3.y (MinecraftAnimation.playerPosition (ticks cos sin sqrt PI n s)) in
      (y == 1 ∨ y == 1.2)%Q
      ∧ (Vec3.y (MinecraftAnimation.playerVelocity (ticks cos sin sqrt PI n s)) == 0)%Q
      ∧ ∀ H : Q, (0 <= H)%Q → ¬ (H + 2 - 0.05 <= y ∧ y <= H + 2 + 0.05)%Q.
Proof.
  intros Hcos Hsin Hsqrt Hs Hvy. split.
  - destruct (ticks_bound (Vec3.y (MinecraftAnimation.playerPosition s))) as [N HN].
    exact (lands_within cos sin sqrt PI Hcos Hsin Hsqrt N s Hs Hvy HN).
  - intros [|n] Hn; [lia|]. cbv zeta. rewrite ticks_step.
    pose proof (ticks_dead cos sin sqrt PI Hcos Hsin Hsqrt n s Hs) as Hdead.
    destruct (physicsTick_dead cos sin sqrt PI Hcos Hsin Hsqrt _ Hdead)
      as (_ & [(_ & Hy & Hv)|(Hair & _)]); intros Hground.
    + split; [exact Hy|]. split; [exact Hv|].
      intros H HH [Hlo Hhi]. destruct Hy as [Hy|Hy]; rewrite Hy in Hlo; lra.
    + congruence.
Qed.

Lemma coarse_bounds :
  (∀ a, (-1 <= coarseCos a ∧ coarseCos a <= 1)%Q)
  ∧ (∀ a, (-1 <= coarseSin a ∧ coarseSin a <= 1)%Q)
  ∧ (coarseSqrt 0 == 0)%Q.
Proof.
  assert (Hclip : ∀ q, (-1 <= Qmax (-1) (Qmin 1 q) ∧ Qmax (-1) (Qmin 1 q) <= 1)%Q).
  { intros q. split; [apply Q.le_max_l|].
    apply Q.max_lub; [discriminate | apply Q.le_min_l]. }
  split; [|split]; [intros a; apply Hclip | intros a; apply Hclip | reflexivity].
Qed.

Lemma dropped_in_dead_zone : in_dead_zone (dropped 57 40 100 10).
Proof.
  unfold in_dead_zone, dropped. cbv zeta.
  cbn [MinecraftAnimation.playerPosition MinecraftAnimation.chunks Vec3.x Vec3.z].
  assert (Hk40 : MinecraftAnimation.chunkCoord 40 = 0) by (vm_compute; reflexivity).
  assert (Hk10 : MinecraftAnimation.chunkCoord 10 = 0) by (vm_compute; reflexivity).
  rewrite Hk40, Hk10. split.
  - exists (flatChunk 0 0 57). split; [vm_compute; reflexivity|]. repeat split.
  - split; split; discriminate.
Qed.

(** A player dropped from height 100 at [(40, 10)] over the flat world
    of height 57: the chunk stored under the key [0,0] covers the [x] from
    -32 to 32, the chunk that covers [x = 40] is stored under [64,0]. *)
Lemma player_falls_through_the_far_half_witness :
  ∃ n, (1 <= n)%nat
    ∧ MinecraftAnimation.isOnGround
        (ticks coarseCos coarseSin coarseSqrt coarsePI n (dropped 57 40 100 10)) = true
    ∧ ¬ (57 + 2 - 0.05
         <= Vec3.y (MinecraftAnimation.playerPosition
                      (ticks coarseCos coarseSin coarseSqrt coarsePI n (dropped 57 40 100 10)))
         ∧ Vec3.y (MinecraftAnimation.playerPosition
                     (ticks coarseCos coarseSin coarseSqrt coarsePI n (dropped 57 40 100 10)))
           <= 57 + 2 + 0.05)%Q.
Proof.
  destruct coarse_bounds as (Hcos & Hsin & Hsqrt).
  destruct (player_falls_through_the_far_half coarseCos coarseSin coarseSqrt coarsePI
              (dropped 57 40 100 10) Hcos Hsin Hsqrt dropped_in_dead_zone)
    as [(n & Hn & Hground) Hall]; [discriminate|].
  exists n. split; [exact Hn|]. split; [exact Hground|].
  destruct (Hall n Hn Hground) as (_ & _ & Hoff). apply (Hoff 57%Q). discriminate.
Defined.

(** ** Instances of the sentinel and jump properties *)

(** The flat chunk around the origin covers the [x] from -32 to 32: a
    query at [x = 40] answers [-1]; the terrain of size 2 around the origin
    answers [-1] at [x = 5] and [null] at [y = 7]. *)
Lemma out_of_bounds_queries_witness :
  Chunk.getHeightAt (flatChunk 0 0 57) 40 0 = Some (-1)%Q
  ∧ VolumetricTerrain.getHeightAt (uniformTerrain 2 STONE 2) 5 0 = Some (-1)%Q
  ∧ VolumetricTerrain.getBlockAt (uniformTerrain 2 STONE 2) 0 7 0 = Some None.
Proof.
  destruct out_of_bounds_queries as (Hchunk & Hheight & Hblock).
  split; [|split].
  - apply Hchunk. intros [[_ H] _]. revert H. vm_compute. discriminate.
  - apply Hheight. intros [[_ H] _]. revert H. vm_compute. discriminate.
  - apply Hblock. intros (_ & [_ H] & _). revert H. vm_compute. discriminate.
Defined.

(** A jump from the ground at height 59, and a jump of the airborne
    player of the initial state. *)
Lemma jump_effect_witness :
  Vec3.y (MinecraftAnimation.playerVelocity
            (MinecraftAnimation.jump
               (MinecraftAnimation.with_player MinecraftAnimation.initial
                  (Vec3.mk 0 59 0) (Vec3.mk 0 0 0) true)))
  = MinecraftAnimation.jumpVelocity
  ∧ MinecraftAnimation.isOnGround
      (MinecraftAnimation.jump
         (MinecraftAnimation.with_player MinecraftAnimation.initial
            (Vec3.mk 0 59 0) (Vec3.mk 0 0 0) true)) = false
  ∧ MinecraftAnimation.jump MinecraftAnimation.initial = MinecraftAnimation.initial.
Proof.
  destruct (jump_effect (MinecraftAnimation.with_player MinecraftAnimation.initial
                           (Vec3.mk 0 59 0) (Vec3.mk 0 0 0) true)) as [Hground _].
  destruct (Hground eq_refl) as (Hv & Hflag & _).
  destruct (jump_effect MinecraftAnimation.initial) as [_ Hair].
  split; [exact Hv|]. split; [exact Hflag | exact (Hair eq_refl)].
Defined.

(** ** Constructed terrains are well formed *)

Lemma for_loop_invariant {St : Type} (P : St → Prop) (n : nat)
    (body : nat → St → option St) (s s' : St) :
  (∀ i s1 s2, P s1 → body i s1 = Some s2 → P s2) →
  P s → for_loop n body s = Some s' → P s'.
Proof.
  intros Hbody. apply (for_each_invariant P body (seq 0 n)).
  intros i s1 s2 _. apply Hbody.
Qed.

Ltac run_cell H :=
  repeat match type of H with
    | context [mbind _ ?m] => destruct m; cbn [mbind option_bind] in H
    | context [if ?c then _ else _] => destruct c
    end;
  try discriminate; injection H as <-; cbn [fst]; auto using grid3_store3.

Lemma carveCell_shape (t : VolumetricTerrain.t) (caveNoise detailNoise : list (list (list Q)))
    (random : RandomSource) (n x y z : nat) (st st' : list (list (list cell)) * nat) :
  grid3 n n n (λ _ _ _ _, True) st.1 →
  VolumetricTerrain.carveCell t caveNoise detailNoise random x y z st = Some st' →
  grid3 n n n (λ _ _ _ _, True) st'.1.
Proof.
  destruct st as [blocks k]. cbn [fst]. intros Hs H.
  unfold VolumetricTerrain.carveCell in H. cbv zeta in H. run_cell H.
Qed.

Lemma oreCell_shape (t : VolumetricTerrain.t) (random : RandomSource) (n x y z : nat)
    (st st' : list (list (list cell)) * nat) :
  grid3 n n n (λ _ _ _ _, True) st.1 →
  VolumetricTerrain.oreCell t random x y z st = Some st' →
  grid3 n n n (λ _ _ _ _, True) st'.1.
Proof.
  destruct st as [blocks k]. cbn [fst]. intros Hs H.
  unfold VolumetricTerrain.oreCell in H. cbv zeta in H. run_cell H.
Qed.

Lemma scan_shape (n m : nat)
    (cell_step : nat → nat → nat → list (list (list cell)) * nat
                 → option (list (list (list cell)) * nat))
    (st st' : list (list (list cell)) * nat) :
  (∀ x y z s1 s2, grid3 n n n (λ _ _ _ _, True) s1.1 → cell_step x y z s1 = Some s2 →
     grid3 n n n (λ _ _ _ _, True) s2.1) →
  grid3 n n n (λ _ _ _ _, True) st.1 →
  for_loop m (λ x, for_loop m (λ y, for_loop m (λ z, cell_step x y z))) st = Some st' →
  grid3 n n n (λ _ _ _ _, True) st'.1.
Proof.
  intros Hcell. apply (for_loop_invariant (λ s, grid3 n n n (λ _ _ _ _, True) s.1)).
  intros x s1 s2. apply (for_loop_invariant (λ s, grid3 n n n (λ _ _ _ _, True) s.1)).
  intros y s3 s4. apply (for_loop_invariant (λ s, grid3 n n n (λ _ _ _ _, True) s.1)).
  intros z. apply Hcell.
Qed.

Lemma generateCaves_well_formed (t t' : VolumetricTerrain.t) (random : RandomSource)
    (k k' : nat) :
  well_formed t → VolumetricTerrain.generateCaves t random k = Some (t', k') →
  well_formed t'.
Proof.
  intros [Hh Hb]. unfold VolumetricTerrain.generateCaves.
  destruct (negb _); [intros [= <- _]; now split|].
  destruct (VolumetricTerrain.generate3DNoise _ _ _ VolumetricTerrain.CAVE_SCALE _ _)
    as [caveNoise|]; cbn [mbind option_bind]; [|discriminate].
  destruct (VolumetricTerrain.generate3DNoise _ _ _ _ _ _)
    as [detailNoise|]; cbn [mbind option_bind]; [|discriminate].
  destruct (VolumetricTerrain.carveCaves _ _ _ _ _) as [[blocks k1]|] eqn:Hrun;
    cbn [mbind option_bind]; [|discriminate].
  intros [= <- _]. split; [exact Hh|]. cbn.
  unfold VolumetricTerrain.carveCaves in Hrun.
  exact (scan_shape (VolumetricTerrain.size t) _ _ (VolumetricTerrain.blockData t, k) _
           (carveCell_shape t caveNoise detailNoise random _) Hb Hrun).
Qed.

Lemma generateOreDeposits_well_formed (t t' : VolumetricTerrain.t) (random : RandomSource)
    (k k' : nat) :
  well_formed t → VolumetricTerrain.generateOreDeposits t random k = Some (t', k') →
  well_formed t'.
Proof.
  intros [Hh Hb]. unfold VolumetricTerrain.generateOreDeposits.
  destruct (for_loop _ _ _) as [[blocks k1]|] eqn:Hrun;
    cbn [mbind option_bind]; [|discriminate].
  intros [= <- _]. split; [exact Hh|]. cbn.
  exact (scan_shape (VolumetricTerrain.size t) _ _ (VolumetricTerrain.blockData t, k) _
           (oreCell_shape t random _) Hb Hrun).
Qed.

(** Whatever stage the construction stops at, the terrain it leaves has
    a [size x size] height map and a [size x size x size] block grid. *)
Lemma new_well_formed (chunkX chunkZ : Z) (size : nat) (random : RandomSource) (k : nat) :
  well_formed (VolumetricTerrain.new chunkX chunkZ size random k).1.
Proof.
  unfold VolumetricTerrain.new, VolumetricTerrain.generateTerrain.
  cbn [VolumetricTerrain.size VolumetricTerrain.seed].
  destruct (surface_heights_between size (pretty chunkX +:+ "," +:+ pretty chunkZ))
    as (heightMap & -> & Hheights).
  set (t1 := VolumetricTerrain.with_heightMap _ heightMap).
  assert (Hh : grid2 size size (λ _ _ _, True) heightMap).
  { revert Hheights. apply grid2_weaken. trivial. }
  assert (Ht1 : well_formed t1).
  { split; [exact Hh|]. cbn. apply vec_replicate. intros i _.
    apply vec_replicate. intros j _. now apply vec_replicate. }
  destruct (VolumetricTerrain.generateVolumetricBlocks t1) as [blocks|] eqn:Hfill;
    [|exact Ht1].
  set (t2 := VolumetricTerrain.with_blockData t1 blocks).
  assert (Ht2 : well_formed t2).
  { split; [exact Hh|]. cbn. unfold VolumetricTerrain.generateVolumetricBlocks in Hfill.
    destruct (VolumetricTerrain.generate2DNoise _ _ _ _ _); cbn [mbind option_bind] in Hfill;
      [|discriminate].
    destruct (VolumetricTerrain.generate3DNoise _ _ _ _ _ _); cbn [mbind option_bind] in Hfill;
      [|discriminate].
    apply tabulateM_grid3_inv in Hfill. revert Hfill. apply grid3_weaken. trivial. }
  destruct (VolumetricTerrain.generateCaves t2 random k) as [[t3 k3]|] eqn:Hc; [|exact Ht2].
  pose proof (generateCaves_well_formed _ _ _ _ _ Ht2 Hc) as Ht3.
  destruct (VolumetricTerrain.generateOreDeposits t3 random k3) as [[t4 k4]|] eqn:Ho;
    [|exact Ht3].
  exact (generateOreDeposits_well_formed _ _ _ _ _ Ht3 Ho).
Qed.

(** The terrain of a constructed chunk is the constructed terrain: the
    properties stated of well-formed terrains hold of it. *)
Lemma chunk_new_well_formed (centerX centerZ : Z) (size : nat) (random : RandomSource)
    (k : nat) :
  well_formed (VolumetricChunk.terrain (VolumetricChunk.new centerX centerZ size random k).1).
Proof.
  unfold VolumetricChunk.new.
  pose proof (new_well_formed centerX centerZ size random k) as Hwf.
  destruct (VolumetricTerrain.new centerX centerZ size random k) as [terrain k'].
  cbn [fst] in *. unfold VolumetricChunk.generateCubes. cbn [VolumetricChunk.terrain].
  destruct (VolumetricTerrain.extractBlocks terrain); exact Hwf.
Qed.

(** ** The samplers over the near half of a keyed square *)

Lemma over_flat_ground_same (H : Q) (s s' : MinecraftAnimation.t) :
  MinecraftAnimation.chunks s' = MinecraftAnimation.chunks s →
  Vec3.x (MinecraftAnimation.playerPosition s') = Vec3.x (MinecraftAnimation.playerPosition s) →
  Vec3.z (MinecraftAnimation.playerPosition s') = Vec3.z (MinecraftAnimation.playerPosition s) →
  over_flat_ground H s → over_flat_ground H s'.
Proof. unfold over_flat_ground. cbv zeta. intros -> -> ->. trivial. Qed.

Lemma local_index (w k : Q) :
  (k + 0.1 <= w)%Q → (w <= k + 31.9)%Q →
  32 <= Qfloor (w - (k - 64 / 2)) < 64.
Proof.
  intros H0 H1. change (64 / 2)%Q with (64 * (1 # 2))%Q. split.
  - change 32 with (Qfloor 32). apply Qfloor_resp_le. lra.
  - apply Qfloor_lt_Z. change (inject_Z 64) with 64%Q. lra.
Qed.

Lemma flat_item (H : Q) (i j : Z) :
  0 <= i < 64 → 0 <= j < 64 → item2 (replicate 64 (replicate 64 H)) i j = Some H.
Proof.
  intros Hi Hj. unfold item2, item.
  destruct (0 <=? i) eqn:Hi0; [|apply Z.leb_gt in Hi0; lia].
  rewrite lookup_replicate_2 by lia. cbn [mbind option_bind].
  destruct (0 <=? j) eqn:Hj0; [|apply Z.leb_gt in Hj0; lia].
  apply lookup_replicate_2. lia.
Qed.

(** Every lookup for a point of the player's footprint finds the chunk of
    the player's key, and that chunk answers [H]. *)
Lemma flat_ground_lookup (H : Q) (s : MinecraftAnimation.t) (q : Vec3.t) :
  over_flat_ground H s →
  near (Vec3.x (MinecraftAnimation.playerPosition s))
       (Vec3.z (MinecraftAnimation.playerPosition s)) q →
  ∃ c, MinecraftAnimation.chunks s
         !! MinecraftAnimation.chunkKey (MinecraftAnimation.chunkCoord (Vec3.x q))
                                         (MinecraftAnimation.chunkCoord (Vec3.z q)) = Some c
       ∧ Chunk.getHeightAt c (Vec3.x q) (Vec3.z q) = Some H.
Proof.
  unfold over_flat_ground. cbv zeta.
  set (px := Vec3.x (MinecraftAnimation.playerPosition s)).
  set (pz := Vec3.z (MinecraftAnimation.playerPosition s)).
  intros ((c & Hc & Hcx & Hcz & Hsize & Hflat) & [Hx0 Hx1] & [Hz0 Hz1] & HH)
         (Hqx0 & Hqx1 & Hqz0 & Hqz1).
  clearbody px pz.
  rewrite (chunkCoord_near px (Vec3.x q)), (chunkCoord_near pz (Vec3.z q)) by lra.
  exists c. split; [exact Hc|].
  unfold Chunk.getHeightAt. cbv zeta. rewrite Hcx, Hcz, Hsize, Hflat.
  change (Qn MinecraftAnimation.chunkSize) with 64%Q.
  change (Z.of_nat MinecraftAnimation.chunkSize) with 64.
  destruct (local_index (Vec3.x q) (Qz (MinecraftAnimation.chunkCoord px))) as [Hi0 Hi1];
    [lra | lra |].
  destruct (local_index (Vec3.z q) (Qz (MinecraftAnimation.chunkCoord pz))) as [Hj0 Hj1];
    [lra | lra |].
  set (i := Qfloor (Vec3.x q - _)) in *. set (j := Qfloor (Vec3.z q - _)) in *.
  assert (Hin : (0 <=? i) && (i <? 64) && (0 <=? j) && (j <? 64) = true).
  { rewrite !andb_true_iff, !Z.leb_le, !Z.ltb_lt. lia. }
  rewrite Hin. apply flat_item; lia.
Qed.

Lemma existsb_threshold {A : Type} (f : A → bool) (height : A → Q) (l : list A)
    (bottom H : Q) :
  (∀ q, q ∈ l → f q = Qleb (height q) H) →
  (∃ q, q ∈ l ∧ height q = bottom) →
  (∀ q, q ∈ l → (bottom <= height q)%Q) →
  existsb f l = Qleb bottom H.
Proof.
  intros Hf (q0 & Hq0 & Hbottom) Hlow. destruct (Qleb bottom H) eqn:Hb.
  - apply existsb_exists. exists q0. split; [now apply list_elem_of_In|].
    now rewrite (Hf q0 Hq0), Hbottom.
  - apply existsb_none. intros q Hq. rewrite (Hf q Hq).
    apply Qleb_gt in Hb. apply Qleb_gt. specialize (Hlow q Hq). lra.
Qed.

Section FlatGround.
Variables (cos sin sqrt : Q → Q) (PI : Q).
Hypothesis Hcos : ∀ a, (-1 <= cos a ∧ cos a <= 1)%Q.
Hypothesis Hsin : ∀ a, (-1 <= sin a ∧ sin a <= 1)%Q.
Hypothesis Hsqrt : (sqrt 0 == 0)%Q.

Lemma ring_height (n : nat) (position : Vec3.t) (y : Q) (q : Vec3.t) :
  q ∈ MinecraftAnimation.ring cos sin PI n position y → Vec3.y q = y.
Proof.
  unfold MinecraftAnimation.ring, tabulate. now intros (i & -> & _)%list_elem_of_fmap.
Qed.

Lemma interior_height (position : Vec3.t) (y : Q) (q : Vec3.t) :
  q ∈ MinecraftAnimation.interior position y → Vec3.y q = y.
Proof.
  unfold MinecraftAnimation.interior. cbn. rewrite !elem_of_cons, elem_of_nil.
  intros H. repeat (destruct H as [->|H]; [reflexivity|]). destruct H.
Qed.

Lemma point_hits (H : Q) (s : MinecraftAnimation.t) (q : Vec3.t) :
  over_flat_ground H s →
  near (Vec3.x (MinecraftAnimation.playerPosition s))
       (Vec3.z (MinecraftAnimation.playerPosition s)) q →
  match MinecraftAnimation.chunkOf s (Vec3.x q) (Vec3.z q) with
  | Some chunk =>
      MinecraftAnimation.hits (Chunk.getHeightAt chunk (Vec3.x q) (Vec3.z q)) (Vec3.y q)
  | None => false
  end = Qleb (Vec3.y q) H.
Proof.
  intros Hs Hq. unfold MinecraftAnimation.chunkOf.
  destruct (flat_ground_lookup H s q Hs Hq) as (c & -> & ->).
  unfold MinecraftAnimation.hits. destruct Hs as (_ & _ & _ & HH).
  apply Qleb_le in HH. now rewrite HH.
Qed.

Lemma checkCollision_flat (H : Q) (s : MinecraftAnimation.t) (position : Vec3.t) :
  over_flat_ground H s →
  Vec3.x position = Vec3.x (MinecraftAnimation.playerPosition s) →
  Vec3.z position = Vec3.z (MinecraftAnimation.playerPosition s) →
  MinecraftAnimation.checkCollision cos sin PI s position = Qleb (Vec3.y position - 2) H.
Proof.
  intros Hs Hx Hz. unfold MinecraftAnimation.checkCollision. cbv zeta.
  apply (existsb_threshold _ Vec3.y).
  - intros q Hq. apply point_hits; [exact Hs|]. rewrite <- Hx, <- Hz.
    rewrite !elem_of_app, list_elem_of_singleton, list_elem_of_bind in Hq.
    destruct Hq as [->|[Hq|(h & Hq & _)]];
      [apply center_near | now apply (ring_near cos sin PI Hcos Hsin) in Hq
      | now apply (ring_near cos sin PI Hcos Hsin) in Hq].
  - eexists. split; [apply elem_of_app; left; apply list_elem_of_singleton; reflexivity|].
    reflexivity.
  - intros q Hq.
    rewrite !elem_of_app, list_elem_of_singleton, list_elem_of_bind in Hq.
    destruct Hq as [->|[Hq|(h & Hq & Hh)]].
    + cbn [Vec3.y]. apply Qle_refl.
    + apply ring_height in Hq. rewrite Hq. apply Qle_refl.
    + apply ring_height in Hq. rewrite Hq.
      rewrite !elem_of_cons, elem_of_nil in Hh.
      destruct Hh as [->|[->|[]]]; lra.
Qed.

Lemma checkThoroughCollision_flat (H : Q) (s : MinecraftAnimation.t) (position : Vec3.t) :
  over_flat_ground H s →
  Vec3.x position = Vec3.x (MinecraftAnimation.playerPosition s) →
  Vec3.z position = Vec3.z (MinecraftAnimation.playerPosition s) →
  MinecraftAnimation.checkThoroughCollision cos sin PI s position
  = Qleb (Vec3.y position - 2) H.
Proof.
  intros Hs Hx Hz. unfold MinecraftAnimation.checkThoroughCollision. cbv zeta.
  apply (existsb_threshold _ Vec3.y).
  - intros q Hq.
    assert (Hnear : near (Vec3.x (MinecraftAnimation.playerPosition s))
                         (Vec3.z (MinecraftAnimation.playerPosition s)) q).
    { rewrite <- Hx, <- Hz.
      rewrite !elem_of_app, list_elem_of_singleton, list_elem_of_bind in Hq.
      destruct Hq as [->|[Hq|[Hq|(h & Hq & _)]]];
        [apply center_near | now apply (ring_near cos sin PI Hcos Hsin) in Hq
        | now apply interior_near in Hq
        | now apply (ring_near cos sin PI Hcos Hsin) in Hq]. }
    destruct (flat_ground_lookup H s q Hs Hnear) as (c & -> & ->).
    unfold MinecraftAnimation.hits. destruct Hs as (_ & _ & _ & HH).
    apply Qleb_le in HH. now rewrite HH.
  - eexists. split; [apply elem_of_app; left; apply list_elem_of_singleton; reflexivity|].
    reflexivity.
  - intros q Hq.
    rewrite !elem_of_app, list_elem_of_singleton, list_elem_of_bind in Hq.
    destruct Hq as [->|[Hq|[Hq|(h & Hq & Hh)]]].
    + cbn [Vec3.y]. apply Qle_refl.
    + apply ring_height in Hq. rewrite Hq. apply Qle_refl.
    + apply interior_height in Hq. rewrite Hq. apply Qle_refl.
    + apply ring_height in Hq. rewrite Hq.
      rewrite !elem_of_cons, elem_of_nil in Hh.
      destruct Hh as [->|[->|[->|[]]]]; lra.
Qed.

Lemma getTerrainHeightBelow_flat (H : Q) (s : MinecraftAnimation.t) :
  over_flat_ground H s →
  MinecraftAnimation.getTerrainHeightBelow cos sin PI s = MinecraftAnimation.Terrain H.
Proof.
  intros Hs. unfold MinecraftAnimation.getTerrainHeightBelow. cbv zeta.
  apply fold_left_level; [|left; split; [reflexivity | discriminate]].
  intros q acc Hq Hacc.
  assert (Hnear : near (Vec3.x (MinecraftAnimation.playerPosition s))
                       (Vec3.z (MinecraftAnimation.playerPosition s)) q).
  { rewrite elem_of_app, list_elem_of_singleton in Hq.
    destruct Hq as [->|Hq];
      [apply center_near | now apply (ring_near cos sin PI Hcos Hsin) in Hq]. }
  unfold MinecraftAnimation.chunkOf.
  destruct (flat_ground_lookup H s q Hs Hnear) as (c & -> & ->). now apply raise_level.
Qed.

Lemma getRobustTerrainHeightBelow_flat (H : Q) (s : MinecraftAnimation.t) :
  over_flat_ground H s →
  MinecraftAnimation.getRobustTerrainHeightBelow cos sin PI s = MinecraftAnimation.Terrain H.
Proof.
  intros Hs. unfold MinecraftAnimation.getRobustTerrainHeightBelow. cbv zeta.
  apply fold_left_level; [|left; split; [reflexivity | discriminate]].
  intros q acc Hq Hacc.
  assert (Hnear : near (Vec3.x (MinecraftAnimation.playerPosition s))
                       (Vec3.z (MinecraftAnimation.playerPosition s)) q).
  { rewrite !elem_of_app, list_elem_of_singleton in Hq.
    destruct Hq as [->|[Hq|Hq]];
      [apply center_near | now apply interior_near in Hq
      | now apply (ring_near cos sin PI Hcos Hsin) in Hq]. }
  destruct (flat_ground_lookup H s q Hs Hnear) as (c & -> & ->). now apply raise_level.
Qed.
End FlatGround.

(** ** One tick over the near half of a keyed square *)

Lemma Qn_succ (n : nat) : (Qn (S n) == Qn n + 1)%Q.
Proof.
  unfold Qn. rewrite Nat2Z.inj_succ. unfold Z.succ. rewrite inject_Z_plus. reflexivity.
Qed.

(** A sweep in steps of at most 0.05 over flat ground stays above the
    ground; it can only be stopped on the way down, within 0.05 of the
    ground. *)
Lemma sweep_lands (collides : Q → bool) (H y stepSize : Q) (n a : nat) (finalY : Q) :
  (∀ nextY, collides nextY = Qleb (nextY - 2) H) →
  (-0.05 <= stepSize)%Q →
  (H < finalY - 2)%Q → (finalY == y + stepSize * Qn a)%Q →
  let r := MinecraftAnimation.sweep collides y stepSize (seq (S a) n) finalY in
  (H < r.1 - 2)%Q
  ∧ (r.2 = true → (stepSize < 0)%Q ∧ (r.1 - 2 - H <= 0.05)%Q)
  ∧ (r.2 = false → (r.1 == y + stepSize * Qn (a + n))%Q).
Proof.
  intros Hcollides Hstep. revert a finalY.
  induction n as [|n IH]; intros a finalY Habove Hfinal; cbv zeta.
  - cbn [seq MinecraftAnimation.sweep fst snd]. split; [exact Habove|].
    split; [discriminate|]. intros _. now rewrite Nat.add_0_r.
  - cbn [seq MinecraftAnimation.sweep]. rewrite Hcollides.
    pose proof (Qn_succ a) as Ha.
    destruct (Qleb (y + stepSize * Qn (S a) - 2) H) eqn:Hhit.
    + cbn [fst snd]. apply Qleb_le in Hhit. split; [exact Habove|].
      split; [|discriminate]. intros _.
      assert (Hnext : (y + stepSize * Qn (S a) == finalY + stepSize)%Q).
      { rewrite Hfinal, Ha. ring. }
      rewrite Hnext in Hhit. split; lra.
    + apply Qleb_gt in Hhit.
      specialize (IH (S a) (y + stepSize * Qn (S a))%Q Hhit (Qeq_refl _)).
      cbv zeta in IH. replace (a + S n)%nat with (S a + n)%nat by lia. exact IH.
Qed.

(** The step of the sweep is at most 0.05 long. *)
Lemma step_size_bound (intended : Q) :
  let steps := Z.max 10 (Qceiling (Qabs intended / 0.05)) in
  (-0.05 <= intended / Qz steps ∧ intended / Qz steps <= 0.05)%Q
  ∧ (0 < Qz steps)%Q.
Proof.
  cbv zeta. set (steps := Z.max 10 _).
  assert (Hpos : (0 < Qz steps)%Q).
  { unfold Qz. change 0%Q with (inject_Z 0). rewrite <- Zlt_Qlt. subst steps. lia. }
  assert (Hceil : (Qabs intended / 0.05 <= Qz steps)%Q).
  { eapply Qle_trans; [apply Qle_ceiling|]. unfold Qz. rewrite <- Zle_Qle.
    subst steps. lia. }
  assert (Habs : (Qabs intended <= 0.05 * Qz steps)%Q).
  { assert (Heq : (Qabs intended == Qabs intended / 0.05 * 0.05)%Q) by (field).
    rewrite Heq. set (q := (Qabs intended / 0.05)%Q) in *. lra. }
  pose proof (Qle_Qabs intended) as Hup.
  pose proof (Qle_Qabs (- intended)) as Hdown. rewrite Qabs_opp in Hdown.
  split; [|exact Hpos]. split.
  - apply Qle_shift_div_l; [exact Hpos|]. lra.
  - apply Qle_shift_div_r; [exact Hpos|]. lra.
Qed.

Section FlatTick.
Variables (cos sin sqrt : Q → Q) (PI : Q).
Hypothesis Hcos : ∀ a, (-1 <= cos a ∧ cos a <= 1)%Q.
Hypothesis Hsin : ∀ a, (-1 <= sin a ∧ sin a <= 1)%Q.
Hypothesis Hsqrt : (sqrt 0 == 0)%Q.

(** The vertical movement of an airborne player above the ground: the
    player stays above the ground, and is flagged on the ground only at
    rest, within 0.05 of it. *)
Lemma moveVertically_flat (H : Q) (s : MinecraftAnimation.t) :
  over_flat_ground H s →
  MinecraftAnimation.isOnGround s = false →
  (H < Vec3.y (MinecraftAnimation.playerPosition s) - 2)%Q →
  let s' := MinecraftAnimation.moveVertically cos sin PI s 2.0 in
  let p' := MinecraftAnimation.playerPosition s' in
  MinecraftAnimation.chunks s' = MinecraftAnimation.chunks s
  ∧ Vec3.x p' = Vec3.x (MinecraftAnimation.playerPosition s)
  ∧ Vec3.z p' = Vec3.z (MinecraftAnimation.playerPosition s)
  ∧ (H < Vec3.y p' - 2)%Q
  ∧ (MinecraftAnimation.isOnGround s' = true →
     Vec3.y (MinecraftAnimation.playerVelocity s') = 0%Q ∧ (Vec3.y p' - 2 - H <= 0.05)%Q).
Proof.
  intros Hs Hair Habove. cbv zeta. unfold MinecraftAnimation.moveVertically. cbv zeta.
  set (p := MinecraftAnimation.playerPosition s) in *.
  set (v := MinecraftAnimation.playerVelocity s).
  set (intended := (Vec3.y v * MinecraftAnimation.deltaTime)%Q).
  destruct (step_size_bound intended) as ([Hlo Hhi] & Hpos). cbv zeta in Hlo, Hhi, Hpos.
  set (steps := Z.max 10 _) in *. set (stepSize := (intended / Qz steps)%Q) in *.
  pose proof (sweep_lands
    (λ nextY,
       if Qltb (Vec3.y v) (-10)
       then MinecraftAnimation.checkThoroughCollision cos sin PI s
              (Vec3.mk (Vec3.x p) nextY (Vec3.z p))
       else MinecraftAnimation.checkCollision cos sin PI s
              (Vec3.mk (Vec3.x p) nextY (Vec3.z p)))
    H (Vec3.y p) stepSize (Z.to_nat steps) 0 (Vec3.y p)) as Hsweep.
  cbv zeta in Hsweep.
  destruct Hsweep as (Hfinal & Hhit & _).
  { intros nextY. destruct (Qltb (Vec3.y v) (-10)).
    - now rewrite (checkThoroughCollision_flat cos sin PI Hcos Hsin H).
    - now rewrite (checkCollision_flat cos sin PI Hcos Hsin H). }
  { exact Hlo. }
  { exact Habove. }
  { change (Qn 0) with 0%Q. ring. }
  destruct (MinecraftAnimation.sweep _ _ _ _ _) as [finalY collided].
  cbn [fst snd] in Hfinal, Hhit.
  rewrite (getRobustTerrainHeightBelow_flat cos sin PI Hcos Hsin H).
  2:{ revert Hs. now apply over_flat_ground_same. }
  assert (Hsafe : Qltb (finalY - 2.0) H = false) by (apply Qltb_ge; lra).
  rewrite Hsafe.
  cbn [MinecraftAnimation.with_player MinecraftAnimation.chunks
       MinecraftAnimation.playerPosition MinecraftAnimation.playerVelocity
       MinecraftAnimation.isOnGround Vec3.x Vec3.y Vec3.z].
  split; [reflexivity|]. split; [reflexivity|]. split; [reflexivity|].
  split; [exact Hfinal|].
  destruct collided; cbn [andb].
  - intros _. split; [reflexivity | now apply Hhit].
  - rewrite Hair. discriminate.
Qed.

Lemma settle_flat (H : Q) (s : MinecraftAnimation.t) :
  over_flat_ground H s →
  MinecraftAnimation.isOnGround s = true →
  (Vec3.y (MinecraftAnimation.playerPosition s) - 2.0 - H <= 1.0)%Q →
  MinecraftAnimation.settle cos sin PI s 2.0
  = MinecraftAnimation.with_player s
      (Vec3.mk (Vec3.x (MinecraftAnimation.playerPosition s)) (H + 2.0)
               (Vec3.z (MinecraftAnimation.playerPosition s)))
      (MinecraftAnimation.playerVelocity s) true.
Proof.
  intros Hs Hground Hy. unfold MinecraftAnimation.settle.
  rewrite Hground, (getTerrainHeightBelow_flat cos sin PI Hcos Hsin H) by assumption.
  cbv zeta. apply Qltb_ge in Hy. cbv beta. rewrite Hy. reflexivity.
Qed.

(** One tick above flat ground: the player stays above the ground, and
    is flagged on the ground only at rest at [H + 2]. *)
Lemma physicsTick_flat (H : Q) (s : MinecraftAnimation.t) :
  over_flat_ground H s →
  (H <= Vec3.y (MinecraftAnimation.playerPosition s) - 2)%Q →
  let s' := MinecraftAnimation.physicsTick cos sin sqrt PI s noWalk in
  over_flat_ground H s'
  ∧ (H <= Vec3.y (MinecraftAnimation.playerPosition s') - 2)%Q
  ∧ (MinecraftAnimation.isOnGround s' = true →
     (Vec3.y (MinecraftAnimation.playerPosition s') == H + 2)%Q
     ∧ (Vec3.y (MinecraftAnimation.playerVelocity s') == 0)%Q).
Proof.
  intros Hs Habove. cbv zeta. unfold MinecraftAnimation.physicsTick. cbv zeta.
  rewrite (getTerrainHeightBelow_flat cos sin PI Hcos Hsin H) by assumption.
  unfold MinecraftAnimation.applyPhysics. cbv zeta.
  rewrite (no_walk_input sqrt Hsqrt).
  set (p := MinecraftAnimation.playerPosition s) in *.
  set (v := MinecraftAnimation.playerVelocity s).
  assert (Hemergency : Qltb (Vec3.y p - 2.0) (H - 0.1) = false) by (apply Qltb_ge; lra).
  rewrite Hemergency.
  destruct (Qleb (Vec3.y p - 2.0 - H) 0.05) eqn:Hgrounded.
  { cbn [MinecraftAnimation.isOnGround MinecraftAnimation.with_player negb orb
         MinecraftAnimation.playerVelocity Vec3.y].
    change (Qltb 0 0) with false. cbv iota.
    rewrite (settle_flat H).
    - split; [revert Hs; now apply over_flat_ground_same|].
      cbn [MinecraftAnimation.with_player MinecraftAnimation.playerPosition
           MinecraftAnimation.playerVelocity MinecraftAnimation.isOnGround Vec3.y].
      split; [lra|]. intros _. split; [lra | reflexivity].
    - revert Hs. now apply over_flat_ground_same.
    - reflexivity.
    - cbn [MinecraftAnimation.with_player MinecraftAnimation.playerPosition Vec3.y]. lra. }
  apply Qleb_gt in Hgrounded.
  cbn [MinecraftAnimation.isOnGround MinecraftAnimation.with_player negb orb].
  set (s1 := MinecraftAnimation.with_player s p _ false).
  assert (Hs1 : over_flat_ground H s1) by (revert Hs; now apply over_flat_ground_same).
  pose proof (moveVertically_flat H s1 Hs1 eq_refl) as Hmove. cbv zeta in Hmove.
  set (s2 := MinecraftAnimation.moveVertically cos sin PI s1 2.0) in *.
  destruct Hmove as (Hchunks & Hx & Hz & Hy & Hlanded).
  { cbn [s1 MinecraftAnimation.with_player MinecraftAnimation.playerPosition]. lra. }
  assert (Hs2 : over_flat_ground H s2) by (revert Hs1; now apply over_flat_ground_same).
  destruct (MinecraftAnimation.isOnGround s2) eqn:Hground.
  - destruct (Hlanded eq_refl) as [Hvy Hnear].
    rewrite (settle_flat H); [|assumption|assumption|lra].
    split; [revert Hs2; now apply over_flat_ground_same|].
    cbn [MinecraftAnimation.with_player MinecraftAnimation.playerPosition
         MinecraftAnimation.playerVelocity MinecraftAnimation.isOnGround Vec3.y].
    split; [lra|]. intros _. split; [lra | now rewrite Hvy].
  - rewrite (settle_airborne cos sin PI) by exact Hground.
    split; [exact Hs2|]. split; [lra|]. rewrite Hground. discriminate.
Qed.

Lemma ticks_flat (H : Q) (n : nat) (s : MinecraftAnimation.t) :
  over_flat_ground H s →
  (H <= Vec3.y (MinecraftAnimation.playerPosition s) - 2)%Q →
  over_flat_ground H (ticks cos sin sqrt PI n s)
  ∧ (H <= Vec3.y (MinecraftAnimation.playerPosition (ticks cos sin sqrt PI n s)) - 2)%Q.
Proof.
  intros Hs Habove. induction n as [|n [IH1 IH2]]; [now split|].
  rewrite ticks_step. destruct (physicsTick_flat H _ IH1 IH2) as (H1 & H2 & _). now split.
Qed.

(** Over the near half of a keyed square the landing is the one the
    specification describes: a player who starts above flat ground of
    height [H], with any vertical velocity, is flagged on the ground after
    a tick only at rest at [H + playerHeight]. *)
Lemma player_lands_on_the_near_half (H : Q) (s : MinecraftAnimation.t) (n : nat) :
  over_flat_ground H s →
  (H <= Vec3.y (MinecraftAnimation.playerPosition s) - 2)%Q →
  (1 <= n)%nat →
  MinecraftAnimation.isOnGround (ticks cos sin sqrt PI n s) = true →
  (Vec3.y (MinecraftAnimation.playerPosition (ticks cos sin sqrt PI n s)) == H + 2)%Q
  ∧ (Vec3.y (MinecraftAnimation.playerVelocity (ticks cos sin sqrt PI n s)) == 0)%Q.
Proof.
  intros Hs Habove Hn. destruct n as [|n]; [lia|]. rewrite ticks_step.
  destruct (ticks_flat H n s Hs Habove) as [H1 H2].
  destruct (physicsTick_flat H _ H1 H2) as (_ & _ & Hlanded). exact Hlanded.
Qed.
End FlatTick.

(** * Further properties of the code *)

(** ** Streaming *)


Section StreamingMore.
Context {RandState : Type}.
Variable Rand : string → RandState.
Variable next : RandState → Q * RandState.

(** The creation loop leaves the chunks it finds as they are. *)
Lemma createMissing_keeps (a b : Z) (chunks chunks' : gmap string Chunk.t)
    (key : string) (c : Chunk.t) :
  MinecraftAnimation.createMissing Rand next a b chunks = Some chunks' →
  chunks !! key = Some c → chunks' !! key = Some c.
Proof.
  unfold MinecraftAnimation.createMissing. intros Hrun Hc. revert Hrun.
  apply (for_each_invariant (λ m : gmap string Chunk.t, m !! key = Some c)); [|exact Hc].
  intros [x z] m m' _ Hm. cbv zeta.
  destruct (m !! MinecraftAnimation.chunkKey _ _) as [c0|] eqn:Hlook.
  - now intros [= <-].
  - destruct (Chunk.new _ _ _ _ _) as [chunk|]; cbn [mbind option_bind]; [|discriminate].
    intros [= <-]. rewrite lookup_insert_ne; [exact Hm|]. intros Heq. congruence.
Qed.

(** The creation loop stores every chunk it creates under the key of its
    centre. *)
Lemma createMissing_keyed (a b : Z) (chunks chunks' : gmap string Chunk.t) :
  MinecraftAnimation.createMissing Rand next a b chunks = Some chunks' →
  keyed_by_centre chunks → keyed_by_centre chunks'.
Proof.
  unfold MinecraftAnimation.createMissing. intros Hrun Hk. revert Hrun.
  apply (for_each_invariant keyed_by_centre); [|exact Hk].
  intros [x z] m m' _ Hm. cbv zeta.
  destruct (m !! MinecraftAnimation.chunkKey _ _) as [c0|] eqn:Hlook.
  - now intros [= <-].
  - destruct (Chunk.new _ _ _ _ _) as [chunk|] eqn:Hnew; cbn [mbind option_bind];
      [|discriminate].
    intros [= <-]. intros key c Hc.
    destruct (decide (key = MinecraftAnimation.chunkKey
                              (a + x * Z.of_nat MinecraftAnimation.chunkSize)
                              (b + z * Z.of_nat MinecraftAnimation.chunkSize))) as [->|Hne].
    + rewrite lookup_insert_eq in Hc. injection Hc as <-.
      unfold Chunk.new in Hnew.
      destruct (Chunk.generateHeightMap _ _ _ _) as [heights|];
        cbn [mbind option_bind] in Hnew; [|discriminate].
      injection Hnew as <-. cbn [Chunk.x Chunk.z Chunk.size Chunk.seed].
      repeat split.
    + rewrite lookup_insert_ne in Hc by congruence. now apply Hm.
Qed.

(** Every chunk the creation loop returns was there before or is new
    under a key that was free. *)
Lemma createMissing_old (a b : Z) (chunks chunks' : gmap string Chunk.t)
    (key : string) (c c' : Chunk.t) :
  MinecraftAnimation.createMissing Rand next a b chunks = Some chunks' →
  chunks !! key = Some c → chunks' !! key = Some c' → c' = c.
Proof.
  intros Hrun Hc Hc'. rewrite (createMissing_keeps _ _ _ _ _ _ Hrun Hc) in Hc'.
  now injection Hc'.
Qed.

(** X2.  Reconciling the chunk map never regenerates a chunk: a chunk
    that is loaded and belongs to the 3x3 grid around the player is the
    same object afterwards, no loaded chunk is replaced by another one,
    and the player's position, velocity and ground flag are untouched. *)
Theorem updateChunks_keeps_loaded_chunks (s s' : MinecraftAnimation.t) :
  MinecraftAnimation.updateChunks Rand next s = Some s' →
  (∀ key c, MinecraftAnimation.chunks s !! key = Some c →
            key ∈ playerChunkKeys s →
            MinecraftAnimation.chunks s' !! key = Some c)
  ∧ (∀ key c c', MinecraftAnimation.chunks s !! key = Some c →
                 MinecraftAnimation.chunks s' !! key = Some c' → c' = c)
  ∧ MinecraftAnimation.playerPosition s' = MinecraftAnimation.playerPosition s
  ∧ MinecraftAnimation.playerVelocity s' = MinecraftAnimation.playerVelocity s
  ∧ MinecraftAnimation.isOnGround s' = MinecraftAnimation.isOnGround s.
Proof.
  unfold MinecraftAnimation.updateChunks. cbv zeta.
  case_bool_decide as Hmoved.
  - destruct (MinecraftAnimation.createMissing _ _ _ _ _) as [chunks'|] eqn:Hrun;
      cbn [mbind option_bind]; [|discriminate].
    intros [= <-]. unfold MinecraftAnimation.with_chunks.
    cbn [MinecraftAnimation.chunks MinecraftAnimation.playerPosition
         MinecraftAnimation.playerVelocity MinecraftAnimation.isOnGround].
    split; [|split; [|auto]].
    + intros key c Hc Hkey. apply map_lookup_filter_Some. split.
      * exact (createMissing_keeps _ _ _ _ _ _ Hrun Hc).
      * exact (proj2 (elem_of_list_to_set (C:=gset string) key (playerChunkKeys s)) Hkey).
    + intros key c c' Hc Hc'. apply map_lookup_filter_Some in Hc' as [Hc' _].
      exact (createMissing_old _ _ _ _ _ _ _ Hrun Hc Hc').
  - intros [= <-]. split; [auto|split; [|auto]].
    intros key c c' Hc Hc'. congruence.
Qed.

(** X3.  Reconciling twice is reconciling once: a second call of
    [updateChunks] with the player where it was finds the current chunk
    unchanged and returns the state as it is. *)
Theorem updateChunks_idempotent (s s' : MinecraftAnimation.t) :
  MinecraftAnimation.updateChunks Rand next s = Some s' →
  MinecraftAnimation.updateChunks Rand next s' = Some s'.
Proof.
  unfold MinecraftAnimation.updateChunks at 1. cbv zeta.
  case_bool_decide as Hmoved.
  - destruct (MinecraftAnimation.createMissing _ _ _ _ _) as [chunks'|] eqn:Hrun;
      cbn [mbind option_bind]; [|discriminate].
    intros [= <-]. unfold MinecraftAnimation.updateChunks, MinecraftAnimation.with_chunks.
    cbn [MinecraftAnimation.playerPosition MinecraftAnimation.currentChunk].
    rewrite bool_decide_eq_false_2; [reflexivity|]. intros Hne. now apply Hne.
  - intros [= <-]. unfold MinecraftAnimation.updateChunks. cbv zeta.
    now rewrite bool_decide_eq_false_2.
Qed.

(** X4.  In every state the streaming manager produces, each chunk is
    stored under the key of its own centre, has the side the driver
    streams (64) and carries that key as its seed. *)
Theorem loaded_chunks_are_keyed_by_their_centre (s : MinecraftAnimation.t) :
  reconciled Rand next s → keyed_by_centre (MinecraftAnimation.chunks s).
Proof.
  induction 1 as [s0 s Hempty Hgen | s position velocity onGround s' Hrec IH Hupd].
  - unfold MinecraftAnimation.generateInitialChunks in Hgen. cbv zeta in Hgen.
    destruct (MinecraftAnimation.createMissing _ _ _ _ _) as [chunks'|] eqn:Hrun;
      cbn [mbind option_bind] in Hgen; [|discriminate].
    injection Hgen as <-. unfold MinecraftAnimation.with_chunks.
    cbn [MinecraftAnimation.chunks]. apply (createMissing_keyed _ _ _ _ Hrun).
    rewrite Hempty. intros key c Hc. now rewrite lookup_empty in Hc.
  - unfold MinecraftAnimation.updateChunks in Hupd. cbv zeta in Hupd.
    case_bool_decide as Hmoved.
    + destruct (MinecraftAnimation.createMissing _ _ _ _ _) as [chunks'|] eqn:Hrun;
        cbn [mbind option_bind] in Hupd; [|discriminate].
      injection Hupd as <-. unfold MinecraftAnimation.with_chunks.
      cbn [MinecraftAnimation.chunks]. intros key c Hc.
      apply map_lookup_filter_Some in Hc as [Hc _].
      exact (createMissing_keyed _ _ _ _ Hrun IH key c Hc).
    + injection Hupd as <-. exact IH.
Qed.
End StreamingMore.

(** The streaming invariant, on the driver's initial state with the
    noise disabled. *)
Lemma loaded_chunks_are_keyed_by_their_centre_witness :
  ∃ s, MinecraftAnimation.generateInitialChunks neutralRand neutralNext
         MinecraftAnimation.initial = Some s
       ∧ keyed_by_centre (MinecraftAnimation.chunks s).
Proof.
  destruct (generateInitialChunks_total neutralRand neutralNext MinecraftAnimation.initial)
    as [s Hs].
  exists s. split; [exact Hs|].
  apply (loaded_chunks_are_keyed_by_their_centre neutralRand neutralNext s).
  now apply (reconciled_init _ _ MinecraftAnimation.initial s).
Defined.

(** A player who walked from the initial chunk into the next one: the
    chunks of the old grid that the new grid shares are kept. *)
Lemma updateChunks_keeps_loaded_chunks_witness :
  ∃ s s',
    let moved := MinecraftAnimation.with_player s (Vec3.mk 70 100 0) (Vec3.mk 0 0 0) false in
    MinecraftAnimation.generateInitialChunks neutralRand neutralNext
      MinecraftAnimation.initial = Some s
    ∧ MinecraftAnimation.updateChunks neutralRand neutralNext moved = Some s'
    ∧ (∀ key c, MinecraftAnimation.chunks moved !! key = Some c →
                key ∈ playerChunkKeys moved →
                MinecraftAnimation.chunks s' !! key = Some c)
    ∧ MinecraftAnimation.playerPosition s' = Vec3.mk 70 100 0.
Proof.
  destruct (generateInitialChunks_total neutralRand neutralNext MinecraftAnimation.initial)
    as [s Hs].
  destruct (updateChunks_total neutralRand neutralNext
              (MinecraftAnimation.with_player s (Vec3.mk 70 100 0) (Vec3.mk 0 0 0) false))
    as [s' Hs'].
  exists s, s'. cbv zeta. split; [exact Hs|]. split; [exact Hs'|].
  destruct (updateChunks_keeps_loaded_chunks neutralRand neutralNext _ _ Hs')
    as (Hkeep & _ & Hpos & _).
  split; [exact Hkeep | exact Hpos].
Defined.

Lemma updateChunks_idempotent_witness :
  ∃ s', MinecraftAnimation.updateChunks neutralRand neutralNext
          MinecraftAnimation.initial = Some s'
        ∧ MinecraftAnimation.updateChunks neutralRand neutralNext s' = Some s'.
Proof.
  destruct (updateChunks_total neutralRand neutralNext MinecraftAnimation.initial)
    as [s' Hs'].
  exists s'. split; [exact Hs'|].
  exact (updateChunks_idempotent neutralRand neutralNext _ _ Hs').
Defined.

(** ** The height-field chunk *)

Section ChunkMore.
Context {RandState : Type}.
Variable Rand : string → RandState.
Variable next : RandState → Q * RandState.

(** The third octave of a chunk smaller than 16 samples an empty noise
    grid. *)
Lemma Chunk_small_gridSize (size : nat) :
  (size < 16)%nat → Qfloor (Qn size / (4 * 2 ^ Z.of_nat 2)) = 0.
Proof.
  intros Hsize. apply Qfloor_unique.
  - change (inject_Z 0) with 0%Q. apply Qle_shift_div_l; [reflexivity|].
    rewrite Qmult_0_l. unfold Qn. change 0%Q with (inject_Z 0). rewrite <- Zle_Qle. lia.
  - change (inject_Z 0 + 1)%Q with 1%Q. apply Qlt_shift_div_r; [reflexivity|].
    rewrite Qmult_1_l. change (4 * 2 ^ Z.of_nat 2)%Q with (inject_Z 16).
    unfold Qn. rewrite <- Zlt_Qlt. lia.
Qed.

Lemma tabulateM_first_fails {A : Type} (n : nat) (f : nat → option A) :
  (0 < n)%nat → f 0%nat = None → tabulateM n f = None.
Proof.
  intros Hn Hf. destruct n as [|n]; [lia|].
  unfold tabulateM. cbn [seq mapM]. now rewrite Hf.
Qed.

(** A loop with an iteration that fails on every state fails. *)
Lemma for_loop_fails {St : Type} (n : nat) (body : nat → St → option St) (s : St) (i : nat) :
  (i < n)%nat → (∀ s1, body i s1 = None) → for_loop n body s = None.
Proof.
  intros Hi Hfail. change (for_each (seq 0 n) body s = None).
  replace n with (i + S (n - S i))%nat by lia.
  rewrite seq_app, for_each_app. cbn [seq].
  destruct (for_each (seq 0 i) body s) as [s1|]; [|reflexivity].
  cbn [mbind option_bind]. rewrite for_each_cons, Hfail. reflexivity.
Qed.

Lemma Chunk_generateHeightMap_small (size : nat) (seed : string) :
  (0 < size < 16)%nat → Chunk.generateHeightMap Rand next size seed = None.
Proof.
  intros [Hpos Hsmall]. unfold Chunk.generateHeightMap. cbv zeta.
  rewrite (for_loop_fails 3 _ _ 2); [reflexivity | lia |].
  intros h. apply tabulateM_first_fails; [exact Hpos|].
  apply tabulateM_first_fails; [exact Hpos|].
  rewrite (Chunk_small_gridSize size Hsmall).
  unfold Chunk.generateWhiteNoiseGrid. reflexivity.
Qed.

(** X5.  The constructor of a height-field chunk completes exactly for
    the size 0 and for the sizes of 16 and more: for a size from 1 to 15
    the third octave's noise grid has [floor(size / 16) = 0] rows, the
    interpolation reads [grid[0].length] of an empty grid, and the
    constructor fails. *)
Theorem Chunk_constructor_sizes (centerX centerZ : Z) (size : nat) :
  is_Some (Chunk.new Rand next centerX centerZ size) ↔ (size = 0 ∨ 16 <= size)%nat.
Proof.
  split.
  - intros Hsome. destruct (decide (0 < size < 16)%nat) as [Hsmall|]; [|lia].
    exfalso. unfold Chunk.new in Hsome. cbv zeta in Hsome.
    rewrite (Chunk_generateHeightMap_small size _ Hsmall) in Hsome.
    cbn in Hsome. now apply is_Some_None in Hsome.
  - intros [->|Hsize].
    + unfold Chunk.new, Chunk.generateHeightMap. cbn. eauto.
    + now apply Chunk_new_total.
Qed.

End ChunkMore.


(** ** The render buffers of the height-field chunk *)











(** *** The instance count *)


Lemma Qmult_inject (a b : Z) : (inject_Z a * inject_Z b)%Q = inject_Z (a * b).
Proof. reflexivity. Qed.






(** *** What the buffers hold *)







Section ChunkBuffersFacts.
Context {RandState : Type}.
Variable Rand : string → RandState.
Variable next : RandState → Q * RandState.




End ChunkBuffersFacts.



(** ** Layers of the volumetric terrain *)

Lemma item3_store3_same {A : Type} (a : list (list (list A))) (i j k : nat) (c v : A) :
  item3 a (Z.of_nat i) (Z.of_nat j) (Z.of_nat k) = Some c →
  item3 (store3 a i j k v) (Z.of_nat i) (Z.of_nat j) (Z.of_nat k) = Some v.
Proof.
  unfold item3, store3. rewrite !item_nat.
  destruct (a !! i) as [plane|] eqn:Hplane; [|discriminate]. cbn [mbind option_bind].
  rewrite item_nat. destruct (plane !! j) as [row|] eqn:Hrow; [|discriminate].
  cbn [mbind option_bind]. rewrite item_nat. intros Hc.
  rewrite list_lookup_alter_eq, Hplane. cbn [fmap option_fmap option_map mbind option_bind].
  rewrite item_nat, list_lookup_alter_eq, Hrow.
  cbn [fmap option_fmap option_map mbind option_bind].
  rewrite item_nat. apply list_lookup_insert_eq. now apply lookup_lt_Some in Hc.
Qed.

(** A write of a block that is in its layer keeps the grid layered. *)
Lemma layered_store3 (heightMap : list (list Q)) (chunkY : Z) (n : nat)
    (blocks : list (list (list cell))) (x y z : nat) (surface : Q) (b : BlockType) :
  layered heightMap chunkY n blocks →
  item2 heightMap (Z.of_nat x) (Z.of_nat z) = Some surface →
  layer surface (Qz chunkY + Qn y) b →
  layered heightMap chunkY n (store3 blocks x y z (Some b)).
Proof.
  intros Hl Hs Hb x' y' z' Hx Hy Hz.
  destruct (Hl x' y' z' Hx Hy Hz) as (s' & b' & Hs' & Hb' & Hlayer).
  destruct (decide ((x', y', z') = (x, y, z))) as [[= -> -> ->]|Hne].
  - exists surface, b. split; [exact Hs|]. split; [|exact Hb].
    exact (item3_store3_same _ _ _ _ _ _ Hb').
  - exists s', b'. split; [exact Hs'|]. split; [|exact Hlayer].
    rewrite item3_store3_ne; [exact Hb'|]. intros [= H1 H2 H3]. apply Hne.
    now rewrite (Nat2Z.inj _ _ H1), (Nat2Z.inj _ _ H2), (Nat2Z.inj _ _ H3).
Qed.

(** An invariant of the body of a scan of the grid is an invariant of
    the scan. *)
Lemma scan_invariant {St : Type} (P : St → Prop) (m : nat)
    (cell_step : nat → nat → nat → St → option St) (st st' : St) :
  (∀ x y z s1 s2, P s1 → cell_step x y z s1 = Some s2 → P s2) →
  P st →
  for_loop m (λ x, for_loop m (λ y, for_loop m (λ z, cell_step x y z))) st = Some st' →
  P st'.
Proof.
  intros Hcell. apply (for_loop_invariant P).
  intros x s1 s2. apply (for_loop_invariant P).
  intros y s3 s4. apply (for_loop_invariant P).
  intros z. apply Hcell.
Qed.

(** The fill stage puts every block in its layer. *)
Lemma fillCell_layer (t : VolumetricTerrain.t) (biomeNoise : list (list Q))
    (densityNoise : list (list (list Q))) (x y z : nat) (c : cell) :
  VolumetricTerrain.fillCell t biomeNoise densityNoise x y z = Some c →
  ∃ surface b,
    item2 (VolumetricTerrain.heightMap t) (Z.of_nat x) (Z.of_nat z) = Some surface
    ∧ c = Some b
    ∧ layer surface (Qz (VolumetricTerrain.chunkY t) + Qn y) b.
Proof.
  unfold VolumetricTerrain.fillCell. cbv zeta.
  destruct (item2 (VolumetricTerrain.heightMap t) _ _) as [surface|]; [|discriminate].
  cbn [mbind option_bind].
  destruct (item2 biomeNoise _ _) as [biomeValue|]; [|discriminate].
  cbn [mbind option_bind].
  set (wh := (Qz (VolumetricTerrain.chunkY t) + Qn y)%Q).
  destruct (Qleb wh surface) eqn:Hle.
  - apply Qleb_le in Hle.
    destruct (item3 densityNoise _ _ _) as [densityValue|]; [|discriminate].
    cbn [mbind option_bind].
    destruct (Qeq_bool (surface - wh) 0) eqn:Htop.
    + apply Qeq_bool_iff in Htop.
      destruct (Qltb wh 35) eqn:H35.
      * apply Qltb_lt in H35. intros [= <-]. exists surface, SAND. cbn. repeat split; lra.
      * apply Qltb_ge in H35. destruct (Qltb 65 wh) eqn:H65.
        -- apply Qltb_lt in H65. intros [= <-]. exists surface, SNOW. cbn. repeat split; lra.
        -- apply Qltb_ge in H65. intros [= <-]. exists surface, GRASS. cbn. repeat split; lra.
    + apply Qeq_bool_neq in Htop.
      assert (Hlt : (wh < surface)%Q).
      { apply Qnot_le_lt. intros Hge. apply Htop. lra. }
      destruct (Qltb (surface - wh) _).
      * destruct (Qltb wh 35) eqn:H35.
        -- apply Qltb_lt in H35. intros [= <-]. exists surface, SAND. cbn. repeat split; lra.
        -- apply Qltb_ge in H35. intros [= <-]. exists surface, DIRT. cbn. repeat split; lra.
      * intros [= <-]. exists surface, STONE. cbn. repeat split; lra.
  - apply Qleb_gt in Hle. destruct (Qltb wh 35) eqn:H35.
    + apply Qltb_lt in H35. intros [= <-]. exists surface, WATER. cbn. repeat split; lra.
    + apply Qltb_ge in H35. intros [= <-]. exists surface, AIR.
      split; [reflexivity|]. split; [reflexivity|]. cbn. left. split; lra.
Qed.

(** The cave stage writes air and lava five cells or more below the
    surface, lava below height 12. *)
Lemma carveCell_layered (t : VolumetricTerrain.t)
    (caveNoise detailNoise : list (list (list Q))) (random : RandomSource) (n x y z : nat)
    (st st' : list (list (list cell)) * nat) :
  layered (VolumetricTerrain.heightMap t) (VolumetricTerrain.chunkY t) n st.1 →
  VolumetricTerrain.carveCell t caveNoise detailNoise random x y z st = Some st' →
  layered (VolumetricTerrain.heightMap t) (VolumetricTerrain.chunkY t) n st'.1.
Proof.
  destruct st as [blocks k]. cbn [fst]. intros Hl.
  unfold VolumetricTerrain.carveCell. cbv zeta.
  set (wh := (Qz (VolumetricTerrain.chunkY t) + Qn y)%Q).
  destruct (item2 (VolumetricTerrain.heightMap t) _ _) as [surface|] eqn:Hs; [|discriminate].
  cbn [mbind option_bind].
  destruct (Qltb (surface - 5) wh) eqn:Hdeep; [now intros [= <-]|].
  apply Qltb_ge in Hdeep.
  destruct (Qltb wh 37 && Qltb 25 wh); [now intros [= <-]|].
  destruct (item3 caveNoise _ _ _); [|discriminate]. cbn [mbind option_bind].
  destruct (item3 detailNoise _ _ _); [|discriminate]. cbn [mbind option_bind].
  destruct (item3 blocks _ _ _) as [current|]; [|discriminate]. cbn [mbind option_bind].
  destruct (_ && negb _); [|now intros [= <-]].
  assert (Hair : layered (VolumetricTerrain.heightMap t) (VolumetricTerrain.chunkY t) n
                   (store3 blocks x y z (Some AIR))).
  { apply (layered_store3 _ _ _ _ _ _ _ surface AIR Hl Hs). cbn. right. fold wh. lra. }
  destruct (Qltb wh 12) eqn:H12; cbn [andb]; [|now intros [= <-]].
  apply Qltb_lt in H12.
  destruct (_ && bool_decide _); [|now intros [= <-]].
  destruct (Qltb (random k) 0.3); [|now intros [= <-]].
  intros [= <-]. cbn [fst].
  apply (layered_store3 _ _ _ _ _ _ _ surface LAVA Hair Hs). cbn. fold wh. split; lra.
Qed.

(** The ore stage writes each ore no nearer to the surface than its
    depth bound. *)
Lemma oreCell_layered (t : VolumetricTerrain.t) (random : RandomSource) (n x y z : nat)
    (st st' : list (list (list cell)) * nat) :
  layered (VolumetricTerrain.heightMap t) (VolumetricTerrain.chunkY t) n st.1 →
  VolumetricTerrain.oreCell t random x y z st = Some st' →
  layered (VolumetricTerrain.heightMap t) (VolumetricTerrain.chunkY t) n st'.1.
Proof.
  destruct st as [blocks k]. cbn [fst]. intros Hl.
  unfold VolumetricTerrain.oreCell. cbv zeta.
  set (wh := (Qz (VolumetricTerrain.chunkY t) + Qn y)%Q).
  destruct (item3 blocks _ _ _) as [current|]; [|discriminate]. cbn [mbind option_bind].
  destruct (negb _); [now intros [= <-]|].
  destruct (Qltb 0.05 (random k)); [now intros [= <-]|].
  destruct (item2 (VolumetricTerrain.heightMap t) _ _) as [surface|] eqn:Hs; [|discriminate].
  cbn [mbind option_bind].
  destruct (Qltb (surface - wh) 5) eqn:Hdepth; [now intros [= <-]|].
  apply Qltb_ge in Hdepth.
  destruct (Qltb (random (S k)) 0.5).
  { intros [= <-]. cbn [fst]. apply (layered_store3 _ _ _ _ _ _ _ surface COAL Hl Hs).
    cbn. fold wh. lra. }
  destruct (Qltb (random (S k)) 0.8); cbn [andb].
  - destruct (Qltb 10 (surface - wh)) eqn:H10.
    { apply Qltb_lt in H10. intros [= <-]. cbn [fst].
      apply (layered_store3 _ _ _ _ _ _ _ surface IRON Hl Hs). cbn. fold wh. lra. }
    destruct (Qltb (random (S k)) 0.95); cbn [andb].
    + destruct (Qltb 25 (surface - wh)) eqn:H25.
      { apply Qltb_lt in H25. intros [= <-]. cbn [fst].
        apply (layered_store3 _ _ _ _ _ _ _ surface GOLD Hl Hs). cbn. fold wh. lra. }
      destruct (Qltb 40 (surface - wh)) eqn:H40; [|now intros [= <-]].
      apply Qltb_lt in H40. intros [= <-]. cbn [fst].
      apply (layered_store3 _ _ _ _ _ _ _ surface DIAMOND Hl Hs). cbn. fold wh. lra.
    + destruct (Qltb 40 (surface - wh)) eqn:H40; [|now intros [= <-]].
      apply Qltb_lt in H40. intros [= <-]. cbn [fst].
      apply (layered_store3 _ _ _ _ _ _ _ surface DIAMOND Hl Hs). cbn. fold wh. lra.
  - destruct (Qltb (random (S k)) 0.95); cbn [andb].
    + destruct (Qltb 25 (surface - wh)) eqn:H25.
      { apply Qltb_lt in H25. intros [= <-]. cbn [fst].
        apply (layered_store3 _ _ _ _ _ _ _ surface GOLD Hl Hs). cbn. fold wh. lra. }
      destruct (Qltb 40 (surface - wh)) eqn:H40; [|now intros [= <-]].
      apply Qltb_lt in H40. intros [= <-]. cbn [fst].
      apply (layered_store3 _ _ _ _ _ _ _ surface DIAMOND Hl Hs). cbn. fold wh. lra.
    + destruct (Qltb 40 (surface - wh)) eqn:H40; [|now intros [= <-]].
      apply Qltb_lt in H40. intros [= <-]. cbn [fst].
      apply (layered_store3 _ _ _ _ _ _ _ surface DIAMOND Hl Hs). cbn. fold wh. lra.
Qed.

Lemma generateVolumetricBlocks_layered (t : VolumetricTerrain.t)
    (blocks : list (list (list cell))) :
  VolumetricTerrain.generateVolumetricBlocks t = Some blocks →
  layered (VolumetricTerrain.heightMap t) (VolumetricTerrain.chunkY t)
    (VolumetricTerrain.size t) blocks.
Proof.
  unfold VolumetricTerrain.generateVolumetricBlocks.
  destruct (VolumetricTerrain.generate2DNoise _ _ _ _ _) as [biomeNoise|];
    cbn [mbind option_bind]; [|discriminate].
  destruct (VolumetricTerrain.generate3DNoise _ _ _ _ _ _) as [densityNoise|];
    cbn [mbind option_bind]; [|discriminate].
  intros Hfill%tabulateM_grid3_inv x y z Hx Hy Hz.
  destruct (grid3_item _ _ _ _ _ x y z Hfill Hx Hy Hz) as (c & Hc & Hcell).
  destruct (fillCell_layer _ _ _ _ _ _ _ Hcell) as (surface & b & Hs & -> & Hb).
  now exists surface, b.
Qed.

(** The fill stage completes on a terrain that has cells and a height
    map. *)
Lemma generateVolumetricBlocks_total (t : VolumetricTerrain.t) :
  (0 < VolumetricTerrain.size t)%nat →
  grid2 (VolumetricTerrain.size t) (VolumetricTerrain.size t) (λ _ _ _, True)
    (VolumetricTerrain.heightMap t) →
  is_Some (VolumetricTerrain.generateVolumetricBlocks t).
Proof.
  intros Hn Hh. unfold VolumetricTerrain.generateVolumetricBlocks.
  destruct (biomeNoise_unit (VolumetricTerrain.size t)
              (VolumetricTerrain.seed t +:+ "-biome")) as (biomeNoise & -> & Hbiome).
  cbn [mbind option_bind].
  destruct (generate3DNoise_shape (VolumetricTerrain.size t)
              VolumetricTerrain.SURFACE_DETAIL_SCALE
              (VolumetricTerrain.seed t +:+ "-density") 2 Hn) as (densityNoise & -> & Hdensity).
  cbn [mbind option_bind].
  destruct (tabulateM_grid3 (VolumetricTerrain.size t) (VolumetricTerrain.size t)
              (VolumetricTerrain.size t)
              (VolumetricTerrain.fillCell t biomeNoise densityNoise) (λ _ _ _ _, True))
    as (blocks & Hblocks & _); [|exists blocks; exact Hblocks].
  intros x y z Hx Hy Hz. unfold VolumetricTerrain.fillCell. cbv zeta.
  destruct (grid2_item _ _ _ _ x z Hh Hx Hz) as (surface & -> & _).
  destruct (grid2_item _ _ _ _ x z Hbiome Hx Hz) as (biomeValue & -> & _).
  destruct (grid3_item _ _ _ _ _ x y z Hdensity Hx Hy Hz) as (densityValue & -> & _).
  cbn [mbind option_bind].
  repeat match goal with |- context [if ?c then _ else _] => destruct c end; eauto.
Qed.

Lemma generateCaves_layered (t t' : VolumetricTerrain.t) (random : RandomSource)
    (k k' : nat) :
  layered (VolumetricTerrain.heightMap t) (VolumetricTerrain.chunkY t)
    (VolumetricTerrain.size t) (VolumetricTerrain.blockData t) →
  VolumetricTerrain.generateCaves t random k = Some (t', k') →
  layered (VolumetricTerrain.heightMap t') (VolumetricTerrain.chunkY t')
    (VolumetricTerrain.size t') (VolumetricTerrain.blockData t').
Proof.
  intros Hl. unfold VolumetricTerrain.generateCaves.
  destruct (negb _); [now intros [= <- _]|].
  destruct (VolumetricTerrain.generate3DNoise _ _ _ VolumetricTerrain.CAVE_SCALE _ _)
    as [caveNoise|]; cbn [mbind option_bind]; [|discriminate].
  destruct (VolumetricTerrain.generate3DNoise _ _ _ _ _ _)
    as [detailNoise|]; cbn [mbind option_bind]; [|discriminate].
  destruct (VolumetricTerrain.carveCaves _ _ _ _ _) as [[blocks k1]|] eqn:Hrun;
    cbn [mbind option_bind]; [|discriminate].
  intros [= <- _]. cbn. unfold VolumetricTerrain.carveCaves in Hrun.
  exact (scan_invariant
    (λ st, layered (VolumetricTerrain.heightMap t) (VolumetricTerrain.chunkY t)
             (VolumetricTerrain.size t) st.1) _ _
    (VolumetricTerrain.blockData t, k) (blocks, k1)
    (λ x y z s1 s2, carveCell_layered t caveNoise detailNoise random _ x y z s1 s2) Hl Hrun).
Qed.

Lemma generateOreDeposits_layered (t t' : VolumetricTerrain.t) (random : RandomSource)
    (k k' : nat) :
  layered (VolumetricTerrain.heightMap t) (VolumetricTerrain.chunkY t)
    (VolumetricTerrain.size t) (VolumetricTerrain.blockData t) →
  VolumetricTerrain.generateOreDeposits t random k = Some (t', k') →
  layered (VolumetricTerrain.heightMap t') (VolumetricTerrain.chunkY t')
    (VolumetricTerrain.size t') (VolumetricTerrain.blockData t').
Proof.
  intros Hl. unfold VolumetricTerrain.generateOreDeposits.
  destruct (for_loop _ _ _) as [[blocks k1]|] eqn:Hrun;
    cbn [mbind option_bind]; [|discriminate].
  intros [= <- _]. cbn.
  exact (scan_invariant
    (λ st, layered (VolumetricTerrain.heightMap t) (VolumetricTerrain.chunkY t)
             (VolumetricTerrain.size t) st.1) _ _
    (VolumetricTerrain.blockData t, k) (blocks, k1)
    (λ x y z s1 s2, oreCell_layered t random _ x y z s1 s2) Hl Hrun).
Qed.

(** The frame of the constructed terrain and its layers. *)
Lemma new_layered (chunkX chunkZ : Z) (size : nat) (random : RandomSource) (k : nat) :
  let t := (VolumetricTerrain.new chunkX chunkZ size random k).1 in
  layered (VolumetricTerrain.heightMap t) (VolumetricTerrain.chunkY t)
    (VolumetricTerrain.size t) (VolumetricTerrain.blockData t)
  ∧ VolumetricTerrain.size t = size ∧ VolumetricTerrain.chunkY t = 0
  ∧ VolumetricTerrain.chunkX t = chunkX ∧ VolumetricTerrain.chunkZ t = chunkZ.
Proof.
  cbv zeta. unfold VolumetricTerrain.new, VolumetricTerrain.generateTerrain.
  cbn [VolumetricTerrain.size VolumetricTerrain.seed].
  destruct (surface_heights_between size (pretty chunkX +:+ "," +:+ pretty chunkZ))
    as (heightMap & -> & Hheights).
  set (t1 := VolumetricTerrain.with_heightMap _ heightMap).
  assert (Hh : grid2 size size (λ _ _ _, True) heightMap).
  { revert Hheights. apply grid2_weaken. trivial. }
  destruct (VolumetricTerrain.generateVolumetricBlocks t1) as [blocks|] eqn:Hfill.
  - apply generateVolumetricBlocks_layered in Hfill.
    set (t2 := VolumetricTerrain.with_blockData t1 blocks).
    assert (Ht2 : layered (VolumetricTerrain.heightMap t2) (VolumetricTerrain.chunkY t2)
                    (VolumetricTerrain.size t2) (VolumetricTerrain.blockData t2)
                  ∧ VolumetricTerrain.size t2 = size ∧ VolumetricTerrain.chunkY t2 = 0
                  ∧ VolumetricTerrain.chunkX t2 = chunkX
                  ∧ VolumetricTerrain.chunkZ t2 = chunkZ)
      by (split; [exact Hfill | repeat split]).
    destruct (VolumetricTerrain.generateCaves t2 random k) as [[t3 k3]|] eqn:Hc; [|exact Ht2].
    assert (Ht3 : layered (VolumetricTerrain.heightMap t3) (VolumetricTerrain.chunkY t3)
                    (VolumetricTerrain.size t3) (VolumetricTerrain.blockData t3)
                  ∧ VolumetricTerrain.size t3 = size ∧ VolumetricTerrain.chunkY t3 = 0
                  ∧ VolumetricTerrain.chunkX t3 = chunkX
                  ∧ VolumetricTerrain.chunkZ t3 = chunkZ).
    { split; [exact (generateCaves_layered _ _ _ _ _ (proj1 Ht2) Hc)|].
      apply generateCaves_frame in Hc. destruct Hc as (_ & HX & HY & HZ & Hsz & _).
      rewrite Hsz, HX, HY, HZ. exact (proj2 Ht2). }
    destruct (VolumetricTerrain.generateOreDeposits t3 random k3) as [[t4 k4]|] eqn:Ho;
      [|exact Ht3].
    cbn [fst]. split; [exact (generateOreDeposits_layered _ _ _ _ _ (proj1 Ht3) Ho)|].
    apply generateOreDeposits_frame in Ho. destruct Ho as (_ & HX & HY & HZ & Hsz & _).
    rewrite Hsz, HX, HY, HZ. exact (proj2 Ht3).
  - cbn [fst]. split; [|repeat split].
    intros x y z Hx Hy Hz. exfalso.
    destruct (generateVolumetricBlocks_total t1) as [blocks Hblocks].
    + unfold t1 in Hx |- *. cbn in Hx |- *. lia.
    + exact Hh.
    + congruence.
Qed.

Lemma layer_same_height (surface wh wh' : Q) (b : BlockType) :
  (wh == wh')%Q → layer surface wh b → layer surface wh' b.
Proof.
  intros Heq. destruct b; cbn; try tauto; intros H; lra.
Qed.

(** The queries at the world position of a cell read the cell. *)
Lemma terrain_queries_at_cell (t : VolumetricTerrain.t) (x y z : nat) (worldY : Q) :
  (x < VolumetricTerrain.size t)%nat → (y < VolumetricTerrain.size t)%nat →
  (z < VolumetricTerrain.size t)%nat →
  (worldY == Qz (VolumetricTerrain.chunkY t) + Qn y)%Q →
  let worldX := (Qz (VolumetricTerrain.chunkX t) - Qn (VolumetricTerrain.size t) / 2 + Qn x)%Q in
  let worldZ := (Qz (VolumetricTerrain.chunkZ t) - Qn (VolumetricTerrain.size t) / 2 + Qn z)%Q in
  VolumetricTerrain.getHeightAt t worldX worldZ
  = item2 (VolumetricTerrain.heightMap t) (Z.of_nat x) (Z.of_nat z)
  ∧ VolumetricTerrain.getBlockAt t worldX worldY worldZ
    = item3 (VolumetricTerrain.blockData t) (Z.of_nat x) (Z.of_nat y) (Z.of_nat z)
  ∧ localCell t worldX worldY worldZ = (Z.of_nat x, Z.of_nat y, Z.of_nat z).
Proof.
  intros Hx Hy Hz HY. cbv zeta.
  assert (Hfloor : ∀ (o : Q) (k : nat), Qfloor (o + Qn k - o) = Z.of_nat k).
  { intros o k. apply Qfloor_unique; unfold Qn; lra. }
  assert (HfloorY : Qfloor (worldY - Qz (VolumetricTerrain.chunkY t)) = Z.of_nat y).
  { apply Qfloor_unique; unfold Qn in *; lra. }
  unfold VolumetricTerrain.getHeightAt, VolumetricTerrain.getBlockAt, localCell. cbv zeta.
  rewrite !Hfloor, HfloorY.
  destruct (Z.leb_spec 0 (Z.of_nat x)); [|lia].
  destruct (Z.ltb_spec (Z.of_nat x) (Z.of_nat (VolumetricTerrain.size t))); [|lia].
  destruct (Z.leb_spec 0 (Z.of_nat y)); [|lia].
  destruct (Z.ltb_spec (Z.of_nat y) (Z.of_nat (VolumetricTerrain.size t))); [|lia].
  destruct (Z.leb_spec 0 (Z.of_nat z)); [|lia].
  destruct (Z.ltb_spec (Z.of_nat z) (Z.of_nat (VolumetricTerrain.size t))); [|lia].
  cbn [andb]. repeat split.
Qed.

Lemma new_cell (chunkX chunkZ : Z) (size : nat) (random : RandomSource) (k : nat)
    (x y z : nat) :
  let t := (VolumetricTerrain.new chunkX chunkZ size random k).1 in
  (x < size)%nat → (y < size)%nat → (z < size)%nat →
  ∃ surface b,
    VolumetricTerrain.getHeightAt t
      (Qz chunkX - Qn size / 2 + Qn x) (Qz chunkZ - Qn size / 2 + Qn z) = Some surface
    ∧ VolumetricTerrain.getBlockAt t
        (Qz chunkX - Qn size / 2 + Qn x) (Qn y) (Qz chunkZ - Qn size / 2 + Qn z)
      = Some (Some b)
    ∧ layer surface (Qn y) b.
Proof.
  intros t Hx Hy Hz.
  destruct (new_layered chunkX chunkZ size random k) as (Hl & Hsize & HY & HX & HZ).
  fold t in Hl, Hsize, HY, HX, HZ. rewrite <- Hsize in Hx, Hy, Hz.
  destruct (Hl x y z Hx Hy Hz) as (surface & b & Hs & Hb & Hlayer).
  destruct (terrain_queries_at_cell t x y z (Qn y) Hx Hy Hz) as (Hheight & Hblock & _).
  { rewrite HY. unfold Qz. change (inject_Z 0) with 0%Q. lra. }
  rewrite HX, HZ, Hsize in Hheight, Hblock.
  exists surface, b. split; [now rewrite Hheight|]. split; [now rewrite Hblock|].
  apply (layer_same_height surface (Qz (VolumetricTerrain.chunkY t) + Qn y)); [|exact Hlayer].
  rewrite HY. unfold Qz. change (inject_Z 0) with 0%Q. lra.
Qed.

(** X9.  Whatever [Math.random] returns, every cell of a constructed
    volumetric terrain holds a block (no [null] is left) and the block is
    in the layer of its type: water only above the surface and below
    height 35, grass and snow only on the surface, dirt and stone only
    below it, air either above the surface or five cells or more below it,
    coal from depth 5, iron deeper than 10, gold deeper than 25, diamond
    deeper than 40, lava from depth 5 and below height 12; wood and
    leaves are never generated. *)
Theorem constructed_terrain_is_layered (chunkX chunkZ : Z) (size : nat)
    (random : RandomSource) (k : nat) (x y z : nat) :
  let t := (VolumetricTerrain.new chunkX chunkZ size random k).1 in
  (x < size)%nat → (y < size)%nat → (z < size)%nat →
  ∃ surface b,
    VolumetricTerrain.getHeightAt t
      (Qz chunkX - Qn size / 2 + Qn x) (Qz chunkZ - Qn size / 2 + Qn z) = Some surface
    ∧ VolumetricTerrain.getBlockAt t
        (Qz chunkX - Qn size / 2 + Qn x) (Qn y) (Qz chunkZ - Qn size / 2 + Qn z)
      = Some (Some b)
    ∧ layer surface (Qn y) b.
Proof. exact (new_cell chunkX chunkZ size random k x y z). Qed.

Lemma constructed_terrain_is_layered_witness :
  ∃ surface b,
    VolumetricTerrain.getHeightAt (VolumetricTerrain.new 0 0 16 (λ _, 0.5%Q) 0).1
      (Qz 0 - Qn 16 / 2 + Qn 3) (Qz 0 - Qn 16 / 2 + Qn 7) = Some surface
    ∧ VolumetricTerrain.getBlockAt (VolumetricTerrain.new 0 0 16 (λ _, 0.5%Q) 0).1
        (Qz 0 - Qn 16 / 2 + Qn 3) (Qn 5) (Qz 0 - Qn 16 / 2 + Qn 7) = Some (Some b)
    ∧ layer surface (Qn 5) b.
Proof. apply (constructed_terrain_is_layered 0 0 16 (λ _, 0.5%Q) 0 3 5 7); lia. Defined.



(** ** Interpolation at the grid points *)

Lemma grid_point_fraction (i : nat) :
  Qfloor (Qn i) = Z.of_nat i ∧ (Qn i - Qz (Qfloor (Qn i)) == 0)%Q.
Proof.
  unfold Qn. rewrite Qfloor_Z. split; [reflexivity|]. unfold Qz. ring.
Qed.

Lemma smoothStep_0 (t : Q) : (t == 0)%Q → (VolumetricTerrain.smoothStep t == 0)%Q.
Proof. intros Ht. unfold VolumetricTerrain.smoothStep. rewrite Ht. ring. Qed.

Lemma next_index (i n : nat) :
  (i < n)%nat → 0 <= Z.min (Z.of_nat i + 1) (Z.of_nat n - 1) < Z.of_nat n.
Proof. lia. Qed.

Lemma volumetric_bilinear_at_grid_point (n m : nat) (grid : list (list Q)) (i j : nat) :
  grid2 n m (λ _ _ _, True) grid → (i < n)%nat → (j < m)%nat →
  ∃ r v, VolumetricTerrain.bilinearInterpolation grid (Qn i) (Qn j) = Some r
         ∧ item2 grid (Z.of_nat i) (Z.of_nat j) = Some v ∧ (r == v)%Q.
Proof.
  intros Hg Hi Hj. unfold VolumetricTerrain.bilinearInterpolation. cbv zeta.
  destruct (grid2_first_row _ _ _ _ Hg ltac:(lia)) as (row0 & Hrow0 & Hlen0).
  rewrite Hrow0. cbn [mbind option_bind]. rewrite Hlen0, (vec_length _ _ _ Hg).
  destruct (grid_point_fraction i) as [Hfi Hxi]. destruct (grid_point_fraction j) as [Hfj Hxj].
  apply smoothStep_0 in Hxi, Hxj. revert Hxi Hxj. rewrite Hfi, Hfj.
  set (wx := VolumetricTerrain.smoothStep _). set (wz := VolumetricTerrain.smoothStep _).
  intros Hwx Hwz.
  destruct (grid2_item _ _ _ _ i j Hg Hi Hj) as [c11 [-> _]].
  destruct (grid2_item_Z _ _ _ _ _ (Z.of_nat j) Hg (next_index i n Hi) ltac:(lia)) as [c21 [-> _]].
  destruct (grid2_item_Z _ _ _ _ (Z.of_nat i) _ Hg ltac:(lia) (next_index j m Hj)) as [c12 [-> _]].
  destruct (grid2_item_Z _ _ _ _ _ _ Hg (next_index i n Hi) (next_index j m Hj)) as [c22 [-> _]].
  cbn [mbind option_bind]. eexists. exists c11. split; [reflexivity|]. split; [reflexivity|].
  unfold VolumetricTerrain.lerp. rewrite Hwx, Hwz. ring.
Qed.

Lemma chunk_bilinear_at_grid_point (n m : nat) (grid : list (list Q)) (i j : nat) :
  grid2 n m (λ _ _ _, True) grid → (i < n)%nat → (j < m)%nat →
  ∃ r v, Chunk.bilinearInterpolation grid (Qn i) (Qn j) = Some r
         ∧ item2 grid (Z.of_nat i) (Z.of_nat j) = Some v ∧ (r == v)%Q.
Proof.
  intros Hg Hi Hj. unfold Chunk.bilinearInterpolation. cbv zeta.
  destruct (grid2_first_row _ _ _ _ Hg ltac:(lia)) as (row0 & Hrow0 & Hlen0).
  rewrite Hrow0. cbn [mbind option_bind]. rewrite Hlen0, (vec_length _ _ _ Hg).
  destruct (grid_point_fraction i) as [Hfi Hxi]. destruct (grid_point_fraction j) as [Hfj Hxj].
  revert Hxi Hxj. rewrite Hfi, Hfj.
  set (fx := (Qn i - _)%Q). set (fz := (Qn j - _)%Q). intros Hfx Hfz.
  destruct (grid2_item _ _ _ _ i j Hg Hi Hj) as [c11 [-> _]].
  destruct (grid2_item_Z _ _ _ _ _ (Z.of_nat j) Hg (next_index i n Hi) ltac:(lia)) as [c21 [-> _]].
  destruct (grid2_item_Z _ _ _ _ (Z.of_nat i) _ Hg ltac:(lia) (next_index j m Hj)) as [c12 [-> _]].
  destruct (grid2_item_Z _ _ _ _ _ _ Hg (next_index i n Hi) (next_index j m Hj)) as [c22 [-> _]].
  cbn [mbind option_bind]. eexists. exists c11. split; [reflexivity|]. split; [reflexivity|].
  unfold Chunk.lerp. rewrite Hfx, Hfz. ring.
Qed.

Lemma trilinear_at_grid_point (n m p : nat) (grid : list (list (list Q))) (i j k : nat) :
  grid3 n m p (λ _ _ _ _, True) grid → (i < n)%nat → (j < m)%nat → (k < p)%nat →
  ∃ r v, VolumetricTerrain.trilinearInterpolation grid (Qn i) (Qn j) (Qn k) = Some r
         ∧ item3 grid (Z.of_nat i) (Z.of_nat j) (Z.of_nat k) = Some v ∧ (r == v)%Q.
Proof.
  intros Hg Hi Hj Hk. unfold VolumetricTerrain.trilinearInterpolation. cbv zeta.
  destruct (grid3_first_row _ _ _ _ _ Hg ltac:(lia) ltac:(lia))
    as (plane0 & row0 & Hplane0 & Hlen0 & Hrow0 & Hlen1).
  rewrite Hplane0. cbn [mbind option_bind]. rewrite Hrow0. cbn [mbind option_bind].
  rewrite Hlen0, Hlen1, (vec_length _ _ _ Hg).
  destruct (grid_point_fraction i) as [Hfi Hxi]. destruct (grid_point_fraction j) as [Hfj Hxj].
  destruct (grid_point_fraction k) as [Hfk Hxk].
  apply smoothStep_0 in Hxi, Hxj, Hxk. revert Hxi Hxj Hxk. rewrite Hfi, Hfj, Hfk.
  set (wx := VolumetricTerrain.smoothStep _). set (wy := VolumetricTerrain.smoothStep _).
  set (wz := VolumetricTerrain.smoothStep _). intros Hwx Hwy Hwz.
  pose proof (next_index i n Hi) as Hi2. pose proof (next_index j m Hj) as Hj2.
  pose proof (next_index k p Hk) as Hk2.
  assert (Hi1 : 0 <= Z.of_nat i < Z.of_nat n) by lia.
  assert (Hj1 : 0 <= Z.of_nat j < Z.of_nat m) by lia.
  assert (Hk1 : 0 <= Z.of_nat k < Z.of_nat p) by lia.
  destruct (grid3_item_Z _ _ _ _ _ _ _ _ Hg Hi1 Hj1 Hk1) as [c000 [-> _]].
  destruct (grid3_item_Z _ _ _ _ _ _ _ _ Hg Hi2 Hj1 Hk1) as [c100 [-> _]].
  destruct (grid3_item_Z _ _ _ _ _ _ _ _ Hg Hi1 Hj2 Hk1) as [c010 [-> _]].
  destruct (grid3_item_Z _ _ _ _ _ _ _ _ Hg Hi2 Hj2 Hk1) as [c110 [-> _]].
  destruct (grid3_item_Z _ _ _ _ _ _ _ _ Hg Hi1 Hj1 Hk2) as [c001 [-> _]].
  destruct (grid3_item_Z _ _ _ _ _ _ _ _ Hg Hi2 Hj1 Hk2) as [c101 [-> _]].
  destruct (grid3_item_Z _ _ _ _ _ _ _ _ Hg Hi1 Hj2 Hk2) as [c011 [-> _]].
  destruct (grid3_item_Z _ _ _ _ _ _ _ _ Hg Hi2 Hj2 Hk2) as [c111 [-> _]].
  cbn [mbind option_bind]. eexists. exists c000. split; [reflexivity|]. split; [reflexivity|].
  unfold VolumetricTerrain.lerp. rewrite Hwx, Hwy, Hwz. ring.
Qed.

(** X11.  The interpolations pass through the grid: at whole
    coordinates inside the grid, the bilinear sampler of the height-field
    chunk, the bilinear and the trilinear sampler of the volumetric
    terrain return the value of the grid at those coordinates (on the last
    row and column as well, where the upper corner is clamped). *)
Theorem interpolation_passes_through_the_grid :
  (∀ (n m : nat) (grid : list (list Q)) (i j : nat),
     grid2 n m (λ _ _ _, True) grid → (i < n)%nat → (j < m)%nat →
     ∃ r v, Chunk.bilinearInterpolation grid (Qn i) (Qn j) = Some r
            ∧ item2 grid (Z.of_nat i) (Z.of_nat j) = Some v ∧ (r == v)%Q)
  ∧ (∀ (n m : nat) (grid : list (list Q)) (i j : nat),
       grid2 n m (λ _ _ _, True) grid → (i < n)%nat → (j < m)%nat →
       ∃ r v, VolumetricTerrain.bilinearInterpolation grid (Qn i) (Qn j) = Some r
              ∧ item2 grid (Z.of_nat i) (Z.of_nat j) = Some v ∧ (r == v)%Q)
  ∧ (∀ (n m p : nat) (grid : list (list (list Q))) (i j k : nat),
       grid3 n m p (λ _ _ _ _, True) grid → (i < n)%nat → (j < m)%nat → (k < p)%nat →
       ∃ r v, VolumetricTerrain.trilinearInterpolation grid (Qn i) (Qn j) (Qn k) = Some r
              ∧ item3 grid (Z.of_nat i) (Z.of_nat j) (Z.of_nat k) = Some v ∧ (r == v)%Q).
Proof.
  split; [|split].
  - apply chunk_bilinear_at_grid_point.
  - apply volumetric_bilinear_at_grid_point.
  - apply trilinear_at_grid_point.
Qed.

(** X12.  The samplers of the volumetric terrain never overshoot: at
    coordinates within the grid the interpolated value exists and lies
    between any two bounds that enclose the values of the grid. *)
Theorem interpolation_stays_within_the_grid_values :
  (∀ (n m : nat) (lo hi : Q) (grid : list (list Q)) (x z : Q),
     grid2 n m (λ _ _ v, lo <= v ∧ v <= hi)%Q grid → (0 < n)%nat → (0 < m)%nat →
     (0 <= x)%Q → (x <= Qn n - 1)%Q → (0 <= z)%Q → (z <= Qn m - 1)%Q →
     ∃ v, VolumetricTerrain.bilinearInterpolation grid x z = Some v ∧ (lo <= v ∧ v <= hi)%Q)
  ∧ (∀ (n m p : nat) (lo hi : Q) (grid : list (list (list Q))) (x y z : Q),
       grid3 n m p (λ _ _ _ v, lo <= v ∧ v <= hi)%Q grid →
       (0 < n)%nat → (0 < m)%nat → (0 < p)%nat →
       (0 <= x)%Q → (x <= Qn n - 1)%Q → (0 <= y)%Q → (y <= Qn m - 1)%Q →
       (0 <= z)%Q → (z <= Qn p - 1)%Q →
       ∃ v, VolumetricTerrain.trilinearInterpolation grid x y z = Some v
            ∧ (lo <= v ∧ v <= hi)%Q).
Proof. split; [apply bilinear_between | apply trilinear_between]. Qed.

Lemma interpolation_passes_through_the_grid_witness :
  (∃ r, Chunk.bilinearInterpolation [[1; 2]; [3; 4]]%Q (Qn 1) (Qn 1) = Some r ∧ (r == 4)%Q)
  ∧ (∃ r, VolumetricTerrain.bilinearInterpolation [[1; 2]; [3; 4]]%Q (Qn 1) (Qn 0) = Some r
          ∧ (r == 3)%Q)
  ∧ (∃ r, VolumetricTerrain.trilinearInterpolation
            [[[1; 2]; [3; 4]]; [[5; 6]; [7; 8]]]%Q (Qn 1) (Qn 0) (Qn 1) = Some r
          ∧ (r == 6)%Q).
Proof.
  assert (Hplane : ∀ a b c d : Q, grid2 2 2 (λ _ _ _, True) [[a; b]; [c; d]]).
  { intros a b c d. split; [reflexivity|]. intros [|[|i]] Hi; try lia;
      (eexists; split; [reflexivity|]; split; [reflexivity|];
       intros [|[|j]] Hj; try lia; eexists; split; reflexivity || exact I). }
  assert (Hvolume : grid3 2 2 2 (λ _ _ _ _, True) [[[1; 2]; [3; 4]]; [[5; 6]; [7; 8]]]%Q).
  { split; [reflexivity|]. intros [|[|i]] Hi; try lia;
      (eexists; split; [reflexivity | apply Hplane]). }
  destruct interpolation_passes_through_the_grid as (Hc & Hv & Ht).
  split; [|split].
  - destruct (Hc 2 2 _ 1 1 (Hplane 1 2 3 4)%Q)%nat as (r & v & Hr & Hget & Heq); [lia | lia|].
    injection Hget as <-. now exists r.
  - destruct (Hv 2 2 _ 1 0 (Hplane 1 2 3 4)%Q)%nat as (r & v & Hr & Hget & Heq); [lia | lia|].
    injection Hget as <-. now exists r.
  - destruct (Ht 2 2 2 _ 1 0 1 Hvolume)%nat as (r & v & Hr & Hget & Heq); [lia | lia | lia|].
    injection Hget as <-. now exists r.
Defined.

Lemma interpolation_stays_within_the_grid_values_witness :
  (∃ v, VolumetricTerrain.bilinearInterpolation [[0; 1]; [1; 0]]%Q (1 # 2) (1 # 3) = Some v
        ∧ (0 <= v ∧ v <= 1)%Q)
  ∧ (∃ v, VolumetricTerrain.trilinearInterpolation
            [[[0; 1]; [1; 0]]; [[1; 0]; [0; 1]]]%Q (1 # 2) (1 # 3) (1 # 5) = Some v
          ∧ (0 <= v ∧ v <= 1)%Q).
Proof.
  assert (Hplane : ∀ a b c d : Q,
            (0 <= a <= 1 → 0 <= b <= 1 → 0 <= c <= 1 → 0 <= d <= 1 →
             grid2 2 2 (λ _ _ v, 0 <= v ∧ v <= 1) [[a; b]; [c; d]])%Q).
  { intros a b c d Ha Hb Hc Hd. split; [reflexivity|]. intros [|[|i]] Hi; try lia;
      (eexists; split; [reflexivity|]; split; [reflexivity|];
       intros [|[|j]] Hj; try lia; eexists; split; reflexivity || assumption). }
  assert (H0 : (0 <= 0 <= 1)%Q) by (split; discriminate).
  assert (H1 : (0 <= 1 <= 1)%Q) by (split; discriminate).
  assert (Hvolume : grid3 2 2 2 (λ _ _ _ v, 0 <= v ∧ v <= 1)%Q
                      [[[0; 1]; [1; 0]]; [[1; 0]; [0; 1]]]%Q).
  { split; [reflexivity|]. intros [|[|i]] Hi; try lia;
      (eexists; split; [reflexivity | now apply Hplane]). }
  destruct interpolation_stays_within_the_grid_values as (Hb & Ht).
  split.
  - apply (Hb 2%nat 2%nat 0%Q 1%Q _ (1 # 2)%Q (1 # 3)%Q (Hplane _ _ _ _ H0 H1 H1 H0));
      try lia; vm_compute; congruence.
  - apply (Ht 2%nat 2%nat 2%nat 0%Q 1%Q _ (1 # 2)%Q (1 # 3)%Q (1 # 5)%Q Hvolume);
      try lia; vm_compute; congruence.
Defined.

(** ** The easing curve *)

(** X13.  The weight curve [smoothStep] of the volumetric samplers
    eases from 0 to 1: it fixes 0, 1/2 and 1, it is symmetric about the
    middle ([smoothStep (1 - t) = 1 - smoothStep t]), and on [[0, 1]] it
    is monotone and stays within [[0, 1]]. *)
Theorem smoothStep_eases (a b : Q) :
  (VolumetricTerrain.smoothStep 0 == 0)%Q
  ∧ (VolumetricTerrain.smoothStep (1 # 2) == 1 # 2)%Q
  ∧ (VolumetricTerrain.smoothStep 1 == 1)%Q
  ∧ (VolumetricTerrain.smoothStep (1 - a) == 1 - VolumetricTerrain.smoothStep a)%Q
  ∧ ((0 <= a)%Q → (a <= b)%Q → (b <= 1)%Q →
     (0 <= VolumetricTerrain.smoothStep a)%Q
     ∧ (VolumetricTerrain.smoothStep a <= VolumetricTerrain.smoothStep b)%Q
     ∧ (VolumetricTerrain.smoothStep b <= 1)%Q).
Proof.
  split; [reflexivity|]. split; [reflexivity|]. split; [reflexivity|].
  split; [unfold VolumetricTerrain.smoothStep; ring|].
  intros Ha Hab Hb.
  destruct (smoothStep_unit a Ha ltac:(lra)) as [Ha0 _].
  destruct (smoothStep_unit b ltac:(lra) Hb) as [_ Hb1].
  split; [exact Ha0|]. split; [|exact Hb1].
  unfold VolumetricTerrain.smoothStep.
  assert (Hdiff : (b * b * (3 - 2 * b) - a * a * (3 - 2 * a)
                   == (b - a) * (3 * (a + b) - 2 * (a * a + a * b + b * b)))%Q) by ring.
  assert (Hfactor : (0 <= 3 * (a + b) - 2 * (a * a + a * b + b * b))%Q).
  { assert (a * a <= a)%Q by nra. assert (b * b <= b)%Q by nra.
    assert (a * b <= a)%Q by nra. assert (a * b <= b)%Q by nra. lra. }
  assert (0 <= (b - a) * (3 * (a + b) - 2 * (a * a + a * b + b * b)))%Q
    by (apply Qmult_le_0_compat; lra).
  lra.
Qed.

Lemma smoothStep_eases_witness :
  (0 <= VolumetricTerrain.smoothStep (1 # 4))%Q
  ∧ (VolumetricTerrain.smoothStep (1 # 4) <= VolumetricTerrain.smoothStep (3 # 4))%Q
  ∧ (VolumetricTerrain.smoothStep (3 # 4) <= 1)%Q.
Proof.
  destruct (smoothStep_eases (1 # 4) (3 # 4)) as (_ & _ & _ & _ & H).
  apply H; discriminate.
Defined.

(** ** The seeded generator *)

(** X14.  Whatever the seed string and however many numbers were drawn
    before, a draw of the seeded generator returns a number in
    [[0, 1)] and leaves a state that is a 32-bit integer; the white-noise
    grids built from it have the requested dimensions and entries in
    [[0, 1)]. *)
Theorem seeded_draws_are_unit (seed : string) (state : Z) (size : nat) :
  (-2147483648 <= VolumetricTerrain.createRNG seed < 2147483648)
  ∧ (0 <= (VolumetricTerrain.rng state).1 ∧ (VolumetricTerrain.rng state).1 < 1)%Q
  ∧ (-2147483648 <= (VolumetricTerrain.rng state).2 < 2147483648)
  ∧ grid2 size size (λ _ _ v, 0 <= v ∧ v < 1)%Q
      (VolumetricTerrain.generateWhiteNoiseGrid size seed)
  ∧ grid3 size size size (λ _ _ _ v, 0 <= v ∧ v < 1)%Q
      (VolumetricTerrain.generate3DNoiseGrid size seed).
Proof.
  assert (Hint : ∀ n, -2147483648 <= toInt32 n < 2147483648).
  { intros n. unfold toInt32.
    pose proof (Z.mod_pos_bound (n + 2147483648) 4294967296 ltac:(lia)). lia. }
  split; [apply Hint|]. split; [apply rng_unit|]. split; [apply Hint|].
  split; [apply generateWhiteNoiseGrid_unit | apply generate3DNoiseGrid_unit].
Qed.

(** ** The instance buffers of the volumetric chunk *)










(** ** Edits through the chunk *)

Lemma in_chunk_test_false (t : VolumetricTerrain.t) (x y z : Z) :
  ¬ in_chunk t (x, y, z) →
  (0 <=? x) && (x <? Z.of_nat (VolumetricTerrain.size t)) &&
  (0 <=? y) && (y <? Z.of_nat (VolumetricTerrain.size t)) &&
  (0 <=? z) && (z <? Z.of_nat (VolumetricTerrain.size t)) = false.
Proof.
  intros Hout. apply not_true_is_false. intros Hin. apply Hout.
  repeat rewrite andb_true_iff in Hin. unfold in_chunk. cbn [fst snd]. lia.
Qed.

(** X16.  An edit is read back: after [setBlockAt] at a position inside
    a chunk whose terrain has its arrays, the call has returned [true],
    [getBlockAt] at that position returns the type written, [isSolid]
    there is true exactly when the type is none of air, water and lava,
    and [getBlockAt] at a position of any other cell returns what it
    returned before. *)
Theorem setBlockAt_is_read_back (c : VolumetricChunk.t) (worldX worldY worldZ : Q)
    (blockType : BlockType) :
  let t := VolumetricChunk.terrain c in
  well_formed t → in_chunk t (localCell t worldX worldY worldZ) →
  ∃ c', VolumetricChunk.setBlockAt c worldX worldY worldZ blockType = (true, c')
    ∧ VolumetricChunk.getBlockAt c' worldX worldY worldZ = Some blockType
    ∧ VolumetricChunk.isSolid c' worldX worldY worldZ
      = negb (bool_decide (blockType ∈ [AIR; WATER; LAVA]))
    ∧ ∀ x y z, localCell t x y z ≠ localCell t worldX worldY worldZ →
        VolumetricChunk.getBlockAt c' x y z = VolumetricChunk.getBlockAt c x y z.
Proof.
  intros t Hwf Hin.
  pose proof (terrain_setBlockAt_in_chunk t worldX worldY worldZ blockType Hwf Hin) as Hset.
  cbv zeta in Hset.
  destruct (localCell t worldX worldY worldZ) as [[px py] pz] eqn:Hp.
  unfold in_chunk in Hin. cbn [fst snd] in Hin, Hset.
  set (t' := VolumetricTerrain.with_blockData t _) in Hset.
  unfold VolumetricChunk.setBlockAt. fold t. rewrite Hset.
  eexists. split; [reflexivity|].
  assert (Hterrain : VolumetricChunk.terrain
            (VolumetricChunk.generateCubes (VolumetricChunk.with_terrain c t')) = t').
  { unfold VolumetricChunk.generateCubes, VolumetricChunk.with_terrain.
    cbn [VolumetricChunk.terrain]. now destruct (VolumetricTerrain.extractBlocks t'). }
  assert (Hread : ∀ x y z,
            VolumetricTerrain.getBlockAt t' x y z
            = if decide (localCell t x y z = (px, py, pz)) then Some (Some blockType)
              else VolumetricTerrain.getBlockAt t x y z).
  { intros x y z. unfold VolumetricTerrain.getBlockAt, localCell. cbv zeta.
    change (VolumetricTerrain.chunkX t') with (VolumetricTerrain.chunkX t).
    change (VolumetricTerrain.chunkY t') with (VolumetricTerrain.chunkY t).
    change (VolumetricTerrain.chunkZ t') with (VolumetricTerrain.chunkZ t).
    change (VolumetricTerrain.size t') with (VolumetricTerrain.size t).
    set (lx := Qfloor (x - _)). set (ly := Qfloor (y - _)). set (lz := Qfloor (z - _)).
    destruct (decide ((lx, ly, lz) = (px, py, pz))) as [[= -> -> ->]|Hne].
    - rewrite (in_chunk_bounds t px py pz) by (unfold in_chunk; cbn [fst snd]; lia).
      subst t'. cbn [VolumetricTerrain.blockData VolumetricTerrain.with_blockData].
      destruct Hwf as [_ Hb].
      pose proof (item3_store3_eq _ _ _ _ _ (Z.to_nat px) (Z.to_nat py) (Z.to_nat pz)
                    (Some blockType) Hb ltac:(lia) ltac:(lia) ltac:(lia)) as Hcell.
      rewrite !Z2Nat.id in Hcell by lia. exact Hcell.
    - destruct (_ && _ && _ && _ && _ && _); [|reflexivity].
      subst t'. cbn [VolumetricTerrain.blockData VolumetricTerrain.with_blockData].
      apply item3_store3_ne. intros [= H1 H2 H3]. apply Hne.
      rewrite H1, H2, H3, !Z2Nat.id by lia. reflexivity. }
  assert (Hsame : VolumetricChunk.getBlockAt
            (VolumetricChunk.generateCubes (VolumetricChunk.with_terrain c t'))
            worldX worldY worldZ = Some blockType).
  { unfold VolumetricChunk.getBlockAt. rewrite Hterrain, Hread, Hp.
    now rewrite decide_True. }
  split; [exact Hsame|]. split.
  - unfold VolumetricChunk.isSolid. rewrite Hsame. now destruct blockType.
  - intros x y z Hne. unfold VolumetricChunk.getBlockAt. rewrite Hterrain, Hread.
    fold t. now rewrite decide_False.
Qed.

Lemma setBlockAt_is_read_back_witness :
  ∃ c', VolumetricChunk.setBlockAt (chunkOfTerrain (uniformTerrain 2 STONE 2)) 0 1 0 WATER
        = (true, c')
    ∧ VolumetricChunk.getBlockAt c' 0 1 0 = Some WATER
    ∧ VolumetricChunk.isSolid c' 0 1 0 = false
    ∧ VolumetricChunk.getBlockAt c' 0 0 0 = Some STONE.
Proof.
  destruct (setBlockAt_is_read_back (chunkOfTerrain (uniformTerrain 2 STONE 2)) 0 1 0 WATER)
    as (c' & Hset & Hget & Hsolid & Hrest).
  - apply uniformTerrain_well_formed.
  - vm_compute. repeat split; discriminate.
  - exists c'. split; [exact Hset|]. split; [exact Hget|]. split; [exact Hsolid|].
    rewrite Hrest; [reflexivity | discriminate].
Defined.

(** X17.  An edit outside the chunk is refused and changes nothing:
    [setBlockAt] at a position outside the cube of the chunk returns
    [false] and leaves the chunk, its terrain and its buffers as they
    were. *)
Theorem setBlockAt_outside_is_refused (c : VolumetricChunk.t) (worldX worldY worldZ : Q)
    (blockType : BlockType) :
  let t := VolumetricChunk.terrain c in
  ¬ in_chunk t (localCell t worldX worldY worldZ) →
  VolumetricChunk.setBlockAt c worldX worldY worldZ blockType = (false, c).
Proof.
  intros t Hout. unfold VolumetricChunk.setBlockAt, VolumetricTerrain.setBlockAt. cbv zeta.
  fold t. unfold localCell in Hout.
  rewrite (in_chunk_test_false t _ _ _ Hout).
  unfold VolumetricChunk.with_terrain. now destruct c.
Qed.

Lemma setBlockAt_outside_is_refused_witness :
  VolumetricChunk.setBlockAt (chunkOfTerrain (uniformTerrain 2 STONE 2)) 0 2 0 AIR
  = (false, chunkOfTerrain (uniformTerrain 2 STONE 2)).
Proof.
  apply (setBlockAt_outside_is_refused (chunkOfTerrain (uniformTerrain 2 STONE 2)) 0 2 0 AIR).
  vm_compute. intros (_ & [_ Hy] & _). discriminate.
Defined.

(** ** Effects of the physics *)

Section PhysicsEffects.
Variables (cos sin sqrt : Q → Q) (PI : Q).

Lemma same_world_refl (s : MinecraftAnimation.t) : same_world s s.
Proof. now repeat split. Qed.

Lemma same_world_trans (s1 s2 s3 : MinecraftAnimation.t) :
  same_world s1 s2 → same_world s2 s3 → same_world s1 s3.
Proof. unfold same_world. intros (-> & -> & -> & ->) (-> & -> & -> & ->). now repeat split. Qed.

Lemma same_column_trans (s1 s2 s3 : MinecraftAnimation.t) :
  same_column s1 s2 → same_column s2 s3 → same_column s1 s3.
Proof. unfold same_column. intros (-> & ->) (-> & ->). now split. Qed.

Lemma moveVertically_effect (s : MinecraftAnimation.t) (playerHeight : Q) :
  let s' := MinecraftAnimation.moveVertically cos sin PI s playerHeight in
  same_world s s' ∧ same_column s s' ∧ same_or_stopped s s'.
Proof.
  cbv zeta. unfold MinecraftAnimation.moveVertically. cbv zeta.
  destruct (MinecraftAnimation.sweep _ _ _ _ _) as [finalY collided].
  destruct (MinecraftAnimation.getRobustTerrainHeightBelow _ _ _ _) as [|h];
    [|destruct (Qltb _ _)]; unfold same_world, same_column, same_or_stopped; cbn;
    repeat split; destruct collided; auto.
Qed.

Lemma settle_effect (s : MinecraftAnimation.t) (playerHeight : Q) :
  let s' := MinecraftAnimation.settle cos sin PI s playerHeight in
  same_world s s' ∧ same_column s s'
  ∧ Vec3.y (MinecraftAnimation.playerVelocity s') = Vec3.y (MinecraftAnimation.playerVelocity s).
Proof.
  cbv zeta. unfold MinecraftAnimation.settle.
  destruct (MinecraftAnimation.isOnGround s); [|now repeat split].
  destruct (MinecraftAnimation.getTerrainHeightBelow _ _ _ _) as [|h]; [now repeat split|].
  destruct (Qltb _ _); now repeat split.
Qed.

Lemma walk_effect (s : MinecraftAnimation.t) (walkDirection : Vec3.t) :
  let s' := MinecraftAnimation.walk cos sin PI s walkDirection in
  same_world s s'
  ∧ Vec3.y (MinecraftAnimation.playerVelocity s') = Vec3.y (MinecraftAnimation.playerVelocity s).
Proof.
  cbv zeta. unfold MinecraftAnimation.walk. cbv zeta.
  repeat match goal with
         | |- context [if ?c then _ else _] => destruct c
         end; now repeat split.
Qed.

Lemma walkAlongEdge_effect (s s' : MinecraftAnimation.t)
    (terrainHeight : MinecraftAnimation.sampled) (playerHeight : Q) (walkDirection : Vec3.t) :
  MinecraftAnimation.walkAlongEdge sqrt s terrainHeight playerHeight walkDirection = Some s' →
  same_world s s'
  ∧ Vec3.y (MinecraftAnimation.playerVelocity s') = Vec3.y (MinecraftAnimation.playerVelocity s).
Proof.
  unfold MinecraftAnimation.walkAlongEdge. cbv zeta.
  destruct (MinecraftAnimation.isOnGround s); [|discriminate].
  destruct (_ && _); [|discriminate].
  destruct (xlt _ _); [|discriminate].
  match goal with
  | |- context [match ?t with _ => _ end] => destruct t as [[safeX safeZ] stillOnGround]
  end.
  intros [= <-]. now repeat split.
Qed.

(** What one step of the physics does to everything but the position. *)
Lemma applyPhysics_effect (s : MinecraftAnimation.t)
    (terrainHeight : MinecraftAnimation.sampled) (playerHeight : Q) (walkDirection : Vec3.t) :
  let s' := MinecraftAnimation.applyPhysics cos sin sqrt PI s terrainHeight playerHeight
              walkDirection in
  let vy := Vec3.y (MinecraftAnimation.playerVelocity s) in
  same_world s s'
  ∧ (Vec3.y (MinecraftAnimation.playerVelocity s') = 0%Q
     ∨ Vec3.y (MinecraftAnimation.playerVelocity s')
       = (Qmax (Qmin vy 20) (- (20)) - MinecraftAnimation.gravity * MinecraftAnimation.deltaTime)%Q)
  ∧ (Qltb 0 (MinecraftAnimation.length sqrt walkDirection) = false → same_column s s').
Proof.
  cbv zeta. unfold MinecraftAnimation.applyPhysics. cbv zeta.
  set (vy := Qmax (Qmin (Vec3.y (MinecraftAnimation.playerVelocity s)) 20) (- (20))).
  set (emergency := match terrainHeight with
                    | MinecraftAnimation.Terrain h => Qltb _ _
                    | MinecraftAnimation.NoTerrain => false end).
  set (grounded := match terrainHeight with
                   | MinecraftAnimation.Terrain h => Qleb _ _
                   | MinecraftAnimation.NoTerrain => false end).
  assert (Hrest : ∀ s1,
    same_world s s1 → same_column s s1 →
    (Vec3.y (MinecraftAnimation.playerVelocity s1) = 0%Q
     ∨ Vec3.y (MinecraftAnimation.playerVelocity s1)
       = (vy - MinecraftAnimation.gravity * MinecraftAnimation.deltaTime)%Q) →
    let s2 := if negb (MinecraftAnimation.isOnGround s1)
                 || Qltb 0 (Vec3.y (MinecraftAnimation.playerVelocity s1))
              then MinecraftAnimation.moveVertically cos sin PI s1 playerHeight else s1 in
    let moved := if Qltb 0 (MinecraftAnimation.length sqrt walkDirection)
                 then match MinecraftAnimation.walkAlongEdge sqrt s2 terrainHeight playerHeight
                              walkDirection with
                      | Some s' => inl s'
                      | None => inr (MinecraftAnimation.walk cos sin PI s2 walkDirection)
                      end
                 else inr s2 in
    let s' := match moved with
              | inl s' => s'
              | inr s3 => MinecraftAnimation.settle cos sin PI s3 playerHeight
              end in
    same_world s s'
    ∧ (Vec3.y (MinecraftAnimation.playerVelocity s') = 0%Q
       ∨ Vec3.y (MinecraftAnimation.playerVelocity s')
         = (vy - MinecraftAnimation.gravity * MinecraftAnimation.deltaTime)%Q)
    ∧ (Qltb 0 (MinecraftAnimation.length sqrt walkDirection) = false → same_column s s')).
  { intros s1 Hw1 Hc1 Hv1. cbv zeta.
    assert (H2 : ∃ s2, (if negb (MinecraftAnimation.isOnGround s1)
                           || Qltb 0 (Vec3.y (MinecraftAnimation.playerVelocity s1))
                        then MinecraftAnimation.moveVertically cos sin PI s1 playerHeight
                        else s1) = s2
                 ∧ same_world s s2 ∧ same_column s s2
                 ∧ (Vec3.y (MinecraftAnimation.playerVelocity s2) = 0%Q
                    ∨ Vec3.y (MinecraftAnimation.playerVelocity s2)
                      = (vy - MinecraftAnimation.gravity * MinecraftAnimation.deltaTime)%Q)).
    { destruct (_ || _); [|now exists s1].
      destruct (moveVertically_effect s1 playerHeight) as (Hw & Hc & Hv).
      eexists. split; [reflexivity|].
      split; [exact (same_world_trans _ _ _ Hw1 Hw)|].
      split; [exact (same_column_trans _ _ _ Hc1 Hc)|].
      destruct Hv as [-> | ->]; [exact Hv1 | now left]. }
    destruct H2 as (s2 & -> & Hw2 & Hc2 & Hv2).
    destruct (Qltb 0 (MinecraftAnimation.length sqrt walkDirection)).
    - destruct (MinecraftAnimation.walkAlongEdge _ _ _ _ _) as [s3|] eqn:Hedge.
      + destruct (walkAlongEdge_effect _ _ _ _ _ Hedge) as (Hw & Hv).
        split; [exact (same_world_trans _ _ _ Hw2 Hw)|]. split; [now rewrite Hv | discriminate].
      + destruct (walk_effect s2 walkDirection) as (Hw & Hv).
        destruct (settle_effect (MinecraftAnimation.walk cos sin PI s2 walkDirection) playerHeight)
          as (Hw' & _ & Hv').
        split; [exact (same_world_trans _ _ _ Hw2 (same_world_trans _ _ _ Hw Hw'))|].
        split; [now rewrite Hv', Hv | discriminate].
    - destruct (settle_effect s2 playerHeight) as (Hw & Hc & Hv).
      split; [exact (same_world_trans _ _ _ Hw2 Hw)|]. split; [now rewrite Hv|].
      intros _. exact (same_column_trans _ _ _ Hc2 Hc). }
  destruct terrainHeight as [|h].
  - apply Hrest; [now repeat split | now split | now right].
  - destruct emergency.
    + split; [now repeat split|]. split; [now left|]. intros _. now split.
    + destruct grounded; apply Hrest; try (now repeat split); try (now split);
        [now left | now right].
Qed.

(** X18.  The physics of a frame moves the player and nothing else: it
    leaves the chunk map, the current chunk key and the horizontal
    velocity as they were, whatever the terrain and the walk input; and
    without walk input it leaves the player over the same point of the
    plane. *)
Theorem physics_moves_only_the_player (s : MinecraftAnimation.t) (walkDirection : Vec3.t) :
  let s' := MinecraftAnimation.physicsTick cos sin sqrt PI s walkDirection in
  MinecraftAnimation.chunks s' = MinecraftAnimation.chunks s
  ∧ MinecraftAnimation.currentChunk s' = MinecraftAnimation.currentChunk s
  ∧ Vec3.x (MinecraftAnimation.playerVelocity s') = Vec3.x (MinecraftAnimation.playerVelocity s)
  ∧ Vec3.z (MinecraftAnimation.playerVelocity s') = Vec3.z (MinecraftAnimation.playerVelocity s)
  ∧ (Qltb 0 (MinecraftAnimation.length sqrt walkDirection) = false →
     Vec3.x (MinecraftAnimation.playerPosition s') = Vec3.x (MinecraftAnimation.playerPosition s)
     ∧ Vec3.z (MinecraftAnimation.playerPosition s')
       = Vec3.z (MinecraftAnimation.playerPosition s)).
Proof.
  cbv zeta. unfold MinecraftAnimation.physicsTick. cbv zeta.
  destruct (applyPhysics_effect s (MinecraftAnimation.getTerrainHeightBelow cos sin PI s)
              2.0%Q walkDirection) as ((Hc & Hk & Hvx & Hvz) & _ & Hcol).
  repeat split; try assumption; now apply Hcol.
Qed.

(** X19.  The vertical speed is capped: after the physics of a frame the
    vertical velocity is 0 or the velocity before, clamped to
    [[-20, 20]], less one frame of gravity; so it always lies between
    [-20.1568] and [19.8432], however fast the player was. *)
Theorem vertical_speed_is_capped (s : MinecraftAnimation.t) (walkDirection : Vec3.t) :
  let s' := MinecraftAnimation.physicsTick cos sin sqrt PI s walkDirection in
  let vy := Vec3.y (MinecraftAnimation.playerVelocity s) in
  let vy' := Vec3.y (MinecraftAnimation.playerVelocity s') in
  (vy' = 0%Q
   ∨ vy' = (Qmax (Qmin vy 20) (- (20))
            - MinecraftAnimation.gravity * MinecraftAnimation.deltaTime)%Q)
  ∧ (-(20.1568) <= vy' ∧ vy' <= 19.8432)%Q.
Proof.
  cbv zeta. unfold MinecraftAnimation.physicsTick. cbv zeta.
  destruct (applyPhysics_effect s (MinecraftAnimation.getTerrainHeightBelow cos sin PI s)
              2.0%Q walkDirection) as (_ & Hv & _).
  split; [exact Hv|].
  assert (Hclamp : (-(20) <= Qmax (Qmin (Vec3.y (MinecraftAnimation.playerVelocity s)) 20)
                               (- (20))
                    ∧ Qmax (Qmin (Vec3.y (MinecraftAnimation.playerVelocity s)) 20) (- (20))
                      <= 20)%Q).
  { split; [apply Q.le_max_r|]. apply Q.max_lub; [apply Q.le_min_r | discriminate]. }
  assert (Hg : (MinecraftAnimation.gravity * MinecraftAnimation.deltaTime == 0.1568)%Q)
    by reflexivity.
  destruct Hv as [-> | ->]; [split; discriminate|].
  rewrite Hg. destruct Hclamp. split; lra.
Qed.
End PhysicsEffects.

Lemma physics_moves_only_the_player_witness :
  let s' := MinecraftAnimation.physicsTick coarseCos coarseSin coarseSqrt coarsePI
              (dropped 10 5 20 5) noWalk in
  Vec3.x (MinecraftAnimation.playerPosition s') = 5%Q
  ∧ Vec3.z (MinecraftAnimation.playerPosition s') = 5%Q.
Proof.
  cbv zeta.
  destruct (physics_moves_only_the_player coarseCos coarseSin coarseSqrt coarsePI
              (dropped 10 5 20 5) noWalk) as (_ & _ & _ & _ & Hcol).
  apply Hcol. reflexivity.
Defined.

(** ** The height sampler of the walk *)

Lemma fold_left_invariant {A B : Type} (P : A → Prop) (f : A → B → A) (l : list B) (acc : A) :
  P acc → (∀ a b, P a → P (f a b)) → P (fold_left f l acc).
Proof.
  intros Hacc Hf. revert acc Hacc. induction l as [|b l IH]; intros acc Hacc; [exact Hacc|].
  cbn [fold_left]. apply IH, Hf, Hacc.
Qed.

(** X20.  The height sampler of the walk never reports the sentinel: for
    every state and position [getTerrainHeightAtPosition] answers
    [-Infinity] or a height of 0 or more, and when the chunk of the
    position is loaded and answers a height of 0 or more, that height is
    the answer. *)
Theorem getTerrainHeightAtPosition_is_a_height (sqrt : Q → Q) (s : MinecraftAnimation.t)
    (x z : Q) :
  match MinecraftAnimation.getTerrainHeightAtPosition sqrt s x z with
  | MinecraftAnimation.Terrain h => (0 <= h)%Q
  | MinecraftAnimation.NoTerrain => True
  end
  ∧ ∀ chunk h,
      MinecraftAnimation.chunks s
        !! MinecraftAnimation.chunkKey (MinecraftAnimation.chunkCoord x)
             (MinecraftAnimation.chunkCoord z) = Some chunk →
      Chunk.getHeightAt chunk x z = Some h → (0 <= h)%Q →
      MinecraftAnimation.getTerrainHeightAtPosition sqrt s x z = MinecraftAnimation.Terrain h.
Proof.
  unfold MinecraftAnimation.getTerrainHeightAtPosition. cbv zeta. split.
  - set (own := match MinecraftAnimation.chunks s !! _ with Some _ => _ | None => None end).
    assert (Hown : ∀ h, own = Some h → (0 <= h)%Q).
    { intros h. unfold own.
      destruct (MinecraftAnimation.chunks s !! _) as [chunk|]; [|discriminate].
      destruct (Chunk.getHeightAt chunk x z) as [h'|]; [|discriminate].
      destruct (Qleb 0 h') eqn:Hh; [|discriminate]. intros [= <-]. now apply Qleb_le. }
    destruct own as [h|]; [now apply Hown|].
    apply (fold_left_invariant
             (λ acc : MinecraftAnimation.sampled * xnum,
                match acc.1 with
                | MinecraftAnimation.Terrain h => (0 <= h)%Q
                | MinecraftAnimation.NoTerrain => True
                end)); [exact I|].
    intros [bestHeight bestDistance] key Hbest. cbn [fst] in Hbest.
    destruct (MinecraftAnimation.chunks s !! key) as [neighborChunk|]; [|exact Hbest].
    cbv zeta. destruct (Chunk.getHeightAt _ _ _) as [height|]; [|exact Hbest].
    destruct (Qleb 0 height) eqn:Hh; [|exact Hbest]. cbn [andb].
    destruct (xlt _ _); [|exact Hbest]. cbn [fst]. now apply Qleb_le.
  - intros chunk h -> -> Hh. now rewrite (proj2 (Qleb_le 0 h) Hh).
Qed.

Lemma getTerrainHeightAtPosition_is_a_height_witness :
  MinecraftAnimation.getTerrainHeightAtPosition coarseSqrt (dropped 10 5 20 5) 5 5
  = MinecraftAnimation.Terrain 10.
Proof.
  destruct (getTerrainHeightAtPosition_is_a_height coarseSqrt (dropped 10 5 20 5) 5 5)
    as [_ Hown].
  apply (Hown (flatChunk 0 0 10)).
  - vm_compute. reflexivity.
  - vm_compute. reflexivity.
  - discriminate.
Defined.

(** ** Collision tests at lower heights *)

Section CollisionMonotone.
Variables (cos sin : Q → Q) (PI : Q).

Lemma existsb_lower {A : Type} (R : A → A → Prop) (f : A → bool) (l' l : list A) :
  Forall2 R l' l → (∀ q' q, R q' q → f q = true → f q' = true) →
  existsb f l = true → existsb f l' = true.
Proof.
  intros Hl Hf. induction Hl as [|q' q l' l Hq _ IH]; [trivial|].
  cbn [existsb]. rewrite !orb_true_iff. intros [H|H]; [left; now apply (Hf q' q) | right; auto].
Qed.

Lemma hits_lower (terrainHeight : option Q) (y' y : Q) :
  (y' <= y)%Q → MinecraftAnimation.hits terrainHeight y = true →
  MinecraftAnimation.hits terrainHeight y' = true.
Proof.
  intros Hy. unfold MinecraftAnimation.hits. destruct terrainHeight as [h|]; [|trivial].
  rewrite !andb_true_iff, !Qleb_le. intros [H0 Hh]. split; [exact H0 | lra].
Qed.

Lemma ring_lower (n : nat) (x y y' z h h' : Q) :
  (h' <= h)%Q →
  Forall2 lower_point
    (MinecraftAnimation.ring cos sin PI n (Vec3.mk x y' z) h')
    (MinecraftAnimation.ring cos sin PI n (Vec3.mk x y z) h).
Proof.
  intros Hh. unfold MinecraftAnimation.ring, tabulate. apply Forall2_fmap.
  apply Forall_Forall2_diag, Forall_forall. intros i _. now repeat split.
Qed.

Lemma interior_lower (x y y' z h h' : Q) :
  (h' <= h)%Q →
  Forall2 lower_point
    (MinecraftAnimation.interior (Vec3.mk x y' z) h')
    (MinecraftAnimation.interior (Vec3.mk x y z) h).
Proof.
  intros Hh. unfold MinecraftAnimation.interior. cbn.
  repeat (constructor; [now repeat split|]). constructor.
Qed.

(** X21.  The collision tests are monotone in height: if the player
    collides with the terrain at a position, it collides at every lower
    position over the same point of the plane; this holds for the three
    tests the physics uses. *)
Theorem collision_is_monotone (s : MinecraftAnimation.t) (x y y' z : Q) :
  (y' <= y)%Q →
  (MinecraftAnimation.checkCollision cos sin PI s (Vec3.mk x y z) = true →
   MinecraftAnimation.checkCollision cos sin PI s (Vec3.mk x y' z) = true)
  ∧ (MinecraftAnimation.checkSimpleCollision cos sin PI s (Vec3.mk x y z) = true →
     MinecraftAnimation.checkSimpleCollision cos sin PI s (Vec3.mk x y' z) = true)
  ∧ (MinecraftAnimation.checkThoroughCollision cos sin PI s (Vec3.mk x y z) = true →
     MinecraftAnimation.checkThoroughCollision cos sin PI s (Vec3.mk x y' z) = true).
Proof.
  intros Hy. split; [|split].
  - unfold MinecraftAnimation.checkCollision. cbv zeta. cbn [Vec3.x Vec3.y Vec3.z].
    apply (existsb_lower lower_point).
    + apply Forall2_app; [constructor; [repeat split; cbn; lra | constructor]|].
      apply Forall2_app; [apply ring_lower; lra|].
      cbn [mbind list_bind]. repeat (apply Forall2_app; [apply ring_lower; lra|]).
      constructor.
    + intros q' q (Hqx & Hqz & Hqy). rewrite Hqx, Hqz.
      destruct (MinecraftAnimation.chunkOf s _ _); [|trivial]. now apply hits_lower.
  - unfold MinecraftAnimation.checkSimpleCollision. cbv zeta. cbn [Vec3.x Vec3.y Vec3.z].
    apply (existsb_lower lower_point).
    + apply Forall2_app; [constructor; [repeat split; cbn; lra | constructor]|].
      unfold tabulate. cbn [seq fmap list_fmap concat app].
      repeat (constructor; [repeat split; cbn; lra|]). constructor.
    + intros q' q (Hqx & Hqz & Hqy). rewrite Hqx, Hqz.
      destruct (MinecraftAnimation.chunkOf s _ _); [|trivial]. now apply hits_lower.
  - unfold MinecraftAnimation.checkThoroughCollision. cbv zeta. cbn [Vec3.x Vec3.y Vec3.z].
    apply (existsb_lower lower_point).
    + apply Forall2_app; [constructor; [repeat split; cbn; lra | constructor]|].
      apply Forall2_app; [apply ring_lower; lra|].
      apply Forall2_app; [apply interior_lower; lra|].
      cbn [mbind list_bind]. repeat (apply Forall2_app; [apply ring_lower; lra|]).
      constructor.
    + intros q' q (Hqx & Hqz & Hqy). rewrite Hqx, Hqz.
      destruct (MinecraftAnimation.chunks s !! _); [now apply hits_lower|].
      rewrite !andb_true_iff, !Qleb_le. intros [H0 Hh]. split; [exact H0 | lra].
Qed.
End CollisionMonotone.

Lemma collision_is_monotone_witness :
  MinecraftAnimation.checkCollision coarseCos coarseSin coarsePI (dropped 10 5 20 5)
    (Vec3.mk 5 12 5) = true
  ∧ MinecraftAnimation.checkCollision coarseCos coarseSin coarsePI (dropped 10 5 20 5)
      (Vec3.mk 5 11 5) = true.
Proof.
  assert (Hhit : MinecraftAnimation.checkCollision coarseCos coarseSin coarsePI
                   (dropped 10 5 20 5) (Vec3.mk 5 12 5) = true)
    by (vm_compute; reflexivity).
  split; [exact Hhit|].
  destruct (collision_is_monotone coarseCos coarseSin coarsePI (dropped 10 5 20 5) 5 12 11 5)
    as (Hc & _ & _); [discriminate|].
  exact (Hc Hhit).
Defined.

(** ** The highest terrain under the player *)

Lemma fold_raise (g : Vec3.t → option Q) (l : list Vec3.t)
    (acc : MinecraftAnimation.sampled) :
  let r := fold_left (λ acc q, MinecraftAnimation.raise acc (g q)) l acc in
  (∀ a, acc = MinecraftAnimation.Terrain a →
     ∃ m, r = MinecraftAnimation.Terrain m ∧ (a <= m)%Q)
  ∧ (∀ q h, q ∈ l → g q = Some h → ∃ m, r = MinecraftAnimation.Terrain m ∧ (h <= m)%Q)
  ∧ (∀ m, r = MinecraftAnimation.Terrain m →
       acc = MinecraftAnimation.Terrain m ∨ ∃ q, q ∈ l ∧ g q = Some m)
  ∧ (r = MinecraftAnimation.NoTerrain →
       acc = MinecraftAnimation.NoTerrain ∧ ∀ q, q ∈ l → g q = None).
Proof.
  cbv zeta. revert acc. induction l as [|p l IH]; intros acc.
  - cbn [fold_left]. split; [|split; [|split]].
    + intros a ->. exists a. split; [reflexivity | apply Qle_refl].
    + intros q h Hq. now apply elem_of_nil in Hq.
    + intros m ->. now left.
    + intros ->. split; [reflexivity|]. intros q Hq. now apply elem_of_nil in Hq.
  - cbn [fold_left]. destruct (IH (MinecraftAnimation.raise acc (g p))) as (H1 & H2 & H3 & H4).
    assert (Hstep : ∀ a, acc = MinecraftAnimation.Terrain a →
              ∃ b, MinecraftAnimation.raise acc (g p) = MinecraftAnimation.Terrain b
                   ∧ (a <= b)%Q).
    { intros a ->. unfold MinecraftAnimation.raise. destruct (g p) as [h|].
      - cbn. destruct (Qltb a h) eqn:Hah.
        + apply Qltb_lt in Hah. exists h. split; [reflexivity | lra].
        + exists a. split; [reflexivity | apply Qle_refl].
      - exists a. split; [reflexivity | apply Qle_refl]. }
    assert (Hnew : ∀ h, g p = Some h →
              ∃ b, MinecraftAnimation.raise acc (g p) = MinecraftAnimation.Terrain b
                   ∧ (h <= b)%Q).
    { intros h ->. unfold MinecraftAnimation.raise. destruct acc as [|a]; cbn.
      - exists h. split; [reflexivity | apply Qle_refl].
      - destruct (Qltb a h) eqn:Hah.
        + exists h. split; [reflexivity | apply Qle_refl].
        + apply Qltb_ge in Hah. exists a. split; [reflexivity | exact Hah]. }
    assert (Hfrom : ∀ b, MinecraftAnimation.raise acc (g p) = MinecraftAnimation.Terrain b →
              acc = MinecraftAnimation.Terrain b ∨ g p = Some b).
    { intros b. unfold MinecraftAnimation.raise. destruct (g p) as [h|]; [|now left].
      destruct (xlt _ _); [intros [= <-]; now right | now left]. }
    split; [|split; [|split]].
    + intros a Ha. destruct (Hstep a Ha) as (b & Hb & Hab).
      destruct (H1 b Hb) as (m & Hm & Hbm). exists m. split; [exact Hm | lra].
    + intros q h Hq Hg. apply elem_of_cons in Hq as [->|Hq]; [|now apply (H2 q h)].
      destruct (Hnew h Hg) as (b & Hb & Hhb).
      destruct (H1 b Hb) as (m & Hm & Hbm). exists m. split; [exact Hm | lra].
    + intros m Hm. destruct (H3 m Hm) as [Hacc|(q & Hq & Hg)].
      * destruct (Hfrom m Hacc) as [?|Hg]; [now left|].
        right. exists p. split; [now left | exact Hg].
      * right. exists q. split; [now right | exact Hg].
    + intros Hr. destruct (H4 Hr) as [Hacc Hnone].
      assert (Hp : acc = MinecraftAnimation.NoTerrain ∧ g p = None).
      { revert Hacc. unfold MinecraftAnimation.raise. destruct (g p) as [h|]; [|now split].
        destruct acc as [|a]; cbn; [discriminate|]. now destruct (Qltb a h). }
      split; [exact (proj1 Hp)|]. intros q Hq.
      apply elem_of_cons in Hq as [->|Hq]; [exact (proj2 Hp) | now apply Hnone].
Qed.

Lemma fold_left_same {A B : Type} (f g : A → B → A) (l : list B) (acc : A) :
  (∀ a b, f a b = g a b) → fold_left f l acc = fold_left g l acc.
Proof.
  intros Hfg. revert acc. induction l as [|b l IH]; intros acc; [reflexivity|].
  cbn [fold_left]. now rewrite Hfg, IH.
Qed.

(** X22.  [getTerrainHeightBelow] returns the highest of the heights the
    loaded chunks report at its thirteen sample points (the centre of the
    player and twelve points of its rim): it is at least each of them, it
    is one of them, and it is [-Infinity] exactly when no sample point
    lies in a loaded chunk. *)
Theorem getTerrainHeightBelow_is_the_highest_sample (cos sin : Q → Q) (PI : Q)
    (s : MinecraftAnimation.t) :
  let r := MinecraftAnimation.getTerrainHeightBelow cos sin PI s in
  (∀ q h, q ∈ pointsBelow cos sin PI s → heightAtPoint s q = Some h →
     ∃ m, r = MinecraftAnimation.Terrain m ∧ (h <= m)%Q)
  ∧ (∀ m, r = MinecraftAnimation.Terrain m →
       ∃ q, q ∈ pointsBelow cos sin PI s ∧ heightAtPoint s q = Some m)
  ∧ (r = MinecraftAnimation.NoTerrain ↔
       ∀ q, q ∈ pointsBelow cos sin PI s → heightAtPoint s q = None).
Proof.
  cbv zeta.
  assert (Hfold : MinecraftAnimation.getTerrainHeightBelow cos sin PI s
                  = fold_left (λ acc q, MinecraftAnimation.raise acc (heightAtPoint s q))
                      (pointsBelow cos sin PI s) MinecraftAnimation.NoTerrain).
  { unfold MinecraftAnimation.getTerrainHeightBelow, pointsBelow. cbv zeta.
    apply fold_left_same. intros acc q. unfold heightAtPoint.
    now destruct (MinecraftAnimation.chunkOf s _ _). }
  rewrite Hfold.
  destruct (fold_raise (heightAtPoint s) (pointsBelow cos sin PI s)
              MinecraftAnimation.NoTerrain) as (_ & H2 & H3 & H4).
  split; [exact H2|]. split.
  - intros m Hm. destruct (H3 m Hm) as [Hacc|Hq]; [discriminate | exact Hq].
  - split; [intros Hr; now apply H4|].
    intros Hnone.
    destruct (fold_left _ _ _) as [|m] eqn:Hr; [reflexivity|].
    destruct (H3 m eq_refl) as [Hacc|(q & Hq & Hg)]; [discriminate|].
    rewrite (Hnone q Hq) in Hg. discriminate.
Qed.

Lemma getTerrainHeightBelow_is_the_highest_sample_witness :
  ∃ m, MinecraftAnimation.getTerrainHeightBelow coarseCos coarseSin coarsePI
         (dropped 10 5 20 5) = MinecraftAnimation.Terrain m
       ∧ (10 <= m)%Q.
Proof.
  destruct (getTerrainHeightBelow_is_the_highest_sample coarseCos coarseSin coarsePI
              (dropped 10 5 20 5)) as (Hmax & _ & _).
  apply (Hmax (Vec3.mk 5 0 5) 10%Q).
  - unfold pointsBelow. cbv zeta. apply elem_of_app. left. apply list_elem_of_singleton.
    reflexivity.
  - vm_compute. reflexivity.
Defined.

(** ** Reset *)

Section ResetFacts.
Context {RandState : Type}.
Variable Rand : string → RandState.
Variable next : RandState → Q * RandState.

(** X23.  [reset] is a fresh start: whatever the state it is called in,
    it completes and returns the state the constructor builds, with the
    player at rest in the air at [(0, 100, 0)], the current chunk
    ["0,0"], and exactly the nine chunks of the grid around the origin
    loaded. *)
Theorem reset_is_a_fresh_start (s : MinecraftAnimation.t) :
  ∃ s', MinecraftAnimation.reset Rand next s = Some s'
    ∧ MinecraftAnimation.generateInitialChunks Rand next MinecraftAnimation.initial = Some s'
    ∧ MinecraftAnimation.playerPosition s' = Vec3.mk 0 100 0
    ∧ MinecraftAnimation.playerVelocity s' = Vec3.mk 0 0 0
    ∧ MinecraftAnimation.isOnGround s' = false
    ∧ MinecraftAnimation.currentChunk s' = MinecraftAnimation.chunkKey 0 0
    ∧ dom (MinecraftAnimation.chunks s') = list_to_set (MinecraftAnimation.gridKeys 0 0).
Proof.
  destruct (generateInitialChunks_total Rand next MinecraftAnimation.initial) as [s' Hs'].
  exists s'. split; [exact Hs'|]. split; [exact Hs'|].
  destruct (generateInitialChunks_keys Rand next MinecraftAnimation.initial s' eq_refl Hs')
    as (Hpos & Hkey & Hdom).
  unfold playerChunkKeys in Hdom. rewrite Hpos in Hkey, Hdom.
  assert (Hzero : MinecraftAnimation.chunkCoord 0 = 0) by (vm_compute; reflexivity).
  cbn [MinecraftAnimation.playerPosition MinecraftAnimation.initial Vec3.x Vec3.z] in Hkey, Hdom.
  rewrite Hzero in Hkey, Hdom.
  split; [exact Hpos|].
  unfold MinecraftAnimation.generateInitialChunks in Hs'.
  destruct (MinecraftAnimation.createMissing _ _ _ _ _) as [chunks|];
    cbn [mbind option_bind] in Hs'; [|discriminate].
  injection Hs' as <-. now repeat split.
Qed.
End ResetFacts.

(** ** The day and night cycle *)

Section SkyFacts.
Variables (cos sin : Q → Q) (PI : Q).

Lemma blend_colour (lo hi blend : Q) :
  (lo <= hi → 0 <= blend →
   lo <= hi * blend + lo * (1 - blend)
   ∧ (blend <= 1 → hi * blend + lo * (1 - blend) <= hi))%Q.
Proof.
  intros Hlh Hb.
  assert (Heq : (hi * blend + lo * (1 - blend) == lo + (hi - lo) * blend)%Q) by ring.
  assert (0 <= (hi - lo) * blend)%Q by (apply Qmult_le_0_compat; lra).
  split; [lra|]. intros Hb1.
  assert (0 <= (hi - lo) * (1 - blend))%Q by (apply Qmult_le_0_compat; lra).
  assert (Heq' : (hi - (lo + (hi - lo) * blend) == (hi - lo) * (1 - blend))%Q) by ring.
  lra.
Qed.

Lemma updateDayNightCycle_time (s : DayNight.t) :
  (0 <= DayNight.timeOfDay s → DayNight.timeOfDay s <= 1 →
   0 <= DayNight.cycleSpeed s → DayNight.cycleSpeed s <= 1 →
   0 <= DayNight.timeOfDay (DayNight.updateDayNightCycle cos sin PI s)
   ∧ DayNight.timeOfDay (DayNight.updateDayNightCycle cos sin PI s) <= 1)%Q.
Proof.
  intros Ht0 Ht1 Hs0 Hs1. unfold DayNight.updateDayNightCycle. cbv zeta.
  cbn [DayNight.timeOfDay].
  destruct (Qltb 1.0 _) eqn:Hwrap.
  - apply Qltb_lt in Hwrap. split; lra.
  - apply Qltb_ge in Hwrap. split; lra.
Qed.

(** X24.  The day and night cycle stays in range: from a time of day in
    [[0, 1]] and a cycle speed in [[0, 1]], any number of frames leaves
    the time of day in [[0, 1]] and the speed as it was; after each frame
    the sun is at depth 100 with fourth component 1 and the sky is opaque
    and never darker than the night colour, and never lighter than the
    day colour when the sine is at most 1; and [adjustCycleSpeed] never
    makes the speed negative. *)
Theorem day_night_cycle_stays_in_range (n : nat) (s : DayNight.t) (delta : Q) :
  (0 <= DayNight.timeOfDay s)%Q → (DayNight.timeOfDay s <= 1)%Q →
  (0 <= DayNight.cycleSpeed s)%Q → (DayNight.cycleSpeed s <= 1)%Q →
  let s' := Nat.iter n (DayNight.updateDayNightCycle cos sin PI) s in
  let sky := DayNight.backgroundColor (DayNight.updateDayNightCycle cos sin PI s') in
  let sun := DayNight.lightPosition (DayNight.updateDayNightCycle cos sin PI s') in
  (0 <= DayNight.timeOfDay s' ∧ DayNight.timeOfDay s' <= 1)%Q
  ∧ DayNight.cycleSpeed s' = DayNight.cycleSpeed s
  ∧ (Vec4.z sun == 100 ∧ Vec4.w sun == 1)%Q
  ∧ (0.05 <= Vec4.x sky ∧ 0.02 <= Vec4.y sky ∧ 0.1 <= Vec4.z sky ∧ Vec4.w sky == 1)%Q
  ∧ ((∀ a, sin a <= 1)%Q →
     between_colours (Vec4.mk 0.05 0.02 0.1 1.0) (Vec4.mk 0.5 0.8 1.0 1.0) sky)
  ∧ (0 <= DayNight.cycleSpeed (DayNight.adjustCycleSpeed s' delta))%Q.
Proof.
  intros Ht0 Ht1 Hs0 Hs1. cbv zeta.
  assert (Hiter : (0 <= DayNight.timeOfDay (Nat.iter n (DayNight.updateDayNightCycle cos sin PI) s)
                   ∧ DayNight.timeOfDay (Nat.iter n (DayNight.updateDayNightCycle cos sin PI) s) <= 1)%Q
                  ∧ DayNight.cycleSpeed (Nat.iter n (DayNight.updateDayNightCycle cos sin PI) s)
                    = DayNight.cycleSpeed s).
  { induction n as [|n [[IH0 IH1] IHs]]; [now repeat split|].
    rewrite Nat.iter_succ. split.
    - apply updateDayNightCycle_time; try assumption; rewrite IHs; assumption.
    - exact IHs. }
  destruct Hiter as [Htime Hspeed].
  set (s' := Nat.iter n (DayNight.updateDayNightCycle cos sin PI) s) in *. clearbody s'.
  split; [exact Htime|]. split; [exact Hspeed|].
  unfold DayNight.updateDayNightCycle. cbv zeta.
  cbn [DayNight.backgroundColor DayNight.lightPosition Vec4.x Vec4.y Vec4.z Vec4.w].
  set (blend := Qmax 0 (sin _)).
  assert (Hblend : (0 <= blend)%Q) by apply Q.le_max_l.
  destruct (blend_colour 0.05 0.5 blend ltac:(discriminate) Hblend) as [Hx0 Hx1].
  destruct (blend_colour 0.02 0.8 blend ltac:(discriminate) Hblend) as [Hy0 Hy1].
  destruct (blend_colour 0.1 1.0 blend ltac:(discriminate) Hblend) as [Hz0 Hz1].
  split; [split; reflexivity|].
  split; [repeat split; try assumption; reflexivity|].
  split.
  - intros Hsin.
    assert (Hb1 : (blend <= 1)%Q) by (apply Q.max_lub; [discriminate | apply Hsin]).
    unfold between_colours. cbn [Vec4.x Vec4.y Vec4.z Vec4.w].
    repeat split; try assumption; try (now apply Hx1); try (now apply Hy1);
      try (now apply Hz1); reflexivity.
  - unfold DayNight.adjustCycleSpeed. cbn [DayNight.cycleSpeed].
    apply Qle_trans with 0.0%Q; [discriminate | apply Q.le_max_l].
Qed.
End SkyFacts.

Lemma day_night_cycle_stays_in_range_witness :
  let s' := Nat.iter 100 (DayNight.updateDayNightCycle coarseCos coarseSin coarsePI)
              DayNight.initial in
  (0 <= DayNight.timeOfDay s' ∧ DayNight.timeOfDay s' <= 1)%Q
  ∧ DayNight.cycleSpeed s' = 0.01%Q.
Proof.
  cbv zeta.
  destruct (day_night_cycle_stays_in_range coarseCos coarseSin coarsePI 100
              DayNight.initial 0) as (Htime & Hspeed & _); try discriminate.
  split; [exact Htime | exact Hspeed].
Defined.

Lemma reset_is_a_fresh_start_witness :
  ∃ s', MinecraftAnimation.reset neutralRand neutralNext (dropped 10 5 20 5) = Some s'
    ∧ MinecraftAnimation.playerPosition s' = Vec3.mk 0 100 0.
Proof.
  destruct (reset_is_a_fresh_start neutralRand neutralNext (dropped 10 5 20 5))
    as (s' & Hs' & _ & Hpos & _).
  exists s'. split; [exact Hs' | exact Hpos].
Defined.

(** ** Standing on flat ground *)

(** X25.  Over the near half of the square its chunk key names, on flat
    ground of height [H], a player without walk input never sinks into the
    ground: after any number of frames the feet are at [H] or above and
    the player is over the same ground, and from the first frame on the
    player is flagged on the ground only at rest at [H + 2], the height of
    the player above the ground. *)
Theorem feet_stay_on_flat_ground (cos sin sqrt : Q → Q) (PI : Q) (H : Q)
    (s : MinecraftAnimation.t) (n : nat) :
  (∀ a, (-1 <= cos a ∧ cos a <= 1)%Q) → (∀ a, (-1 <= sin a ∧ sin a <= 1)%Q) →
  (sqrt 0 == 0)%Q →
  over_flat_ground H s →
  (H <= Vec3.y (MinecraftAnimation.playerPosition s) - 2)%Q →
  let s' := ticks cos sin sqrt PI n s in
  over_flat_ground H s'
  ∧ (H <= Vec3.y (MinecraftAnimation.playerPosition s') - 2)%Q
  ∧ ((1 <= n)%nat → MinecraftAnimation.isOnGround s' = true →
     (Vec3.y (MinecraftAnimation.playerPosition s') == H + 2)%Q
     ∧ (Vec3.y (MinecraftAnimation.playerVelocity s') == 0)%Q).
Proof.
  intros Hcos Hsin Hsqrt Hs Habove. cbv zeta.
  destruct (ticks_flat cos sin sqrt PI Hcos Hsin Hsqrt H n s Hs Habove) as [Hflat Hfeet].
  split; [exact Hflat|]. split; [exact Hfeet|].
  intros Hn. destruct n as [|n]; [lia|]. rewrite ticks_step.
  destruct (ticks_flat cos sin sqrt PI Hcos Hsin Hsqrt H n s Hs Habove) as [H1 H2].
  destruct (physicsTick_flat cos sin sqrt PI Hcos Hsin Hsqrt H _ H1 H2) as (_ & _ & Hlanded).
  exact Hlanded.
Qed.

Lemma feet_stay_on_flat_ground_witness :
  let s' := ticks coarseCos coarseSin coarseSqrt coarsePI 1 (dropped 10 5 (1201 # 100) 5) in
  MinecraftAnimation.isOnGround s' = true
  ∧ (Vec3.y (MinecraftAnimation.playerPosition s') == 10 + 2)%Q
  ∧ (Vec3.y (MinecraftAnimation.playerVelocity s') == 0)%Q.
Proof.
  cbv zeta. destruct coarse_bounds as (Hcos & Hsin & Hsqrt).
  assert (Hground : MinecraftAnimation.isOnGround
                      (ticks coarseCos coarseSin coarseSqrt coarsePI 1
                         (dropped 10 5 (1201 # 100) 5)) = true)
    by (vm_compute; reflexivity).
  split; [exact Hground|].
  destruct (feet_stay_on_flat_ground coarseCos coarseSin coarseSqrt coarsePI 10
              (dropped 10 5 (1201 # 100) 5) 1 Hcos Hsin Hsqrt) as (_ & _ & Hlanded).
  - split; [|repeat split; discriminate].
    exists (flatChunk 0 0 10). split; [vm_compute; reflexivity|]. now repeat split.
  - vm_compute. discriminate.
  - apply Hlanded; [lia | exact Hground].
Defined.

(** ** Heights and the random source *)

(** X26.  The surface of a volumetric terrain does not depend on
    [Math.random]: two constructions of the terrain of one chunk, whatever
    numbers [Math.random] hands to each, have the same height map and
    answer every height query alike (the block grids may differ). *)
Theorem surface_ignores_the_random_source (chunkX chunkZ : Z) (size : nat)
    (random random' : RandomSource) (k k' : nat) (worldX worldZ : Q) :
  let t := (VolumetricTerrain.new chunkX chunkZ size random k).1 in
  let t' := (VolumetricTerrain.new chunkX chunkZ size random' k').1 in
  VolumetricTerrain.heightMap t = VolumetricTerrain.heightMap t'
  ∧ VolumetricTerrain.getHeightAt t worldX worldZ
    = VolumetricTerrain.getHeightAt t' worldX worldZ
  ∧ VolumetricChunk.getHeightAt (VolumetricChunk.new chunkX chunkZ size random k).1
      worldX worldZ
    = VolumetricChunk.getHeightAt (VolumetricChunk.new chunkX chunkZ size random' k').1
        worldX worldZ.
Proof.
  cbv zeta.
  assert (Hmap : VolumetricTerrain.heightMap (VolumetricTerrain.new chunkX chunkZ size random k).1
                 = VolumetricTerrain.heightMap
                     (VolumetricTerrain.new chunkX chunkZ size random' k').1).
  { pose proof (new_heightMap chunkX chunkZ size random k) as H1.
    pose proof (new_heightMap chunkX chunkZ size random' k') as H2.
    rewrite <- H2 in H1. now injection H1. }
  assert (Hget : VolumetricTerrain.getHeightAt
                   (VolumetricTerrain.new chunkX chunkZ size random k).1 worldX worldZ
                 = VolumetricTerrain.getHeightAt
                     (VolumetricTerrain.new chunkX chunkZ size random' k').1 worldX worldZ).
  { destruct (new_layered chunkX chunkZ size random k) as (_ & Hs & _ & HX & HZ).
    destruct (new_layered chunkX chunkZ size random' k') as (_ & Hs' & _ & HX' & HZ').
    unfold VolumetricTerrain.getHeightAt. cbv zeta.
    now rewrite Hs, HX, HZ, Hs', HX', HZ', Hmap. }
  split; [exact Hmap|]. split; [exact Hget|].
  unfold VolumetricChunk.getHeightAt, VolumetricChunk.new.
  destruct (VolumetricTerrain.new chunkX chunkZ size random k) as [t k1].
  destruct (VolumetricTerrain.new chunkX chunkZ size random' k') as [t' k1'].
  cbn [fst] in *. unfold VolumetricChunk.generateCubes. cbn [VolumetricChunk.terrain].
  assert (Hterrain : ∀ u : VolumetricTerrain.t,
            VolumetricChunk.terrain
              match VolumetricTerrain.extractBlocks u with
              | Some blocks =>
                  VolumetricChunk.mk (length blocks) (VolumetricChunk.positionsOf blocks)
                    (VolumetricChunk.typesOf blocks) u chunkX chunkZ size
              | None => VolumetricChunk.mk 0 [] [] u chunkX chunkZ size
              end = u).
  { intros u. now destruct (VolumetricTerrain.extractBlocks u). }
  now rewrite !Hterrain, Hget.
Qed.
